(* ===== verification/_CoqProject ===== *)
-Q . S2P
Prelude.v
Kernel.v
KState.v
Fiber.v
Device.v
FiberSpec.v
FiberRefine.v
Cleanup.v
FiberInv.v
View.v
Requests.v
Switching.v
LocalStorage.v
Teardown.v
System.v
Safety.v
Interleave.v
Concurrent.v
Continuation.v
Creation.v
CreationSafety.v
CreationAlone.v
Proc.v
Driver.v
FiberLib.v
Doubles.v
Numerical.v
Channel.v
Cell.v
Calls.v
CalQueue.v
CalBag.v
CalResize.v
CalOps.v
CalOrder.v
CalMem.v
Model.v
Promise.v
Simulation.v
Ult.v
Jmp.v
UltSwitch.v
UltInv.v
UltSteps.v
UltSafety.v
Threads.v
UltFrame.v
MainDriver.v
Program.v
ProgramInv.v
ProgramSafety.v
ProgramLive.v
Main.v
MainLoop.v
LibFls.v
Scenario.v
Witness.v
ServiceWitness.v
ConcurrentWitness.v
CreationWitness.v
TestbedWitness.v
SimWitness.v
ModuleWitness.v
UltWitness.v
ProgramWitness.v
