(* ===== verification/Prelude.v ===== *)
(** * Fibers: a verified model of the fiber kernel module and its user library

    The repository is a Linux kernel module that gives a process's threads
    user-schedulable fibers, a user library over its ioctls, and a testbed
    that runs an event simulation on them.

    ** The program

    - [fibers/fiber.c], [fibers/include/fiber.h]: the fibers themselves.  A
      global hash table holds one group per process; a group holds a hash
      table of converted threads and one of fibers, and the counter that
      numbers fibers.  A thread may convert itself into a fiber, create
      fibers, and switch: its registers and FX state are saved in the fiber it
      leaves and loaded from the one it takes, which a spin lock keeps to one
      thread at a time.  Each fiber has 4096 slots of local storage (FLS) and
      a bitmap that says which are allocated.
    - [fibers/device.c], [device.h]: the character device; [fibers_ioctl]
      copies arguments from user memory and calls fiber.c; closing the device
      cleans the process up.
    - [fibers/proc.c], [fibers/probes.c]: a directory of fibers under
      /proc/PID, inserted with two kretprobes.
    - [fibers/module.c]: loading and unloading.
    - [libfibers/fiberlib.c]: the user's functions, one ioctl each.
    - [libfibers/testbed]: a program that uses the library.

    ** The files

    - Prelude.v (this file): machine integers with their wrap-around, the
      state monad of computations that may fault, its weakest-precondition
      rules ([wp]) and the tactics that apply them.
    - Kernel.v: what the module takes from the kernel (hash tables, bitmaps,
      kmalloc, user memory), as an interface with laws ([KernelApi],
      [KernelLaws]) and a reference implementation ([RefKernel]).
    - KState.v: the structures of fiber.h and the heap of objects; pointer
      accesses fault on NULL, on error numbers and on freed memory.
    - Fiber.v: every macro of fiber.h and function of fiber.c, in order.
    - Device.v: request numbers, argument structures as bytes,
      [fibers_ioctl], open and release.
    - FiberSpec.v: the abstract machine, three finite maps without pointers,
      with one specification function per request.
    - FiberRefine.v, Cleanup.v: [rep] relates the hash tables and the heap to
      the abstract state; one refinement lemma per function of fiber.c.
    - FiberInv.v: the ownership invariant of the abstract machine.
    - View.v: what a kernel state holds, read through the code's own lookups;
      [consistent] states.
    - Requests.v, Switching.v, LocalStorage.v, Teardown.v: the theorems about
      single requests and short sequences of them.
    - System.v: [spec_ioctl], the systems of tasks that make requests in any
      order, and their simulation by the abstract machine.
    - Safety.v: what holds in every run.
    - Interleave.v, Concurrent.v: the accesses to shared memory of
      [do_switch_to_fiber], one by one, and what holds when the switches of
      several threads interleave; Continuation.v: the registers that a fiber
      goes on with in these interleavings.
    - Creation.v, CreationSafety.v, CreationAlone.v: conversions and creations
      among them, access by access; what holds as long as the program does not
      guess numbers; a call that nothing interrupts.
    - Proc.v, Driver.v, FiberLib.v: /proc; loading, unloading and probes; the
      user library down to the bytes of its argument structures.
    - Doubles.v: IEEE doubles, on the Standard Library's executable
      specification, with lemmas about rounding.
    - Numerical.v, Channel.v: the testbed's random numbers and its channel
      allocation; Cell.v, Calls.v: the list of calls of a cell, and what
      allocation and deallocation do to it.
    - CalQueue.v: calqueue.c, the calendar queue, function by function;
      CalBag.v, CalResize.v, CalOps.v: its contents as a bag, resizing, and
      the theorems about put and get; CalOrder.v: where it goes wrong;
      CalMem.v: what it allocates.
    - Model.v: model.c, the event handler of a cell.  Promise.v: what the
      handler needs of a queue ([QueueLaws]), kept by the calendar queue as
      long as its widths allow ([watched]).  Simulation.v: the invariant of a
      cell ([phone], [events]) and the handler's proof against the interface.
    - Ult.v: the testbed's own local storage, and the interface ([FlsLaws])
      the main loop uses; Main.v, MainLoop.v: [main_loop] of main.c.
      LibFls.v: the user library as local storage of the main loop, which is
      the build of the testbed as downloaded.
    - Jmp.v: the assembly of jmp.S, instruction by instruction.
    - UltSwitch.v: ult.c, user-level threads, as steps of threads over shared
      records; UltInv.v, UltSteps.v: the ownership invariant and that every
      step keeps it; UltSafety.v: the theorems; UltFrame.v: what a step can
      change, for its callers.
    - Threads.v: thread.c.  MainDriver.v: the rest of main.c and timer.h, and
      the protocol by which the fibers end the program.
    - Program.v: main.c as the code that the threads of UltSwitch.v run, with
      the array [fibers] and SIGALRM; ProgramInv.v: its invariant;
      ProgramSafety.v, ProgramLive.v: the theorems.
    - Scenario.v, Witness.v, ServiceWitness.v, ConcurrentWitness.v,
      CreationWitness.v, TestbedWitness.v, SimWitness.v, ModuleWitness.v,
      UltWitness.v, ProgramWitness.v: concrete
      runs at which the theorems are instantiated, and runs that show what
      their hypotheses are for.

    ** What the theorems show

    Runs (Safety.v): no request faults, whatever was done before; the module
    refines the abstract machine; a fiber has at most one thread, is locked
    exactly while it is run, and is untouched while it is not; processes
    cannot reach each other's fibers.  Concurrent switches (Concurrent.v):
    in every interleaving of their accesses two threads never own the same
    fiber, a call returns within 14 of its own accesses whatever the others
    do, at rest the ownership invariant holds again, and a call nothing
    interrupts is the sequential one; whichever thread goes on with a fiber
    has the registers and the FX state it was left with (Continuation.v).  Conversions and creations among them
    (CreationSafety.v): a program that only switches to numbers it was given
    keeps all of this, and each call makes the fiber it makes alone; one that
    guesses numbers can run a half-made fiber on another's stack, or leave a
    fiber locked with no owner ([creation_hazards]).  Requests: each of convert, create,
    switch and the FLS operations has its effect on every branch, and a
    fiber's CPU state and local storage survive any switch.  Library: the
    round trips hold through user memory and the ioctl.  Teardown.v, Proc.v,
    Driver.v also prove where the code fails: a failed kmalloc is
    dereferenced, [cleanup_process] reads freed memory, the /proc listing
    writes past its array, the device class is released twice.

    Testbed: the random numbers lie strictly between 0 and 1 (but one of the
    two generators is dead); channel allocation keeps the bitmap, the doubly
    linked list and the heap in agreement (Calls.v); the calendar queue is a
    bag of events whose operations end (CalOps.v), but it can return events
    out of order and compute widths it cannot use (CalOrder.v); the event
    handler keeps every counter and event of a cell in agreement, and the main
    loop leaves only when its cell is done (MainLoop.v); on the kernel module
    its ioctls change nothing but the local storage of its fiber, and a lack of
    indices goes unnoticed (LibFls.v).  User-level threads
    (UltSafety.v): in every interleaving of conversions, creations and
    switches no fiber is run by two threads and each goes on where it was
    left, provided RAX is not zero at a [set_jmp] and no signal hits a switch;
    [ult_hazards] (UltWitness.v) shows that each proviso is needed, and
    neither is ensured by the code.  [jmp_roundtrip] (Jmp.v) is the register
    side of it.  Threads number themselves without repetition (Threads.v).
    The driver program on these threads (ProgramSafety.v): the array of fibers
    is not read before it is filled, each entry is the fiber that runs
    [main_loop] with its id, on one thread at most, and the fibers that helper
    threads leave are never resumed; the fibers' ends are a run of the protocol
    of MainDriver.v, so the program ends only when each has done its work.
    Whatever its threads are in the middle of, the program can go on to its
    end (ProgramLive.v).

    ** Assumptions and bounds

    Outside Interleave.v and Creation.v a request to the module runs to its
    end before the next starts, as on one processor without preemption:
    [lock_plock] and [spin_trylock] act on the state as it is then, and the
    interleavings of requests are those of System.v.  In Interleave.v the
    steps of several switches interleave access by access, with sequentially
    consistent memory, while no thread converts, creates or leaves; Creation.v
    adds conversions and creations in a process whose group exists, with the
    insertions into the hash tables, which the code makes without a lock, as
    single accesses, and until the counter wraps.  UltSwitch.v, Threads.v and Program.v interleave every
    access to shared memory, sequentially consistent too; in Program.v the
    work of a fiber is one step, and SIGALRM hits the code of fibers only.
    Theorems about success assume that kmalloc does not fail and (for
    cleanup) that freed memory still holds its contents; the theorems of
    Teardown.v drop these.  A fiber counter is a 32-bit integer: a run of
    fewer than 2^31 steps cannot wrap it.  No definition of the module needs
    fuel, except the program that reads a /proc file ([read_file]), for which
    any fuel of at least the length of the text is enough.

    In the testbed malloc does not fail in the theorems about the main loop
    and in UltSwitch.v.  The loops of Channel.v over the list of calls take
    one more than the number of list nodes in the heap as fuel; in CalQueue.v
    a scan takes the number of buckets, a walk along a chain its length, and a
    resize nests one deep, since the code disables it while it resizes; the
    theorems of Calls.v and CalOps.v show that these are enough.  The main
    loop ends at random, so its fuel is any number of rounds, and the theorems
    hold for each.  What the testbed takes from outside is documented
    behaviour: C11 atomics, POSIX [random()] ([LibcLaws]), that [log] is not
    positive up to 1 ([LogLaws]).  Jmp.v assumes aligned accesses to mapped
    memory and room for the pushes, apart from the context.

    ** Not modelled

    printk, printf and the VERBOSE messages; the kernel functions themselves
    (parameters of the definitions that use them); the tables of function
    pointers and the registrations the compiler or the kernel reads
    ([file_operations], [module_init]); the stacks of user-level threads,
    except that their code is saved and resumed; the double in which the
    reported times are printed.  The testbed's macros that rename the library
    functions (testbed/fiber.h) are modelled for local storage only. *)
From stdpp Require Export base tactics list gmap numbers strings.
From Stdlib Require Export ZArith Lia.

Declare Scope prog_scope.
Delimit Scope prog_scope with prog.
Global Open Scope Z_scope.

(** ** Machine integers

    A [w]-bit unsigned value is a [Z] in [0, 2^w); a signed one a [Z] in
    [-2^(w-1), 2^(w-1)).  Conversions to a type wrap around. *)
Definition wrapU (w x : Z) : Z := x mod 2 ^ w.
Definition wrapS (w x : Z) : Z := (x + 2 ^ (w - 1)) mod 2 ^ w - 2 ^ (w - 1).

Definition i32 : Z -> Z := wrapS 32.
Definition u32 : Z -> Z := wrapU 32.
Definition i64 : Z -> Z := wrapS 64.
Definition u64 : Z -> Z := wrapU 64.

Definition in_i32 (x : Z) : Prop := - 2 ^ 31 <= x < 2 ^ 31.
Definition in_u32 (x : Z) : Prop := 0 <= x < 2 ^ 32.
Definition in_i64 (x : Z) : Prop := - 2 ^ 63 <= x < 2 ^ 63.
Definition in_u64 (x : Z) : Prop := 0 <= x < 2 ^ 64.

Lemma wrapU_range w x : 0 <= w -> 0 <= wrapU w x < 2 ^ w.
Proof. intros. apply Z.mod_pos_bound. apply Z.pow_pos_nonneg; lia. Qed.

Lemma wrapS_range w x : 0 < w -> - 2 ^ (w - 1) <= wrapS w x < 2 ^ (w - 1).
Proof.
  intros Hw. unfold wrapS.
  assert (2 ^ w = 2 * 2 ^ (w - 1)) as ->.
  { replace w with (Z.succ (w - 1)) at 1 by lia. rewrite Z.pow_succ_r; lia. }
  assert (0 < 2 ^ (w - 1)) by (apply Z.pow_pos_nonneg; lia).
  pose proof (Z.mod_pos_bound (x + 2 ^ (w - 1)) (2 * 2 ^ (w - 1))). lia.
Qed.

Lemma wrapU_small w x : 0 <= x < 2 ^ w -> wrapU w x = x.
Proof. apply Z.mod_small. Qed.

Lemma wrapS_small w x : 0 < w -> - 2 ^ (w - 1) <= x < 2 ^ (w - 1) -> wrapS w x = x.
Proof.
  intros Hw Hx. unfold wrapS.
  assert (2 ^ w = 2 * 2 ^ (w - 1)).
  { replace w with (Z.succ (w - 1)) at 1 by lia. rewrite Z.pow_succ_r; lia. }
  rewrite Z.mod_small; lia.
Qed.

Lemma i32_small x : in_i32 x -> i32 x = x.
Proof. intros H. apply wrapS_small; [lia | exact H]. Qed.
Lemma u32_small x : in_u32 x -> u32 x = x.
Proof. apply wrapU_small. Qed.
Lemma i64_small x : in_i64 x -> i64 x = x.
Proof. intros H. apply wrapS_small; [lia | exact H]. Qed.
Lemma u64_small x : in_u64 x -> u64 x = x.
Proof. apply wrapU_small. Qed.

(** Reading a 64-bit pattern back as a signed number undoes storing it. *)
Lemma i64_u64 x : in_i64 x -> i64 (u64 x) = x.
Proof.
  unfold in_i64, i64, u64, wrapS, wrapU. intros H.
  rewrite Zplus_mod_idemp_l. change (64 - 1) with 63.
  rewrite Z.mod_small; lia.
Qed.

Lemma i32_u32 x : in_i32 x -> i32 (u32 x) = x.
Proof.
  unfold in_i32, i32, u32, wrapS, wrapU. intros H.
  rewrite Zplus_mod_idemp_l. change (32 - 1) with 31.
  rewrite Z.mod_small; lia.
Qed.

(** The low half of a 64-bit word holds a 32-bit value (little endian). *)
Lemma u32_u64 x : u32 (u64 x) = u32 x.
Proof.
  unfold u32, u64, wrapU.
  replace (2 ^ 64) with (2 ^ 32 * 2 ^ 32) by reflexivity.
  rewrite Z.rem_mul_r by lia.
  rewrite <- Zplus_mod_idemp_r, (Z.mul_comm (2 ^ 32)), Z.mod_mul by lia.
  by rewrite Z.add_0_r, Zmod_mod.
Qed.

#[export] Instance in_i32_dec x : Decision (in_i32 x).
Proof. unfold in_i32. apply _. Defined.
#[export] Instance in_i64_dec x : Decision (in_i64 x).
Proof. unfold in_i64. apply _. Defined.

(** ** Computations that may fault

    A computation reads and writes a state of type [S], and either returns a
    value or faults.  A fault is a behaviour the C program has no defined
    meaning for (or that ends it): it is never a returned error code. *)
Inductive fault :=
  | NullDeref
  | BadPointer (p : Z)
  | UseAfterFree
  | OutOfBounds (i : Z)
  | DeadLock
  | BadConversion
  | Aborted
  | Exited (code : Z)
  | OutOfFuel.

#[export] Instance fault_eq_dec : EqDecision fault.
Proof. solve_decision. Defined.

Inductive outcome (A : Type) :=
  | Ret (a : A)
  | Fault (f : fault).
Arguments Ret {A} a.
Arguments Fault {A} f.

Definition M (S A : Type) : Type := S -> outcome (A * S).

Section monad.
Context {S : Type}.

Definition ret {A} (a : A) : M S A := fun s => Ret (a, s).
Definition bind {A B} (m : M S A) (k : A -> M S B) : M S B :=
  fun s => match m s with Ret (a, s') => k a s' | Fault f => Fault f end.
Definition get : M S S := fun s => Ret (s, s).
Definition put (s : S) : M S unit := fun _ => Ret (tt, s).
Definition modify (f : S -> S) : M S unit := fun s => Ret (tt, f s).
Definition crash {A} (f : fault) : M S A := fun _ => Fault f.
Definition assert_or (b : bool) (f : fault) : M S unit :=
  if b then ret tt else crash f.
End monad.

Notation "x <- m ;; k" := (bind m (fun x => k))
  (at level 62, m at next level, right associativity) : prog_scope.
Notation "m ;;; k" := (bind m (fun _ => k))
  (at level 62, right associativity) : prog_scope.

(** [wp m Q s]: run from [s], [m] returns (it does not fault) in a state and
    with a value that satisfy [Q]. *)
Section wp.
Context {S : Type}.

Definition wp {A} (m : M S A) (Q : A -> S -> Prop) (s : S) : Prop :=
  match m s with Ret (a, s') => Q a s' | Fault _ => False end.

Lemma wp_ret {A} (a : A) Q s : Q a s -> wp (ret a) Q s.
Proof. done. Qed.

Lemma wp_bind {A B} (m : M S A) (k : A -> M S B) Q s :
  wp m (fun a s' => wp (k a) Q s') s -> wp (bind m k) Q s.
Proof. unfold wp, bind. by destruct (m s) as [[]|]. Qed.

Lemma wp_get Q (s : S) : Q s s -> wp get Q s.
Proof. done. Qed.

Lemma wp_put (s' : S) Q s : Q tt s' -> wp (put s') Q s.
Proof. done. Qed.

Lemma wp_modify (f : S -> S) Q s : Q tt (f s) -> wp (modify f) Q s.
Proof. done. Qed.

Lemma wp_assert b f Q (s : S) : b = true -> Q tt s -> wp (assert_or b f) Q s.
Proof. by intros ->. Qed.

Lemma wp_mono {A} (m : M S A) (P Q : A -> S -> Prop) s :
  wp m P s -> (forall a s', P a s' -> Q a s') -> wp m Q s.
Proof. unfold wp. destruct (m s) as [[]|]; auto. Qed.

Lemma wp_run {A} (m : M S A) Q s :
  wp m Q s -> exists a s', m s = Ret (a, s') /\ Q a s'.
Proof. unfold wp. destruct (m s) as [[a s']|]; [eauto | done]. Qed.

Lemma bind_run {A B} (m : M S A) (k : A -> M S B) s a s' :
  m s = Ret (a, s') -> bind m k s = k a s'.
Proof. unfold bind. by intros ->. Qed.

Lemma bind_fault {A B} (m : M S A) (k : A -> M S B) s f :
  m s = Fault f -> bind m k s = Fault f.
Proof. unfold bind. by intros ->. Qed.

Lemma wp_of_run {A} (m : M S A) Q s a s' :
  m s = Ret (a, s') -> Q a s' -> wp m Q s.
Proof. unfold wp. by intros ->. Qed.

(** The same for a computation that may fault, in one of the ways [F]. *)
Definition wpf {A} (F : fault -> Prop) (m : M S A) (Q : A -> S -> Prop) (s : S) : Prop :=
  match m s with Ret (a, s') => Q a s' | Fault f => F f end.

Lemma wpf_bind {A B} F (m : M S A) (k : A -> M S B) Q s :
  wpf F m (fun a s' => wpf F (k a) Q s') s -> wpf F (bind m k) Q s.
Proof. unfold wpf, bind. by destruct (m s) as [[]|]. Qed.

Lemma wpf_mono {A} F (m : M S A) (P Q : A -> S -> Prop) s :
  wpf F m P s -> (forall a s', P a s' -> Q a s') -> wpf F m Q s.
Proof. unfold wpf. destruct (m s) as [[]|]; auto. Qed.

Lemma wpf_seq {A B} F (m : M S A) (k : A -> M S B) P Q s :
  wpf F m P s -> (forall a s', P a s' -> wpf F (k a) Q s') -> wpf F (bind m k) Q s.
Proof. intros Hm Hk. apply wpf_bind. eapply wpf_mono; [exact Hm|exact Hk]. Qed.
End wp.

Create HintDb prog.
#[export] Hint Resolve wp_ret wp_get wp_put wp_modify wp_bind : prog.

(** Symbolic execution of one monadic statement. *)
Ltac wp_step :=
  lazymatch goal with
  | |- wp (ret _) _ _ => apply wp_ret
  | |- wp (bind _ _) _ _ => apply wp_bind
  | |- wp get _ _ => apply wp_get
  | |- wp (put _) _ _ => apply wp_put
  | |- wp (modify _) _ _ => apply wp_modify
  | |- wp (assert_or _ _) _ _ => apply wp_assert
  end.
Ltac wp_auto := repeat (wp_step; cbn beta iota).

(** ** List lemmas the components share *)
Lemma NoDup_fmap_fst_eq {A B} (l : list (A * B)) a b1 b2 :
  NoDup l.*1 -> (a, b1) ∈ l -> (a, b2) ∈ l -> b1 = b2.
Proof.
  induction l as [|[x y] l IH]; cbn; [set_solver|].
  intros [Hx Hnd]%NoDup_cons H1 H2.
  assert (forall b, (x, b) ∉ l) as Hno
    by (intros b Hb; apply Hx, list_elem_of_fmap; by exists (x, b)).
  set_solver.
Qed.

(** The first element of a list that satisfies a boolean test. *)
Fixpoint find_first {A} (p : A -> bool) (l : list A) : option A :=
  match l with
  | [] => None
  | x :: l' => if p x then Some x else find_first p l'
  end.

Lemma find_first_Some {A} (p : A -> bool) l x :
  find_first p l = Some x -> x ∈ l /\ p x = true.
Proof.
  induction l as [|y l IH]; cbn; [done|].
  destruct (p y) eqn:Hp; [intros [= <-]; set_solver | set_solver].
Qed.

Lemma find_first_None {A} (p : A -> bool) l x :
  find_first p l = None -> x ∈ l -> p x = false.
Proof.
  induction l as [|y l IH]; cbn; [set_solver|].
  destruct (p y) eqn:Hp; [done | set_solver].
Qed.
