(* ===== verification/Kernel.v ===== *)
(** * The kernel services the fiber module relies on

    The module is written against the Linux kernel's own library: hash tables
    of objects ([linux/hashtable.h]), bitmaps ([linux/bitmap.h], [bitops.h]),
    the slab allocator and the user-space access functions.  None of that code
    is part of the repository, so here it is an interface: [KernelApi] gives
    the operations, [KernelLaws] the documented behaviour the module relies
    on, and [RefKernel] one concrete implementation that satisfies the laws
    (so that no theorem proved against the interface is vacuous). *)
From S2P Require Import Prelude.

(** The address of a heap object.  Addresses are object identities. *)
Abbreviation loc := positive.

(** ** Error numbers of [asm-generic/errno.h] *)
Definition EPERM : Z := 1.
Definition ENOENT : Z := 2.
Definition ESRCH : Z := 3.
Definition EAGAIN : Z := 11.
Definition EACCES : Z := 13.
Definition EEXIST : Z := 17.
Definition EINVAL : Z := 22.
Definition ECANCELED : Z := 125.

(** ** The interface *)
Class KernelApi := {
  (* DECLARE_HASHTABLE: buckets of objects hashed by an integer key *)
  htab : Type;
  hash_init : htab;
  hash_add_rcu : htab -> loc -> Z -> htab;
  hash_del_rcu : htab -> loc -> htab;
  (* the objects hash_for_each_possible_rcu visits for a key, in order *)
  hash_possible : htab -> Z -> list loc;
  (* the objects hash_for_each_rcu visits, in order *)
  hash_each : htab -> list loc;

  (* DECLARE_BITMAP *)
  bitmap : Type;
  bitmap_zero : bitmap;
  test_bit : Z -> bitmap -> bool;
  change_bit : Z -> bitmap -> bitmap;
  find_first_zero_bit : bitmap -> Z -> Z;

  (* user memory: both copies return the number of bytes not copied *)
  umem : Type;
  access_ok : Z -> Z -> bool;
  copy_from_user : umem -> Z -> Z -> Z * list Z;
  copy_to_user : umem -> Z -> list Z -> Z * umem;

  (* whether the n-th kmalloc of the run returns NULL *)
  kmalloc_fails : nat -> bool;
  (* whether touching an object after kfree traps (slab poisoning, KASAN) or
     returns what the object held *)
  uaf_traps : bool;
}.

(** All of the [n] bytes at [p] can be written. *)
Definition writable `{K : KernelApi} (m : umem) (p n : Z) : Prop :=
  forall bs, Z.of_nat (length bs) <= n -> exists m', copy_to_user m p bs = (0, m').

(** The documented behaviour.  [hash_elems] is the specification's view of a
    table: the (key, object) pairs it holds. *)
Class KernelLaws `(K : KernelApi) := {
  hash_elems : htab -> list (Z * loc);
  hash_elems_init : hash_elems hash_init = [];
  hash_elems_add t l k :
    hash_elems (hash_add_rcu t l k) ≡ₚ (k, l) :: hash_elems t;
  hash_elems_del t l :
    hash_elems (hash_del_rcu t l) ≡ₚ filter (fun p => p.2 <> l) (hash_elems t);
  (* a bucket holds only objects of the table, and all those with the key *)
  hash_possible_sound t k l :
    l ∈ hash_possible t k -> exists k', (k', l) ∈ hash_elems t;
  hash_possible_complete t k l :
    (k, l) ∈ hash_elems t -> l ∈ hash_possible t k;
  hash_each_elems t : hash_each t ≡ₚ (hash_elems t).*2;

  test_bit_zero i : 0 <= i -> test_bit i bitmap_zero = false;
  test_bit_change i j b : 0 <= i -> 0 <= j ->
    test_bit j (change_bit i b) =
      if decide (i = j) then negb (test_bit j b) else test_bit j b;
  find_first_zero_bit_range b n :
    0 <= n -> 0 <= find_first_zero_bit b n <= n;
  find_first_zero_bit_below b n i :
    0 <= i < find_first_zero_bit b n -> test_bit i b = true;
  find_first_zero_bit_at b n :
    find_first_zero_bit b n < n -> test_bit (find_first_zero_bit b n) b = false;

  (* bytes that were copied out completely are read back *)
  copy_to_from_user m m' p bs :
    copy_to_user m p bs = (0, m') ->
    copy_from_user m' p (Z.of_nat (length bs)) = (0, bs);
  (* and leave the bytes of any disjoint range alone *)
  copy_to_from_user_disjoint m m' r p bs q n :
    copy_to_user m p bs = (r, m') ->
    q + n <= p \/ p + Z.of_nat (length bs) <= q ->
    copy_from_user m' q n = copy_from_user m q n;
  (* nothing is unmapped *)
  copy_to_user_stable m m' r p bs q n :
    copy_to_user m p bs = (r, m') -> writable m q n -> writable m' q n;
  (* and the first bytes of what can be copied in can be copied in *)
  copy_from_user_prefix m q n k bs :
    0 <= k <= n -> copy_from_user m q n = (0, bs) ->
    copy_from_user m q k = (0, take (Z.to_nat k) bs);
  copy_from_user_length m q n bs :
    0 <= n -> copy_from_user m q n = (0, bs) -> Z.of_nat (length bs) = n;
}.

(** ** Little-endian bytes

    What [copy_from_user] finds in a struct.  A byte is a [Z] in [0, 256). *)
Fixpoint le_bytes (n : nat) (x : Z) : list Z :=
  match n with
  | O => []
  | S n => x mod 256 :: le_bytes n (x / 256)
  end.

Fixpoint le_value (bs : list Z) : Z :=
  match bs with
  | [] => 0
  | b :: bs => b + 256 * le_value bs
  end.

Lemma length_le_bytes n x : length (le_bytes n x) = n.
Proof. revert x. induction n; intros; cbn; auto. Qed.

Lemma le_value_bytes n x : le_value (le_bytes n x) = x mod 256 ^ Z.of_nat n.
Proof.
  revert x. induction n as [|n IH]; intros x.
  - by rewrite Z.mod_1_r.
  - cbn [le_bytes le_value]. rewrite IH, Nat2Z.inj_succ, Z.pow_succ_r by lia.
    rewrite Z.rem_mul_r by lia. lia.
Qed.

Lemma le_value_take_bytes n m x :
  (n <= m)%nat -> le_value (take n (le_bytes m x)) = x mod 256 ^ Z.of_nat n.
Proof.
  intros Hle. rewrite <- le_value_bytes. f_equal. revert m x Hle.
  induction n as [|n IH]; intros [|m] x Hle; cbn; [done..|lia|].
  f_equal. apply IH. lia.
Qed.

Lemma le_value_bytes_u64 x : le_value (le_bytes 8 x) = u64 x.
Proof. apply le_value_bytes. Qed.
Lemma le_value_bytes_u32 x : le_value (le_bytes 4 x) = u32 x.
Proof. apply le_value_bytes. Qed.

(** ** A reference implementation

    Tables are lists, newest object first, whose buckets are the residues of
    the key modulo 2^8; bitmaps are the bits of an integer; user memory is a
    finite map from addresses to bytes.  [fails] and [traps] choose the
    allocator's and the freed memory's behaviour. *)
Module RefKernel.
Definition bucket (k : Z) : Z := k mod 256.

Definition ffz (b n : Z) : Z :=
  default n (find_first (fun i => negb (Z.testbit b i)) (seqZ 0 n)).

Fixpoint read_bytes (m : gmap Z Z) (p : Z) (n : nat) : Z * list Z :=
  match n with
  | O => (0, [])
  | S n' =>
      match m !! p with
      | None => (Z.of_nat n, [])
      | Some b => let '(r, bs) := read_bytes m (p + 1) n' in (r, b :: bs)
      end
  end.

Fixpoint write_bytes (m : gmap Z Z) (p : Z) (bs : list Z) : Z * gmap Z Z :=
  match bs with
  | [] => (0, m)
  | b :: bs' =>
      match m !! p with
      | None => (Z.of_nat (length bs), m)
      | Some _ => write_bytes (<[p := b]> m) (p + 1) bs'
      end
  end.

Definition api (fails : nat -> bool) (traps : bool) : KernelApi := {|
  htab := list (Z * loc);
  hash_init := [];
  hash_add_rcu t l k := (k, l) :: t;
  hash_del_rcu t l := filter (fun p => p.2 <> l) t;
  hash_possible t k := (filter (fun p => bucket p.1 = bucket k) t).*2;
  hash_each t := t.*2;
  bitmap := Z;
  bitmap_zero := 0;
  test_bit i b := Z.testbit b i;
  change_bit i b := Z.lxor b (Z.shiftl 1 i);
  find_first_zero_bit := ffz;
  umem := gmap Z Z;
  access_ok p n := bool_decide (0 <= p /\ p + n <= 2 ^ 47);
  copy_from_user m p n := read_bytes m p (Z.to_nat n);
  copy_to_user m p bs := write_bytes m p bs;
  kmalloc_fails := fails;
  uaf_traps := traps;
|}.

Lemma ffz_seqZ b i n :
  let r := default (i + n) (find_first (fun i => negb (Z.testbit b i)) (seqZ i n)) in
  0 <= n ->
  i <= r <= i + n /\ (forall j, i <= j < r -> Z.testbit b j = true) /\
  (r < i + n -> Z.testbit b r = false).
Proof.
  intros r Hn. subst r.
  destruct (find_first _ _) as [x|] eqn:E; cbn.
  - revert i E. pattern n. apply natlike_ind; [done| |done].
    intros m Hm IH i. rewrite seqZ_cons by lia. cbn.
    destruct (Z.testbit b i) eqn:Hb; cbn.
    + intros E. rewrite Z.pred_succ in E.
      destruct (IH _ E) as (? & Hlt & ?). repeat split; [lia..| |intros; auto with lia].
      intros j Hj. destruct (decide (j = i)) as [->|]; [done|]. apply Hlt. lia.
    + intros [= <-]. repeat split; [lia..|intros; lia|done].
  - repeat split; [lia..| |lia]. intros j Hj.
    apply find_first_None with (x := j) in E; [by apply negb_false_iff in E|].
    apply elem_of_seqZ. lia.
Qed.

Lemma ffz_spec b n :
  0 <= n ->
  0 <= ffz b n <= n /\ (forall j, 0 <= j < ffz b n -> Z.testbit b j = true) /\
  (ffz b n < n -> Z.testbit b (ffz b n) = false).
Proof. intros Hn. exact (ffz_seqZ b 0 n Hn). Qed.

Lemma ffz_neg b n : n < 0 -> ffz b n = n.
Proof. intros. unfold ffz, seqZ. by rewrite Z2Nat.nonpos by lia. Qed.

Lemma write_read m p bs m' :
  write_bytes m p bs = (0, m') -> read_bytes m' p (length bs) = (0, bs).
Proof.
  assert (forall bs m p m', write_bytes m p bs = (0, m') ->
    forall q, q < p -> m' !! q = m !! q) as Hkeep.
  { clear. induction bs as [|b bs IH]; cbn; intros m p m'; [congruence|].
    destruct (m !! p); [|intros [= ]; lia].
    intros H q Hq. rewrite (IH _ _ _ H) by lia. by rewrite lookup_insert_ne by lia. }
  revert m p. induction bs as [|b bs IH]; cbn [write_bytes read_bytes length];
    intros m p; [done|].
  destruct (m !! p); [|intros [= ]; lia].
  intros H. rewrite (Hkeep _ _ _ _ H) by lia.
  rewrite lookup_insert_eq, (IH _ _ H). done.
Qed.

Lemma write_frame bs m p r m' q :
  write_bytes m p bs = (r, m') -> q < p \/ p + Z.of_nat (length bs) <= q ->
  m' !! q = m !! q.
Proof.
  revert m p. induction bs as [|b bs IH]; cbn [write_bytes length];
    intros m p; [congruence|].
  destruct (m !! p); [|congruence].
  intros H Hq. rewrite (IH _ _ H) by lia. by rewrite lookup_insert_ne by lia.
Qed.

Lemma write_mapped bs m p r m' x :
  write_bytes m p bs = (r, m') -> is_Some (m !! x) -> is_Some (m' !! x).
Proof.
  revert m p. induction bs as [|b bs IH]; cbn [write_bytes]; intros m p; [congruence|].
  destruct (m !! p); [|congruence]. intros H Hx. eapply IH; [done|].
  rewrite lookup_insert. case_decide; [by eexists|done].
Qed.

Lemma write_ok_mono bs m m2 p m1 :
  (forall x, is_Some (m !! x) -> is_Some (m2 !! x)) ->
  write_bytes m p bs = (0, m1) -> exists m3, write_bytes m2 p bs = (0, m3).
Proof.
  revert m m2 p. induction bs as [|b bs IH]; cbn [write_bytes length]; intros m m2 p Hm; [eauto|].
  destruct (m !! p) eqn:E; [|intros [= ]; lia].
  destruct (Hm p) as [y Hy]; [by rewrite E|]. rewrite Hy. apply IH.
  intros x. rewrite !lookup_insert. case_decide; [by eexists|apply Hm].
Qed.

Lemma read_ext m m' q n :
  (forall x, q <= x < q + Z.of_nat n -> m' !! x = m !! x) ->
  read_bytes m' q n = read_bytes m q n.
Proof.
  revert q. induction n as [|n IH]; intros q H; cbn; [done|].
  rewrite (H q) by lia. destruct (m !! q); [|done].
  rewrite IH; [done|]. intros; apply H; lia.
Qed.

Lemma read_length m q n bs : read_bytes m q n = (0, bs) -> length bs = n.
Proof.
  revert q bs. induction n as [|n IH]; cbn; intros q bs; [by intros [= <-]|].
  destruct (m !! q); [|intros [= ]; lia].
  destruct (read_bytes m (q + 1) n) as [r bs'] eqn:E. intros [= -> <-].
  cbn. f_equal. by eapply IH.
Qed.

Lemma read_prefix m q n k bs :
  (k <= n)%nat -> read_bytes m q n = (0, bs) -> read_bytes m q k = (0, take k bs).
Proof.
  revert q k bs. induction n as [|n IH]; intros q [|k] bs Hk; cbn; [done|lia|done|].
  destruct (m !! q) as [b|]; [|intros [= ]; lia].
  destruct (read_bytes m (q + 1) n) as [r bs'] eqn:E. intros [= -> <-].
  rewrite (IH (q + 1) k bs'); [done|lia|done].
Qed.

#[export] Instance laws fails traps : KernelLaws (api fails traps).
Proof.
  refine {| hash_elems := (fun t => t) : @htab (api fails traps) -> list (Z * loc) |}; cbn.
  - done.
  - done.
  - done.
  - intros t k l (p & -> & Hp)%list_elem_of_fmap. exists p.1.
    apply list_elem_of_filter in Hp as [_ Hp]. by destruct p.
  - intros t k l Hp. apply list_elem_of_fmap. exists (k, l). split; [done|].
    by apply list_elem_of_filter.
  - done.
  - intros. apply Z.bits_0.
  - intros i j b Hi Hj. rewrite Z.lxor_spec, Z.shiftl_spec by done.
    assert (Z.testbit 1 (j - i) = bool_decide (i = j)) as ->.
    { change 1 with (2 ^ 0). rewrite Z.pow2_bits_eqb by lia.
      case_bool_decide; [apply Z.eqb_eq | apply Z.eqb_neq]; lia. }
    case_decide as Heq.
    + rewrite bool_decide_true by done. by destruct (Z.testbit b j).
    + rewrite bool_decide_false by done. by destruct (Z.testbit b j).
  - intros b n Hn. by destruct (ffz_spec b n Hn).
  - intros b n i Hi. destruct (decide (0 <= n)).
    + destruct (ffz_spec b n) as (_ & H & _); auto.
    + rewrite ffz_neg in Hi; lia.
  - intros b n Hi. destruct (decide (0 <= n)).
    + destruct (ffz_spec b n) as (_ & _ & H); auto.
    + rewrite ffz_neg in Hi; lia.
  - intros m m' p bs H. rewrite Nat2Z.id. by eapply write_read.
  - intros m m' r p bs q n H Hd. apply read_ext.
    intros x Hx. eapply write_frame; [done|]. lia.
  - intros m m' r p bs q n H Hw bs' Hl. destruct (Hw bs' Hl) as [m1 Hm1].
    eapply write_ok_mono; [|exact Hm1]. intros x. by eapply write_mapped.
  - intros m q n k bs Hk H. eapply read_prefix; [|exact H]. lia.
  - intros m q n bs Hn H. apply read_length in H. lia.
Qed.

Lemma write_mapped_ok bs m p :
  (forall x, p <= x < p + Z.of_nat (length bs) -> is_Some (m !! x)) ->
  exists m', write_bytes m p bs = (0, m').
Proof.
  revert m p. induction bs as [|b bs IH]; cbn [write_bytes length]; intros m p H; [eauto|].
  destruct (H p) as [y Hy]; [lia|]. rewrite Hy. apply IH.
  intros x Hx. rewrite lookup_insert. case_decide; [by eexists|]. apply H. lia.
Qed.

(** Mapped addresses can be written: a test that evaluates. *)
Lemma writable_mapped fails traps (m : gmap Z Z) p n :
  forallb (fun x => if m !! x is Some _ then true else false) (seqZ p n) = true ->
  @writable (api fails traps) m p n.
Proof.
  intros H bs Hl. apply write_mapped_ok. intros x Hx.
  rewrite forallb_forall in H. specialize (H x).
  destruct (m !! x); [by eexists|]. exfalso. discriminate H.
  apply list_elem_of_In, elem_of_seqZ. lia.
Qed.
End RefKernel.
