(* ===== verification/KState.v ===== *)
(** * The data of the fiber module ([fibers/include/fiber.h])

    The structures of the header, the module's global variables, and the heap
    the pointers point into: a [kstate] holds the [groups] hash table and its
    lock, one heap per structure type (objects stay in it after [kfree],
    marked [Freed]), the task the kernel is currently running, that task's
    user memory, and the count of references to the module.  [load], [store]
    and [kfree] are pointer accesses: going through NULL, through an error
    number cast to a pointer, or through freed memory is a fault. *)
From stdpp Require Export pretty.
From S2P Require Export Prelude Kernel.
Local Open Scope prog_scope.

(** ** Constants of the header *)
Definition SUCCESS : Z := 0.
Definition NO_FIBERS : Z := -1.
Definition FLS_MAX_SIZE : Z := 4096.

(** ** The CPU state of a task: [struct pt_regs] (the four registers the module
    names, and the others) and the FX register image *)
Record pt_regs := { ip : Z; di : Z; sp : Z; bp : Z; other_regs : list Z }.

Record task_struct := {
  task_tgid : Z;
  task_pid : Z;
  utime : Z;
  task_regs : pt_regs;
  task_fx : list Z;
}.

Record context_t := { regs : pt_regs; fpu : list Z }.

Record info_t := {
  name : string;
  parent : Z;
  state : Z;
  successful_activations : Z;
  failed_activations : Z;
  last_activation_time : Z;
  total_running_time : Z;
  entry_point : Z;
  param : Z;
}.

Record thread := { pid : Z; current_fid : Z }.

Section data.
Context `{K : KernelApi}.

Record thread_group := {
  tgid : Z;
  fid_count : Z;
  threads : htab;
  fibers : htab;
}.

Record fls_t := { data : list Z; bmp : bitmap }.

Record fiber := {
  fid : Z;
  flock : bool;
  flock_flags : Z;
  stack_base : Z;
  stack_limit : Z;
  guaranteed_stack_bytes : Z;
  context : context_t;
  fls : fls_t;
  info : info_t;
}.

(** What [kmalloc] returns holds arbitrary contents. *)
Class Uninit := {
  uninit_group : thread_group;
  uninit_thread : thread;
  uninit_fiber : fiber;
}.

Inductive obj (A : Type) := Live (a : A) | Freed (a : A).

Record kstate := {
  groups : htab;
  plock : bool;
  heap_groups : gmap loc (obj thread_group);
  heap_threads : gmap loc (obj thread);
  heap_fibers : gmap loc (obj fiber);
  nalloc : nat;
  current : task_struct;
  user : umem;
  module_refs : Z;
}.
End data.
Arguments obj A : clear implicits.
Arguments Live {A} a.
Arguments Freed {A} a.
Arguments fls_t K : clear implicits.
Arguments fiber K : clear implicits.
Arguments thread_group K : clear implicits.
Arguments kstate K : clear implicits.
Arguments Uninit K : clear implicits.

(** ** Pointers *)
Inductive ptr := NULL | ERR (e : Z) | PTR (l : loc).

#[export] Instance ptr_eq_dec : EqDecision ptr.
Proof. solve_decision. Defined.

Definition is_null (p : ptr) : bool := match p with NULL => true | _ => false end.

Definition ptr_of_opt (o : option loc) : ptr :=
  match o with Some l => PTR l | None => NULL end.

(** ** The heaps, by type of object *)
Class HeapOf `{K : KernelApi} (A : Type) := {
  heap : kstate K -> gmap loc (obj A);
  set_heap : gmap loc (obj A) -> kstate K -> kstate K;
}.

Section heaps.
Context `{K : KernelApi}.

#[export] Instance group_heap : HeapOf (thread_group K) := {|
  heap := heap_groups;
  set_heap h s := {| groups := groups s; plock := plock s; heap_groups := h;
    heap_threads := heap_threads s; heap_fibers := heap_fibers s;
    nalloc := nalloc s; current := current s; user := user s;
    module_refs := module_refs s |};
|}.
#[export] Instance thread_heap : HeapOf thread := {|
  heap := heap_threads;
  set_heap h s := {| groups := groups s; plock := plock s;
    heap_groups := heap_groups s; heap_threads := h;
    heap_fibers := heap_fibers s; nalloc := nalloc s; current := current s;
    user := user s;
    module_refs := module_refs s |};
|}.
#[export] Instance fiber_heap : HeapOf (fiber K) := {|
  heap := heap_fibers;
  set_heap h s := {| groups := groups s; plock := plock s;
    heap_groups := heap_groups s; heap_threads := heap_threads s;
    heap_fibers := h; nalloc := nalloc s; current := current s;
    user := user s;
    module_refs := module_refs s |};
|}.

Definition set_groups (t : htab) (s : kstate K) : kstate K :=
  {| groups := t; plock := plock s; heap_groups := heap_groups s;
     heap_threads := heap_threads s; heap_fibers := heap_fibers s;
     nalloc := nalloc s; current := current s; user := user s;
    module_refs := module_refs s |}.
Definition set_plock (b : bool) (s : kstate K) : kstate K :=
  {| groups := groups s; plock := b; heap_groups := heap_groups s;
     heap_threads := heap_threads s; heap_fibers := heap_fibers s;
     nalloc := nalloc s; current := current s; user := user s;
    module_refs := module_refs s |}.
Definition set_nalloc (n : nat) (s : kstate K) : kstate K :=
  {| groups := groups s; plock := plock s; heap_groups := heap_groups s;
     heap_threads := heap_threads s; heap_fibers := heap_fibers s;
     nalloc := n; current := current s; user := user s;
    module_refs := module_refs s |}.
Definition set_current (t : task_struct) (s : kstate K) : kstate K :=
  {| groups := groups s; plock := plock s; heap_groups := heap_groups s;
     heap_threads := heap_threads s; heap_fibers := heap_fibers s;
     nalloc := nalloc s; current := t; user := user s;
    module_refs := module_refs s |}.
Definition set_user (m : umem) (s : kstate K) : kstate K :=
  {| groups := groups s; plock := plock s; heap_groups := heap_groups s;
     heap_threads := heap_threads s; heap_fibers := heap_fibers s;
     nalloc := nalloc s; current := current s; user := m;
    module_refs := module_refs s |}.

Definition set_module_refs (n : Z) (s : kstate K) : kstate K :=
  {| groups := groups s; plock := plock s; heap_groups := heap_groups s;
     heap_threads := heap_threads s; heap_fibers := heap_fibers s;
     nalloc := nalloc s; current := current s; user := user s; module_refs := n |}.

Definition set_task_cpu (r : pt_regs) (fx : list Z) (t : task_struct) : task_struct :=
  {| task_tgid := task_tgid t; task_pid := task_pid t; utime := utime t;
     task_regs := r; task_fx := fx |}.

(** ** Pointer accesses *)
Section access.
Context {A : Type} `{!HeapOf A}.

Definition load (p : ptr) : M (kstate K) A :=
  match p with
  | NULL => crash NullDeref
  | ERR e => crash (BadPointer e)
  | PTR l =>
      s <- get ;;
      match heap s !! l with
      | Some (Live a) => ret a
      | Some (Freed a) => if uaf_traps then crash UseAfterFree else ret a
      | None => crash (BadPointer (Zpos l))
      end
  end.

Definition store (p : ptr) (a : A) : M (kstate K) unit :=
  match p with
  | NULL => crash NullDeref
  | ERR e => crash (BadPointer e)
  | PTR l =>
      s <- get ;;
      match heap s !! l with
      | Some (Live _) => put (set_heap (<[l := Live a]> (heap s)) s)
      | Some (Freed _) =>
          if uaf_traps then crash UseAfterFree
          else put (set_heap (<[l := Freed a]> (heap s)) s)
      | None => crash (BadPointer (Zpos l))
      end
  end.

(** [p->field = e(p->...)]: read the object, write it back changed. *)
Definition update (p : ptr) (f : A -> A) : M (kstate K) unit :=
  a <- load p ;; store p (f a).

(** [kmalloc] of an object whose memory holds [a]. *)
Definition kmalloc (a : A) : M (kstate K) ptr :=
  s <- get ;;
  let n := nalloc s in
  let s' := set_nalloc (n + 1)%nat s in
  if kmalloc_fails n then put s' ;;; ret NULL
  else put (set_heap (<[Pos.of_succ_nat n := Live a]> (heap s')) s') ;;;
       ret (PTR (Pos.of_succ_nat n)).

Definition kfree (p : ptr) : M (kstate K) unit :=
  match p with
  | NULL => ret tt
  | ERR e => crash (BadPointer e)
  | PTR l =>
      s <- get ;;
      match heap s !! l with
      | Some (Live a) => put (set_heap (<[l := Freed a]> (heap s)) s)
      | Some (Freed _) => crash UseAfterFree
      | None => crash (BadPointer (Zpos l))
      end
  end.

(** Following the list link inside the object [p]: hash_for_each_rcu does
    it after its body has run. *)
Definition next_of (p : ptr) : M (kstate K) unit := load p ;;; ret tt.

Fixpoint hash_for_each (l : list loc) (body : ptr -> M (kstate K) unit)
    : M (kstate K) unit :=
  match l with
  | [] => ret tt
  | x :: l' => body (PTR x) ;;; next_of (PTR x) ;;; hash_for_each l' body
  end.
End access.
End heaps.

(** ** Field updates *)
Section setters.
Context `{K : KernelApi}.

Definition set_fid_count (c : Z) (g : thread_group K) : thread_group K :=
  {| tgid := tgid g; fid_count := c; threads := threads g; fibers := fibers g |}.
Definition set_threads (t : htab) (g : thread_group K) : thread_group K :=
  {| tgid := tgid g; fid_count := fid_count g; threads := t; fibers := fibers g |}.
Definition set_fibers (t : htab) (g : thread_group K) : thread_group K :=
  {| tgid := tgid g; fid_count := fid_count g; threads := threads g; fibers := t |}.

Definition set_current_fid (c : Z) (t : thread) : thread :=
  {| pid := pid t; current_fid := c |}.

Definition set_flock (b : bool) (f : fiber K) : fiber K :=
  {| fid := fid f; flock := b; flock_flags := flock_flags f;
     stack_base := stack_base f; stack_limit := stack_limit f;
     guaranteed_stack_bytes := guaranteed_stack_bytes f;
     context := context f; fls := fls f; info := info f |}.
Definition set_context (c : context_t) (f : fiber K) : fiber K :=
  {| fid := fid f; flock := flock f; flock_flags := flock_flags f;
     stack_base := stack_base f; stack_limit := stack_limit f;
     guaranteed_stack_bytes := guaranteed_stack_bytes f;
     context := c; fls := fls f; info := info f |}.
Definition set_fls (x : fls_t K) (f : fiber K) : fiber K :=
  {| fid := fid f; flock := flock f; flock_flags := flock_flags f;
     stack_base := stack_base f; stack_limit := stack_limit f;
     guaranteed_stack_bytes := guaranteed_stack_bytes f;
     context := context f; fls := x; info := info f |}.
Definition set_info (i : info_t) (f : fiber K) : fiber K :=
  {| fid := fid f; flock := flock f; flock_flags := flock_flags f;
     stack_base := stack_base f; stack_limit := stack_limit f;
     guaranteed_stack_bytes := guaranteed_stack_bytes f;
     context := context f; fls := fls f; info := i |}.

Definition set_regs (r : pt_regs) (f : fiber K) : fiber K :=
  set_context {| regs := r; fpu := fpu (context f) |} f.
Definition set_fpu (x : list Z) (f : fiber K) : fiber K :=
  set_context {| regs := regs (context f); fpu := x |} f.

Definition set_state (x : Z) (i : info_t) : info_t :=
  {| name := name i; parent := parent i; state := x;
     successful_activations := successful_activations i;
     failed_activations := failed_activations i;
     last_activation_time := last_activation_time i;
     total_running_time := total_running_time i;
     entry_point := entry_point i; param := param i |}.
Definition set_failed_activations (x : Z) (i : info_t) : info_t :=
  {| name := name i; parent := parent i; state := state i;
     successful_activations := successful_activations i;
     failed_activations := x;
     last_activation_time := last_activation_time i;
     total_running_time := total_running_time i;
     entry_point := entry_point i; param := param i |}.
Definition set_total_running_time (x : Z) (i : info_t) : info_t :=
  {| name := name i; parent := parent i; state := state i;
     successful_activations := successful_activations i;
     failed_activations := failed_activations i;
     last_activation_time := last_activation_time i;
     total_running_time := x;
     entry_point := entry_point i; param := param i |}.
End setters.

#[global] Arguments load : simpl never.
#[global] Arguments store : simpl never.
#[global] Arguments update : simpl never.
#[global] Arguments kmalloc : simpl never.
#[global] Arguments kfree : simpl never.
