(* ===== verification/Fiber.v ===== *)
(** * The fiber module's operations ([fibers/fiber.c])

    One definition per macro of [fiber.h] and per function of [fiber.c], in
    the order of the source.  The statements, the early returns and the
    pointer accesses are those of the C functions; [task_pt_regs(current)],
    [current->utime] and the FX registers are those of the [current] task of
    the state. *)
From S2P Require Import KState.
Local Open Scope prog_scope.

Section fiber.
Context `{K : KernelApi} `{U : !Uninit K}.
Abbreviation M := (M (kstate K)).

(** ** Atomics and locks *)
Definition spin_trylock (f : ptr) : M bool :=
  x <- load f ;;
  if flock x then ret false
  else store f (set_flock true x) ;;; ret true.

Definition spin_unlock (f : ptr) : M unit := update f (set_flock false).

(* spin_lock_irqsave(&plock): taking a lock that is held spins for ever *)
Definition lock_plock : M unit :=
  s <- get ;; if plock s then crash DeadLock else put (set_plock true s).
Definition unlock_plock : M unit := modify (set_plock false).

Definition atomic_inc_failed_activations (f : ptr) : M unit :=
  update f (fun x => set_info (set_failed_activations
    (i32 (failed_activations (info x) + 1)) (info x)) x).

(** ** The macros of fiber.h *)
Definition PREPARE_GENERICS (f tg : ptr) : M unit :=
  g <- load tg ;;
  let c := i32 (fid_count g + 1) in
  store tg (set_fid_count c g) ;;;
  update f (fun x =>
    {| fid := c; flock := false; flock_flags := flock_flags x;
       stack_base := 0; stack_limit := 0; guaranteed_stack_bytes := 0;
       context := context x; fls := fls x; info := info x |}).

Definition PREPARE_CONTEXT (f : ptr) : M unit :=
  s <- get ;;
  update f (set_regs (task_regs (current s))) ;;;
  update f (set_fpu (task_fx (current s))).

Definition PREPARE_FLS (f : ptr) : M unit :=
  update f (set_fls {| data := replicate (Z.to_nat FLS_MAX_SIZE) 0;
                       bmp := bitmap_zero |}).

(* snprintf of "%d" *)
Definition format_d (x : Z) : string := pretty x.

Definition PREPARE_INFO (f t : ptr) : M unit :=
  s <- get ;;
  th <- load t ;;
  update f (fun x => set_info
    {| name := format_d (fid x); parent := pid th; state := 0;
       successful_activations := 0; failed_activations := 0;
       last_activation_time := 0; total_running_time := 0;
       entry_point := ip (task_regs (current s));
       param := di (task_regs (current s)) |} x).

Definition ALLOC_STACK (f : ptr) (sb ss : Z) : M unit :=
  update f (fun x =>
    {| fid := fid x; flock := flock x; flock_flags := flock_flags x;
       stack_base := sb; stack_limit := u64 (sb + ss);
       guaranteed_stack_bytes := ss;
       context := context x; fls := fls x; info := info x |}).

Definition ALLOC_CONTEXT (f : ptr) (ep arg : Z) : M unit :=
  update f (fun x =>
    let sp' := u64 (stack_limit x - 8) in
    let r := regs (context x) in
    set_info
      {| name := name (info x); parent := parent (info x);
         state := state (info x);
         successful_activations := successful_activations (info x);
         failed_activations := failed_activations (info x);
         last_activation_time := last_activation_time (info x);
         total_running_time := total_running_time (info x);
         entry_point := ep; param := arg |}
      (set_regs {| ip := ep; di := arg; sp := sp'; bp := sp';
                   other_regs := other_regs r |} x)).

Definition ACTIVATE_FIBER_FROM_THREAD (f t : ptr) : M unit :=
  s <- get ;;
  th <- load t ;;
  update f (fun x => let i := info x in set_info
    {| name := name i; parent := parent i; state := pid th;
       successful_activations := u64 (successful_activations i + 1);
       failed_activations := failed_activations i;
       last_activation_time := utime (current s);
       total_running_time := total_running_time i;
       entry_point := entry_point i; param := param i |} x) ;;;
  fx <- load f ;;
  store t (set_current_fid (fid fx) th).

(** ** Allocation *)
Definition generate_group (id : Z) : M ptr :=
  tg <- kmalloc uninit_group ;;
  if is_null tg then ret (ERR (- ESRCH)) else
  store tg {| tgid := id; fid_count := NO_FIBERS;
              threads := hash_init; fibers := hash_init |} ;;;
  g <- load tg ;;
  match tg with
  | PTR l => modify (fun s => set_groups (hash_add_rcu (groups s) l (tgid g)) s)
  | _ => ret tt
  end ;;;
  ret tg.

Definition generate_thread (tg : ptr) (id : Z) : M ptr :=
  t <- kmalloc uninit_thread ;;
  if is_null t then ret (ERR (- ESRCH)) else
  store t {| pid := id; current_fid := NO_FIBERS |} ;;;
  th <- load t ;;
  match t with
  | PTR l => update tg (fun g => set_threads (hash_add_rcu (threads g) l (pid th)) g)
  | _ => ret tt
  end ;;;
  ret t.

Definition generate_fiber (tg t : ptr) : M ptr :=
  f <- kmalloc uninit_fiber ;;
  if is_null f then ret (ERR (- ESRCH)) else
  PREPARE_GENERICS f tg ;;;
  PREPARE_CONTEXT f ;;;
  PREPARE_FLS f ;;;
  PREPARE_INFO f t ;;;
  x <- load f ;;
  match f with
  | PTR l => update tg (fun g => set_fibers (hash_add_rcu (fibers g) l (fid x)) g)
  | _ => ret tt
  end ;;;
  ret f.

(** ** Lookup

    hash_for_each_possible_rcu walks the bucket of the key up to the first
    object whose key field is equal; the cursor is NULL when the walk ends. *)
Fixpoint find_obj {A} `{!HeapOf A} (key : A -> Z) (l : list loc) (id : Z) : M ptr :=
  match l with
  | [] => ret NULL
  | x :: l' =>
      o <- load (PTR x) ;;
      if key o =? id then ret (PTR x) else find_obj key l' id
  end.

Definition get_group (id : Z) : M ptr :=
  s <- get ;; find_obj tgid (hash_possible (groups s) id) id.

Definition get_thread (id : Z) (tg : ptr) : M ptr :=
  g <- load tg ;; find_obj pid (hash_possible (threads g) id) id.

Definition get_fiber (id : Z) (tg : ptr) : M ptr :=
  g <- load tg ;; find_obj fid (hash_possible (fibers g) id) id.

(** ** The requests *)
Definition do_convert_thread_to_fiber (tsk : task_struct) : M Z :=
  let id := task_tgid tsk in
  let tid := task_pid tsk in
  lock_plock ;;;
  tg0 <- get_group id ;;
  tg <- (if is_null tg0 then generate_group id else ret tg0) ;;
  unlock_plock ;;;
  t0 <- get_thread tid tg ;;
  if negb (is_null t0) then ret (- EEXIST) else
  t <- generate_thread tg tid ;;
  f <- generate_fiber tg t ;;
  locked <- spin_trylock f ;;
  x <- load f ;;
  if negb locked || negb (state (info x) =? 0) then
    atomic_inc_failed_activations f ;;;
    ret (- EAGAIN)
  else
  ACTIVATE_FIBER_FROM_THREAD f t ;;;
  y <- load f ;;
  ret (fid y).

Definition do_create_fiber (tsk : task_struct) (sb ss ep arg : Z) : M Z :=
  let id := task_tgid tsk in
  let tid := task_pid tsk in
  tg <- get_group id ;;
  if is_null tg then ret (- ESRCH) else
  t <- get_thread tid tg ;;
  if is_null t then ret (- ESRCH) else
  f <- generate_fiber tg t ;;
  ALLOC_STACK f sb ss ;;;
  ALLOC_CONTEXT f ep arg ;;;
  y <- load f ;;
  ret (fid y).

(* total_running_time += current->utime - last_activation_time *)
Definition account_running_time (now : Z) (x : fiber K) : fiber K :=
  set_info (set_total_running_time
    (u64 (total_running_time (info x) + (now - last_activation_time (info x))))
    (info x)) x.

Definition do_switch_to_fiber (tsk : task_struct) (next_fiber : Z) : M Z :=
  let id := task_tgid tsk in
  let tid := task_pid tsk in
  tg <- get_group id ;;
  if is_null tg then ret (- ESRCH) else
  t <- get_thread tid tg ;;
  if is_null t then ret (- ESRCH) else
  new_f <- get_fiber next_fiber tg ;;
  if is_null new_f then ret (- ESRCH) else
  locked <- spin_trylock new_f ;;
  x <- load new_f ;;
  if negb locked || negb (state (info x) =? 0) then
    atomic_inc_failed_activations new_f ;;;
    ret (- EAGAIN)
  else
  th <- load t ;;
  old_f <- get_fiber (current_fid th) tg ;;
  if is_null old_f then ret (- ESRCH) else
  ACTIVATE_FIBER_FROM_THREAD new_f t ;;;
  s <- get ;;
  update old_f (set_regs (task_regs (current s))) ;;;
  update old_f (set_fpu (task_fx (current s))) ;;;
  update old_f (account_running_time (utime (current s))) ;;;
  update old_f (fun o => set_info (set_state 0 (info o)) o) ;;;
  spin_unlock old_f ;;;
  n <- load new_f ;;
  modify (fun s => set_current (set_task_cpu (regs (context n))
                                 (task_fx (current s)) (current s)) s) ;;;
  modify (fun s => set_current (set_task_cpu (task_regs (current s))
                                 (fpu (context n)) (current s)) s) ;;;
  ret SUCCESS.

(** The lookups shared (as repeated text) by the four FLS requests: the
    group, the thread and its current fiber; [None] when the source returns
    [-ESRCH]. *)
Definition current_fiber (tsk : task_struct) : M (option ptr) :=
  tg <- get_group (task_tgid tsk) ;;
  if is_null tg then ret None else
  t <- get_thread (task_pid tsk) tg ;;
  if is_null t then ret None else
  th <- load t ;;
  f <- get_fiber (current_fid th) tg ;;
  if is_null f then ret None else ret (Some f).

Definition change_bmp (i : Z) (x : fls_t K) : fls_t K :=
  {| data := data x; bmp := change_bit i (bmp x) |}.

Definition do_fls_alloc (tsk : task_struct) : M Z :=
  o <- current_fiber tsk ;;
  match o with
  | None => ret (- ESRCH)
  | Some f =>
      x <- load f ;;
      let idx := find_first_zero_bit (bmp (fls x)) FLS_MAX_SIZE in
      if idx <? FLS_MAX_SIZE then
        update f (fun x => set_fls (change_bmp idx (fls x)) x) ;;;
        ret idx
      else ret (- EINVAL)
  end.

Definition do_fls_get_value (tsk : task_struct) (index : Z) : M Z :=
  if (index <? 0) || (index >=? FLS_MAX_SIZE) then ret (- ESRCH) else
  o <- current_fiber tsk ;;
  match o with
  | None => ret (- ESRCH)
  | Some f =>
      x <- load f ;;
      if negb (test_bit index (bmp (fls x))) then ret (- EACCES) else
      match data (fls x) !! Z.to_nat index with
      | Some v => ret v
      | None => crash (OutOfBounds index)
      end
  end.

Definition do_fls_free (tsk : task_struct) (index : Z) : M Z :=
  if (index <? 0) || (index >=? FLS_MAX_SIZE) then ret (- EINVAL) else
  o <- current_fiber tsk ;;
  match o with
  | None => ret (- ESRCH)
  | Some f =>
      x <- load f ;;
      if negb (test_bit index (bmp (fls x))) then ret (- EACCES) else
      update f (fun x => set_fls (change_bmp index (fls x)) x) ;;;
      ret SUCCESS
  end.

Definition do_fls_set_value (tsk : task_struct) (index value : Z) : M Z :=
  if (index <? 0) || (index >=? FLS_MAX_SIZE) then ret (- EINVAL) else
  o <- current_fiber tsk ;;
  match o with
  | None => ret (- ESRCH)
  | Some f =>
      x <- load f ;;
      if negb (test_bit index (bmp (fls x))) then ret (- EACCES) else
      if decide (Z.to_nat index < length (data (fls x)))%nat then
        update f (fun x => set_fls
          {| data := <[Z.to_nat index := value]> (data (fls x));
             bmp := bmp (fls x) |} x) ;;;
        ret index
      else crash (OutOfBounds index)
  end.

(** ** Cleanup *)
Definition hash_del (set : htab -> thread_group K -> thread_group K)
    (tbl : thread_group K -> htab) (tg p : ptr) : M unit :=
  match p with
  | PTR l => update tg (fun g => set (hash_del_rcu (tbl g) l) g)
  | _ => ret tt
  end.

Definition cleanup_process (id : Z) : M Z :=
  tg <- get_group id ;;
  if is_null tg then ret 0 else
  g <- load tg ;;
  hash_for_each (A := thread) (hash_each (threads g)) (fun t =>
    hash_del set_threads threads tg t ;;; kfree (A := thread) t) ;;;
  g <- load tg ;;
  hash_for_each (A := fiber K) (hash_each (fibers g)) (fun f =>
    hash_del set_fibers fibers tg f ;;; kfree (A := fiber K) f) ;;;
  match tg with
  | PTR l => modify (fun s => set_groups (hash_del_rcu (groups s) l) s)
  | _ => ret tt
  end ;;;
  kfree (A := thread_group K) tg ;;;
  ret SUCCESS.

Definition cleanup_all : M Z :=
  s <- get ;;
  hash_for_each (A := thread_group K) (hash_each (groups s)) (fun tg =>
    g <- load tg ;;
    cleanup_process (tgid g) ;;;
    ret tt) ;;;
  ret SUCCESS.
End fiber.
