(* ===== verification/Device.v ===== *)
(** * The character device ([fibers/device.c], [fibers/include/device.h])

    The request numbers, the layout of the argument structures in user memory
    ([fib_args_t], [fls_args_t] of fiber.h), and [fibers_ioctl], which copies
    the arguments in, calls the operation of Fiber.v and returns its result. *)
From S2P Require Import KState Fiber.
Local Open Scope prog_scope.

(** ** Request numbers: _IO, _IOR and _IOW of [asm-generic/ioctl.h] *)
Definition IOC (dir type nr size : Z) : Z :=
  Z.lor (Z.shiftl dir 30) (Z.lor (Z.shiftl size 16) (Z.lor (Z.shiftl type 8) nr)).
Definition IO (type nr : Z) : Z := IOC 0 type nr 0.
Definition IOW (type nr size : Z) : Z := IOC 1 type nr size.
Definition IOR (type nr size : Z) : Z := IOC 2 type nr size.

Definition sizeof_pid_t : Z := 4.
Definition sizeof_long : Z := 8.
Definition sizeof_fib_args_t : Z := 32.
Definition sizeof_fls_args_t : Z := 16.

Definition IOCTL_NUMBER : Z := 107. (* 'k' *)
Definition IOCTL_CONVERT_THREAD_TO_FIBER : Z := IO IOCTL_NUMBER 0.
Definition IOCTL_CREATE_FIBER : Z := IOW IOCTL_NUMBER 1 sizeof_fib_args_t.
Definition IOCTL_SWITCH_TO_FIBER : Z := IOW IOCTL_NUMBER 2 sizeof_pid_t.
Definition IOCTL_FLS_ALLOC : Z := IO IOCTL_NUMBER 3.
Definition IOCTL_FLS_GET_VALUE : Z := IOR IOCTL_NUMBER 4 sizeof_long.
Definition IOCTL_FLS_FREE : Z := IOW IOCTL_NUMBER 5 sizeof_long.
Definition IOCTL_FLS_SET_VALUE : Z := IOW IOCTL_NUMBER 6 sizeof_fls_args_t.

(** ** Argument structures *)
Record fib_args_t := {
  fa_stack_base : Z;
  fa_stack_size : Z;
  fa_entry_point : Z;
  fa_params : Z;
}.

Record fls_args_t := { idx : Z; value : Z }.

Definition field (off n : nat) (bs : list Z) : Z := le_value (take n (drop off bs)).

Definition decode_fib_args (bs : list Z) : fib_args_t :=
  {| fa_stack_base := field 0 8 bs; fa_stack_size := field 8 8 bs;
     fa_entry_point := field 16 8 bs; fa_params := field 24 8 bs |}.
Definition encode_fib_args (a : fib_args_t) : list Z :=
  le_bytes 8 (fa_stack_base a) ++ le_bytes 8 (fa_stack_size a) ++
  le_bytes 8 (fa_entry_point a) ++ le_bytes 8 (fa_params a).

Definition decode_fls_args (bs : list Z) : fls_args_t :=
  {| idx := i64 (field 0 8 bs); value := i64 (field 8 8 bs) |}.
Definition encode_fls_args (a : fls_args_t) : list Z :=
  le_bytes 8 (idx a) ++ le_bytes 8 (value a).

Definition decode_pid (bs : list Z) : Z := i32 (field 0 4 bs).

Lemma field_app (n : nat) x bs : field 0 n (le_bytes n x ++ bs) = x mod 256 ^ Z.of_nat n.
Proof.
  unfold field. rewrite drop_0, take_app_length' by (by rewrite length_le_bytes).
  apply le_value_bytes.
Qed.

Lemma field_u64 x bs : field 0 8 (le_bytes 8 x ++ bs) = u64 x.
Proof. apply field_app. Qed.

Lemma field_u64_end x : field 0 8 (le_bytes 8 x) = u64 x.
Proof. rewrite <- (app_nil_r (le_bytes 8 x)). apply field_u64. Qed.

Lemma field_skip off n x bs : field (8 + off) n (le_bytes 8 x ++ bs) = field off n bs.
Proof. reflexivity. Qed.

Create Rewrite HintDb fields.
#[export] Hint Rewrite field_u64 field_u64_end (field_skip 0) (field_skip 8) (field_skip 16)
  : fields.

Lemma decode_encode_fls_args a :
  in_i64 (idx a) -> in_i64 (value a) -> decode_fls_args (encode_fls_args a) = a.
Proof.
  intros Hi Hv. unfold decode_fls_args, encode_fls_args.
  autorewrite with fields. rewrite !i64_u64 by done. by destruct a.
Qed.

Lemma decode_encode_fib_args a :
  in_u64 (fa_stack_base a) -> in_u64 (fa_stack_size a) ->
  in_u64 (fa_entry_point a) -> in_u64 (fa_params a) ->
  decode_fib_args (encode_fib_args a) = a.
Proof.
  intros H1 H2 H3 H4. unfold decode_fib_args, encode_fib_args.
  autorewrite with fields. rewrite !u64_small by assumption. by destruct a.
Qed.

(** A 32-bit identifier read from the low half of a 64-bit little-endian slot. *)
Lemma decode_pid_slot x : in_i32 x -> decode_pid (le_bytes 8 x) = x.
Proof.
  intros Hx. unfold decode_pid, field. rewrite drop_0, le_value_take_bytes by lia.
  by apply i32_u32.
Qed.

Section device.
Context `{K : KernelApi} `{U : !Uninit K}.
Abbreviation M := (M (kstate K)).

(** The bytes copied in, or [None] when some could not be. *)
Definition copy_in (p n : Z) : M (option (list Z)) :=
  s <- get ;;
  let '(r, bs) := copy_from_user (user s) p n in
  ret (if r =? 0 then Some bs else None).

Definition copy_out (p : Z) (bs : list Z) : M Z :=
  s <- get ;;
  let '(r, m) := copy_to_user (user s) p bs in
  put (set_user m s) ;;; ret r.

(** [current], as the pointer the requests receive. *)
Definition get_current : M task_struct := s <- get ;; ret (current s).

Definition ioctl_create_fiber (args : Z) : M Z :=
  if negb (access_ok args sizeof_fib_args_t) then ret (- EINVAL) else
  o <- copy_in args sizeof_fib_args_t ;;
  match o with
  | None => ret (- EINVAL)
  | Some bs =>
      let a := decode_fib_args bs in
      tsk <- get_current ;;
      do_create_fiber tsk (fa_stack_base a) (fa_stack_size a) (fa_entry_point a) (fa_params a)
  end.

(* a failed access_ok only sets the error, which is overwritten *)
Definition ioctl_switch_to_fiber (args : Z) : M Z :=
  o <- copy_in args sizeof_pid_t ;;
  match o with
  | None => ret (- EINVAL)
  | Some bs => tsk <- get_current ;; do_switch_to_fiber tsk (decode_pid bs)
  end.

Definition with_fls_args (args : Z) (k : fls_args_t -> M Z) : M Z :=
  if negb (access_ok args sizeof_fls_args_t) then ret (- EINVAL) else
  o <- copy_in args sizeof_fls_args_t ;;
  match o with
  | None => ret (- EINVAL)
  | Some bs => k (decode_fls_args bs)
  end.

Definition ioctl_fls_get_value (args : Z) : M Z :=
  with_fls_args args (fun a =>
    tsk <- get_current ;;
    read_value <- do_fls_get_value tsk (idx a) ;;
    r <- copy_out (u64 (value a)) (le_bytes 8 read_value) ;;
    ret (if r =? 0 then 0 else - EINVAL)).

Definition fibers_ioctl (cmd args : Z) : M Z :=
  if cmd =? IOCTL_CONVERT_THREAD_TO_FIBER then
    tsk <- get_current ;; do_convert_thread_to_fiber tsk
  else if cmd =? IOCTL_CREATE_FIBER then ioctl_create_fiber args
  else if cmd =? IOCTL_SWITCH_TO_FIBER then ioctl_switch_to_fiber args
  else if cmd =? IOCTL_FLS_ALLOC then tsk <- get_current ;; do_fls_alloc tsk
  else if cmd =? IOCTL_FLS_GET_VALUE then ioctl_fls_get_value args
  else if cmd =? IOCTL_FLS_FREE then
    with_fls_args args (fun a => tsk <- get_current ;; do_fls_free tsk (idx a))
  else if cmd =? IOCTL_FLS_SET_VALUE then
    with_fls_args args (fun a =>
      tsk <- get_current ;; do_fls_set_value tsk (idx a) (value a))
  else ret (- EPERM).

(** ** The other file operations.  [got] is try_module_get's answer. *)
Definition fibers_open (got : bool) : M Z :=
  if negb got then ret (- ENOENT) else
  modify (fun s => set_module_refs (module_refs s + 1) s) ;;;
  ret SUCCESS.

Definition module_put : M unit := modify (fun s => set_module_refs (module_refs s - 1) s).

Definition fibers_dummy_read (len : Z) : Z := 0.
Definition fibers_dummy_write (len : Z) : Z := len.

Definition fibers_release : M Z :=
  tsk <- get_current ;;
  cleanup_process (task_tgid tsk) ;;;
  module_put ;;;
  ret SUCCESS.
End device.
