(* ===== verification/FiberSpec.v ===== *)
(** * What the fiber module promises: an abstract machine without pointers

    The abstract state is three finite maps: the fiber counter of each process
    that uses the module, the current fiber of each of its converted threads,
    and the fibers, by (tgid, fid).  Each request of [fiber.c] has a
    specification here, a function that gives the value returned, the new
    abstract state and the CPU state of the calling task.  FiberRefine.v proves that the
    C functions, on hash tables and heap objects, implement these. *)
From S2P Require Import KState Fiber.

(** ** Fiber-local storage of one fiber *)
Section fls.
Context `{K : KernelApi}.

Definition fls_init : fls_t K :=
  {| data := replicate (Z.to_nat FLS_MAX_SIZE) 0; bmp := bitmap_zero |}.

Definition fls_index_ok (i : Z) : bool := negb ((i <? 0) || (i >=? FLS_MAX_SIZE)).

(** The first index that is not allocated. *)
Definition fls_alloc (x : fls_t K) : Z * fls_t K :=
  let i := find_first_zero_bit (bmp x) FLS_MAX_SIZE in
  if i <? FLS_MAX_SIZE then (i, change_bmp i x) else (- EINVAL, x).

Definition fls_get (i : Z) (x : fls_t K) : Z :=
  if test_bit i (bmp x) then default 0 (data x !! Z.to_nat i) else - EACCES.

Definition fls_free (i : Z) (x : fls_t K) : Z * fls_t K :=
  if test_bit i (bmp x) then (SUCCESS, change_bmp i x) else (- EACCES, x).

Definition fls_set (i v : Z) (x : fls_t K) : Z * fls_t K :=
  if test_bit i (bmp x)
  then (i, {| data := <[Z.to_nat i := v]> (data x); bmp := bmp x |})
  else (- EACCES, x).
End fls.

Section spec.
Context `{K : KernelApi} `{U : !Uninit K}.

Record astate := {
  agroups : gmap Z Z;
  athreads : gmap (Z * Z) Z;
  afibers : gmap (Z * Z) (fiber K);
}.

Definition ainit : astate := {| agroups := ∅; athreads := ∅; afibers := ∅ |}.

Definition upd_fiber (k : Z * Z) (f : fiber K) (a : astate) : astate :=
  {| agroups := agroups a; athreads := athreads a; afibers := <[k := f]> (afibers a) |}.
Definition upd_thread (k : Z * Z) (c : Z) (a : astate) : astate :=
  {| agroups := agroups a; athreads := <[k := c]> (athreads a); afibers := afibers a |}.
Definition upd_group (g c : Z) (a : astate) : astate :=
  {| agroups := <[g := c]> (agroups a); athreads := athreads a; afibers := afibers a |}.

(** ** Effects on one fiber *)
Definition new_fiber (id : Z) (cur : task_struct) : fiber K :=
  {| fid := id; flock := false; flock_flags := flock_flags uninit_fiber;
     stack_base := 0; stack_limit := 0; guaranteed_stack_bytes := 0;
     context := {| regs := task_regs cur; fpu := task_fx cur |};
     fls := fls_init;
     info := {| name := format_d id; parent := task_pid cur; state := 0;
       successful_activations := 0; failed_activations := 0;
       last_activation_time := 0; total_running_time := 0;
       entry_point := ip (task_regs cur); param := di (task_regs cur) |} |}.

Definition activate (p now : Z) (x : fiber K) : fiber K :=
  let i := info x in set_info
    {| name := name i; parent := parent i; state := p;
       successful_activations := u64 (successful_activations i + 1);
       failed_activations := failed_activations i;
       last_activation_time := now;
       total_running_time := total_running_time i;
       entry_point := entry_point i; param := param i |} x.

Definition count_failure (x : fiber K) : fiber K :=
  set_info (set_failed_activations (i32 (failed_activations (info x) + 1)) (info x)) x.

(** Suspend: save the CPU state, account the time, give the fiber up. *)
Definition suspend (cur : task_struct) (x : fiber K) : fiber K :=
  let x := set_fpu (task_fx cur) (set_regs (task_regs cur) x) in
  let x := account_running_time (utime cur) x in
  set_flock false (set_info (set_state 0 (info x)) x).

(** A fresh fiber that will start in [ep] with argument [arg] on its stack. *)
Definition prepare (sb ss ep arg : Z) (x : fiber K) : fiber K :=
  let sl := u64 (sb + ss) in
  let sp' := u64 (sl - 8) in
  {| fid := fid x; flock := flock x; flock_flags := flock_flags x;
     stack_base := sb; stack_limit := sl; guaranteed_stack_bytes := ss;
     context :=
       {| regs := {| ip := ep; di := arg; sp := sp'; bp := sp';
                     other_regs := other_regs (regs (context x)) |};
          fpu := fpu (context x) |};
     fls := fls x;
     info := {| name := name (info x); parent := parent (info x);
       state := state (info x);
       successful_activations := successful_activations (info x);
       failed_activations := failed_activations (info x);
       last_activation_time := last_activation_time (info x);
       total_running_time := total_running_time (info x);
       entry_point := ep; param := arg |} |}.

Definition resume (x : fiber K) (cur : task_struct) : task_struct :=
  set_task_cpu (regs (context x)) (fpu (context x)) cur.

(** ** The requests *)
Definition key (cur : task_struct) : Z * Z := (task_tgid cur, task_pid cur).

(** The identifier the next fiber of a process gets. *)
Definition next_fid (g : Z) (a : astate) : Z :=
  i32 (default NO_FIBERS (agroups a !! g) + 1).

Definition spec_convert (cur : task_struct) (a : astate) : Z * astate :=
  let g := task_tgid cur in
  match athreads a !! key cur with
  | Some _ => (- EEXIST, a)
  | None =>
      let id := next_fid g a in
      let f := activate (task_pid cur) (utime cur) (set_flock true (new_fiber id cur)) in
      (id, upd_fiber (g, id) f (upd_thread (key cur) id (upd_group g id a)))
  end.

Definition spec_create (cur : task_struct) (sb ss ep arg : Z) (a : astate) : Z * astate :=
  let g := task_tgid cur in
  match athreads a !! key cur with
  | None => (- ESRCH, a)
  | Some _ =>
      let id := next_fid g a in
      (id, upd_fiber (g, id) (prepare sb ss ep arg (new_fiber id cur)) (upd_group g id a))
  end.

(** The switch proper, once the new fiber is locked: the thread takes the
    new fiber, the old one is suspended, the CPU state is the new one's. *)
Definition hand_over (cur : task_struct) (old new : Z) (n : fiber K) (a : astate)
    : Z * astate * task_struct :=
  let g := task_tgid cur in
  let a1 := upd_thread (key cur) new
              (upd_fiber (g, new) (activate (task_pid cur) (utime cur) n) a) in
  match afibers a1 !! (g, old) with
  | None => (- ESRCH, a, cur)
  | Some o =>
      let a2 := upd_fiber (g, old) (suspend cur o) a1 in
      match afibers a2 !! (g, new) with
      | None => (- ESRCH, a, cur)
      | Some n' => (SUCCESS, a2, resume n' cur)
      end
  end.

Definition spec_switch (cur : task_struct) (next : Z) (a : astate)
    : Z * astate * task_struct :=
  let g := task_tgid cur in
  match athreads a !! key cur with
  | None => (- ESRCH, a, cur)
  | Some c =>
      match afibers a !! (g, next) with
      | None => (- ESRCH, a, cur)
      | Some f =>
          let f1 := set_flock true f in
          if flock f || negb (state (info f) =? 0)
          then (- EAGAIN, upd_fiber (g, next) (count_failure f1) a, cur)
          else hand_over cur c next f1 (upd_fiber (g, next) f1 a)
      end
  end.

(** The fiber the calling thread is running. *)
Definition acurrent (cur : task_struct) (a : astate) : option (Z * Z * fiber K) :=
  match athreads a !! key cur with
  | None => None
  | Some c =>
      match afibers a !! (task_tgid cur, c) with
      | None => None
      | Some f => Some ((task_tgid cur, c), f)
      end
  end.

Definition on_current (cur : task_struct) (op : fls_t K -> Z * fls_t K) (a : astate)
    : Z * astate :=
  match acurrent cur a with
  | None => (- ESRCH, a)
  | Some (k, f) => let '(r, x) := op (fls f) in (r, upd_fiber k (set_fls x f) a)
  end.

Definition spec_fls_alloc (cur : task_struct) (a : astate) : Z * astate :=
  on_current cur fls_alloc a.

Definition spec_fls_get (cur : task_struct) (i : Z) (a : astate) : Z :=
  if fls_index_ok i then
    match acurrent cur a with None => - ESRCH | Some (_, f) => fls_get i (fls f) end
  else - ESRCH.

Definition spec_fls_free (cur : task_struct) (i : Z) (a : astate) : Z * astate :=
  if fls_index_ok i then on_current cur (fls_free i) a else (- EINVAL, a).

Definition spec_fls_set (cur : task_struct) (i v : Z) (a : astate) : Z * astate :=
  if fls_index_ok i then on_current cur (fls_set i v) a else (- EINVAL, a).

(** A process leaves: its counter, its threads and its fibers go. *)
Definition spec_cleanup (g : Z) (a : astate) : astate :=
  {| agroups := delete g (agroups a);
     athreads := filter (fun p => p.1.1 <> g) (athreads a);
     afibers := filter (fun p => p.1.1 <> g) (afibers a) |}.
End spec.
Arguments astate K : clear implicits.
