(* ===== verification/FiberRefine.v ===== *)
(** * The fiber module implements its specification

    [rep s a m]: the heap and hash tables of [s] hold the abstract state [a],
    at the addresses [m] gives for groups, threads and fibers.  For every
    request of [fiber.c] a theorem says that, started in a represented state,
    the C function returns (no pointer fault, no deadlock) the value and
    reaches the state of its specification. *)
From S2P Require Import KState Fiber FiberSpec.
Local Open Scope prog_scope.

Section refine.
Context `{K : KernelApi} `{L : !KernelLaws K} `{U : !Uninit K}.
Implicit Types (s : kstate K) (a : astate K).

(** ** Heap accesses *)
Section heap.
Context {A : Type} `{HA : !HeapOf A}.

Lemma wp_load l (x : A) (Q : A -> kstate K -> Prop) s :
  heap s !! l = Some (Live x) -> Q x s -> wp (load (PTR l)) Q s.
Proof. intros H HQ. apply wp_bind, wp_get. by rewrite H. Qed.

Lemma wp_store l (x y : A) (Q : unit -> kstate K -> Prop) s :
  heap s !! l = Some (Live x) -> Q tt (set_heap (<[l := Live y]> (heap s)) s) ->
  wp (store (PTR l) y) Q s.
Proof. intros H HQ. apply wp_bind, wp_get. rewrite H. by apply wp_put. Qed.

Lemma wp_update l (x : A) h (Q : unit -> kstate K -> Prop) s :
  heap s !! l = Some (Live x) -> Q tt (set_heap (<[l := Live (h x)]> (heap s)) s) ->
  wp (update (PTR l) h) Q s.
Proof.
  intros H HQ. apply wp_bind. eapply wp_load; [done|]. by eapply wp_store.
Qed.
End heap.

(** ** Tables *)
Definition tab_is (t : htab) (f : Z -> option loc) : Prop :=
  NoDup (hash_elems t).*1 /\ forall k l, (k, l) ∈ hash_elems t <-> f k = Some l.

Lemma tab_is_init f : (forall k, f k = None) -> tab_is hash_init f.
Proof.
  intros Hf. unfold tab_is. rewrite hash_elems_init. split; [constructor|].
  intros k l. rewrite Hf. set_solver.
Qed.

Lemma tab_is_ext t f g : (forall k, f k = g k) -> tab_is t f -> tab_is t g.
Proof. intros Hfg [H1 H2]. split; [done|]. intros. by rewrite H2, Hfg. Qed.

Lemma tab_is_add t f g k l :
  tab_is t f -> f k = None -> g k = Some l -> (forall k', k' <> k -> g k' = f k') ->
  tab_is (hash_add_rcu t l k) g.
Proof.
  intros [Hnd Hin] Hk Hg Hne. split.
  - rewrite (hash_elems_add t l k). cbn. apply NoDup_cons. split; [|done].
    intros ([k' l'] & -> & Hl)%list_elem_of_fmap. apply Hin in Hl. cbn in Hk. congruence.
  - intros k' l'. rewrite (hash_elems_add t l k), elem_of_cons, Hin.
    destruct (decide (k' = k)) as [->|Hkk].
    + rewrite Hg, Hk. naive_solver.
    + rewrite (Hne k') by done. naive_solver.
Qed.

Lemma tab_is_possible t f k l : tab_is t f -> f k = Some l -> l ∈ hash_possible t k.
Proof. intros [_ H] Hf. apply hash_possible_complete, H, Hf. Qed.

Lemma tab_is_sound t f k l :
  tab_is t f -> l ∈ hash_possible t k -> exists k', f k' = Some l.
Proof. intros [_ H] [k' Hk]%hash_possible_sound. exists k'. by apply H. Qed.

(** ** Representation *)
Record layout := {
  G : gmap Z loc;
  T : gmap (Z * Z) loc;
  F : gmap (Z * Z) loc;
}.

Definition injective {A} `{Countable A} (m : gmap A loc) : Prop :=
  forall k1 k2 l, m !! k1 = Some l -> m !! k2 = Some l -> k1 = k2.

Definition fiber_ok (k : Z * Z) (f : fiber K) : Prop :=
  fid f = k.2 /\ length (data (fls f)) = Z.to_nat FLS_MAX_SIZE.

Definition group_ok (m : layout) (id c : Z) (g : thread_group K) : Prop :=
  tgid g = id /\ fid_count g = c /\
  tab_is (threads g) (fun k => T m !! (id, k)) /\
  tab_is (fibers g) (fun k => F m !! (id, k)).

Definition fresh_above {A} (n : nat) (h : gmap loc (obj A)) : Prop :=
  forall i, (n <= i)%nat -> h !! Pos.of_succ_nat i = None.

Record rep s a (m : layout) : Prop := {
  rep_groups : tab_is (groups s) (fun k => G m !! k);
  rep_group id l : G m !! id = Some l ->
    exists g c, heap_groups s !! l = Some (Live g) /\
      agroups a !! id = Some c /\ group_ok m id c g;
  rep_thread k l : T m !! k = Some l ->
    exists c, heap_threads s !! l = Some (Live {| pid := k.2; current_fid := c |}) /\
      athreads a !! k = Some c;
  rep_fiber k l : F m !! k = Some l ->
    exists f, heap_fibers s !! l = Some (Live f) /\ afibers a !! k = Some f /\ fiber_ok k f;
  rep_group_dom id : is_Some (agroups a !! id) -> is_Some (G m !! id);
  rep_thread_dom k : is_Some (athreads a !! k) -> is_Some (T m !! k) /\ is_Some (G m !! k.1);
  rep_fiber_dom k : is_Some (afibers a !! k) -> is_Some (F m !! k) /\ is_Some (G m !! k.1);
  rep_inj_G : injective (G m);
  rep_inj_T : injective (T m);
  rep_inj_F : injective (F m);
  rep_fresh_G : fresh_above (nalloc s) (heap_groups s);
  rep_fresh_T : fresh_above (nalloc s) (heap_threads s);
  rep_fresh_F : fresh_above (nalloc s) (heap_fibers s);
}.

(** Addresses in use are below the allocation counter. *)
Lemma fresh_above_ne {A} n (h : gmap loc (obj A)) l o :
  fresh_above n h -> h !! l = Some o -> l <> Pos.of_succ_nat n.
Proof. intros Hf Hl ->. rewrite Hf in Hl by lia. done. Qed.

Lemma fresh_above_alloc {A} n (h : gmap loc (obj A)) o :
  fresh_above n h -> fresh_above (n + 1) (<[Pos.of_succ_nat n := o]> h).
Proof.
  intros Hf i Hi. rewrite lookup_insert_ne; [apply Hf; lia|].
  intros ?%SuccNat2Pos.inj. lia.
Qed.

Lemma fresh_above_mono {A} n n' (h : gmap loc (obj A)) :
  fresh_above n h -> (n <= n')%nat -> fresh_above n' h.
Proof. intros Hf Hn i Hi. apply Hf. lia. Qed.

Lemma fresh_above_insert {A} n (h : gmap loc (obj A)) l o o' :
  fresh_above n h -> h !! l = Some o -> fresh_above n (<[l := o']> h).
Proof.
  intros Hf Hl i Hi. rewrite lookup_insert_ne; [by apply Hf|].
  intros ->. rewrite Hf in Hl; [done|lia].
Qed.

(** ** Lookups *)
Lemma wp_find_obj {A} `{!HeapOf A} (key : A -> Z) (ls : list loc) id
    (f : Z -> option loc) (Q : ptr -> kstate K -> Prop) s :
  (forall l, l ∈ ls -> exists o, heap s !! l = Some (Live o) /\ f (key o) = Some l) ->
  (forall l, f id = Some l -> l ∈ ls) ->
  (forall k1 k2 l, f k1 = Some l -> f k2 = Some l -> k1 = k2) ->
  Q (ptr_of_opt (f id)) s -> wp (find_obj key ls id) Q s.
Proof.
  intros Hs Hc Hinj HQ. induction ls as [|l ls IH]; cbn.
  - destruct (f id) as [l|]; [|done]. specialize (Hc l). set_solver.
  - destruct (Hs l) as (o & Ho & Hf); [set_solver|].
    apply wp_bind. eapply wp_load; [done|].
    destruct (Z.eqb_spec (key o) id) as [<-|Hne].
    + apply wp_ret. by rewrite Hf in HQ.
    + apply IH; [set_solver|]. intros l' Hl'.
      apply Hc in Hl' as Hin. apply elem_of_cons in Hin as [->|]; [|done].
      exfalso. eauto.
Qed.

Lemma rep_get_group s a m id (Q : ptr -> kstate K -> Prop) :
  rep s a m -> Q (ptr_of_opt (G m !! id)) s -> wp (get_group id) Q s.
Proof.
  intros R HQ. apply wp_bind, wp_get.
  pose proof (rep_groups _ _ _ R) as Ht.
  apply wp_find_obj with (f := fun k => G m !! k); [..|done].
  - intros l Hl. destruct (tab_is_sound _ _ _ _ Ht Hl) as [k Hk].
    destruct (rep_group _ _ _ R _ _ Hk) as (g & c & ? & _ & <- & _). eauto.
  - intros l Hl. exact (tab_is_possible _ _ _ _ Ht Hl).
  - apply R.
Qed.

Lemma rep_get_thread s a m id gl tid (Q : ptr -> kstate K -> Prop) :
  rep s a m -> G m !! id = Some gl -> Q (ptr_of_opt (T m !! (id, tid))) s ->
  wp (get_thread tid (PTR gl)) Q s.
Proof.
  intros R HG HQ.
  destruct (rep_group _ _ _ R _ _ HG) as (g & c & Hg & _ & _ & _ & Ht & _).
  apply wp_bind. eapply wp_load; [done|].
  apply wp_find_obj with (f := fun k => T m !! (id, k)); [..|done].
  - intros l Hl. destruct (tab_is_sound _ _ _ _ Ht Hl) as [k Hk].
    destruct (rep_thread _ _ _ R _ _ Hk) as (c' & ? & ?). eauto.
  - intros l Hl. exact (tab_is_possible _ _ _ _ Ht Hl).
  - intros k1 k2 l H1 H2. pose proof (rep_inj_T _ _ _ R _ _ _ H1 H2). congruence.
Qed.

Lemma rep_get_fiber s a m id gl k (Q : ptr -> kstate K -> Prop) :
  rep s a m -> G m !! id = Some gl -> Q (ptr_of_opt (F m !! (id, k))) s ->
  wp (get_fiber k (PTR gl)) Q s.
Proof.
  intros R HG HQ.
  destruct (rep_group _ _ _ R _ _ HG) as (g & c & Hg & _ & _ & _ & _ & Ht).
  apply wp_bind. eapply wp_load; [done|].
  apply wp_find_obj with (f := fun k => F m !! (id, k)); [..|done].
  - intros l Hl. destruct (tab_is_sound _ _ _ _ Ht Hl) as [k' Hk].
    destruct (rep_fiber _ _ _ R _ _ Hk) as (f & ? & _ & Hf & _). cbn in Hf.
    exists f. by rewrite Hf.
  - intros l Hl. exact (tab_is_possible _ _ _ _ Ht Hl).
  - intros k1 k2 l H1 H2. pose proof (rep_inj_F _ _ _ R _ _ _ H1 H2). congruence.
Qed.

(** ** Where the objects of the abstract state are *)
Lemma rep_fiber_at s a m k f :
  rep s a m -> afibers a !! k = Some f ->
  exists l, F m !! k = Some l /\ heap_fibers s !! l = Some (Live f) /\ fiber_ok k f.
Proof.
  intros R Hk. destruct (rep_fiber_dom _ _ _ R k) as [[l Hl] _]; [by rewrite Hk|].
  destruct (rep_fiber _ _ _ R _ _ Hl) as (f' & ? & ? & ?).
  simplify_eq. eauto.
Qed.

Lemma rep_thread_at s a m k c :
  rep s a m -> athreads a !! k = Some c ->
  exists l gl, T m !! k = Some l /\ G m !! k.1 = Some gl /\
    heap_threads s !! l = Some (Live {| pid := k.2; current_fid := c |}).
Proof.
  intros R Hk. destruct (rep_thread_dom _ _ _ R k) as [[l Hl] [gl Hgl]]; [by rewrite Hk|].
  destruct (rep_thread _ _ _ R _ _ Hl) as (c' & ? & ?). simplify_eq. eauto.
Qed.

Lemma rep_no_fiber s a m k : rep s a m -> afibers a !! k = None -> F m !! k = None.
Proof.
  intros R Hk. destruct (F m !! k) as [l|] eqn:E; [|done].
  destruct (rep_fiber _ _ _ R _ _ E) as (f & _ & ? & _). congruence.
Qed.

Lemma rep_no_thread s a m k : rep s a m -> athreads a !! k = None -> T m !! k = None.
Proof.
  intros R Hk. destruct (T m !! k) as [l|] eqn:E; [|done].
  destruct (rep_thread _ _ _ R _ _ E) as (c & _ & ?). congruence.
Qed.

Lemma rep_no_group s a m g : rep s a m -> G m !! g = None ->
  (forall k, T m !! (g, k) = None) /\ (forall k, F m !! (g, k) = None).
Proof.
  intros R Hg. split; intros k.
  - destruct (T m !! (g, k)) as [l|] eqn:E; [|done].
    destruct (rep_thread _ _ _ R _ _ E) as (c & _ & Hc).
    destruct (rep_thread_dom _ _ _ R (g, k)) as [_ [? ?]]; [by rewrite Hc|].
    cbn in *. congruence.
  - destruct (F m !! (g, k)) as [l|] eqn:E; [|done].
    destruct (rep_fiber _ _ _ R _ _ E) as (f & _ & Hc & _).
    destruct (rep_fiber_dom _ _ _ R (g, k)) as [_ [? ?]]; [by rewrite Hc|].
    cbn in *. congruence.
Qed.

(** ** Updating an object *)
Lemma rep_set_fiber s a m k l f :
  rep s a m -> F m !! k = Some l -> fiber_ok k f ->
  rep (set_heap (<[l := Live f]> (heap s)) s) (upd_fiber k f a) m.
Proof.
  intros R Hl Hf. destruct (rep_fiber _ _ _ R _ _ Hl) as (f0 & Hf0 & Ha0 & _).
  split; try apply R.
  - intros k' l' Hl'. cbn. destruct (decide (k' = k)) as [->|Hne].
    + simplify_eq. exists f. by rewrite !lookup_insert_eq.
    + destruct (rep_fiber _ _ _ R _ _ Hl') as (f' & ? & ? & ?). exists f'.
      rewrite lookup_insert_ne by (intros ->; apply Hne; by eapply (rep_inj_F _ _ _ R)).
      by rewrite lookup_insert_ne by done.
  - intros k' Hk'. apply (rep_fiber_dom _ _ _ R). cbn in Hk'.
    destruct (decide (k' = k)) as [->|]; [by rewrite Ha0|].
    by rewrite lookup_insert_ne in Hk' by done.
  - cbn. eapply fresh_above_insert; [apply R | exact Hf0].
Qed.

Lemma rep_set_thread s a m k l c :
  rep s a m -> T m !! k = Some l ->
  rep (set_heap (<[l := Live {| pid := k.2; current_fid := c |}]> (heap s)) s)
      (upd_thread k c a) m.
Proof.
  intros R Hl. destruct (rep_thread _ _ _ R _ _ Hl) as (c0 & Hc0 & Ha0).
  split; try apply R.
  - intros k' l' Hl'. cbn. destruct (decide (k' = k)) as [->|Hne].
    + simplify_eq. exists c. by rewrite !lookup_insert_eq.
    + destruct (rep_thread _ _ _ R _ _ Hl') as (c' & ? & ?). exists c'.
      rewrite lookup_insert_ne by (intros ->; apply Hne; by eapply (rep_inj_T _ _ _ R)).
      by rewrite lookup_insert_ne by done.
  - intros k' Hk'. apply (rep_thread_dom _ _ _ R). cbn in Hk'.
    destruct (decide (k' = k)) as [->|]; [by rewrite Ha0|].
    by rewrite lookup_insert_ne in Hk' by done.
  - cbn. eapply fresh_above_insert; [apply R | exact Hc0].
Qed.

(** ** States during a request: represented, on behalf of task [c]; the user
    memory and the state of [plock] are [u] *)
Definition frame_of s : umem * bool := (user s, plock s).

Definition st a m (c : task_struct) (u : umem * bool) s : Prop :=
  rep s a m /\ current s = c /\ frame_of s = u.

Lemma st_load_fiber a m c u s k l f (Q : fiber K -> kstate K -> Prop) :
  st a m c u s -> F m !! k = Some l -> afibers a !! k = Some f -> Q f s ->
  wp (load (PTR l)) Q s.
Proof.
  intros (R & _) Hl Hk HQ. destruct (rep_fiber _ _ _ R _ _ Hl) as (f' & ? & ? & ?).
  simplify_eq. by eapply wp_load.
Qed.

Lemma st_load_thread a m c u s k l x (Q : thread -> kstate K -> Prop) :
  st a m c u s -> T m !! k = Some l -> athreads a !! k = Some x ->
  Q {| pid := k.2; current_fid := x |} s -> wp (load (PTR l)) Q s.
Proof.
  intros (R & _) Hl Hk HQ. destruct (rep_thread _ _ _ R _ _ Hl) as (f' & ? & ?).
  simplify_eq. by eapply wp_load.
Qed.

Lemma st_store_fiber a m c u s k l f (Q : unit -> kstate K -> Prop) :
  st a m c u s -> F m !! k = Some l -> fiber_ok k f ->
  (forall s', st (upd_fiber k f a) m c u s' -> Q tt s') ->
  wp (store (PTR l) f) Q s.
Proof.
  intros (R & Hc & Hu) Hl Hf HQ. destruct (rep_fiber _ _ _ R _ _ Hl) as (f' & ? & ? & ?).
  eapply wp_store; [done|]. apply HQ. split; [by apply rep_set_fiber|done].
Qed.

Lemma st_update_fiber a m c u s k l f h (Q : unit -> kstate K -> Prop) :
  st a m c u s -> F m !! k = Some l -> afibers a !! k = Some f -> fiber_ok k (h f) ->
  (forall s', st (upd_fiber k (h f) a) m c u s' -> Q tt s') ->
  wp (update (PTR l) h) Q s.
Proof.
  intros Hst Hl Hk Hf HQ. apply wp_bind. eapply st_load_fiber; [done..|].
  by eapply st_store_fiber.
Qed.

Lemma st_store_thread a m c u s k l t (Q : unit -> kstate K -> Prop) :
  st a m c u s -> T m !! k = Some l -> pid t = k.2 ->
  (forall s', st (upd_thread k (current_fid t) a) m c u s' -> Q tt s') ->
  wp (store (PTR l) t) Q s.
Proof.
  intros (R & Hc & Hu) Hl Hp HQ. destruct (rep_thread _ _ _ R _ _ Hl) as (x & ? & ?).
  eapply wp_store; [done|]. apply HQ. split; [|done].
  destruct t as [p x']; cbn in *; subst. by apply rep_set_thread.
Qed.

Lemma st_get a m c u s (Q : kstate K -> kstate K -> Prop) :
  st a m c u s -> (current s = c -> Q s s) -> wp get Q s.
Proof. intros (? & ? & ?) HQ. apply wp_get. auto. Qed.

Lemma st_set_current a m c u s f :
  st a m c u s -> st a m (f (current s)) u (set_current (f (current s)) s).
Proof. intros (R & Hc & Hu). split; [|done]. destruct R. by split. Qed.

Lemma upd_fiber_same k f1 f2 a :
  upd_fiber k f2 (upd_fiber k f1 a) = upd_fiber k f2 a.
Proof. unfold upd_fiber; cbn. f_equal. apply insert_insert_eq. Qed.

Lemma upd_fiber_thread k f k' c a :
  upd_fiber k f (upd_thread k' c a) = upd_thread k' c (upd_fiber k f a).
Proof. done. Qed.

(** ** The statements the requests share *)
Lemma fiber_ok_at s a m k f : rep s a m -> afibers a !! k = Some f -> fiber_ok k f.
Proof. intros R Hk. by destruct (rep_fiber_at _ _ _ _ _ R Hk) as (l & _ & _ & ?). Qed.

Lemma st_trylock a m c u s k l f (Q : bool -> kstate K -> Prop) :
  st a m c u s -> F m !! k = Some l -> afibers a !! k = Some f ->
  (flock f = true -> st a m c u s -> Q false s) ->
  (forall s', flock f = false -> st (upd_fiber k (set_flock true f) a) m c u s' -> Q true s') ->
  wp (spin_trylock (PTR l)) Q s.
Proof.
  intros Hst Hl Hk Hbusy Hfree. apply wp_bind. eapply st_load_fiber; [done..|].
  destruct (flock f) eqn:Hb; [by apply wp_ret, Hbusy|].
  apply wp_bind. eapply st_store_fiber; [done..| |].
  - exact (fiber_ok_at _ _ _ _ _ (proj1 Hst) Hk).
  - intros s' Hs'. apply wp_ret. auto.
Qed.

Lemma st_activate a m c u s kf lf f kt lt x (Q : unit -> kstate K -> Prop) :
  st a m c u s -> F m !! kf = Some lf -> afibers a !! kf = Some f ->
  T m !! kt = Some lt -> athreads a !! kt = Some x ->
  (forall s', st (upd_thread kt kf.2 (upd_fiber kf (activate kt.2 (utime c) f) a)) m c u s' ->
    Q tt s') ->
  wp (ACTIVATE_FIBER_FROM_THREAD (PTR lf) (PTR lt)) Q s.
Proof.
  intros Hst Hlf Hf Hlt Hx HQ.
  pose proof (fiber_ok_at _ _ _ _ _ (proj1 Hst) Hf) as [Hid Hlen].
  apply wp_bind. eapply st_get; [done|]. intros Hcur.
  apply wp_bind. eapply st_load_thread; [done..|].
  apply wp_bind. eapply st_update_fiber; [done..|by split|].
  intros s1 H1. apply wp_bind. eapply st_load_fiber; [done..|cbn; apply lookup_insert_eq|].
  eapply st_store_thread; [done..|]. intros s2 H2. apply HQ. cbn in H2.
  rewrite Hid, Hcur in H2. exact H2.
Qed.

(** Group and thread of the caller: what every request but conversion does. *)
Lemma st_get_thread a m c u s
    (k : ptr -> ptr -> M (kstate K) Z) (P : Z -> kstate K -> Prop) :
  st a m c u s ->
  (athreads a !! key c = None -> P (- ESRCH) s) ->
  (forall gl tl x, athreads a !! key c = Some x -> G m !! task_tgid c = Some gl ->
    T m !! key c = Some tl -> wp (k (PTR gl) (PTR tl)) P s) ->
  wp (tg <- get_group (task_tgid c) ;;
      if is_null tg then ret (- ESRCH) else
      t <- get_thread (task_pid c) tg ;;
      if is_null t then ret (- ESRCH) else k tg t) P s.
Proof.
  intros (R & Hc & Hu) Hno Hyes.
  apply wp_bind. eapply rep_get_group; [done|].
  destruct (G m !! task_tgid c) as [gl|] eqn:HG; cbn.
  - apply wp_bind. eapply rep_get_thread; [done..|]. fold (key c).
    destruct (T m !! key c) as [tl|] eqn:HT; cbn.
    + destruct (rep_thread _ _ _ R _ _ HT) as (x & _ & Hx). by eapply Hyes.
    + apply wp_ret, Hno. destruct (athreads a !! key c) eqn:E; [|done].
      destruct (rep_thread_at _ _ _ _ _ R E) as (l & gl' & ? & _). congruence.
  - apply wp_ret, Hno. destruct (athreads a !! key c) eqn:E; [|done].
    destruct (rep_thread_at _ _ _ _ _ R E) as (l & gl' & _ & ? & _).
    cbn in *. congruence.
Qed.

(** ** do_switch_to_fiber *)
Lemma st_suspend a m c u s k l o (Q : Z -> kstate K -> Prop) (rest : M (kstate K) Z) :
  st a m c u s -> F m !! k = Some l -> afibers a !! k = Some o ->
  (forall s', st (upd_fiber k (suspend c o) a) m c u s' -> wp rest Q s') ->
  wp (s <- get ;;
      update (PTR l) (set_regs (task_regs (current s))) ;;;
      update (PTR l) (set_fpu (task_fx (current s))) ;;;
      update (PTR l) (account_running_time (utime (current s))) ;;;
      update (PTR l) (fun o => set_info (set_state 0 (info o)) o) ;;;
      spin_unlock (PTR l) ;;; rest) Q s.
Proof.
  intros Hst Hl Ho HQ. pose proof (fiber_ok_at _ _ _ _ _ (proj1 Hst) Ho) as Hok.
  apply wp_bind. eapply st_get; [done|]. intros ->.
  do 5 (apply wp_bind; eapply st_update_fiber;
    [done|done|first [exact Ho | apply lookup_insert_eq]|exact Hok|
     let s' := fresh "s" in let Hs := fresh "Hs" in
     intros s' Hs; try rewrite upd_fiber_same in Hs]).
  by apply HQ.
Qed.

Lemma st_resume a m c u s k l n (Q : Z -> kstate K -> Prop) :
  st a m c u s -> F m !! k = Some l -> afibers a !! k = Some n ->
  (forall s', st a m (resume n c) u s' -> Q SUCCESS s') ->
  wp (n <- load (PTR l) ;;
      modify (fun s => set_current (set_task_cpu (regs (context n))
                                     (task_fx (current s)) (current s)) s) ;;;
      modify (fun s => set_current (set_task_cpu (task_regs (current s))
                                     (fpu (context n)) (current s)) s) ;;;
      ret SUCCESS) Q s.
Proof.
  intros Hst Hl Hn HQ. apply wp_bind. eapply st_load_fiber; [done..|].
  wp_auto. apply HQ. destruct Hst as (R & <- & Hu). split; [by destruct R|done].
Qed.

Lemma st_hand_over a m c u s old new n tl gl nl (Q : Z -> kstate K -> Prop) :
  let g := task_tgid c in
  st a m c u s -> afibers a !! (g, new) = Some n -> athreads a !! key c = Some old ->
  G m !! g = Some gl -> T m !! key c = Some tl -> F m !! (g, new) = Some nl ->
  (forall s', let '(r, a', c') := hand_over c old new n a in
    st a' m c' u s' -> Q r s') ->
  wp (th <- load (PTR tl) ;;
      old_f <- get_fiber (current_fid th) (PTR gl) ;;
      if is_null old_f then ret (- ESRCH) else
      ACTIVATE_FIBER_FROM_THREAD (PTR nl) (PTR tl) ;;;
      s <- get ;;
      update old_f (set_regs (task_regs (current s))) ;;;
      update old_f (set_fpu (task_fx (current s))) ;;;
      update old_f (account_running_time (utime (current s))) ;;;
      update old_f (fun o => set_info (set_state 0 (info o)) o) ;;;
      spin_unlock old_f ;;;
      n <- load (PTR nl) ;;
      modify (fun s => set_current (set_task_cpu (regs (context n))
                                     (task_fx (current s)) (current s)) s) ;;;
      modify (fun s => set_current (set_task_cpu (task_regs (current s))
                                     (fpu (context n)) (current s)) s) ;;;
      ret SUCCESS) Q s.
Proof.
  intros g Hst Hn Hold HG HT HF HQ. unfold hand_over in HQ. fold g in HQ.
  apply wp_bind. eapply st_load_thread; [done..|].
  apply wp_bind. eapply rep_get_fiber; [apply Hst|done|]. cbn [current_fid].
  set (a1 := upd_thread _ _ _) in HQ.
  destruct (afibers a1 !! (g, old)) as [o1|] eqn:Ho1; cbn in Ho1.
  - assert (exists ol, F m !! (g, old) = Some ol) as [ol Hol].
    { destruct (decide ((g, old) = (g, new))) as [->|]; [by eauto|].
      rewrite lookup_insert_ne in Ho1 by done.
      destruct (rep_fiber_at _ _ _ _ _ (proj1 Hst) Ho1) as (ol & ? & _). eauto. }
    rewrite Hol. cbn [ptr_of_opt is_null].
    apply wp_bind. eapply st_activate; [done..|]. intros s1 H1. fold a1 in H1.
    eapply st_suspend; [done..|]. intros s2 H2.
    set (a2 := upd_fiber _ _ a1) in *.
    destruct (afibers a2 !! (g, new)) as [n'|] eqn:Hn'; cbn in Hn'.
    + eapply st_resume; [done..|]. intros s3 H3. by apply HQ.
    + exfalso. destruct (decide ((g, old) = (g, new))) as [E|].
      * rewrite E, lookup_insert_eq in Hn'. done.
      * rewrite lookup_insert_ne, lookup_insert_eq in Hn' by done. done.
  - assert ((g, old) <> (g, new)) as Hne.
    { intros E. rewrite E, lookup_insert_eq in Ho1. done. }
    rewrite lookup_insert_ne in Ho1 by done.
    rewrite (rep_no_fiber _ _ _ _ (proj1 Hst) Ho1). apply wp_ret. by apply HQ.
Qed.

Lemma st_switch a m c u s nf :
  st a m c u s ->
  wp (do_switch_to_fiber c nf) (fun r s' =>
    let '(r', a', c') := spec_switch c nf a in r = r' /\ st a' m c' u s') s.
Proof.
  intros Hst. unfold do_switch_to_fiber, spec_switch. cbv zeta.
  eapply st_get_thread; [done| |].
  { intros ->. done. }
  intros gl tl old Hold HG HT. rewrite Hold.
  apply wp_bind. eapply rep_get_fiber; [apply Hst|done|].
  destruct (afibers a !! (task_tgid c, nf)) as [f|] eqn:Hf.
  2: { rewrite (rep_no_fiber _ _ _ _ (proj1 Hst) Hf). by apply wp_ret. }
  destruct (rep_fiber_at _ _ _ _ _ (proj1 Hst) Hf) as (nl & HF & _ & Hok).
  rewrite HF. cbn [ptr_of_opt is_null].
  apply wp_bind. eapply st_trylock; [done..| |].
  - intros Hb _. rewrite Hb. cbn [orb].
    apply wp_bind. eapply st_load_fiber; [done..|]. cbn [negb orb].
    apply wp_bind. eapply st_update_fiber; [done..|exact Hok|].
    intros s1 H1. apply wp_ret. split; [done|].
    assert (set_flock true f = f) as -> by (destruct f; cbn in *; by subst).
    exact H1.
  - intros s1 Hb H1. rewrite Hb. cbn [orb].
    apply wp_bind. eapply st_load_fiber; [done..|apply lookup_insert_eq|].
    cbn [negb orb]. change (state (info (set_flock true f))) with (state (info f)).
    destruct (state (info f) =? 0) eqn:Hz; cbn [negb].
    + eapply st_hand_over; [done|apply lookup_insert_eq|done..|].
      intros s2. by destruct (hand_over _ _ _ _ _) as [[r a'] c'].
    + apply wp_bind. eapply st_update_fiber; [done..|apply lookup_insert_eq|exact Hok|].
      intros s2 H2. apply wp_ret. rewrite upd_fiber_same in H2. done.
Qed.

(** ** Allocation *)
Lemma wp_kmalloc {A} `{!HeapOf A} (x : A) (Q : ptr -> kstate K -> Prop) s :
  kmalloc_fails (nalloc s) = false ->
  let s1 := set_nalloc (nalloc s + 1) s in
  Q (PTR (Pos.of_succ_nat (nalloc s)))
    (set_heap (<[Pos.of_succ_nat (nalloc s) := Live x]> (heap s1)) s1) ->
  wp (kmalloc x) Q s.
Proof. intros Hf s1 HQ. apply wp_bind, wp_get. cbv zeta. rewrite Hf. exact HQ. Qed.

Lemma add_injective {A} `{Countable A} (m : gmap A loc) k l :
  injective m -> (forall k', m !! k' <> Some l) -> injective (<[k := l]> m).
Proof.
  intros Hi Hf k1 k2 l'. rewrite !lookup_insert.
  repeat case_decide; intros; simplify_eq; try done; try (by edestruct Hf); eauto.
Qed.

(** Addresses of represented objects are not the next one. *)
Lemma rep_fresh_loc s a m :
  rep s a m ->
  let l := Pos.of_succ_nat (nalloc s) in
  (forall k, G m !! k <> Some l) /\ (forall k, T m !! k <> Some l) /\
  (forall k, F m !! k <> Some l).
Proof.
  intros R l. repeat split; intros k Hk.
  - destruct (rep_group _ _ _ R _ _ Hk) as (? & ? & Hh & _).
    by eapply fresh_above_ne in Hh; [|apply R].
  - destruct (rep_thread _ _ _ R _ _ Hk) as (? & Hh & _).
    by eapply fresh_above_ne in Hh; [|apply R].
  - destruct (rep_fiber _ _ _ R _ _ Hk) as (? & Hh & _).
    by eapply fresh_above_ne in Hh; [|apply R].
Qed.

(** A fiber object at the next address, linked into the group's table. *)
Lemma rep_add_fiber s s' a m g gl x l f :
  rep s a m -> G m !! g = Some gl -> heap_groups s !! gl = Some (Live x) ->
  l = Pos.of_succ_nat (nalloc s) -> afibers a !! (g, fid f) = None ->
  length (data (fls f)) = Z.to_nat FLS_MAX_SIZE ->
  groups s' = groups s -> heap_threads s' = heap_threads s ->
  nalloc s' = (nalloc s + 1)%nat ->
  heap_fibers s' = <[l := Live f]> (heap_fibers s) ->
  heap_groups s' = <[gl := Live {| tgid := tgid x; fid_count := fid f;
    threads := threads x; fibers := hash_add_rcu (fibers x) l (fid f) |}]> (heap_groups s) ->
  rep s' (upd_fiber (g, fid f) f (upd_group g (fid f) a))
      {| G := G m; T := T m; F := <[(g, fid f) := l]> (F m) |}.
Proof.
  intros R HG Hx -> Hno Hlen E1 E3 E4 E5 E6.
  pose proof (rep_fresh_loc _ _ _ R) as (HfG & HfT & HfF).
  pose proof (rep_no_fiber _ _ _ _ R Hno) as HnF.
  split; rewrite ?E1, ?E3, ?E4, ?E5, ?E6; cbn; try apply R.
  - intros id l Hl. destruct (rep_group _ _ _ R _ _ Hl) as (y & c & Hy & Hc & Hid & Hct & Ht & Hf).
    destruct (decide (id = g)) as [->|Hne].
    + simplify_eq. eexists _, _. rewrite !lookup_insert_eq. split; [done|]. split; [done|].
      split; [done|]. split; [done|]. split; [exact Ht|].
      apply (tab_is_add _ _ _ _ _ Hf); cbn; [done|by rewrite lookup_insert_eq|].
      intros k' Hk'. by rewrite lookup_insert_ne by congruence.
    + exists y, c. rewrite !lookup_insert_ne by
        (done || (intros ->; apply Hne; by eapply (rep_inj_G _ _ _ R))).
      split; [done|]. split; [done|]. split; [done|]. split; [done|]. split; [done|].
      eapply tab_is_ext; [|apply Hf]. intros k. cbn. by rewrite lookup_insert_ne by congruence.
  - intros k l. rewrite lookup_insert. case_decide as Hk.
    + intros [= <-]. subst k. exists f. by rewrite !lookup_insert_eq.
    + intros Hl. destruct (rep_fiber _ _ _ R _ _ Hl) as (f' & ? & ? & ?). exists f'.
      rewrite lookup_insert_ne by (intros <-; by eapply HfF).
      by rewrite lookup_insert_ne by done.
  - intros id. rewrite lookup_insert. case_decide; [subst; by eauto|]. apply R.
  - intros k. rewrite !lookup_insert. case_decide; [subst; by eauto|]. apply R.
  - apply add_injective; [apply R|done].
  - intros i Hi. rewrite lookup_insert_ne; [apply (rep_fresh_G _ _ _ R); lia|].
    intros ->. rewrite (rep_fresh_G _ _ _ R) in Hx by lia. done.
  - eapply fresh_above_mono; [apply R|lia].
  - apply fresh_above_alloc, R.
Qed.

Lemma rep_add_thread s s' a m g gl x l p :
  rep s a m -> G m !! g = Some gl -> heap_groups s !! gl = Some (Live x) ->
  l = Pos.of_succ_nat (nalloc s) -> athreads a !! (g, p) = None ->
  groups s' = groups s -> heap_fibers s' = heap_fibers s ->
  nalloc s' = (nalloc s + 1)%nat ->
  heap_threads s' =
    <[l := Live {| pid := p; current_fid := NO_FIBERS |}]> (heap_threads s) ->
  heap_groups s' =
    <[gl := Live (set_threads (hash_add_rcu (threads x) l p) x)]> (heap_groups s) ->
  rep s' (upd_thread (g, p) NO_FIBERS a)
      {| G := G m; T := <[(g, p) := l]> (T m); F := F m |}.
Proof.
  intros R HG Hx -> Hno E1 E3 E4 E5 E6.
  pose proof (rep_fresh_loc _ _ _ R) as (HfG & HfT & HfF).
  pose proof (rep_no_thread _ _ _ _ R Hno) as HnT.
  split; rewrite ?E1, ?E3, ?E4, ?E5, ?E6; cbn; try apply R.
  - intros id l Hl. destruct (rep_group _ _ _ R _ _ Hl) as (y & c & Hy & Hc & Hid & Hct & Ht & Hf).
    exists (if decide (id = g) then set_threads (hash_add_rcu (threads y)
      (Pos.of_succ_nat (nalloc s)) p) y else y), c.
    destruct (decide (id = g)) as [->|Hne].
    + simplify_eq. rewrite !lookup_insert_eq. split; [done|].
      split; [done|]. split; [done|]. split; [done|]. split; [|exact Hf].
      apply (tab_is_add _ _ _ _ _ Ht); cbn; [done|by rewrite lookup_insert_eq|].
      intros k' Hk'. by rewrite lookup_insert_ne by congruence.
    + rewrite !lookup_insert_ne by
        (done || (intros ->; apply Hne; by eapply (rep_inj_G _ _ _ R))).
      split; [done|]. split; [done|]. split; [done|]. split; [done|]. split; [|done].
      eapply tab_is_ext; [|apply Ht]. intros k. cbn. by rewrite lookup_insert_ne by congruence.
  - intros k l. rewrite lookup_insert. case_decide as Hk.
    + intros [= <-]. subst k. exists NO_FIBERS. by rewrite !lookup_insert_eq.
    + intros Hl. destruct (rep_thread _ _ _ R _ _ Hl) as (f' & ? & ?). exists f'.
      rewrite lookup_insert_ne by (intros <-; by eapply HfT).
      by rewrite lookup_insert_ne by done.
  - intros k. rewrite !lookup_insert. case_decide; [subst; by eauto|]. apply R.
  - apply add_injective; [apply R|done].
  - intros i Hi. rewrite lookup_insert_ne; [apply (rep_fresh_G _ _ _ R); lia|].
    intros ->. rewrite (rep_fresh_G _ _ _ R) in Hx by lia. done.
  - apply fresh_above_alloc, R.
  - eapply fresh_above_mono; [apply R|lia].
Qed.

Lemma rep_add_group s s' a m g l :
  rep s a m -> G m !! g = None ->
  l = Pos.of_succ_nat (nalloc s) ->
  heap_fibers s' = heap_fibers s -> heap_threads s' = heap_threads s ->
  nalloc s' = (nalloc s + 1)%nat ->
  heap_groups s' = <[l := Live {| tgid := g; fid_count := NO_FIBERS;
    threads := hash_init; fibers := hash_init |}]> (heap_groups s) ->
  groups s' = hash_add_rcu (groups s) l g ->
  rep s' (upd_group g NO_FIBERS a)
      {| G := <[g := l]> (G m); T := T m; F := F m |}.
Proof.
  intros R HG -> E2 E3 E4 E5 E6.
  pose proof (rep_fresh_loc _ _ _ R) as (HfG & HfT & HfF).
  destruct (rep_no_group _ _ _ _ R HG) as [HnT HnF].
  assert (forall k, is_Some (G m !! k) -> is_Some (<[g := Pos.of_succ_nat (nalloc s)]> (G m) !! k)).
  { intros k Hk. rewrite lookup_insert. case_decide; [by eauto|done]. }
  split; rewrite ?E2, ?E3, ?E4, ?E5, ?E6; cbn; try apply R.
  - apply (tab_is_add _ _ _ _ _ (rep_groups _ _ _ R)); cbn; [done|by rewrite lookup_insert_eq|].
    intros k' Hk'. by rewrite lookup_insert_ne by congruence.
  - intros id l. rewrite lookup_insert. case_decide as Hid.
    + intros [= <-]. subst id. eexists _, _. rewrite !lookup_insert_eq.
      split; [done|]. split; [done|]. split; [done|]. split; [done|].
      by split; apply tab_is_init.
    + intros Hl. destruct (rep_group _ _ _ R _ _ Hl) as (y & c & ? & ? & ?).
      exists y, c. rewrite lookup_insert_ne by (intros <-; by eapply HfG).
      by rewrite lookup_insert_ne by done.
  - intros id. rewrite !lookup_insert. case_decide; [by eauto|]. apply R.
  - intros k Hk. destruct (rep_thread_dom _ _ _ R k Hk). auto.
  - intros k Hk. destruct (rep_fiber_dom _ _ _ R k Hk). auto.
  - apply add_injective; [apply R|done].
  - apply fresh_above_alloc, R.
  - eapply fresh_above_mono; [apply R|lia].
  - eapply fresh_above_mono; [apply R|lia].
Qed.

(** A fiber object at [l] under construction, not yet in the table of the
    group object [x] at [gl]; the rest of the state is that of [s0]. *)
Definition building s0 gl l (x : thread_group K) (f : fiber K) s : Prop :=
  (groups s = groups s0 /\ plock s = plock s0 /\ heap_threads s = heap_threads s0 /\
   nalloc s = (nalloc s0 + 1)%nat /\ current s = current s0 /\ user s = user s0) /\
  heap_fibers s = <[l := Live f]> (heap_fibers s0) /\
  heap_groups s = <[gl := Live x]> (heap_groups s0).

Section building.
Context (s0 s : kstate K) (gl l : loc) (x : thread_group K) (f : fiber K).
Hypothesis HB : building s0 gl l x f s.

Lemma building_load_fiber (Q : fiber K -> kstate K -> Prop) :
  Q f s -> wp (load (PTR l)) Q s.
Proof.
  intros. eapply wp_load; [|done]. destruct HB as (_ & Hf & _). cbn.
  rewrite Hf. apply lookup_insert_eq.
Qed.
Lemma building_load_group (Q : thread_group K -> kstate K -> Prop) :
  Q x s -> wp (load (PTR gl)) Q s.
Proof.
  intros. eapply wp_load; [|done]. destruct HB as (_ & _ & Hg). cbn.
  rewrite Hg. apply lookup_insert_eq.
Qed.
Lemma building_update_fiber h (Q : unit -> kstate K -> Prop) :
  (forall s', building s0 gl l x (h f) s' -> Q tt s') -> wp (update (PTR l) h) Q s.
Proof.
  intros HQ. apply wp_bind, building_load_fiber. destruct HB as (Hs & Hf & Hg).
  eapply wp_store; [cbn; rewrite Hf; apply lookup_insert_eq|].
  apply HQ. split; [done|]. cbn. rewrite Hf. by rewrite insert_insert_eq.
Qed.
Lemma building_store_group y (Q : unit -> kstate K -> Prop) :
  (forall s', building s0 gl l y f s' -> Q tt s') -> wp (store (PTR gl) y) Q s.
Proof.
  intros HQ. destruct HB as (Hs & Hf & Hg).
  eapply wp_store; [cbn; rewrite Hg; apply lookup_insert_eq|].
  apply HQ. split; [done|]. cbn. rewrite Hg. by rewrite insert_insert_eq.
Qed.
End building.

Section alloc_ok.
Hypothesis Hmem : forall n, kmalloc_fails n = false.

Lemma st_generate_group a m c u s g (Q : ptr -> kstate K -> Prop) :
  st a m c u s -> G m !! g = None ->
  (forall s' m' gl, st (upd_group g NO_FIBERS a) m' c u s' -> G m' !! g = Some gl ->
    Q (PTR gl) s') ->
  wp (generate_group g) Q s.
Proof.
  intros (R & Hc & Hu) HG HQ. apply wp_bind. apply wp_kmalloc; [done|].
  cbn [is_null]. apply wp_bind. eapply wp_store; [cbn; apply lookup_insert_eq|].
  apply wp_bind. eapply wp_load; [cbn; apply lookup_insert_eq|].
  wp_auto. eapply HQ; [split; [|split]|].
  - eapply rep_add_group; [exact R|done|done|done..|cbn|done].
    apply insert_insert_eq.
  - done.
  - done.
  - cbn. apply lookup_insert_eq.
Qed.

Lemma st_generate_thread a m c u s g gl p (Q : ptr -> kstate K -> Prop) :
  st a m c u s -> G m !! g = Some gl -> athreads a !! (g, p) = None ->
  (forall s' m' l, st (upd_thread (g, p) NO_FIBERS a) m' c u s' ->
    G m' = G m -> T m' !! (g, p) = Some l -> Q (PTR l) s') ->
  wp (generate_thread (PTR gl) p) Q s.
Proof.
  intros (R & Hc & Hu) HG Ht HQ.
  destruct (rep_group _ _ _ R _ _ HG) as (x & cnt & Hx & _).
  apply wp_bind. apply wp_kmalloc; [done|].
  cbn [is_null]. apply wp_bind. eapply wp_store; [cbn; apply lookup_insert_eq|].
  apply wp_bind. eapply wp_load; [cbn; apply lookup_insert_eq|].
  apply wp_bind. eapply wp_update; [cbn; exact Hx|].
  wp_auto. eapply HQ; [split; [|split]|..].
  - eapply rep_add_thread; [exact R|done|exact Hx|done|done|done..|cbn|done].
    apply insert_insert_eq.
  - done.
  - done.
  - done.
  - cbn. apply lookup_insert_eq.
Qed.

Lemma st_generate_fiber a m c u s g gl cnt tl x (Q : ptr -> kstate K -> Prop) :
  st a m c u s -> G m !! g = Some gl -> agroups a !! g = Some cnt ->
  T m !! (g, task_pid c) = Some tl -> athreads a !! (g, task_pid c) = Some x ->
  afibers a !! (g, i32 (cnt + 1)) = None ->
  (forall s' m' l, let id := i32 (cnt + 1) in
    st (upd_fiber (g, id) (new_fiber id c) (upd_group g id a)) m' c u s' ->
    G m' = G m -> T m' = T m -> F m' !! (g, id) = Some l -> Q (PTR l) s') ->
  wp (generate_fiber (PTR gl) (PTR tl)) Q s.
Proof.
  intros (R & Hc & Hu) HG Hcnt HT Hx Hno HQ. cbn zeta in HQ.
  destruct (rep_group _ _ _ R _ _ HG) as (y & cnt' & Hy & Hcy & _ & Hfc & _).
  rewrite Hcnt in Hcy. injection Hcy as <-.
  destruct (rep_thread _ _ _ R _ _ HT) as (x' & Hth & _).
  set (l := Pos.of_succ_nat (nalloc s)).
  apply wp_bind. apply wp_kmalloc; [done|]. fold l. cbn [is_null].
  assert (building s gl l y uninit_fiber (set_heap (<[l := Live uninit_fiber]>
    (heap (set_nalloc (nalloc s + 1) s))) (set_nalloc (nalloc s + 1) s))) as HB.
  { split; [done|]. split; [done|]. cbn. by rewrite insert_id. }
  revert HB. generalize (set_heap (<[l := Live uninit_fiber]>
    (heap (set_nalloc (nalloc s + 1) s))) (set_nalloc (nalloc s + 1) s)).
  intros s1 H1.
  apply wp_bind, wp_bind. eapply building_load_group; [done|].
  apply wp_bind. eapply building_store_group; [done|]. clear s1 H1. intros s1 H1.
  eapply building_update_fiber; [done|]. clear s1 H1. intros s1 H1.
  apply wp_bind, wp_bind, wp_get, wp_bind.
  eapply building_update_fiber; [done|]. intros s2 H2.
  eapply building_update_fiber; [done|]. clear s2 H2. intros s2 H2.
  assert (current s1 = c) as Ec by (destruct H1 as [(_ & _ & _ & _ & -> & _) _]; done).
  rewrite Ec in H2. clear s1 H1 Ec. apply wp_bind.
  eapply building_update_fiber; [done|]. clear s2 H2. intros s2 H2.
  apply wp_bind, wp_bind, wp_get, wp_bind.
  eapply wp_load.
  { destruct H2 as [(_ & _ & E & _) _]. cbn. rewrite E. exact Hth. }
  assert (current s2 = c) as -> by (destruct H2 as [(_ & _ & _ & _ & -> & _) _]; done).
  eapply building_update_fiber; [done|]. clear s2 H2. intros s2 H2.
  apply wp_bind. eapply building_load_fiber; [done|].
  apply wp_bind, wp_bind. eapply building_load_group; [done|].
  eapply building_store_group; [done|]. clear s2 H2. intros s2 H2.
  apply wp_ret. destruct H2 as ((E1 & E2 & E3 & E4 & E5 & E6) & E7 & E8).
  rewrite Hfc in E7, E8. cbn [fid set_info set_fls set_fpu set_regs set_context] in E7, E8.
  eapply (HQ s2 {| G := G m; T := T m; F := <[(g, i32 (cnt + 1)) := l]> (F m) |} l);
    [split; [|unfold frame_of; by rewrite E5, E6, E2]|done|done|cbn; apply lookup_insert_eq].
  eapply (rep_add_fiber s s2 a m g gl y l (new_fiber (i32 (cnt + 1)) c)); done.
Qed.

(** ** do_convert_thread_to_fiber *)
Lemma st_convert_group a m c w s (k : ptr -> M (kstate K) Z) (P : Z -> kstate K -> Prop) :
  let g := task_tgid c in
  st a m c (w, false) s ->
  (forall s' m' gl cnt, st (upd_group g cnt a) m' c (w, false) s' -> G m' !! g = Some gl ->
    cnt = default NO_FIBERS (agroups a !! g) -> wp (k (PTR gl)) P s') ->
  wp (lock_plock ;;; tg0 <- get_group g ;;
      tg <- (if is_null tg0 then generate_group g else ret tg0) ;;
      unlock_plock ;;; k tg) P s.
Proof.
  intros g (R & Hc & Hu) HQ. injection Hu as Hw Hl.
  apply wp_bind, wp_bind, wp_get. rewrite Hl. apply wp_put.
  assert (st a m c (w, true) (set_plock true s)) as H1.
  { split; [by destruct R|]. split; [done|]. by rewrite <- Hw. }
  apply wp_bind. eapply rep_get_group; [apply H1|].
  destruct (G m !! g) as [gl|] eqn:HG; cbn [ptr_of_opt is_null]; apply wp_bind.
  - apply wp_ret. wp_auto.
    destruct (rep_group _ _ _ R _ _ HG) as (x & cnt & _ & Hcnt & _).
    eapply (HQ _ m gl cnt); [|done|by rewrite Hcnt].
    replace (upd_group g cnt a) with a.
    2: { destruct a; unfold upd_group; cbn in *. by rewrite insert_id. }
    split; [by destruct R|]. split; [done|]. by rewrite <- Hw.
  - eapply st_generate_group; [exact H1|done|]. intros s2 m2 gl (R2 & Hc2 & Hu2) HG2.
    injection Hu2 as Hw2 Hl2. wp_auto. eapply (HQ _ m2 gl NO_FIBERS); [|done|].
    + split; [by destruct R2|]. split; [done|]. by rewrite <- Hw2.
    + destruct (agroups a !! g) as [cnt|] eqn:E; [|done].
      destruct (rep_group_dom _ _ _ R g) as [? ?]; [by rewrite E|]. congruence.
Qed.

Lemma st_convert a m c w s :
  let g := task_tgid c in
  st a m c (w, false) s -> afibers a !! (g, next_fid g a) = None ->
  wp (do_convert_thread_to_fiber c) (fun r s' =>
    let '(r', a') := spec_convert c a in
    r = r' /\ exists m', st a' m' c (w, false) s') s.
Proof.
  intros g Hst Hno.
  unfold do_convert_thread_to_fiber. cbv zeta. fold g.
  eapply st_convert_group; [done|].
  intros s1 m1 gl cnt H1 HG Hcnt. unfold spec_convert. fold g in H1, HG, Hcnt |- *.
  unfold next_fid in Hno |- *. rewrite <- Hcnt in Hno |- *.
  apply wp_bind. eapply rep_get_thread; [apply H1|done|]. change (g, task_pid c) with (key c).
  change (athreads a) with (athreads (upd_group g cnt a)).
  destruct (athreads (upd_group g cnt a) !! key c) as [x|] eqn:Hx.
  - destruct (rep_thread_at _ _ _ _ _ (proj1 H1) Hx) as (tl & gl' & HT & _).
    rewrite HT. apply wp_ret. split; [done|]. exists m1.
    replace (upd_group g cnt a) with a in H1; [done|].
    destruct (rep_thread_dom _ _ _ (proj1 Hst) (key c)) as [_ [gl0 HG0]].
    { cbn in Hx. by rewrite Hx. }
    destruct (rep_group _ _ _ (proj1 Hst) _ _ HG0) as (y & cnt' & _ & Hcnt' & _).
    cbn in Hcnt'. fold g in Hcnt'. rewrite Hcnt' in Hcnt. cbn in Hcnt. subst cnt'.
    destruct a; unfold upd_group; cbn in *. by rewrite insert_id.
  - rewrite (rep_no_thread _ _ _ _ (proj1 H1) Hx). cbn [ptr_of_opt is_null negb].
    apply wp_bind. eapply st_generate_thread; [done..|]. intros s2 m2 tl H2 HG2 HT2.
    apply wp_bind. eapply (st_generate_fiber _ _ _ _ _ g gl cnt tl); [exact H2|..].
    + by rewrite HG2.
    + apply lookup_insert_eq.
    + exact HT2.
    + apply lookup_insert_eq.
    + exact Hno.
    + intros s3 m3 fl id H3 HG3 HT3 HF3. fold id in Hno |- *.
      apply wp_bind. eapply st_trylock; [done..|apply lookup_insert_eq|by intros|].
      intros s4 _ H4. rewrite upd_fiber_same in H4.
      apply wp_bind. eapply st_load_fiber; [done..|apply lookup_insert_eq|].
      cbn [negb orb info set_flock new_fiber state Z.eqb].
      apply wp_bind. eapply st_activate; [done|done|apply lookup_insert_eq|..].
      { rewrite HT3. exact HT2. }
      { apply lookup_insert_eq. }
      intros s5 H5. apply wp_bind.
      eapply st_load_fiber; [done..|apply lookup_insert_eq|].
      apply wp_ret. split; [done|]. exists m3.
      refine (eq_rect _ (fun a' => st a' m3 c (w, false) s5) H5 _ _).
      unfold upd_fiber, upd_thread, upd_group; cbn. by rewrite !insert_insert_eq.
Qed.

(** ** do_create_fiber *)
Lemma st_create a m c u s sb ss ep arg :
  let g := task_tgid c in
  st a m c u s -> afibers a !! (g, next_fid g a) = None ->
  wp (do_create_fiber c sb ss ep arg) (fun r s' =>
    let '(r', a') := spec_create c sb ss ep arg a in
    r = r' /\ exists m', st a' m' c u s') s.
Proof.
  intros g Hst Hno. unfold do_create_fiber, spec_create. cbv zeta.
  eapply st_get_thread; [done|by intros ->; eauto|].
  intros gl tl x Hx HG HT. rewrite Hx.
  destruct (rep_group _ _ _ (proj1 Hst) _ _ HG) as (y & cnt & _ & Hcnt & _).
  unfold next_fid in Hno |- *. fold g in Hcnt |- *. rewrite Hcnt in Hno |- *.
  change (default NO_FIBERS (Some cnt)) with cnt in Hno |- *.
  apply wp_bind. eapply (st_generate_fiber _ _ _ _ _ g gl cnt tl); try done.
  intros s3 m3 fl id H3 HG3 HT3 HF3. fold id.
  apply wp_bind. eapply st_update_fiber; [exact H3|exact HF3|apply lookup_insert_eq|..].
  { split; [done|]. cbn. apply length_replicate. }
  intros s4 H4. rewrite upd_fiber_same in H4.
  apply wp_bind. eapply st_update_fiber; [done|done|apply lookup_insert_eq|..].
  { split; [done|]. cbn. apply length_replicate. }
  intros s5 H5. rewrite upd_fiber_same in H5.
  apply wp_bind. eapply st_load_fiber; [done..|apply lookup_insert_eq|].
  apply wp_ret. split; [done|]. by exists m3.
Qed.
End alloc_ok.

(** ** The FLS requests *)
Lemma upd_fiber_id k f a : afibers a !! k = Some f -> upd_fiber k f a = a.
Proof. intros H. destruct a; unfold upd_fiber; cbn in *. by rewrite insert_id. Qed.

Lemma set_fls_id (f : fiber K) : set_fls (fls f) f = f.
Proof. by destruct f. Qed.

Lemma acurrent_Some c a k f :
  acurrent c a = Some (k, f) ->
  exists x, athreads a !! key c = Some x /\ k = (task_tgid c, x) /\ afibers a !! k = Some f.
Proof.
  unfold acurrent. destruct (athreads a !! key c) as [x|]; [|done].
  destruct (afibers a !! _) eqn:E; [|done]. intros [= <- <-]. eauto.
Qed.

Lemma st_current_fiber a m c u s (Q : option ptr -> kstate K -> Prop) :
  st a m c u s ->
  (acurrent c a = None -> Q None s) ->
  (forall k f l, acurrent c a = Some (k, f) -> F m !! k = Some l -> afibers a !! k = Some f ->
    fiber_ok k f -> Q (Some (PTR l)) s) ->
  wp (current_fiber c) Q s.
Proof.
  intros (R & Hc & Hu) Hno Hyes. unfold acurrent in *.
  apply wp_bind. eapply rep_get_group; [done|].
  destruct (G m !! task_tgid c) as [gl|] eqn:HG; cbn.
  2: { apply wp_ret, Hno. destruct (athreads a !! key c) eqn:E; [|done].
       destruct (rep_thread_at _ _ _ _ _ R E) as (l & gl' & _ & ? & _). cbn in *. congruence. }
  apply wp_bind. eapply rep_get_thread; [done..|]. fold (key c).
  destruct (T m !! key c) as [tl|] eqn:HT; cbn.
  2: { apply wp_ret, Hno. destruct (athreads a !! key c) eqn:E; [|done].
       destruct (rep_thread_at _ _ _ _ _ R E) as (l & gl' & ? & _). congruence. }
  destruct (rep_thread _ _ _ R _ _ HT) as (x & Hh & Hx). rewrite Hx in *.
  apply wp_bind. eapply wp_load; [exact Hh|].
  apply wp_bind. eapply rep_get_fiber; [done..|]. cbn [current_fid].
  destruct (F m !! (task_tgid c, x)) as [l|] eqn:HF; cbn.
  - destruct (rep_fiber _ _ _ R _ _ HF) as (f & _ & Hf & Hok). rewrite Hf in *.
    apply wp_ret. by eapply Hyes.
  - apply wp_ret, Hno. destruct (afibers a !! _) eqn:E; [|done].
    destruct (rep_fiber_at _ _ _ _ _ R E) as (l & ? & _). congruence.
Qed.

Lemma fls_index_range i : fls_index_ok i = true -> 0 <= i < FLS_MAX_SIZE.
Proof.
  unfold fls_index_ok. rewrite negb_true_iff, orb_false_iff, Z.ltb_ge, Z.geb_leb, Z.leb_gt.
  lia.
Qed.

Lemma st_fls_alloc a m c u s :
  st a m c u s ->
  wp (do_fls_alloc c) (fun r s' =>
    let '(r', a') := spec_fls_alloc c a in r = r' /\ st a' m c u s') s.
Proof.
  intros Hst. apply wp_bind. unfold spec_fls_alloc, on_current.
  eapply st_current_fiber; [done|intros ->; by apply wp_ret|].
  intros k f l -> Hl Hf Hok. apply wp_bind. eapply st_load_fiber; [done..|].
  unfold fls_alloc. destruct (_ <? FLS_MAX_SIZE) eqn:Hi; cbn zeta.
  - apply wp_bind. eapply st_update_fiber; [done..|exact Hok|].
    intros s1 H1. by apply wp_ret.
  - apply wp_ret. rewrite set_fls_id, upd_fiber_id by done. done.
Qed.

Lemma st_fls_get a m c u s i :
  st a m c u s ->
  wp (do_fls_get_value c i) (fun r s' => r = spec_fls_get c i a /\ st a m c u s') s.
Proof.
  intros Hst. unfold do_fls_get_value, spec_fls_get.
  rewrite <- (negb_involutive (_ || _)).
  fold (fls_index_ok i). destruct (fls_index_ok i) eqn:Hi; cbn [negb]; [|by apply wp_ret].
  apply fls_index_range in Hi.
  apply wp_bind. eapply st_current_fiber; [done|intros ->; by apply wp_ret|].
  intros k f l -> Hl Hf Hok. apply wp_bind. eapply st_load_fiber; [done..|].
  unfold fls_get. destruct (test_bit i _); cbn [negb]; [|by apply wp_ret].
  destruct (lookup_lt_is_Some_2 (data (fls f)) (Z.to_nat i)) as [v Hv].
  { rewrite (proj2 Hok). lia. }
  rewrite Hv. by apply wp_ret.
Qed.

Lemma st_fls_free a m c u s i :
  st a m c u s ->
  wp (do_fls_free c i) (fun r s' =>
    let '(r', a') := spec_fls_free c i a in r = r' /\ st a' m c u s') s.
Proof.
  intros Hst. unfold do_fls_free, spec_fls_free, on_current.
  rewrite <- (negb_involutive (_ || _)).
  fold (fls_index_ok i). destruct (fls_index_ok i) eqn:Hi; cbn [negb]; [|by apply wp_ret].
  apply wp_bind. eapply st_current_fiber; [done|intros ->; by apply wp_ret|].
  intros k f l -> Hl Hf Hok. apply wp_bind. eapply st_load_fiber; [done..|].
  unfold fls_free. destruct (test_bit i _); cbn [negb].
  - apply wp_bind. eapply st_update_fiber; [done..|exact Hok|].
    intros s1 H1. by apply wp_ret.
  - apply wp_ret. rewrite set_fls_id, upd_fiber_id by done. done.
Qed.

Lemma st_fls_set a m c u s i v :
  st a m c u s ->
  wp (do_fls_set_value c i v) (fun r s' =>
    let '(r', a') := spec_fls_set c i v a in r = r' /\ st a' m c u s') s.
Proof.
  intros Hst. unfold do_fls_set_value, spec_fls_set, on_current.
  rewrite <- (negb_involutive (_ || _)).
  fold (fls_index_ok i). destruct (fls_index_ok i) eqn:Hi; cbn [negb]; [|by apply wp_ret].
  apply fls_index_range in Hi.
  apply wp_bind. eapply st_current_fiber; [done|intros ->; by apply wp_ret|].
  intros k f l -> Hl Hf Hok. apply wp_bind. eapply st_load_fiber; [done..|].
  unfold fls_set. destruct (test_bit i _); cbn [negb].
  - rewrite decide_True by (rewrite (proj2 Hok); lia).
    apply wp_bind. eapply st_update_fiber; [done..| |].
    { split; [apply Hok|]. cbn. rewrite length_insert. apply Hok. }
    intros s1 H1. by apply wp_ret.
  - apply wp_ret. rewrite set_fls_id, upd_fiber_id by done. done.
Qed.
End refine.
