(* ===== verification/Cleanup.v ===== *)
(** * Releasing a process ([cleanup_process], [cleanup_all])

    The loops of [cleanup_process] free each object in their body and then
    follow the list link inside it.  On a kernel where freed memory keeps its
    contents until it is reused ([uaf_traps = false]) the function removes
    exactly the process's threads, fibers and group; on one where touching freed
    memory traps, it faults as soon as the process has a thread. *)
From S2P Require Import KState Fiber FiberSpec FiberRefine.
Local Open Scope prog_scope.

Section cleanup.
Context `{K : KernelApi} `{L : !KernelLaws K} `{U : !Uninit K}.
Implicit Types (s : kstate K) (a : astate K).

(** ** Runs of pointer accesses *)
Section runs.
Context {A : Type} `{HA : !HeapOf A}.

Lemma load_run l (x : A) s : heap s !! l = Some (Live x) -> load (PTR l) s = Ret (x, s).
Proof. intros H. unfold load, bind, get. by rewrite H. Qed.

Lemma load_freed l (x : A) s :
  uaf_traps = true -> heap s !! l = Some (Freed x) ->
  load (A := A) (PTR l) s = Fault UseAfterFree.
Proof. intros Huaf H. unfold load, bind, get. by rewrite H, Huaf. Qed.

Lemma update_run l (x : A) h s :
  heap s !! l = Some (Live x) ->
  update (PTR l) h s = Ret (tt, set_heap (<[l := Live (h x)]> (heap s)) s).
Proof.
  intros H. unfold update. erewrite bind_run by (by apply load_run).
  unfold store, bind, get. by rewrite H.
Qed.

Lemma kfree_run l (x : A) s :
  heap s !! l = Some (Live x) ->
  kfree (A := A) (PTR l) s = Ret (tt, set_heap (<[l := Freed x]> (heap s)) s).
Proof. intros H. unfold kfree, bind, get. by rewrite H. Qed.
End runs.

(** ** Unlinking from a table *)
Lemma tab_is_del t (f g : Z -> option loc) k l :
  tab_is t f -> f k = Some l -> (forall k', f k' = Some l -> k' = k) ->
  g k = None -> (forall k', k' <> k -> g k' = f k') ->
  tab_is (hash_del_rcu t l) g.
Proof.
  intros [Hnd Hin] Hk Hinj Hg Hne. split.
  - rewrite (hash_elems_del t l). eapply sublist_NoDup; [exact Hnd|].
    apply fmap_sublist, sublist_filter.
  - intros k' l'. rewrite (hash_elems_del t l), list_elem_of_filter, Hin. cbn.
    destruct (decide (k' = k)) as [->|Hkk].
    + rewrite Hg, Hk. naive_solver.
    + rewrite (Hne k') by done. split; [naive_solver|].
      intros Hl'. split; [|done]. intros ->. by apply Hkk, Hinj.
Qed.

Lemma injective_delete {A} `{Countable A} (m : gmap A loc) k :
  injective m -> injective (delete k m).
Proof.
  intros Hi k1 k2 l [_ H1]%lookup_delete_Some [_ H2]%lookup_delete_Some. eauto.
Qed.

(** ** Freeing an object of the represented state *)
Lemma rep_del_thread s s' a m g gl x p l t :
  rep s a m -> G m !! g = Some gl -> heap_groups s !! gl = Some (Live x) ->
  T m !! (g, p) = Some l ->
  groups s' = groups s -> heap_fibers s' = heap_fibers s -> nalloc s' = nalloc s ->
  heap_threads s' = <[l := Freed t]> (heap_threads s) ->
  heap_groups s' =
    <[gl := Live (set_threads (hash_del_rcu (threads x) l) x)]> (heap_groups s) ->
  rep s' {| agroups := agroups a; athreads := delete (g, p) (athreads a);
            afibers := afibers a |}
      {| G := G m; T := delete (g, p) (T m); F := F m |}.
Proof.
  intros R HG Hx HT E1 E2 E3 E4 E5.
  split; rewrite ?E1, ?E2, ?E3, ?E4, ?E5; cbn; try apply R.
  - intros id l' Hl'. destruct (rep_group _ _ _ R _ _ Hl') as (y & c & Hy & Hc & Hid & Hct & Ht & Hf).
    exists (if decide (id = g) then set_threads (hash_del_rcu (threads y) l) y else y), c.
    destruct (decide (id = g)) as [->|Hne].
    + simplify_eq. rewrite !lookup_insert_eq. split; [done|].
      split; [done|]. split; [done|]. split; [done|]. split; [|exact Hf].
      apply (tab_is_del _ _ _ _ _ Ht HT); cbn.
      * intros k' Hk'. pose proof (rep_inj_T _ _ _ R _ _ _ HT Hk'). congruence.
      * by rewrite lookup_delete_eq.
      * intros k' Hk'. by rewrite lookup_delete_ne by congruence.
    + rewrite !lookup_insert_ne by
        (done || (intros ->; apply Hne; by eapply (rep_inj_G _ _ _ R))).
      split; [done|]. split; [done|]. split; [done|]. split; [done|]. split; [|done].
      eapply tab_is_ext; [|apply Ht]. intros k. cbn. by rewrite lookup_delete_ne by congruence.
  - intros k l' [Hne Hl']%lookup_delete_Some.
    destruct (rep_thread _ _ _ R _ _ Hl') as (c & ? & ?). exists c.
    rewrite lookup_insert_ne by (intros <-; apply Hne; by eapply (rep_inj_T _ _ _ R)).
    by rewrite lookup_delete_ne by done.
  - intros k [c [Hne Hk]%lookup_delete_Some]. rewrite lookup_delete_ne by done.
    apply (rep_thread_dom _ _ _ R). by exists c.
  - apply injective_delete, R.
  - eapply fresh_above_insert; [apply R|exact Hx].
  - destruct (rep_thread _ _ _ R _ _ HT) as (c & Hc & _).
    eapply fresh_above_insert; [apply R|exact Hc].
Qed.

Lemma rep_del_fiber s s' a m g gl x p l t :
  rep s a m -> G m !! g = Some gl -> heap_groups s !! gl = Some (Live x) ->
  F m !! (g, p) = Some l ->
  groups s' = groups s -> heap_threads s' = heap_threads s -> nalloc s' = nalloc s ->
  heap_fibers s' = <[l := Freed t]> (heap_fibers s) ->
  heap_groups s' =
    <[gl := Live (set_fibers (hash_del_rcu (fibers x) l) x)]> (heap_groups s) ->
  rep s' {| agroups := agroups a; athreads := athreads a;
            afibers := delete (g, p) (afibers a) |}
      {| G := G m; T := T m; F := delete (g, p) (F m) |}.
Proof.
  intros R HG Hx HF E1 E2 E3 E4 E5.
  split; rewrite ?E1, ?E2, ?E3, ?E4, ?E5; cbn; try apply R.
  - intros id l' Hl'. destruct (rep_group _ _ _ R _ _ Hl') as (y & c & Hy & Hc & Hid & Hct & Ht & Hf).
    exists (if decide (id = g) then set_fibers (hash_del_rcu (fibers y) l) y else y), c.
    destruct (decide (id = g)) as [->|Hne].
    + simplify_eq. rewrite !lookup_insert_eq. split; [done|].
      split; [done|]. split; [done|]. split; [done|]. split; [exact Ht|].
      apply (tab_is_del _ _ _ _ _ Hf HF); cbn.
      * intros k' Hk'. pose proof (rep_inj_F _ _ _ R _ _ _ HF Hk'). congruence.
      * by rewrite lookup_delete_eq.
      * intros k' Hk'. by rewrite lookup_delete_ne by congruence.
    + rewrite !lookup_insert_ne by
        (done || (intros ->; apply Hne; by eapply (rep_inj_G _ _ _ R))).
      split; [done|]. split; [done|]. split; [done|]. split; [done|]. split; [done|].
      eapply tab_is_ext; [|apply Hf]. intros k. cbn. by rewrite lookup_delete_ne by congruence.
  - intros k l' [Hne Hl']%lookup_delete_Some.
    destruct (rep_fiber _ _ _ R _ _ Hl') as (c & ? & ? & ?). exists c.
    rewrite lookup_insert_ne by (intros <-; apply Hne; by eapply (rep_inj_F _ _ _ R)).
    by rewrite lookup_delete_ne by done.
  - intros k [c [Hne Hk]%lookup_delete_Some]. rewrite lookup_delete_ne by done.
    apply (rep_fiber_dom _ _ _ R). by exists c.
  - apply injective_delete, R.
  - eapply fresh_above_insert; [apply R|exact Hx].
  - destruct (rep_fiber _ _ _ R _ _ HF) as (c & Hc & _).
    eapply fresh_above_insert; [apply R|exact Hc].
Qed.

Lemma rep_del_group s s' a m g gl x :
  rep s a m -> G m !! g = Some gl -> heap_groups s !! gl = Some (Live x) ->
  (forall p, T m !! (g, p) = None) -> (forall p, F m !! (g, p) = None) ->
  groups s' = hash_del_rcu (groups s) gl -> nalloc s' = nalloc s ->
  heap_threads s' = heap_threads s -> heap_fibers s' = heap_fibers s ->
  heap_groups s' = <[gl := Freed x]> (heap_groups s) ->
  rep s' {| agroups := delete g (agroups a); athreads := athreads a; afibers := afibers a |}
      {| G := delete g (G m); T := T m; F := F m |}.
Proof.
  intros R HG Hx HT HF E1 E2 E3 E4 E5.
  split; rewrite ?E1, ?E2, ?E3, ?E4, ?E5; cbn; try apply R.
  - apply (tab_is_del _ _ _ _ _ (rep_groups _ _ _ R) HG); cbn.
    + intros k' Hk'. by eapply (rep_inj_G _ _ _ R).
    + by rewrite lookup_delete_eq.
    + intros k' Hk'. by rewrite lookup_delete_ne by congruence.
  - intros id l' [Hne Hl']%lookup_delete_Some.
    destruct (rep_group _ _ _ R _ _ Hl') as (y & c & ? & ? & ?). exists y, c.
    rewrite lookup_insert_ne by (intros <-; apply Hne; by eapply (rep_inj_G _ _ _ R)).
    by rewrite lookup_delete_ne by done.
  - intros id [c [Hne Hk]%lookup_delete_Some]. rewrite lookup_delete_ne by done.
    apply (rep_group_dom _ _ _ R). by exists c.
  - intros [k p] Hk. destruct (rep_thread_dom _ _ _ R _ Hk) as [Hs HG']. split; [done|].
    cbn in *. rewrite lookup_delete_ne; [done|]. intros <-.
    rewrite HT in Hs. by destruct Hs.
  - intros [k p] Hk. destruct (rep_fiber_dom _ _ _ R _ Hk) as [Hs HG']. split; [done|].
    cbn in *. rewrite lookup_delete_ne; [done|]. intros <-.
    rewrite HF in Hs. by destruct Hs.
  - apply injective_delete, R.
  - eapply fresh_above_insert; [apply R|exact Hx].
Qed.

(** The objects a table enumerates, once each. *)
Lemma hash_each_tab t f :
  tab_is t f -> (forall k1 k2 l, f k1 = Some l -> f k2 = Some l -> k1 = k2) ->
  NoDup (hash_each t) /\ (forall l, l ∈ hash_each t <-> exists k, f k = Some l).
Proof.
  intros [Hnd Hin] Hinj. split.
  - rewrite (hash_each_elems t). assert (forall k l, (k, l) ∈ hash_elems t -> f k = Some l) as Hf by (intros; by apply Hin).
    clear Hin. induction (hash_elems t) as [|[k l] es IH]; cbn in *; [constructor|].
    apply NoDup_cons in Hnd as [Hk Hnd]. apply NoDup_cons. split.
    + intros ([k' l'] & Heq & Hl')%list_elem_of_fmap. cbn in Heq. subst l'. apply Hk.
      assert (k = k') as -> by (apply (Hinj k k' l); apply Hf; set_solver).
      apply list_elem_of_fmap. by exists (k', l).
    + apply IH; [done|]. intros. apply Hf. set_solver.
  - intros l. rewrite (hash_each_elems t), list_elem_of_fmap. setoid_rewrite <- Hin. split.
    + intros ([k l'] & -> & H). by exists k.
    + intros [k H]. by exists (k, l).
Qed.

(** ** The loops, when freed memory keeps its contents *)
Section tolerant.
Hypothesis Huaf : uaf_traps = false.

Lemma wp_next_freed {A} `{!HeapOf A} l (x : A) (Q : unit -> kstate K -> Prop) s :
  heap s !! l = Some (Freed x) -> Q tt s -> wp (next_of (A := A) (PTR l)) Q s.
Proof. intros H HQ. apply wp_bind, wp_bind, wp_get. rewrite H, Huaf. by wp_auto. Qed.

Lemma wp_kfree {A} `{!HeapOf A} l (x : A) (Q : unit -> kstate K -> Prop) s :
  heap s !! l = Some (Live x) -> Q tt (set_heap (<[l := Freed x]> (heap s)) s) ->
  wp (kfree (A := A) (PTR l)) Q s.
Proof. intros H HQ. apply wp_bind, wp_get. rewrite H. by apply wp_put. Qed.

Lemma st_free_threads g gl c u ls : forall a m s (Q : unit -> kstate K -> Prop),
  st a m c u s -> G m !! g = Some gl -> NoDup ls ->
  (forall l, l ∈ ls <-> exists p, T m !! (g, p) = Some l) ->
  (forall s' m' a', st a' m' c u s' -> G m' = G m -> F m' = F m ->
    (forall p, T m' !! (g, p) = None) ->
    a' = {| agroups := agroups a; athreads := filter (fun p => p.1.1 <> g) (athreads a);
            afibers := afibers a |} -> Q tt s') ->
  wp (hash_for_each (A := thread) ls (fun t =>
    hash_del set_threads threads (PTR gl) t ;;; kfree (A := thread) t)) Q s.
Proof.
  induction ls as [|l ls IH]; intros a m s Q Hst HG Hnd Hls HQ.
  - apply wp_ret.
    assert (forall p, T m !! (g, p) = None) as Hno.
    { intros p. destruct (T m !! (g, p)) as [l|] eqn:E; [|done].
      assert (l ∈ @nil loc) by (apply Hls; eauto). set_solver. }
    eapply HQ; [exact Hst|done..|].
    rewrite map_filter_id; [by destruct a|].
    intros [k p] x Hx. cbn. intros ->.
    destruct (rep_thread_dom _ _ _ (proj1 Hst) (g, p)) as [[l Hl] _]; [by rewrite Hx|].
    by rewrite Hno in Hl.
  - destruct (proj1 (Hls l)) as [p HT]; [set_solver|].
    apply NoDup_cons in Hnd as [Hl Hnd].
    destruct Hst as (R & Hc & Hu).
    destruct (rep_group _ _ _ R _ _ HG) as (x & cnt & Hx & _).
    destruct (rep_thread _ _ _ R _ _ HT) as (x' & Ht & _).
    apply wp_bind, wp_bind. eapply wp_update; [exact Hx|].
    eapply wp_kfree; [cbn; exact Ht|].
    apply wp_bind. eapply wp_next_freed; [cbn; apply lookup_insert_eq|].
    eapply IH.
    + split; [|done]. eapply (rep_del_thread s); [exact R|exact HG|exact Hx|exact HT|done..].
    + done.
    + done.
    + intros l'. split.
      * intros Hin. destruct (proj1 (Hls l')) as [p' Hp']; [set_solver|].
        exists p'. cbn. rewrite lookup_delete_ne; [done|]. congruence.
      * cbn [T F]. intros [p' [Hne Hp']%lookup_delete_Some].
        assert (l' ∈ l :: ls) as [->|]%elem_of_cons by (apply Hls; eauto); [|done].
        exfalso. apply Hne. by eapply (rep_inj_T _ _ _ R).
    + intros s' m' a' Hst' HG' HF' HT' ->. eapply HQ; [exact Hst'|done..|]. cbn.
      rewrite map_filter_delete_not; [done|]. intros y _. cbn. auto.
Qed.

Lemma st_free_fibers g gl c u ls : forall a m s (Q : unit -> kstate K -> Prop),
  st a m c u s -> G m !! g = Some gl -> NoDup ls ->
  (forall l, l ∈ ls <-> exists p, F m !! (g, p) = Some l) ->
  (forall s' m' a', st a' m' c u s' -> G m' = G m -> T m' = T m ->
    (forall p, F m' !! (g, p) = None) ->
    a' = {| agroups := agroups a; athreads := athreads a;
            afibers := filter (fun p => p.1.1 <> g) (afibers a) |} -> Q tt s') ->
  wp (hash_for_each (A := fiber K) ls (fun f =>
    hash_del set_fibers fibers (PTR gl) f ;;; kfree (A := fiber K) f)) Q s.
Proof.
  induction ls as [|l ls IH]; intros a m s Q Hst HG Hnd Hls HQ.
  - apply wp_ret.
    assert (forall p, F m !! (g, p) = None) as Hno.
    { intros p. destruct (F m !! (g, p)) as [l|] eqn:E; [|done].
      assert (l ∈ @nil loc) by (apply Hls; eauto). set_solver. }
    eapply HQ; [exact Hst|done..|].
    rewrite map_filter_id; [by destruct a|].
    intros [k p] x Hx. cbn. intros ->.
    destruct (rep_fiber_dom _ _ _ (proj1 Hst) (g, p)) as [[l Hl] _]; [by rewrite Hx|].
    by rewrite Hno in Hl.
  - destruct (proj1 (Hls l)) as [p HF]; [set_solver|].
    apply NoDup_cons in Hnd as [Hl Hnd].
    destruct Hst as (R & Hc & Hu).
    destruct (rep_group _ _ _ R _ _ HG) as (x & cnt & Hx & _).
    destruct (rep_fiber _ _ _ R _ _ HF) as (x' & Ht & _).
    apply wp_bind, wp_bind. eapply wp_update; [exact Hx|].
    eapply wp_kfree; [cbn; exact Ht|].
    apply wp_bind. eapply wp_next_freed; [cbn; apply lookup_insert_eq|].
    eapply IH.
    + split; [|done]. eapply (rep_del_fiber s); [exact R|exact HG|exact Hx|exact HF|done..].
    + done.
    + done.
    + intros l'. split.
      * intros Hin. destruct (proj1 (Hls l')) as [p' Hp']; [set_solver|].
        exists p'. cbn. rewrite lookup_delete_ne; [done|]. congruence.
      * cbn [T F]. intros [p' [Hne Hp']%lookup_delete_Some].
        assert (l' ∈ l :: ls) as [->|]%elem_of_cons by (apply Hls; eauto); [|done].
        exfalso. apply Hne. by eapply (rep_inj_F _ _ _ R).
    + intros s' m' a' Hst' HG' HF' HT' ->. eapply HQ; [exact Hst'|done..|]. cbn.
      rewrite map_filter_delete_not; [done|]. intros y _. cbn. auto.
Qed.

Lemma st_cleanup a m c u s g :
  st a m c u s ->
  wp (cleanup_process g) (fun r s' =>
    r = 0 /\ exists m', st (spec_cleanup g a) m' c u s' /\ G m' = delete g (G m) /\
      forall gl, G m !! g = Some gl -> exists x, heap_groups s' !! gl = Some (Freed x)) s.
Proof.
  intros Hst. apply wp_bind. eapply rep_get_group; [apply Hst|].
  destruct (G m !! g) as [gl|] eqn:HG; cbn [ptr_of_opt is_null].
  - destruct (rep_group _ _ _ (proj1 Hst) _ _ HG) as (x & cnt & Hx & _ & _ & _ & Ht & _).
    apply wp_bind. eapply wp_load; [exact Hx|].
    destruct (hash_each_tab _ _ Ht) as [Hnd Hls].
    { intros k1 k2 l H1 H2. pose proof (rep_inj_T _ _ _ (proj1 Hst) _ _ _ H1 H2). congruence. }
    apply wp_bind. eapply st_free_threads; [exact Hst|done..|].
    intros s1 m1 a1 H1 HG1 HF1 HT1 ->. clear x cnt Hx Ht Hnd Hls. rewrite <- HG1 in HG.
    destruct (rep_group _ _ _ (proj1 H1) _ _ HG) as (x & cnt & Hx & _ & _ & _ & _ & Hf).
    apply wp_bind. eapply wp_load; [exact Hx|].
    destruct (hash_each_tab _ _ Hf) as [Hnd Hls].
    { intros k1 k2 l E1 E2. pose proof (rep_inj_F _ _ _ (proj1 H1) _ _ _ E1 E2). congruence. }
    apply wp_bind. eapply st_free_fibers; [exact H1|done..|].
    intros s2 m2 a2 H2 HG2 HT2 HF2 ->. clear x cnt Hx Hf Hnd Hls. rewrite <- HG2 in HG.
    destruct (rep_group _ _ _ (proj1 H2) _ _ HG) as (x & cnt & Hx & _).
    wp_auto. eapply wp_kfree; [cbn; exact Hx|]. wp_auto. split; [done|].
    exists {| G := delete g (G m2); T := T m2; F := F m2 |}. split; [split|split].
    + eapply (rep_del_group s2 _ _ m2 g gl x (proj1 H2)); try done.
      intros p. by rewrite HT2.
    + apply H2.
    + cbn. by rewrite HG2, HG1.
    + intros gl' [= <-]. exists x.
      apply lookup_insert_eq.
  - apply wp_ret. split; [done|]. exists m.
    destruct (rep_no_group _ _ _ _ (proj1 Hst) HG) as [HT HF].
    replace (spec_cleanup g a) with a; [by rewrite delete_id by done|].
    unfold spec_cleanup.
    rewrite delete_id, !map_filter_id; [by destruct a|..].
    + intros [k p] f Hf. cbn. intros ->.
      destruct (rep_fiber_dom _ _ _ (proj1 Hst) (g, p)) as [[l Hl] _]; [by rewrite Hf|].
      by rewrite HF in Hl.
    + intros [k p] f Hf. cbn. intros ->.
      destruct (rep_thread_dom _ _ _ (proj1 Hst) (g, p)) as [[l Hl] _]; [by rewrite Hf|].
      by rewrite HT in Hl.
    + destruct (agroups a !! g) eqn:E; [|done].
      destruct (rep_group_dom _ _ _ (proj1 Hst) g) as [? ?]; [by rewrite E|]. congruence.
Qed.

(** cleanup_all walks the table of groups and cleans each one. *)
Lemma st_cleanup_groups c u ls : forall a m s (Q : unit -> kstate K -> Prop),
  st a m c u s -> NoDup ls ->
  (forall l, l ∈ ls <-> exists g, G m !! g = Some l) ->
  (forall s' m' a', st a' m' c u s' -> (forall g, G m' !! g = None) -> Q tt s') ->
  wp (hash_for_each (A := thread_group K) ls (fun tg =>
    g <- load tg ;; cleanup_process (tgid g) ;;; ret tt)) Q s.
Proof.
  induction ls as [|l ls IH]; intros a m s Q Hst Hnd Hls HQ.
  - apply wp_ret. eapply HQ; [exact Hst|]. intros g.
    destruct (G m !! g) as [l|] eqn:E; [|done].
    assert (l ∈ @nil loc) by (apply Hls; eauto). set_solver.
  - destruct (proj1 (Hls l)) as [g HG]; [set_solver|].
    apply NoDup_cons in Hnd as [Hl Hnd].
    destruct (rep_group _ _ _ (proj1 Hst) _ _ HG) as (x & cnt & Hx & _ & Hid & _).
    apply wp_bind, wp_bind. eapply wp_load; [exact Hx|]. rewrite Hid.
    apply wp_bind. eapply wp_mono; [by eapply st_cleanup|].
    intros r s' (_ & m' & Hst' & HG' & Hfr). apply wp_ret.
    destruct (Hfr _ HG) as [x' Hx']. apply wp_bind. eapply wp_next_freed; [exact Hx'|].
    eapply IH; [exact Hst'|done| |done].
    intros l'. rewrite HG'. split.
    + intros Hin. destruct (proj1 (Hls l')) as [g' Hg']; [set_solver|].
      exists g'. rewrite lookup_delete_ne; [done|]. congruence.
    + intros [g' [Hne Hg']%lookup_delete_Some].
      assert (l' ∈ l :: ls) as [->|]%elem_of_cons by (apply Hls; eauto); [|done].
      exfalso. apply Hne. by eapply (rep_inj_G _ _ _ (proj1 Hst)).
Qed.

Lemma st_cleanup_all a m c u s :
  st a m c u s ->
  wp cleanup_all (fun r s' => r = SUCCESS /\ exists m', st ainit m' c u s') s.
Proof.
  intros Hst. apply wp_bind, wp_get.
  destruct (hash_each_tab _ _ (rep_groups _ _ _ (proj1 Hst))) as [Hnd Hls].
  { apply (rep_inj_G _ _ _ (proj1 Hst)). }
  apply wp_bind. eapply st_cleanup_groups; [exact Hst|done..|].
  intros s' m' a' Hst' Hno. apply wp_ret. split; [done|]. exists m'.
  replace ainit with a'; [done|]. destruct Hst' as [R _].
  destruct a' as [ag at' af]; unfold ainit; f_equal; apply map_eq; intros k;
    rewrite lookup_empty; apply eq_None_not_Some; intros Hk.
  - apply (rep_group_dom _ _ _ R) in Hk as [? Hk]. by rewrite Hno in Hk.
  - destruct (rep_thread_dom _ _ _ R k Hk) as [_ [? Hg]]. by rewrite Hno in Hg.
  - destruct (rep_fiber_dom _ _ _ R k Hk) as [_ [? Hg]]. by rewrite Hno in Hg.
Qed.
End tolerant.

(** ** The first loop, when freed memory traps *)
Lemma st_cleanup_traps a m c u s g p x :
  uaf_traps = true -> st a m c u s -> athreads a !! (g, p) = Some x ->
  cleanup_process g s = Fault UseAfterFree.
Proof.
  intros Huaf Hst Hp.
  destruct (rep_thread_at _ _ _ _ _ (proj1 Hst) Hp) as (l & gl & HT & HG & _).
  cbn in HG. unfold cleanup_process.
  assert (wp (get_group g) (fun r s' => r = PTR gl /\ s' = s) s) as Hw.
  { eapply rep_get_group; [apply Hst|]. by rewrite HG. }
  apply wp_run in Hw as (? & ? & Hrun & -> & ->).
  erewrite bind_run by exact Hrun. cbn [is_null].
  destruct (rep_group _ _ _ (proj1 Hst) _ _ HG) as (y & cnt & Hy & _ & _ & _ & Ht & _).
  destruct (hash_each_tab _ _ Ht) as [_ Hls].
  { intros k1 k2 l' H1 H2. pose proof (rep_inj_T _ _ _ (proj1 Hst) _ _ _ H1 H2). congruence. }
  assert (l ∈ hash_each (threads y)) as Hin by (apply Hls; eauto).
  erewrite bind_run by (by apply load_run).
  apply bind_fault. destruct (hash_each (threads y)) as [|l1 ls]; [set_solver|].
  destruct (proj1 (Hls l1)) as [p1 HT1]; [set_solver|].
  destruct (rep_thread _ _ _ (proj1 Hst) _ _ HT1) as (x1 & Ht1 & _).
  cbn [hash_for_each].
  erewrite bind_run; [|erewrite bind_run; [|by apply update_run]; by eapply kfree_run].
  apply bind_fault, bind_fault. by eapply load_freed, lookup_insert_eq.
Qed.
End cleanup.
