(* ===== verification/FiberInv.v ===== *)
(** * The ownership invariant

    In every reachable state the fibers of a process are numbered 0, 1, ...,
    [fid_count] without gaps; a fiber is locked exactly when one converted
    thread of its process is running it, and its [state] field then names that
    thread; an unlocked fiber has [state] 0.  Each request preserves it. *)
From S2P Require Import KState Fiber FiberSpec.

Section inv.
Context `{K : KernelApi} `{U : !Uninit K}.
Implicit Types (a : astate K).

Record ainv a : Prop := {
  inv_count g c : agroups a !! g = Some c -> -1 <= c < 2 ^ 31;
  inv_ids g c i : agroups a !! g = Some c -> is_Some (afibers a !! (g, i)) <-> 0 <= i <= c;
  inv_fiber_group k : is_Some (afibers a !! k) -> is_Some (agroups a !! k.1);
  inv_thread_group k : is_Some (athreads a !! k) -> is_Some (agroups a !! k.1);
  inv_current g p c : athreads a !! (g, p) = Some c ->
    0 < p /\ exists f, afibers a !! (g, c) = Some f /\ flock f = true /\ state (info f) = p;
  inv_owner g i f : afibers a !! (g, i) = Some f -> flock f = true ->
    athreads a !! (g, state (info f)) = Some i;
  inv_free k f : afibers a !! k = Some f -> flock f = false -> state (info f) = 0;
  inv_name k f : afibers a !! k = Some f -> fid f = k.2 /\ name (info f) = format_d k.2;
}.

(** The process may still number one more fiber without wrapping. *)
Definition room (g : Z) a : Prop := default NO_FIBERS (agroups a !! g) < 2 ^ 31 - 1.

Lemma ainv_init : ainv ainit.
Proof.
  split; cbn; try (intros *; rewrite lookup_empty; done);
    intros *; rewrite lookup_empty; intros [? [=]].
Qed.

Lemma next_fid_room g a :
  ainv a -> room g a ->
  next_fid g a = default NO_FIBERS (agroups a !! g) + 1 /\ 0 <= next_fid g a < 2 ^ 31.
Proof.
  intros I Hr. unfold room, next_fid in *.
  assert (-1 <= default NO_FIBERS (agroups a !! g)).
  { destruct (agroups a !! g) as [c|] eqn:E; cbn; [|unfold NO_FIBERS; lia].
    by apply I in E as [? ?]. }
  rewrite i32_small by (unfold in_i32; lia). lia.
Qed.

(** The next number is not in use. *)
Lemma next_fid_fresh g a : ainv a -> room g a -> afibers a !! (g, next_fid g a) = None.
Proof.
  intros I Hr. destruct (next_fid_room _ _ I Hr) as [Hn _].
  destruct (agroups a !! g) as [c|] eqn:E; cbn in Hn; apply eq_None_not_Some; intros Hs.
  - apply (inv_ids _ I _ _ _ E) in Hs. unfold id in Hn. lia.
  - apply (inv_fiber_group _ I) in Hs as [? ?]. cbn in *. congruence.
Qed.

(** Changing a fiber without touching who runs it. *)
Lemma ainv_upd_fiber k f f' a :
  ainv a -> afibers a !! k = Some f ->
  fid f' = fid f -> flock f' = flock f -> state (info f') = state (info f) ->
  name (info f') = name (info f) ->
  ainv (upd_fiber k f' a).
Proof.
  intros I Hk E1 E2 E3 E4. split; cbn; try apply I.
  - intros g c i Hg. rewrite <- (inv_ids _ I _ _ _ Hg), lookup_insert.
    case_decide as Hd; [|done]. subst. rewrite Hk. split; eauto.
  - intros k' Hk'. rewrite lookup_insert in Hk'. case_decide; [|by apply I].
    subst. apply I. by rewrite Hk.
  - intros g p c Hc. destruct (inv_current _ I _ _ _ Hc) as (? & f0 & Hf0 & ? & ?).
    split; [done|]. rewrite lookup_insert. case_decide; [|eauto].
    subst. simplify_eq. exists f'. split; [done|]. by rewrite E2, E3.
  - intros g i f0. rewrite lookup_insert. case_decide; [|apply I].
    intros [= <-]. rewrite E2, E3. subst k. by apply I.
  - intros k' f0. rewrite lookup_insert. case_decide; [|apply I].
    intros [= <-]. rewrite E2, E3. subst k. by apply (inv_free _ I k').
  - intros k' f0. rewrite lookup_insert. case_decide; [|apply I].
    intros [= <-]. rewrite E1, E4. subst k. by apply I.
Qed.

(** Adding the next fiber, unlocked. *)
Lemma ainv_add_fiber g f a :
  ainv a -> room g a -> fid f = next_fid g a -> flock f = false -> state (info f) = 0 ->
  name (info f) = format_d (fid f) ->
  ainv (upd_fiber (g, next_fid g a) f (upd_group g (next_fid g a) a)).
Proof.
  intros I Hr Hid Hlk Hst Hnm. destruct (next_fid_room _ _ I Hr) as [Hn Hb].
  pose proof (next_fid_fresh _ _ I Hr) as Hfr.
  assert (forall i, is_Some (afibers a !! (g, i)) <-> 0 <= i < next_fid g a) as Hids.
  { intros i. destruct (agroups a !! g) as [c|] eqn:E; cbn in Hn; unfold id in Hn.
    - rewrite (inv_ids _ I _ _ _ E). lia.
    - unfold NO_FIBERS in Hn. split; [|lia]. intros Hs.
      apply (inv_fiber_group _ I) in Hs as [? ?]. cbn in *. congruence. }
  split; cbn.
  - intros g' c. rewrite lookup_insert. case_decide; [intros [= <-]; lia|apply I].
  - intros g' c i. rewrite !lookup_insert. case_decide.
    + intros [= <-]. subst g'. case_decide as Hd.
      * injection Hd as <-. split; [lia|eauto].
      * rewrite Hids. split; [lia|]. intros. destruct (decide (i = next_fid g a)); [congruence|lia].
    + intros Hg'. rewrite decide_False by congruence. by apply I.
  - intros k. rewrite !lookup_insert. case_decide as Hd.
    + subst k. rewrite decide_True by done. eauto.
    + intros Hk. case_decide; [eauto|]. by apply I.
  - intros k Hk. rewrite lookup_insert. case_decide; [eauto|]. by apply (inv_thread_group _ I).
  - intros g' p c Hc. destruct (inv_current _ I _ _ _ Hc) as (? & f0 & Hf0 & ? & ?).
    split; [done|]. exists f0. split; [|done]. rewrite lookup_insert_ne; [done|].
    intros [= -> <-]. congruence.
  - intros g' i f0. rewrite lookup_insert. case_decide; [|apply I]. intros [= <-]. congruence.
  - intros k f0. rewrite lookup_insert. case_decide; [|apply I]. by intros [= <-].
  - intros k f0. rewrite lookup_insert. case_decide; [|apply I]. intros [= <-]. subst k.
    cbn. by rewrite <- Hid.
Qed.

(** A thread that runs no fiber takes a free one. *)
Lemma ainv_take g p i f f' a :
  ainv a -> 0 < p -> athreads a !! (g, p) = None -> afibers a !! (g, i) = Some f ->
  flock f = false -> flock f' = true -> state (info f') = p ->
  fid f' = fid f -> name (info f') = name (info f) ->
  ainv (upd_fiber (g, i) f' (upd_thread (g, p) i a)).
Proof.
  intros I Hp Hno Hf Hfree Hlk Hst E1 E2. split; cbn; try apply I.
  - intros g' c j Hg. rewrite <- (inv_ids _ I _ _ _ Hg), lookup_insert.
    case_decide as Hd; [|done]. rewrite <- Hd, Hf. split; eauto.
  - intros k Hk. rewrite lookup_insert in Hk. case_decide; [|by apply (inv_fiber_group _ I)].
    subst. apply I. by rewrite Hf.
  - intros k Hk. rewrite lookup_insert in Hk. case_decide; [|by apply (inv_thread_group _ I)].
    subst. apply (inv_fiber_group _ I (g, i)). by rewrite Hf.
  - intros g' p' c. rewrite lookup_insert. case_decide as Hd.
    + intros [= <-]. injection Hd as <- <-. split; [done|]. exists f'.
      by rewrite lookup_insert_eq.
    + intros Hc. destruct (inv_current _ I _ _ _ Hc) as (? & f0 & Hf0 & ? & ?).
      split; [done|]. exists f0. rewrite lookup_insert_ne; [done|].
      intros [= <- <-]. congruence.
  - intros g' j f0. rewrite lookup_insert. case_decide as Hd.
    + intros [= <-] _. injection Hd as <- <-. rewrite Hst. by rewrite lookup_insert_eq.
    + intros Hf0 Hl. rewrite lookup_insert_ne; [by apply I|].
      intros [= <- Heq]. apply (inv_owner _ I _ _ _ Hf0) in Hl. congruence.
  - intros k f0. rewrite lookup_insert. case_decide; [|apply I]. intros [= <-]. congruence.
  - intros k f0. rewrite lookup_insert. case_decide; [|apply I]. intros [= <-].
    rewrite E1, E2. subst k. by apply I.
Qed.

(** A running thread gives its fiber up. *)
Definition del_thread (k : Z * Z) a : astate K :=
  {| agroups := agroups a; athreads := delete k (athreads a); afibers := afibers a |}.

Lemma ainv_drop g p i f f' a :
  ainv a -> athreads a !! (g, p) = Some i -> afibers a !! (g, i) = Some f ->
  flock f' = false -> state (info f') = 0 -> fid f' = fid f -> name (info f') = name (info f) ->
  ainv (upd_fiber (g, i) f' (del_thread (g, p) a)).
Proof.
  intros I Hp Hf Hlk Hst E1 E2.
  destruct (inv_current _ I _ _ _ Hp) as (Hpos & f1 & Hf1 & Hl1 & Hs1). simplify_eq.
  split; cbn; try apply I.
  - intros g' c j Hg. rewrite <- (inv_ids _ I _ _ _ Hg), lookup_insert.
    case_decide as Hd; [|done]. rewrite <- Hd, Hf. split; eauto.
  - intros k Hk. rewrite lookup_insert in Hk. case_decide; [|by apply I].
    subst. apply I. by rewrite Hf.
  - intros k [c [_ Hc]%lookup_delete_Some]. apply (inv_thread_group _ I). by rewrite Hc.
  - intros g' p' c [Hne Hc]%lookup_delete_Some.
    destruct (inv_current _ I _ _ _ Hc) as (? & f0 & Hf0 & ? & ?).
    split; [done|]. exists f0. rewrite lookup_insert_ne; [done|].
    intros [= <- <-]. simplify_eq.
  - intros g' j f0. rewrite lookup_insert. case_decide as Hd; [intros [= <-]; congruence|].
    intros Hf0 Hl. rewrite lookup_delete_ne; [by apply I|].
    intros [= <- Heq]. apply (inv_owner _ I _ _ _ Hf0) in Hl. rewrite <- Heq in Hl. congruence.
  - intros k f0. rewrite lookup_insert. case_decide; [|apply I]. by intros [= <-].
  - intros k f0. rewrite lookup_insert. case_decide; [|apply I]. intros [= <-].
    rewrite E1, E2. subst k. by apply I.
Qed.

(** ** The requests preserve it *)
Lemma set_flock_id b (f : fiber K) : flock f = b -> set_flock b f = f.
Proof. intros <-. by destruct f. Qed.

Lemma ainv_convert c a :
  ainv a -> 0 < task_pid c -> room (task_tgid c) a -> ainv (spec_convert c a).2.
Proof.
  intros I Hp Hr. unfold spec_convert. set (g := task_tgid c) in *.
  destruct (athreads a !! key c) eqn:Hk; [done|]. cbn [snd].
  set (n := new_fiber (next_fid g a) c).
  pose proof (ainv_add_fiber g n a I Hr eq_refl eq_refl eq_refl eq_refl) as I1.
  eapply (ainv_take g (task_pid c) (next_fid g a) n
    (activate (task_pid c) (utime c) (set_flock true n))) in I1; try done.
  - unfold upd_fiber, upd_thread, upd_group in *. cbn in *.
    by rewrite insert_insert_eq in I1.
  - cbn. apply lookup_insert_eq.
Qed.

Lemma ainv_create c sb ss ep arg a :
  ainv a -> room (task_tgid c) a -> ainv (spec_create c sb ss ep arg a).2.
Proof.
  intros I Hr. unfold spec_create. destruct (athreads a !! key c) eqn:Hk; [|done].
  by apply ainv_add_fiber.
Qed.

(** What the switch does, case by case. *)
Lemma spec_switch_busy c next a x f :
  athreads a !! key c = Some x -> afibers a !! (task_tgid c, next) = Some f ->
  flock f = true ->
  spec_switch c next a =
    (- EAGAIN, upd_fiber (task_tgid c, next) (count_failure f) a, c).
Proof.
  intros Hx Hf Hb. unfold spec_switch. rewrite Hx, Hf, Hb. cbn [orb].
  by rewrite set_flock_id.
Qed.

Definition switched (c : task_struct) (old new : Z) (o f : fiber K) a : astate K :=
  upd_fiber (task_tgid c, new) (activate (task_pid c) (utime c) (set_flock true f))
    (upd_thread (key c) new (upd_fiber (task_tgid c, old) (suspend c o) a)).

Lemma spec_switch_free c old next a f :
  ainv a -> athreads a !! key c = Some old -> afibers a !! (task_tgid c, next) = Some f ->
  flock f = false ->
  old <> next /\ exists o, afibers a !! (task_tgid c, old) = Some o /\ flock o = true /\
    spec_switch c next a = (SUCCESS, switched c old next o f a, resume f c).
Proof.
  intros I Hx Hf Hfree. destruct (inv_current _ I _ _ _ Hx) as (Hp & o & Ho & Hl & Hs).
  assert (old <> next) as Hne by (intros ->; congruence).
  split; [done|]. exists o. split; [done|]. split; [done|].
  unfold spec_switch. rewrite Hx, Hf, Hfree, (inv_free _ I _ _ Hf Hfree). cbn [orb negb Z.eqb].
  unfold hand_over. cbn [afibers upd_thread upd_fiber].
  rewrite insert_insert_eq, lookup_insert_ne, Ho by congruence.
  rewrite lookup_insert_ne, lookup_insert_eq by congruence.
  f_equal. f_equal. unfold switched, upd_fiber, upd_thread. cbn. f_equal.
  rewrite insert_insert_eq. apply insert_insert_ne. congruence.
Qed.

Lemma ainv_switched c old next a o f :
  ainv a -> athreads a !! key c = Some old -> afibers a !! (task_tgid c, old) = Some o ->
  afibers a !! (task_tgid c, next) = Some f -> flock f = false -> old <> next ->
  ainv (switched c old next o f a).
Proof.
  intros I Hx Ho Hf Hfree Hne.
  destruct (inv_current _ I _ _ _ Hx) as (Hp & _).
  pose proof (ainv_drop _ _ _ _ (suspend c o) _ I Hx Ho eq_refl eq_refl eq_refl eq_refl) as I1.
  eapply (ainv_take _ _ next f
    (activate (task_pid c) (utime c) (set_flock true f))) in I1; try done.
  - unfold switched, upd_fiber, upd_thread, del_thread in *. cbn in *.
    rewrite insert_delete_eq in I1. exact I1.
  - cbn. apply lookup_delete_eq.
  - cbn. rewrite lookup_insert_ne; [done|congruence].
Qed.

Lemma ainv_switch c next a : ainv a -> ainv (spec_switch c next a).1.2.
Proof.
  intros I. destruct (athreads a !! key c) as [old|] eqn:Hx.
  2: { unfold spec_switch. by rewrite Hx. }
  destruct (afibers a !! (task_tgid c, next)) as [f|] eqn:Hf.
  2: { unfold spec_switch. by rewrite Hx, Hf. }
  destruct (flock f) eqn:Hb.
  - erewrite spec_switch_busy by done. by eapply ainv_upd_fiber.
  - destruct (spec_switch_free _ _ _ _ _ I Hx Hf Hb) as (Hne & o & Ho & _ & ->).
    by apply ainv_switched.
Qed.

Lemma ainv_on_current c op a : ainv a -> ainv (on_current c op a).2.
Proof.
  intros I. unfold on_current. destruct (acurrent c a) as [[k f]|] eqn:E; [|done].
  destruct (op (fls f)) as [r x]. unfold acurrent in E. repeat case_match; simplify_eq.
  by eapply ainv_upd_fiber.
Qed.

Lemma ainv_fls_alloc c a : ainv a -> ainv (spec_fls_alloc c a).2.
Proof. apply ainv_on_current. Qed.
Lemma ainv_fls_free c i a : ainv a -> ainv (spec_fls_free c i a).2.
Proof. intros. unfold spec_fls_free. case_match; [by apply ainv_on_current|done]. Qed.
Lemma ainv_fls_set c i v a : ainv a -> ainv (spec_fls_set c i v a).2.
Proof. intros. unfold spec_fls_set. case_match; [by apply ainv_on_current|done]. Qed.

Lemma ainv_cleanup g a : ainv a -> ainv (spec_cleanup g a).
Proof.
  intros I. split; cbn.
  - intros g' c [_ Hc]%lookup_delete_Some. by apply I in Hc.
  - intros g' c i [Hne Hc]%lookup_delete_Some. rewrite <- (inv_ids _ I _ _ _ Hc).
    split; intros [f Hf]; exists f.
    + by apply map_lookup_filter_Some in Hf as [? _].
    + apply map_lookup_filter_Some. split; [done|]. cbn. congruence.
  - intros k [f [Hf Hk]%map_lookup_filter_Some]. rewrite lookup_delete_ne by done.
    apply (inv_fiber_group _ I). eauto.
  - intros k [f [Hf Hk]%map_lookup_filter_Some]. rewrite lookup_delete_ne by done.
    apply (inv_thread_group _ I). eauto.
  - intros g' p c [Hc Hk]%map_lookup_filter_Some.
    destruct (inv_current _ I _ _ _ Hc) as (? & f & ? & ?). split; [done|]. exists f.
    by rewrite map_lookup_filter_Some.
  - intros g' i f [Hf Hk]%map_lookup_filter_Some Hl. apply map_lookup_filter_Some.
    split; [by apply (inv_owner _ I _ _ _ Hf)|done].
  - intros k f [Hf Hk]%map_lookup_filter_Some. by apply (inv_free _ I k).
  - intros k f [Hf Hk]%map_lookup_filter_Some. by apply I.
Qed.
End inv.
