(* ===== verification/View.v ===== *)
(** * What a kernel state holds, read through the code's own lookups

    [count_at], [thread_at] and [fiber_at] look a process, a converted thread
    and a fiber up the way the requests do ([get_group], [get_thread],
    [get_fiber]) and read the object found; they are executable.  A
    [consistent] state is one in which the tables and the heap represent an
    abstract state that satisfies the ownership invariant; in it the three
    functions read that abstract state. *)
From S2P Require Import KState Fiber FiberSpec FiberRefine Cleanup FiberInv.
Local Open Scope prog_scope.

Section view.
Context `{K : KernelApi} `{L : !KernelLaws K} `{U : !Uninit K}.
Implicit Types (s : kstate K).

Definition value_of {A} (m : M (kstate K) (option A)) s : option A :=
  match m s with Ret (o, _) => o | Fault _ => None end.

(** [fid_count] of process [g]. *)
Definition count_at s (g : Z) : option Z :=
  value_of (tg <- get_group g ;;
    if is_null tg then ret None else
    x <- load (A := thread_group K) tg ;; ret (Some (fid_count x))) s.

(** [current_fid] of thread [k.2] of process [k.1]. *)
Definition thread_at s (k : Z * Z) : option Z :=
  value_of (tg <- get_group k.1 ;;
    if is_null tg then ret None else
    t <- get_thread k.2 tg ;;
    if is_null t then ret None else
    x <- load (A := thread) t ;; ret (Some (current_fid x))) s.

(** Fiber [k.2] of process [k.1]. *)
Definition fiber_at s (k : Z * Z) : option (fiber K) :=
  value_of (tg <- get_group k.1 ;;
    if is_null tg then ret None else
    f <- get_fiber k.2 tg ;;
    if is_null f then ret None else
    x <- load (A := fiber K) f ;; ret (Some x)) s.

Definition consistent s : Prop := plock s = false /\ exists a m, rep s a m /\ ainv a.

(** The caller of a request, as its process and thread. *)
Definition caller s : Z * Z := key (current s).

(** The kernel as task [t] enters it with user memory [u]. *)
Definition enter (t : task_struct) (u : umem) (k : kstate K) : kstate K :=
  set_user u (set_current t k).

Lemma wp_value_of {A} (m : M (kstate K) (option A)) s o :
  wp m (fun r _ => r = o) s -> value_of m s = o.
Proof. unfold wp, value_of. by destruct (m s) as [[]|]. Qed.

Lemma view_count s a m g : rep s a m -> count_at s g = agroups a !! g.
Proof.
  intros R. apply wp_value_of, wp_bind. eapply rep_get_group; [done|].
  destruct (G m !! g) as [gl|] eqn:HG; cbn.
  - destruct (rep_group _ _ _ R _ _ HG) as (x & c & Hx & Hc & _ & Hcnt & _).
    apply wp_bind. eapply wp_load; [exact Hx|]. apply wp_ret. by rewrite Hcnt, Hc.
  - apply wp_ret. destruct (agroups a !! g) eqn:E; [|done].
    destruct (rep_group_dom _ _ _ R g) as [? ?]; [by rewrite E|]. congruence.
Qed.

Lemma view_thread s a m k : rep s a m -> thread_at s k = athreads a !! k.
Proof.
  intros R. apply wp_value_of, wp_bind. eapply rep_get_group; [done|].
  destruct k as [g p]. cbn [fst snd].
  destruct (G m !! g) as [gl|] eqn:HG; cbn [ptr_of_opt is_null].
  - apply wp_bind. eapply rep_get_thread; [done..|].
    destruct (T m !! (g, p)) as [l|] eqn:HT; cbn [ptr_of_opt is_null].
    + destruct (rep_thread _ _ _ R _ _ HT) as (c & Hh & Hc).
      apply wp_bind. eapply wp_load; [exact Hh|]. by apply wp_ret.
    + apply wp_ret. destruct (athreads a !! (g, p)) eqn:E; [|done].
      destruct (rep_thread_at _ _ _ _ _ R E) as (l & gl' & ? & _). congruence.
  - apply wp_ret. destruct (athreads a !! (g, p)) eqn:E; [|done].
    destruct (rep_thread_at _ _ _ _ _ R E) as (l & gl' & _ & ? & _). cbn in *. congruence.
Qed.

Lemma view_fiber s a m k : rep s a m -> fiber_at s k = afibers a !! k.
Proof.
  intros R. apply wp_value_of, wp_bind. eapply rep_get_group; [done|].
  destruct k as [g i]. cbn [fst snd].
  destruct (G m !! g) as [gl|] eqn:HG; cbn [ptr_of_opt is_null].
  - apply wp_bind. eapply rep_get_fiber; [done..|].
    destruct (F m !! (g, i)) as [l|] eqn:HF; cbn [ptr_of_opt is_null].
    + destruct (rep_fiber _ _ _ R _ _ HF) as (f & Hh & Hf & _).
      apply wp_bind. eapply wp_load; [exact Hh|]. by apply wp_ret.
    + apply wp_ret. destruct (afibers a !! (g, i)) eqn:E; [|done].
      destruct (rep_fiber_at _ _ _ _ _ R E) as (l & ? & _). congruence.
  - apply wp_ret. destruct (afibers a !! (g, i)) eqn:E; [|done].
    destruct (rep_no_group _ _ _ _ R HG) as [_ HF].
    destruct (rep_fiber_at _ _ _ _ _ R E) as (l & Hl & _). by rewrite HF in Hl.
Qed.

(** A state on behalf of a request, opened. *)
Lemma consistent_st s :
  consistent s ->
  exists a m, st a m (current s) (user s, false) s /\ ainv a /\
    (forall g, count_at s g = agroups a !! g) /\
    (forall k, thread_at s k = athreads a !! k) /\
    (forall k, fiber_at s k = afibers a !! k).
Proof.
  intros (Hp & a & m & R & I). exists a, m. split; [|split; [done|]].
  - split; [done|]. split; [done|]. unfold frame_of. by rewrite Hp.
  - split; [|split]; intros; [by eapply view_count|by eapply view_thread|by eapply view_fiber].
Qed.

(** [s'] is consistent, and holds what [a'] holds. *)
Definition holds (a' : astate K) s' : Prop :=
  consistent s' /\ (forall g, count_at s' g = agroups a' !! g) /\
  (forall k, thread_at s' k = athreads a' !! k) /\
  (forall k, fiber_at s' k = afibers a' !! k).

Lemma st_holds a m c u s : st a m c (u, false) s -> ainv a -> holds a s.
Proof.
  intros (R & _ & Hu) I. injection Hu as _ Hb. split; [split; [done|by exists a, m]|].
  split; [|split]; intros; [by eapply view_count|by eapply view_thread|by eapply view_fiber].
Qed.

Lemma consistent_holds s : consistent s -> exists a, holds a s /\ ainv a.
Proof.
  intros (a & m & Hst & I & _)%consistent_st. exists a. split; [by eapply st_holds|done].
Qed.

(** ** The code's lookups, run *)
Lemma run_get_group_none s g :
  consistent s -> count_at s g = None -> get_group g s = Ret (NULL, s).
Proof.
  intros (_ & a & m & R & _). rewrite (view_count s a m) by done. intros Hg.
  assert (wp (get_group g) (fun r s' => r = NULL /\ s' = s) s) as Hw.
  { eapply rep_get_group; [done|]. destruct (G m !! g) as [gl|] eqn:E; [|done].
    destruct (rep_group _ _ _ R _ _ E) as (? & ? & _ & ? & _). congruence. }
  apply wp_run in Hw as (? & ? & Hrun & -> & ->). done.
Qed.

Lemma run_get_fiber s g i f :
  consistent s -> fiber_at s (g, i) = Some f ->
  exists gl l, get_group g s = Ret (PTR gl, s) /\ get_fiber i (PTR gl) s = Ret (PTR l, s) /\
    load (PTR l) s = Ret (f, s).
Proof.
  intros (_ & a & m & R & _). rewrite (view_fiber s a m) by done. intros Hf.
  destruct (rep_fiber_at _ _ _ _ _ R Hf) as (l & Hl & Hh & _).
  destruct (rep_fiber_dom _ _ _ R (g, i)) as [_ [gl HG]]; [by rewrite Hf|]. cbn in HG.
  assert (wp (get_group g) (fun r s' => r = PTR gl /\ s' = s) s) as Hw.
  { eapply rep_get_group; [done|]. by rewrite HG. }
  apply wp_run in Hw as (? & ? & Hrun & -> & ->).
  assert (wp (get_fiber i (PTR gl)) (fun r s' => r = PTR l /\ s' = s) s) as Hw.
  { eapply rep_get_fiber; [done..|]. by rewrite Hl. }
  apply wp_run in Hw as (? & ? & Hrun2 & -> & ->).
  assert (wp (load (A := fiber K) (PTR l)) (fun r s' => r = f /\ s' = s) s) as Hw.
  { by eapply wp_load. }
  apply wp_run in Hw as (? & ? & Hrun3 & -> & ->). eauto.
Qed.

Lemma run_get_fiber_none s g i :
  consistent s -> fiber_at s (g, i) = None ->
  get_group g s = Ret (NULL, s) \/
  exists gl, get_group g s = Ret (PTR gl, s) /\ get_fiber i (PTR gl) s = Ret (NULL, s).
Proof.
  intros Hs Hf. destruct (count_at s g) as [c|] eqn:Hc; [right|left; by apply run_get_group_none].
  destruct Hs as (_ & a & m & R & _).
  rewrite (view_fiber s a m) in Hf by done. rewrite (view_count s a m) in Hc by done.
  destruct (rep_group_dom _ _ _ R g) as [gl HG]; [by rewrite Hc|]. exists gl.
  assert (wp (get_group g) (fun r s' => r = PTR gl /\ s' = s) s) as Hw.
  { eapply rep_get_group; [done|]. by rewrite HG. }
  apply wp_run in Hw as (? & ? & Hrun & -> & ->). split; [done|].
  assert (wp (get_fiber i (PTR gl)) (fun r s' => r = NULL /\ s' = s) s) as Hw.
  { eapply rep_get_fiber; [done..|]. by rewrite (rep_no_fiber _ _ _ _ R Hf). }
  by apply wp_run in Hw as (? & ? & Hrun2 & -> & ->).
Qed.

(** A process's group object, and how many fiber objects its table has. *)
Lemma run_get_group_some s g c :
  consistent s -> count_at s g = Some c ->
  exists gl x, get_group g s = Ret (PTR gl, s) /\ heap_groups s !! gl = Some (Live x) /\
    fid_count x = c /\ -1 <= c < 2 ^ 31 /\
    (c + 1 <= Z.of_nat (length (hash_each (fibers x)))) /\
    (forall l, l ∈ hash_each (fibers x) -> exists f, heap_fibers s !! l = Some (Live f)).
Proof.
  intros (_ & a & m & R & I). rewrite (view_count s a m) by done. intros Hc.
  destruct (rep_group_dom _ _ _ R g) as [gl HG]; [by rewrite Hc|].
  destruct (rep_group _ _ _ R _ _ HG) as (x & c' & Hx & Hc' & _ & Hcnt & _ & Hf).
  rewrite Hc in Hc'. injection Hc' as <-.
  assert (wp (get_group g) (fun r s' => r = PTR gl /\ s' = s) s) as Hw.
  { eapply rep_get_group; [done|]. by rewrite HG. }
  apply wp_run in Hw as (? & ? & Hrun & -> & ->).
  exists gl, x. split; [done|]. split; [done|]. split; [done|].
  split; [by apply (inv_count _ I g)|].
  destruct (hash_each_tab _ _ Hf) as [Hnd Hls].
  { intros k1 k2 l H1 H2. pose proof (rep_inj_F _ _ _ R _ _ _ H1 H2). congruence. }
  assert (forall i, 0 <= i <= c -> is_Some (F m !! (g, i))) as Hdom.
  { intros i Hi. apply (inv_ids _ I g c i Hc) in Hi. by apply (rep_fiber_dom _ _ _ R). }
  split.
  - set (ids := (fun i => default xH (F m !! (g, i))) <$> seqZ 0 (c + 1)).
    assert (length ids <= length (hash_each (fibers x)))%nat as Hlen.
    { apply submseteq_length, NoDup_submseteq.
      - apply NoDup_fmap_2_strong; [|apply NoDup_seqZ].
        intros i j Hi%elem_of_seqZ Hj%elem_of_seqZ.
        destruct (Hdom i) as [li Hli]; [lia|]. destruct (Hdom j) as [lj Hlj]; [lia|].
        rewrite Hli, Hlj. cbn. intros <-. pose proof (rep_inj_F _ _ _ R _ _ _ Hli Hlj). congruence.
      - intros l (i & -> & Hi%elem_of_seqZ)%list_elem_of_fmap. apply Hls.
        destruct (Hdom i) as [li Hli]; [lia|]. exists i. by rewrite Hli. }
    subst ids. rewrite length_fmap, length_seqZ in Hlen. lia.
  - intros l [i Hi]%Hls. destruct (rep_fiber _ _ _ R _ _ Hi) as (f & ? & _). by exists f.
Qed.

(** ** Entering the kernel: only the caller and its memory change *)
Lemma rep_enter k a m t u : rep k a m -> rep (enter t u k) a m.
Proof. intros R. by destruct R. Qed.

Lemma consistent_enter s t u : consistent s -> consistent (enter t u s).
Proof.
  intros (Hp & a & m & R & I). split; [done|]. exists a, m.
  split; [by apply rep_enter|done].
Qed.

Lemma count_enter s t u g : consistent s -> count_at (enter t u s) g = count_at s g.
Proof.
  intros (_ & a & m & R & _). rewrite (view_count s a m) by done.
  by apply view_count with m, rep_enter.
Qed.
Lemma thread_enter s t u k : consistent s -> thread_at (enter t u s) k = thread_at s k.
Proof.
  intros (_ & a & m & R & _). rewrite (view_thread s a m) by done.
  by apply view_thread with m, rep_enter.
Qed.
Lemma fiber_enter s t u k : consistent s -> fiber_at (enter t u s) k = fiber_at s k.
Proof.
  intros (_ & a & m & R & _). rewrite (view_fiber s a m) by done.
  by apply view_fiber with m, rep_enter.
Qed.

Lemma consistent_set_user s u : consistent s -> consistent (set_user u s).
Proof. apply (consistent_enter s (current s) u). Qed.
Lemma fiber_set_user s u k : consistent s -> fiber_at (set_user u s) k = fiber_at s k.
Proof. apply (fiber_enter s (current s) u). Qed.
Lemma thread_set_user s u k : consistent s -> thread_at (set_user u s) k = thread_at s k.
Proof. apply (thread_enter s (current s) u). Qed.
Lemma count_set_user s u g : consistent s -> count_at (set_user u s) g = count_at s g.
Proof. apply (count_enter s (current s) u). Qed.
End view.
Arguments value_of : simpl never.
