(* ===== verification/Requests.v ===== *)
(** * The requests, one by one

    What [do_convert_thread_to_fiber], [do_create_fiber] and
    [do_switch_to_fiber] return and change, on every branch, in a consistent
    state: each theorem reads the states before and after through the lookups
    of View.v.  The proofs go through the refinement (FiberRefine.v) and the
    invariant (FiberInv.v). *)
From S2P Require Import KState Fiber FiberSpec FiberRefine FiberInv View.
Local Open Scope prog_scope.

Section requests.
Context `{K : KernelApi} `{L : !KernelLaws K} `{U : !Uninit K}.
Implicit Types (s : kstate K) (a : astate K) (f o : fiber K).

(** Nothing a request can look up differs. *)
Definition same_view s s' : Prop :=
  (forall g, count_at s' g = count_at s g) /\
  (forall k, thread_at s' k = thread_at s k) /\
  (forall k, fiber_at s' k = fiber_at s k).

Definition keeps_frame s s' : Prop := current s' = current s /\ user s' = user s.

Lemma holds_same_view a s s' : holds a s -> holds a s' -> same_view s s'.
Proof.
  intros (_ & C & T & F) (_ & C' & T' & F').
  split; [|split]; intros; [by rewrite C, C'|by rewrite T, T'|by rewrite F, F'].
Qed.

(** ** From a refinement lemma to a run *)
Lemma run_pure_state a m s (op : M (kstate K) Z) (r : Z) a' c' :
  ainv a' -> holds a s ->
  wp op (fun r' s' => r' = r /\ exists m', st a' m' c' (user s, false) s') s ->
  st a m (current s) (user s, false) s ->
  exists s', op s = Ret (r, s') /\ holds a' s' /\ current s' = c' /\ user s' = user s.
Proof.
  intros I _ Hw _. apply wp_run in Hw as (r' & s' & Hrun & -> & m' & Hst).
  exists s'. split; [done|]. split; [by eapply st_holds|].
  destruct Hst as (_ & ? & Hu). by injection Hu.
Qed.

Lemma run_switch s next :
  consistent s ->
  exists a, holds a s /\ ainv a /\
    let '(r, a', c') := spec_switch (current s) next a in
    exists s', do_switch_to_fiber (current s) next s = Ret (r, s') /\
      holds a' s' /\ current s' = c' /\ user s' = user s.
Proof.
  intros (a & m & Hst & I & _)%consistent_st. exists a.
  assert (holds a s) as Ha by by eapply st_holds.
  split; [done|]. split; [done|].
  pose proof (ainv_switch (current s) next a I) as I'.
  pose proof (st_switch _ _ _ _ _ next Hst) as Hw.
  destruct (spec_switch _ _ _) as [[r a'] c'].
  eapply run_pure_state; [done..| |done]. eapply wp_mono; [done|].
  intros ?? [-> ?]. eauto.
Qed.

Section alloc_ok.
Hypothesis Hmem : forall n, kmalloc_fails n = false.

Definition room_at s : Prop :=
  default NO_FIBERS (count_at s (task_tgid (current s))) < 2 ^ 31 - 1.

(** The number the next fiber of the caller's process gets. *)
Definition next_number s : Z :=
  default NO_FIBERS (count_at s (task_tgid (current s))) + 1.

Lemma run_convert s :
  consistent s -> room_at s -> 0 < task_pid (current s) ->
  exists a, holds a s /\ ainv a /\ next_fid (task_tgid (current s)) a = next_number s /\
    let '(r, a') := spec_convert (current s) a in
    exists s', do_convert_thread_to_fiber (current s) s = Ret (r, s') /\
      holds a' s' /\ keeps_frame s s'.
Proof.
  intros Hs Hroom Hp. destruct (consistent_st s Hs) as (a & m & Hst & I & Hc & _).
  exists a. assert (holds a s) as Ha by by eapply st_holds.
  assert (room (task_tgid (current s)) a) as Hr by (unfold room; by rewrite <- Hc).
  split; [done|]. split; [done|]. split.
  { unfold next_number. rewrite Hc. by destruct (next_fid_room _ _ I Hr). }
  pose proof (ainv_convert (current s) a I Hp Hr) as I'.
  pose proof (st_convert Hmem a m _ _ s Hst (next_fid_fresh _ _ I Hr)) as Hw.
  destruct (spec_convert _ _) as [r a'].
  by eapply run_pure_state.
Qed.

Lemma run_create s sb ss ep arg :
  consistent s -> room_at s ->
  exists a, holds a s /\ ainv a /\ next_fid (task_tgid (current s)) a = next_number s /\
    let '(r, a') := spec_create (current s) sb ss ep arg a in
    exists s', do_create_fiber (current s) sb ss ep arg s = Ret (r, s') /\
      holds a' s' /\ keeps_frame s s'.
Proof.
  intros Hs Hroom. destruct (consistent_st s Hs) as (a & m & Hst & I & Hc & _).
  exists a. assert (holds a s) as Ha by by eapply st_holds.
  assert (room (task_tgid (current s)) a) as Hr by (unfold room; by rewrite <- Hc).
  split; [done|]. split; [done|]. split.
  { unfold next_number. rewrite Hc. by destruct (next_fid_room _ _ I Hr). }
  pose proof (ainv_create (current s) sb ss ep arg a I Hr) as I'.
  pose proof (st_create Hmem a m _ _ s sb ss ep arg Hst (next_fid_fresh _ _ I Hr)) as Hw.
  destruct (spec_create _ _ _ _ _ _) as [r a'].
  by eapply run_pure_state.
Qed.
(** The first conversion of a thread gives it a new fiber, numbered
    one past the process's counter (0 in a new process), locked, active
    and current for the thread; nothing else changes, and the caller goes
    on with the CPU state it had. *)
Theorem convert_new s :
  consistent s -> room_at s -> 0 < task_pid (current s) ->
  thread_at s (caller s) = None ->
  let g := task_tgid (current s) in
  let id := next_number s in
  exists s', do_convert_thread_to_fiber (current s) s = Ret (id, s') /\
    consistent s' /\ keeps_frame s s' /\ count_at s' g = Some id /\
    thread_at s' (caller s) = Some id /\
    fiber_at s (g, id) = None /\
    fiber_at s' (g, id) = Some (activate (task_pid (current s)) (utime (current s))
                            (set_flock true (new_fiber id (current s)))) /\
    (forall g', g' <> g -> count_at s' g' = count_at s g') /\
    (forall k, k <> caller s -> thread_at s' k = thread_at s k) /\
    (forall k, k <> (g, id) -> fiber_at s' k = fiber_at s k).
Proof.
  intros Hs Hr Hp Ht g id.
  destruct (run_convert s Hs Hr Hp) as (a & (_ & C & T & F) & I & Hid & H).
  unfold spec_convert in H. rewrite T in Ht; unfold caller in Ht. rewrite Ht, Hid in H.
  destruct H as (s' & Hrun & (Hs' & C' & T' & F') & Hf).
  assert (afibers a !! (g, id) = None) as Hno.
  { unfold id. rewrite <- Hid. apply next_fid_fresh; [done|]. unfold room. by rewrite <- C. }
  exists s'. split; [exact Hrun|]. repeat split; try apply Hf; try apply Hs'; rewrite ?C', ?T', ?F'.
  all: try (intros ? ?; rewrite ?C', ?T', ?F', ?C, ?T, ?F); cbn.
  all: first [by apply lookup_insert_eq|by rewrite lookup_insert_ne by done|by rewrite F].
Qed.

(** Converting a thread that already is a fiber is refused with
    [-EEXIST] and changes nothing. *)
Theorem convert_again s c :
  consistent s -> room_at s -> 0 < task_pid (current s) ->
  thread_at s (caller s) = Some c ->
  exists s', do_convert_thread_to_fiber (current s) s = Ret (- EEXIST, s') /\
    consistent s' /\ keeps_frame s s' /\ same_view s s'.
Proof.
  intros Hs Hr Hp Ht.
  destruct (run_convert s Hs Hr Hp) as (a & Ha & I & Hid & H).
  unfold spec_convert in H. pose proof Ha as (_ & _ & T & _). rewrite T in Ht; unfold caller in Ht.
  rewrite Ht in H. destruct H as (s' & Hrun & Hs' & Hf). exists s'.
  split; [done|]. split; [apply Hs'|]. split; [done|]. by eapply holds_same_view.
Qed.

(** A converted thread that creates a fiber gets a fresh number; the
    new fiber is unlocked, holds an empty local storage, and its saved CPU
    state starts at the entry point with the argument in [di] and the
    stack and base pointers 8 below the end of the stack it was given;
    nothing else changes and the caller keeps its own fiber. *)
Theorem create_ok s c sb ss ep arg :
  consistent s -> room_at s -> thread_at s (caller s) = Some c ->
  let g := task_tgid (current s) in
  let id := next_number s in
  exists s' f, do_create_fiber (current s) sb ss ep arg s = Ret (id, s') /\
    consistent s' /\ keeps_frame s s' /\ count_at s' g = Some id /\
    fiber_at s (g, id) = None /\ fiber_at s' (g, id) = Some f /\
    flock f = false /\ state (info f) = 0 /\ fls f = fls_init /\
    stack_base f = sb /\ guaranteed_stack_bytes f = ss /\
    regs (context f) = {| ip := ep; di := arg; sp := u64 (u64 (sb + ss) - 8);
      bp := u64 (u64 (sb + ss) - 8); other_regs := other_regs (task_regs (current s)) |} /\
    fpu (context f) = task_fx (current s) /\
    (forall g', g' <> g -> count_at s' g' = count_at s g') /\
    (forall k, thread_at s' k = thread_at s k) /\
    (forall k, k <> (g, id) -> fiber_at s' k = fiber_at s k).
Proof.
  intros Hs Hr Ht g id.
  destruct (run_create s sb ss ep arg Hs Hr) as (a & (_ & C & T & F) & I & Hid & H).
  unfold spec_create in H. rewrite T in Ht; unfold caller in Ht. rewrite Ht, Hid in H.
  destruct H as (s' & Hrun & (Hs' & C' & T' & F') & Hf).
  assert (afibers a !! (g, id) = None) as Hno.
  { unfold id. rewrite <- Hid. apply next_fid_fresh; [done|]. unfold room. by rewrite <- C. }
  exists s', (prepare sb ss ep arg (new_fiber id (current s))).
  split; [exact Hrun|]. split; [done|]. split; [done|]. rewrite C', F, F'. cbn.
  split; [by apply lookup_insert_eq|]. split; [done|]. split; [by apply lookup_insert_eq|].
  do 7 (split; [done|]). split; [|split].
  - intros g' Hne. by rewrite C', C; cbn; rewrite lookup_insert_ne by done.
  - intros k. by rewrite T', T.
  - intros k Hne. by rewrite F', F; cbn; rewrite lookup_insert_ne by done.
Qed.

(** Only a converted thread may create fibers: otherwise
    the answer is [-ESRCH] and nothing changes. *)
Theorem create_not_converted s sb ss ep arg :
  consistent s -> room_at s -> thread_at s (caller s) = None ->
  exists s', do_create_fiber (current s) sb ss ep arg s = Ret (- ESRCH, s') /\
    consistent s' /\ keeps_frame s s' /\ same_view s s'.
Proof.
  intros Hs Hr Ht.
  destruct (run_create s sb ss ep arg Hs Hr) as (a & Ha & I & Hid & H).
  unfold spec_create in H. pose proof Ha as (_ & _ & T & _). rewrite T in Ht; unfold caller in Ht.
  rewrite Ht in H. destruct H as (s' & Hrun & Hs' & Hf). exists s'.
  split; [done|]. split; [apply Hs'|]. split; [done|]. by eapply holds_same_view.
Qed.
End alloc_ok.

(** ** Switching *)
Lemma run_switch_free s old next f :
  consistent s -> thread_at s (caller s) = Some old ->
  fiber_at s (task_tgid (current s), next) = Some f -> flock f = false ->
  let g := task_tgid (current s) in
  old <> next /\
  exists o s',
    fiber_at s (g, old) = Some o /\
    do_switch_to_fiber (current s) next s = Ret (SUCCESS, s') /\ consistent s' /\
    current s' = resume f (current s) /\ user s' = user s /\
    thread_at s' (caller s) = Some next /\
    fiber_at s' (g, next) =
      Some (activate (task_pid (current s)) (utime (current s)) (set_flock true f)) /\
    fiber_at s' (g, old) = Some (suspend (current s) o) /\
    (forall g', count_at s' g' = count_at s g') /\
    (forall k, k <> caller s -> thread_at s' k = thread_at s k) /\
    (forall k, k <> (g, next) -> k <> (g, old) -> fiber_at s' k = fiber_at s k).
Proof.
  intros Hs Ht Hf Hfree g.
  destruct (run_switch s next Hs) as (a & (_ & C & T & F) & I & H).
  rewrite T in Ht; unfold caller in Ht. rewrite F in Hf.
  destruct (spec_switch_free _ _ _ _ _ I Ht Hf Hfree) as (Hne & o & Ho & Hl & E).
  rewrite E in H. destruct H as (s' & Hrun & (Hs' & C' & T' & F') & Hc & Hu).
  split; [done|]. exists o, s'. rewrite F. split; [done|]. split; [done|].
  split; [done|]. split; [done|]. split; [done|].
  rewrite T', !F'. cbn. fold g.
  split; [by apply lookup_insert_eq|]. split; [by apply lookup_insert_eq|].
  split; [rewrite lookup_insert_ne by congruence; by apply lookup_insert_eq|].
  split; [intros; by rewrite C', C|]. split.
  - intros k Hk. by rewrite T', T; cbn; rewrite lookup_insert_ne by done.
  - intros k H1 H2. rewrite F', F. cbn. by rewrite !lookup_insert_ne by done.
Qed.

Lemma run_switch_busy s old next f :
  consistent s -> thread_at s (caller s) = Some old ->
  fiber_at s (task_tgid (current s), next) = Some f -> flock f = true ->
  exists s',
    do_switch_to_fiber (current s) next s = Ret (- EAGAIN, s') /\ consistent s' /\
    keeps_frame s s' /\
    fiber_at s' (task_tgid (current s), next) = Some (count_failure f) /\
    (forall g', count_at s' g' = count_at s g') /\
    (forall k, thread_at s' k = thread_at s k) /\
    (forall k, k <> (task_tgid (current s), next) -> fiber_at s' k = fiber_at s k).
Proof.
  intros Hs Ht Hf Hbusy.
  destruct (run_switch s next Hs) as (a & (_ & C & T & F) & I & H).
  rewrite T in Ht; unfold caller in Ht. rewrite F in Hf. rewrite (spec_switch_busy _ _ _ _ _ Ht Hf Hbusy) in H.
  destruct H as (s' & Hrun & (Hs' & C' & T' & F') & Hc & Hu).
  exists s'. split; [done|]. split; [done|]. split; [done|]. rewrite F'. cbn.
  split; [by apply lookup_insert_eq|]. split; [intros; by rewrite C', C|].
  split; [intros; by rewrite T', T|].
  intros k Hk. rewrite F', F. cbn. by rewrite lookup_insert_ne by done.
Qed.
End requests.
