(* ===== verification/Switching.v ===== *)
(** * Switching fibers

    Theorems about [do_switch_to_fiber]: what a switch does to the two fibers
    and to the CPU, when it is refused, and that a fiber's CPU state survives
    being switched away from and back. *)
From S2P Require Import KState Fiber FiberSpec FiberInv View Requests.
Local Open Scope prog_scope.

(** Task [t] is the one that made the call [s] is in, some user code later. *)
Definition same_task `{K : KernelApi} (s : kstate K) (t : task_struct) : Prop :=
  key t = caller s.

Section switching.
Context `{K : KernelApi} `{L : !KernelLaws K} `{U : !Uninit K}.
Implicit Types (s : kstate K) (f o : fiber K).


(** Switching to a fiber some thread runs (the caller's own
    fiber among them) is refused with [-EAGAIN]: the failure is counted on
    that fiber, and otherwise nothing changes; the caller's CPU state and
    current fiber stay. *)
Theorem switch_to_busy s old next f :
  consistent s -> thread_at s (caller s) = Some old ->
  fiber_at s (task_tgid (current s), next) = Some f -> flock f = true \/ next = old ->
  exists s' f',
    do_switch_to_fiber (current s) next s = Ret (- EAGAIN, s') /\ consistent s' /\
    keeps_frame s s' /\
    fiber_at s' (task_tgid (current s), next) = Some f' /\
    failed_activations (info f') = i32 (failed_activations (info f) + 1) /\
    flock f' = true /\ state (info f') = state (info f) /\
    context f' = context f /\ fls f' = fls f /\
    (forall k, thread_at s' k = thread_at s k) /\
    (forall k, k <> (task_tgid (current s), next) -> fiber_at s' k = fiber_at s k).
Proof.
  intros Hs Ht Hf Hbusy.
  assert (flock f = true) as Hl.
  { destruct Hbusy as [|<-]; [done|].
    destruct (consistent_holds s Hs) as (a & (_ & _ & T & F) & I).
    rewrite T in Ht. rewrite F in Hf.
    destruct (inv_current _ I _ _ _ Ht) as (_ & f' & ? & ? & _). congruence. }
  destruct (run_switch_busy s old next f Hs Ht Hf Hl)
    as (s' & Hrun & Hs' & Hk & Hf' & _ & HT & HF).
  eexists s', _. split; [exact Hrun|]. split; [done|]. split; [done|].
  split; [exact Hf'|]. by do 5 (split; [done|]).
Qed.

(** A thread that was not converted, or a fiber number its process
    does not have, is answered [-ESRCH], and nothing changes. *)
Theorem switch_unknown s next :
  consistent s ->
  thread_at s (caller s) = None \/ fiber_at s (task_tgid (current s), next) = None ->
  exists s', do_switch_to_fiber (current s) next s = Ret (- ESRCH, s') /\
    consistent s' /\ keeps_frame s s' /\ same_view s s'.
Proof.
  intros Hs Hno. destruct (run_switch s next Hs) as (a & Ha & I & H).
  pose proof Ha as (_ & _ & T & F). rewrite T, F in Hno. unfold caller in Hno.
  assert (spec_switch (current s) next a = (- ESRCH, a, current s)) as E.
  { unfold spec_switch. destruct Hno as [-> | ->]; [done|]. by destruct (athreads a !! _). }
  rewrite E in H. destruct H as (s' & Hrun & Hs' & Hc & Hu).
  exists s'. split; [done|]. split; [apply Hs'|]. split; [done|].
  by eapply holds_same_view.
Qed.

(** C16: the CPU state of a fiber survives: after switching to a free fiber
    and running any code there (it leaves with task state [t]), switching
    back succeeds and restores exactly the registers and the FX state the
    caller had, while the fiber just left keeps those of [t]. *)
Theorem switch_back s old next f :
  consistent s -> thread_at s (caller s) = Some old ->
  fiber_at s (task_tgid (current s), next) = Some f -> flock f = false ->
  exists s1, do_switch_to_fiber (current s) next s = Ret (SUCCESS, s1) /\
    forall t u, same_task s t ->
    exists s2 f2, do_switch_to_fiber t old (enter t u s1) = Ret (SUCCESS, s2) /\
      consistent s2 /\
      task_regs (current s2) = task_regs (current s) /\
      task_fx (current s2) = task_fx (current s) /\
      thread_at s2 (caller s) = Some old /\
      fiber_at s2 (task_tgid (current s), next) = Some f2 /\ flock f2 = false /\
      context f2 = {| regs := task_regs t; fpu := task_fx t |}.
Proof.
  intros Hs Ht Hf Hfree.
  destruct (run_switch_free s old next f Hs Ht Hf Hfree)
    as (Hne & o & s1 & Ho & Hrun & Hs1 & _ & _ & Ht1 & Hn1 & Ho1 & _).
  exists s1. split; [exact Hrun|]. intros t u Hk.
  assert (task_tgid t = task_tgid (current s)) as Hg by (unfold same_task, caller, key in Hk; congruence).
  pose proof (run_switch_free (enter t u s1) next old (suspend (current s) o)) as H2.
  change (caller (enter t u s1)) with (key t) in H2. rewrite Hk in H2.
  change (current (enter t u s1)) with t in H2. rewrite Hg in H2.
  rewrite !fiber_enter, !thread_enter in H2 by done.
  destruct H2 as (_ & o2 & s2 & Hn2 & Hrun2 & Hs2 & Hc2 & _ & Ht2 & _ & Hn2' & _);
    [by apply consistent_enter|done..|].
  eexists s2, _. split; [exact Hrun2|]. split; [done|]. rewrite Hc2.
  do 2 (split; [done|]). split; [by rewrite <- Hk|]. by split; [exact Hn2'|].
Qed.

(** The first switch to a fiber that was just created starts it at
    its entry point, with its argument as first parameter and its stack
    pointer 8 below the end of its stack. *)
Theorem fresh_fiber_starts s c sb ss ep arg :
  (forall n, kmalloc_fails n = false) ->
  consistent s -> room_at s -> thread_at s (caller s) = Some c ->
  exists s1, do_create_fiber (current s) sb ss ep arg s = Ret (next_number s, s1) /\
    forall t u, same_task s t ->
    exists s2, do_switch_to_fiber t (next_number s) (enter t u s1) = Ret (SUCCESS, s2) /\
      consistent s2 /\ thread_at s2 (caller s) = Some (next_number s) /\
      ip (task_regs (current s2)) = ep /\ di (task_regs (current s2)) = arg /\
      sp (task_regs (current s2)) = u64 (u64 (sb + ss) - 8).
Proof.
  intros Hmem Hs Hr Ht.
  destruct (run_create Hmem s sb ss ep arg Hs Hr) as (a & (_ & _ & T & _) & I & Hid & H).
  rewrite T in Ht; unfold caller in Ht. unfold spec_create in H. rewrite Ht, Hid in H.
  destruct H as (s1 & Hrun & (Hs1 & _ & T1 & F1) & _).
  exists s1. split; [exact Hrun|]. intros t u Hk.
  assert (task_tgid t = task_tgid (current s)) as Hg by (unfold same_task, caller, key in Hk; congruence).
  pose proof (run_switch_free (enter t u s1) c (next_number s)
    (prepare sb ss ep arg (new_fiber (next_number s) (current s)))) as H2.
  change (caller (enter t u s1)) with (key t) in H2. rewrite Hk in H2.
  change (current (enter t u s1)) with t in H2. rewrite Hg in H2.
  rewrite !fiber_enter, !thread_enter, F1, T1 in H2 by done.
  destruct H2 as (_ & o2 & s2 & _ & Hrun2 & Hs2 & Hc2 & _ & Ht2 & _);
    [by apply consistent_enter|done|by apply lookup_insert_eq|done|].
  exists s2. split; [exact Hrun2|]. split; [done|]. rewrite Hc2. by split; [rewrite <- Hk|].
Qed.
End switching.
