(* ===== verification/LocalStorage.v ===== *)
(** * Fiber-local storage

    The four FLS requests ([do_fls_alloc], [do_fls_get_value], [do_fls_free],
    [do_fls_set_value]) as operations on the local storage of the fiber the
    caller runs: allocation of the least free index, values that are read back
    as they were set, errors, and the separation of the fibers' storages. *)
From S2P Require Import KState Fiber FiberSpec FiberRefine FiberInv View Requests Switching.
Local Open Scope prog_scope.

(** ** The requests as data *)
Inductive fls_request := FlsAlloc | FlsGet (i : Z) | FlsFree (i : Z) | FlsSet (i v : Z).

Section fls.
Context `{K : KernelApi} `{L : !KernelLaws K} `{U : !Uninit K}.
Implicit Types (s : kstate K) (f o : fiber K) (x : fls_t K).

Definition do_fls (q : fls_request) (tsk : task_struct) : M (kstate K) Z :=
  match q with
  | FlsAlloc => do_fls_alloc tsk
  | FlsGet i => do_fls_get_value tsk i
  | FlsFree i => do_fls_free tsk i
  | FlsSet i v => do_fls_set_value tsk i v
  end.

(** What a request does to the storage of the fiber it is made in. *)
Definition fls_eff (q : fls_request) x : Z * fls_t K :=
  match q with
  | FlsAlloc => fls_alloc x
  | FlsGet i => (if fls_index_ok i then fls_get i x else - ESRCH, x)
  | FlsFree i => if fls_index_ok i then fls_free i x else (- EINVAL, x)
  | FlsSet i v => if fls_index_ok i then fls_set i v x else (- EINVAL, x)
  end.

(** A sequence of requests by one caller; the results are dropped. *)
Fixpoint do_fls_all (qs : list fls_request) (tsk : task_struct) : M (kstate K) unit :=
  match qs with
  | [] => ret tt
  | q :: qs => do_fls q tsk ;;; do_fls_all qs tsk
  end.

Definition fls_effs (qs : list fls_request) x : fls_t K :=
  fold_left (fun x q => (fls_eff q x).2) qs x.

(** Index [i] is allocated. *)
Definition allocated x i : bool := test_bit i (bmp x).

(** ** Laws of the storage itself *)
Lemma fls_index_ok_iff i : fls_index_ok i = true <-> 0 <= i < FLS_MAX_SIZE.
Proof.
  unfold fls_index_ok. rewrite negb_true_iff, orb_false_iff, Z.ltb_ge, Z.geb_leb, Z.leb_gt.
  lia.
Qed.

Lemma fls_index_bad i : i < 0 \/ FLS_MAX_SIZE <= i -> fls_index_ok i = false.
Proof.
  intros H. apply not_true_is_false. rewrite fls_index_ok_iff. lia.
Qed.

Lemma allocated_init i : 0 <= i -> allocated fls_init i = false.
Proof. apply test_bit_zero. Qed.

Lemma allocated_change x i j :
  0 <= i -> 0 <= j ->
  allocated (change_bmp i x) j = if decide (i = j) then negb (allocated x j) else allocated x j.
Proof. apply test_bit_change. Qed.

Lemma fls_alloc_first_free x i :
  0 <= i < FLS_MAX_SIZE -> allocated x i = false ->
  (forall j, 0 <= j < i -> allocated x j = true) -> fls_alloc x = (i, change_bmp i x).
Proof.
  unfold fls_alloc, allocated. intros Hi Hno Hlow. cbn zeta.
  pose proof (find_first_zero_bit_range (bmp x) FLS_MAX_SIZE ltac:(lia)) as Hr.
  assert (find_first_zero_bit (bmp x) FLS_MAX_SIZE = i) as ->.
  { destruct (Z.lt_trichotomy (find_first_zero_bit (bmp x) FLS_MAX_SIZE) i) as [H|[H|H]];
      [|done|].
    - pose proof (find_first_zero_bit_at (bmp x) FLS_MAX_SIZE ltac:(lia)) as E.
      rewrite Hlow in E by lia. done.
    - rewrite (find_first_zero_bit_below (bmp x) FLS_MAX_SIZE i) in Hno by lia. done. }
  by rewrite (proj2 (Z.ltb_lt _ _)) by lia.
Qed.

Lemma fls_alloc_full x :
  (forall j, 0 <= j < FLS_MAX_SIZE -> allocated x j = true) -> fls_alloc x = (- EINVAL, x).
Proof.
  unfold fls_alloc, allocated. intros Hall. cbn zeta.
  pose proof (find_first_zero_bit_range (bmp x) FLS_MAX_SIZE ltac:(done)) as Hr.
  destruct (_ <? _) eqn:E; [|done]. apply Z.ltb_lt in E.
  pose proof (find_first_zero_bit_at (bmp x) FLS_MAX_SIZE E) as Hb.
  rewrite Hall in Hb by lia. done.
Qed.

(** Allocation takes the first free index, if there is one. *)
Lemma fls_alloc_cases x :
  (exists i, 0 <= i < FLS_MAX_SIZE /\ allocated x i = false /\
     (forall j, 0 <= j < i -> allocated x j = true) /\ fls_alloc x = (i, change_bmp i x)) \/
  ((forall j, 0 <= j < FLS_MAX_SIZE -> allocated x j = true) /\ fls_alloc x = (- EINVAL, x)).
Proof.
  set (i := find_first_zero_bit (bmp x) FLS_MAX_SIZE).
  pose proof (find_first_zero_bit_range (bmp x) FLS_MAX_SIZE ltac:(done)) as Hr.
  assert (forall j, 0 <= j < i -> allocated x j = true) as Hlow.
  { intros j Hj. by apply find_first_zero_bit_below with FLS_MAX_SIZE. }
  destruct (decide (i < FLS_MAX_SIZE)) as [Hi|Hi].
  - left. exists i. assert (allocated x i = false) as Hz by by apply find_first_zero_bit_at.
    split; [unfold i in *; lia|]. split; [done|]. split; [done|]. apply fls_alloc_first_free; [unfold i in *; lia|done..].
  - right. assert (forall j, 0 <= j < FLS_MAX_SIZE -> allocated x j = true) as Hall by (intros; apply Hlow; lia).
    split; [done|]. by apply fls_alloc_full.
Qed.

(** Allocations fill the storage from below. *)
Lemma fls_allocs_take n : forall x k, 0 <= k -> (forall j, 0 <= j < k -> allocated x j = true) ->
  forall j, 0 <= j < Z.min (k + Z.of_nat n) FLS_MAX_SIZE ->
  allocated (fls_effs (replicate n FlsAlloc) x) j = true.
Proof.
  induction n as [|n IH]; intros x k Hk Hlow j Hj; cbn [replicate fls_effs fold_left].
  { apply Hlow. lia. }
  apply (IH _ (Z.min (k + 1) FLS_MAX_SIZE)); [unfold FLS_MAX_SIZE in *; lia| |lia].
  intros j' Hj'. cbn [fls_eff].
  destruct (fls_alloc_cases x) as [(i & Hi & Hno & Hlow' & ->)|[Hall ->]]; cbn [snd]; [|apply Hall; lia].
  rewrite allocated_change by lia. case_decide as Hij; [subst; by rewrite Hno|].
  destruct (decide (j' < i)); [apply Hlow'; lia|]. apply Hlow.
  destruct (decide (i < k)); [|lia]. rewrite Hlow in Hno by lia. done.
Qed.

(** ** One request *)
Lemma run_on_current s c f op (m : M (kstate K) Z) :
  (forall a l u, st a l (current s) u s ->
    wp m (fun r s' => let '(r', a') := on_current (current s) op a in
                      r = r' /\ st a' l (current s) u s') s) ->
  consistent s -> thread_at s (caller s) = Some c ->
  fiber_at s (task_tgid (current s), c) = Some f ->
  exists s', m s = Ret ((op (fls f)).1, s') /\ consistent s' /\ keeps_frame s s' /\
    fiber_at s' (task_tgid (current s), c) = Some (set_fls (op (fls f)).2 f) /\
    (forall g, count_at s' g = count_at s g) /\
    (forall k, thread_at s' k = thread_at s k) /\
    (forall k, k <> (task_tgid (current s), c) -> fiber_at s' k = fiber_at s k).
Proof.
  intros Hw Hs Ht Hf. destruct (consistent_st s Hs) as (a & m' & Hst & I & C & T & F).
  apply Hw in Hst as Hrun. apply wp_run in Hrun as (r & s' & Hrun & Hpost).
  rewrite T in Ht. rewrite F in Hf. unfold caller in Ht.
  pose proof (ainv_on_current (current s) op a I) as I'.
  unfold on_current, acurrent in *. rewrite Ht, Hf in *.
  destruct (op (fls f)) as [r' x]. destruct Hpost as [-> Hst'].
  exists s'. split; [done|]. pose proof (st_holds _ _ _ _ _ Hst' I') as (Hs' & C' & T' & F').
  split; [done|]. split; [destruct Hst' as (_ & ? & Hu); by injection Hu|].
  split; [rewrite F'; by apply lookup_insert_eq|]. split; [intros; by rewrite C', C|].
  split; [intros; by rewrite T', T|]. intros k Hk. rewrite F', F. cbn.
  by rewrite lookup_insert_ne by done.
Qed.

Lemma on_current_same c op (a : astate K) :
  (forall x, (op x).2 = x) -> forall m u s (P : M (kstate K) Z),
  wp P (fun r s' => r = match acurrent c a with None => - ESRCH | Some (_, f) => (op (fls f)).1 end
                    /\ st a m c u s') s ->
  wp P (fun r s' => let '(r', a') := on_current c op a in r = r' /\ st a' m c u s') s.
Proof.
  intros Hop m u s P Hw. eapply wp_mono; [exact Hw|]. intros r s' [-> Hst].
  unfold on_current. destruct (acurrent c a) as [[k f]|] eqn:E; [|done].
  destruct (acurrent_Some _ _ _ _ E) as (x & _ & _ & Hf).
  destruct (op (fls f)) as [r' x'] eqn:Eo. split; [done|].
  pose proof (Hop (fls f)) as H. rewrite Eo in H. cbn in H. subst.
  by rewrite set_fls_id, upd_fiber_id.
Qed.

Lemma run_fls s c f q :
  consistent s -> thread_at s (caller s) = Some c ->
  fiber_at s (task_tgid (current s), c) = Some f ->
  exists s', do_fls q (current s) s = Ret ((fls_eff q (fls f)).1, s') /\
    consistent s' /\ keeps_frame s s' /\
    fiber_at s' (task_tgid (current s), c) = Some (set_fls (fls_eff q (fls f)).2 f) /\
    (forall g, count_at s' g = count_at s g) /\
    (forall k, thread_at s' k = thread_at s k) /\
    (forall k, k <> (task_tgid (current s), c) -> fiber_at s' k = fiber_at s k).
Proof.
  intros Hs Ht Hf. destruct (consistent_st s Hs) as (a0 & m0 & Hst0 & I & _ & T & F).
  rewrite T in Ht; unfold caller in Ht. rewrite F in Hf.
  eapply run_on_current with (op := fls_eff q); [|done|by rewrite T|by rewrite F].
  intros a l u Hst.
  assert (exists k, acurrent (current s) a = Some (k, f)) as [k Hk].
  { exists (task_tgid (current s), c). unfold acurrent.
    rewrite <- (view_thread _ _ _ _ (proj1 Hst)), T, Ht.
    by rewrite <- (view_fiber _ _ _ _ (proj1 Hst)), F, Hf. }
  destruct (acurrent_Some _ _ _ _ Hk) as (x & _ & _ & Hf').
  destruct q as [|i|i|i v]; cbn [do_fls fls_eff].
  - by apply st_fls_alloc.
  - eapply on_current_same; [done|]. eapply wp_mono; [by apply st_fls_get|].
    intros r s' [-> Hst']. split; [|done]. unfold spec_fls_get. rewrite Hk. cbn.
    by destruct (fls_index_ok i).
  - eapply wp_mono; [by apply st_fls_free|]. intros r s'. unfold spec_fls_free, on_current.
    rewrite Hk. cbn [fls_eff]. destruct (fls_index_ok i); [done|]. intros [-> Hst'].
    split; [done|]. by rewrite set_fls_id, upd_fiber_id.
  - eapply wp_mono; [by apply st_fls_set|]. intros r s'. unfold spec_fls_set, on_current.
    rewrite Hk. cbn [fls_eff]. destruct (fls_index_ok i); [done|]. intros [-> Hst'].
    split; [done|]. by rewrite set_fls_id, upd_fiber_id.
Qed.

Lemma run_fls_all qs : forall s c f,
  consistent s -> thread_at s (caller s) = Some c ->
  fiber_at s (task_tgid (current s), c) = Some f ->
  exists s', do_fls_all qs (current s) s = Ret (tt, s') /\
    consistent s' /\ keeps_frame s s' /\
    fiber_at s' (task_tgid (current s), c) = Some (set_fls (fls_effs qs (fls f)) f) /\
    (forall g, count_at s' g = count_at s g) /\
    (forall k, thread_at s' k = thread_at s k) /\
    (forall k, k <> (task_tgid (current s), c) -> fiber_at s' k = fiber_at s k).
Proof.
  induction qs as [|q qs IH]; intros s c f Hs Ht Hf.
  - exists s. cbn. rewrite set_fls_id. done.
  - destruct (run_fls s c f q Hs Ht Hf) as (s1 & Hrun & Hs1 & [Hc Hu] & Hf1 & C1 & T1 & F1).
    destruct (IH s1 c (set_fls (fls_eff q (fls f)).2 f)) as
      (s2 & Hrun2 & Hs2 & [Hc2 Hu2] & Hf2 & C2 & T2 & F2); [done|..].
    { unfold caller. rewrite Hc, T1. exact Ht. } { by rewrite Hc. }
    rewrite Hc in *. exists s2. split.
    { cbn [do_fls_all]. by rewrite (bind_run _ _ _ _ _ Hrun). }
    split; [done|]. split; [split; congruence|]. split; [exact Hf2|].
    split; [intros; by rewrite C2|]. split; [intros; by rewrite T2|].
    intros k Hk. by rewrite F2, F1.
Qed.

Lemma consistent_fiber_ok s k f : consistent s -> fiber_at s k = Some f -> fiber_ok k f.
Proof.
  intros (_ & a & m & R & _). rewrite (view_fiber s a m) by done.
  intros Hf. by eapply fiber_ok_at.
Qed.

(** ** The properties *)

(** C17: [do_fls_alloc] gives the least index that is not allocated,
    marks it and no other, and leaves every stored value; when all 4096
    indices are taken the answer is [-EINVAL] and nothing changes. *)
Theorem fls_alloc_least s c f :
  consistent s -> thread_at s (caller s) = Some c ->
  fiber_at s (task_tgid (current s), c) = Some f ->
  (exists i s' f', 0 <= i < FLS_MAX_SIZE /\ allocated (fls f) i = false /\
     (forall j, 0 <= j < i -> allocated (fls f) j = true) /\
     do_fls_alloc (current s) s = Ret (i, s') /\
     fiber_at s' (task_tgid (current s), c) = Some f' /\
     (forall j, 0 <= j -> allocated (fls f') j = (j =? i) || allocated (fls f) j) /\
     data (fls f') = data (fls f)) \/
  ((forall j, 0 <= j < FLS_MAX_SIZE -> allocated (fls f) j = true) /\
   exists s', do_fls_alloc (current s) s = Ret (- EINVAL, s') /\ same_view s s').
Proof.
  intros Hs Ht Hf. pose proof (run_fls s c f FlsAlloc Hs Ht Hf) as H. cbn [do_fls] in H.
  cbn [fls_eff] in H.
  destruct (fls_alloc_cases (fls f)) as [(i & Hi & Hno & Hlow & E)|[Hall E]]; rewrite E in H.
  - left. destruct H as (s' & Hrun & _ & _ & Hf' & _). eexists i, s', _.
    split; [exact Hi|]. split; [exact Hno|]. split; [exact Hlow|]. split; [exact Hrun|]. split; [exact Hf'|].
    split; [|done]. cbn. intros j Hj. rewrite allocated_change by lia. case_decide as Hij.
    + subst j. by rewrite Z.eqb_refl, Hno.
    + by rewrite (proj2 (Z.eqb_neq _ _)) by done.
  - right. split; [done|]. destruct H as (s' & Hrun & _ & _ & Hf' & C & T & F). exists s'. split; [done|].
    split; [done|]. split; [done|]. intros k.
    destruct (decide (k = (task_tgid (current s), c))) as [->|]; [|by apply F].
    cbn [snd] in Hf'. by rewrite Hf', set_fls_id.
Qed.

Lemma fls_get_set_same x i v :
  length (data x) = Z.to_nat FLS_MAX_SIZE -> 0 <= i < FLS_MAX_SIZE -> allocated x i = true ->
  fls_get i (fls_set i v x).2 = v.
Proof.
  unfold allocated, fls_set, fls_get. intros Hl Hi E. rewrite E. cbn. rewrite E.
  rewrite list_lookup_insert_eq; [done|]. lia.
Qed.

Lemma fls_get_set_other x i j v :
  i <> j -> 0 <= i -> 0 <= j -> fls_get j (fls_set i v x).2 = fls_get j x.
Proof.
  intros Hne Hi Hj. unfold fls_set, fls_get.
  destruct (test_bit i (bmp x)); cbn; [|done]. destruct (test_bit j (bmp x)); [|done].
  rewrite list_lookup_insert_ne by lia. done.
Qed.

(** Setting an allocated index returns the index; reading it back
    gives the value, and reading any other index gives what it gave
    before. *)
Theorem fls_set_get s c f i v :
  consistent s -> thread_at s (caller s) = Some c ->
  fiber_at s (task_tgid (current s), c) = Some f ->
  0 <= i < FLS_MAX_SIZE -> allocated (fls f) i = true ->
  exists s1, do_fls_set_value (current s) i v s = Ret (i, s1) /\
    (exists s2, do_fls_get_value (current s) i s1 = Ret (v, s2)) /\
    forall j, j <> i -> exists r s3 s4,
      do_fls_get_value (current s) j s = Ret (r, s3) /\
      do_fls_get_value (current s) j s1 = Ret (r, s4).
Proof.
  intros Hs Ht Hf Hi Ha. pose proof (proj2 (consistent_fiber_ok _ _ _ Hs Hf)) as Hlen.
  destruct (run_fls s c f (FlsSet i v) Hs Ht Hf)
    as (s1 & Hrun & Hs1 & [Hc1 Hu1] & Hf1 & _ & T1 & _).
  assert (fls_eff (FlsSet i v) (fls f) = fls_set i v (fls f)) as E.
  { cbn. by rewrite (proj2 (fls_index_ok_iff i)). }
  rewrite E in *.
  assert (forall j, exists s2, do_fls_get_value (current s) j s1 =
    Ret ((fls_eff (FlsGet j) (fls_set i v (fls f)).2).1, s2)) as Hget.
  { intros j. destruct (run_fls s1 c (set_fls (fls_set i v (fls f)).2 f) (FlsGet j) Hs1)
      as (s2 & Hrun2 & _); [unfold caller; by rewrite Hc1, T1|by rewrite Hc1|].
    rewrite Hc1 in Hrun2. by exists s2. }
  exists s1. split; [|split].
  - etransitivity; [exact Hrun|]. unfold allocated in Ha. unfold fls_set. by rewrite Ha.
  - destruct (Hget i) as [s2 Hrun2]. exists s2. rewrite Hrun2. cbn.
    rewrite (proj2 (fls_index_ok_iff i)) by done. by rewrite fls_get_set_same.
  - intros j Hne. destruct (Hget j) as [s4 Hrun4].
    destruct (run_fls s c f (FlsGet j) Hs Ht Hf) as (s3 & Hrun3 & _).
    eexists _, s3, s4. split; [exact Hrun3|]. rewrite Hrun4. cbn.
    destruct (fls_index_ok j) eqn:Hj; [|done]. apply fls_index_ok_iff in Hj.
    by rewrite fls_get_set_other by lia.
Qed.

(** Freeing an allocated index succeeds, and from then on reading,
    setting or freeing it is refused with [-EACCES]. *)
Theorem fls_free_revokes s c f i :
  consistent s -> thread_at s (caller s) = Some c ->
  fiber_at s (task_tgid (current s), c) = Some f ->
  0 <= i < FLS_MAX_SIZE -> allocated (fls f) i = true ->
  exists s1, do_fls_free (current s) i s = Ret (SUCCESS, s1) /\
    (exists s2, do_fls_get_value (current s) i s1 = Ret (- EACCES, s2)) /\
    (forall v, exists s2, do_fls_set_value (current s) i v s1 = Ret (- EACCES, s2)) /\
    exists s2, do_fls_free (current s) i s1 = Ret (- EACCES, s2).
Proof.
  intros Hs Ht Hf Hi Ha.
  destruct (run_fls s c f (FlsFree i) Hs Ht Hf)
    as (s1 & Hrun & Hs1 & [Hc1 Hu1] & Hf1 & _ & T1 & _).
  assert (fls_eff (FlsFree i) (fls f) = (SUCCESS, change_bmp i (fls f))) as E.
  { cbn. rewrite (proj2 (fls_index_ok_iff i)) by done. unfold fls_free.
    unfold allocated in Ha. by rewrite Ha. }
  rewrite E in *. cbn [fst snd] in *.
  assert (allocated (change_bmp i (fls f)) i = false) as Hno.
  { rewrite allocated_change by lia. rewrite decide_True by done. by rewrite Ha. }
  assert (forall q, exists s2, do_fls q (current s) s1 =
    Ret ((fls_eff q (change_bmp i (fls f))).1, s2)) as Hreq.
  { intros q. destruct (run_fls s1 c (set_fls (change_bmp i (fls f)) f) q Hs1)
      as (s2 & Hrun2 & _); [unfold caller; by rewrite Hc1, T1|by rewrite Hc1|].
    rewrite Hc1 in Hrun2. by exists s2. }
  assert (forall q, q = FlsGet i \/ q = FlsFree i \/ (exists v, q = FlsSet i v) ->
    (fls_eff q (change_bmp i (fls f))).1 = - EACCES) as Herr.
  { unfold allocated in Hno. apply fls_index_ok_iff in Hi.
    intros q [->|[->|[v ->]]]; cbn [fls_eff]; rewrite Hi;
      unfold fls_get, fls_free, fls_set; by rewrite Hno. }
  exists s1. split; [exact Hrun|]. split; [|split; [intros v|]].
  - destruct (Hreq (FlsGet i)) as [s2 H2]. exists s2. rewrite <- (Herr (FlsGet i)); auto.
  - destruct (Hreq (FlsSet i v)) as [s2 H2]. exists s2. rewrite <- (Herr (FlsSet i v)); eauto.
  - destruct (Hreq (FlsFree i)) as [s2 H2]. exists s2. rewrite <- (Herr (FlsFree i)); auto.
Qed.

(** An index outside [0, 4096) is refused before anything is looked
    up, in any state: with [-ESRCH] when reading and with [-EINVAL] when
    setting or freeing. *)
Theorem fls_bad_index s tsk i v :
  i < 0 \/ FLS_MAX_SIZE <= i ->
  do_fls_get_value tsk i s = Ret (- ESRCH, s) /\
  do_fls_set_value tsk i v s = Ret (- EINVAL, s) /\
  do_fls_free tsk i s = Ret (- EINVAL, s).
Proof.
  intros Hi%fls_index_bad. unfold fls_index_ok in Hi. apply negb_false_iff in Hi.
  unfold do_fls_get_value, do_fls_set_value, do_fls_free. by rewrite Hi.
Qed.

(** An index that is freed and allocated again still holds
    the value it had, instead of starting empty. *)
Theorem fls_realloc_keeps_value s c f i v :
  consistent s -> thread_at s (caller s) = Some c ->
  fiber_at s (task_tgid (current s), c) = Some f ->
  0 <= i < FLS_MAX_SIZE -> (forall j, 0 <= j <= i -> allocated (fls f) j = true) ->
  exists s1 s2 s3 s4,
    do_fls_set_value (current s) i v s = Ret (i, s1) /\
    do_fls_free (current s) i s1 = Ret (SUCCESS, s2) /\
    do_fls_alloc (current s) s2 = Ret (i, s3) /\
    do_fls_get_value (current s) i s3 = Ret (v, s4).
Proof.
  intros Hs Ht Hf Hi Hall. pose proof (proj2 (consistent_fiber_ok _ _ _ Hs Hf)) as Hlen.
  pose proof (proj2 (fls_index_ok_iff i) Hi) as Hok.
  assert (forall q s0 x, consistent s0 -> current s0 = current s ->
    thread_at s0 (caller s) = Some c ->
    fiber_at s0 (task_tgid (current s), c) = Some (set_fls x f) ->
    exists s', do_fls q (current s) s0 = Ret ((fls_eff q x).1, s') /\ consistent s' /\
      current s' = current s /\ thread_at s' (caller s) = Some c /\
      fiber_at s' (task_tgid (current s), c) = Some (set_fls (fls_eff q x).2 f)) as step.
  { intros q s0 x H0 Hc0 Ht0 Hf0.
    destruct (run_fls s0 c (set_fls x f) q H0) as (s' & Hr & Hs' & [Hc Hu] & Hf' & _ & T' & _);
      [unfold caller; by rewrite Hc0|by rewrite Hc0|].
    rewrite Hc0 in *. exists s'. split; [exact Hr|]. split; [done|]. split; [done|].
    split; [by rewrite T'|done]. }
  set (x1 := (fls_set i v (fls f)).2).
  assert (bmp x1 = bmp (fls f)) as Hb1 by (subst x1; unfold fls_set; by case_match).
  assert (fls_alloc (change_bmp i x1) = (i, change_bmp i (change_bmp i x1))) as Halloc.
  { apply fls_alloc_first_free; [done|..].
    - rewrite allocated_change, decide_True by lia. unfold allocated in *.
      by rewrite Hb1, Hall by lia.
    - intros j Hj. rewrite allocated_change, decide_False by lia. unfold allocated in *.
      by rewrite Hb1, Hall by lia. }
  destruct (step (FlsSet i v) s (fls f)) as (s1 & R1 & H1 & C1 & T1 & F1);
    [done..|by rewrite set_fls_id|].
  cbn [fls_eff] in *. rewrite Hok in *.
  destruct (step (FlsFree i) s1 x1) as (s2 & R2 & H2 & C2 & T2 & F2); [done..|].
  cbn [fls_eff] in *. rewrite Hok in *. unfold fls_free in R2, F2.
  pose proof (Hall i ltac:(lia)) as Hai. unfold allocated in Hai.
  rewrite Hb1, Hai in R2, F2. cbn [fst snd] in *.
  destruct (step FlsAlloc s2 _ H2 C2 T2 F2) as (s3 & R3 & H3 & C3 & T3 & F3).
  cbn [fls_eff] in *. rewrite Halloc in R3, F3. cbn [fst snd] in *.
  destruct (step (FlsGet i) s3 _ H3 C3 T3 F3) as (s4 & R4 & _).
  exists s1, s2, s3, s4. split; [etransitivity; [exact R1|]; unfold fls_set; by rewrite Hai|].
  split; [exact R2|]. split; [exact R3|]. etransitivity; [exact R4|]. cbn.
  rewrite Hok. unfold fls_get. cbn. rewrite !test_bit_change, !decide_True by lia.
  rewrite Hb1, Hai. cbn. subst x1. unfold fls_set. rewrite Hai. cbn.
  rewrite list_lookup_insert_eq by lia. done.
Qed.

(** No sequence of FLS requests touches another fiber (or another
    thread), nor anything of the caller's fiber but its local storage. *)
Theorem fls_isolated s c f qs :
  consistent s -> thread_at s (caller s) = Some c ->
  fiber_at s (task_tgid (current s), c) = Some f ->
  exists s' f', do_fls_all qs (current s) s = Ret (tt, s') /\ consistent s' /\
    keeps_frame s s' /\
    fiber_at s' (task_tgid (current s), c) = Some f' /\
    fid f' = fid f /\ flock f' = flock f /\ context f' = context f /\ info f' = info f /\
    (forall k, k <> (task_tgid (current s), c) -> fiber_at s' k = fiber_at s k) /\
    (forall k, thread_at s' k = thread_at s k).
Proof.
  intros Hs Ht Hf. destruct (run_fls_all qs s c f Hs Ht Hf) as (s' & R & H & Hk & F & _ & T & O).
  eexists s', _. split; [exact R|]. split; [done|]. split; [done|]. split; [exact F|]. done.
Qed.

(** A value a fiber stores is still there when the thread comes
    back to it, whatever FLS requests are made meanwhile in the fiber it
    switched to (on the same index, too). *)
Theorem fls_survives_switch s old next f o i v qs :
  consistent s -> thread_at s (caller s) = Some old ->
  fiber_at s (task_tgid (current s), old) = Some o ->
  fiber_at s (task_tgid (current s), next) = Some f -> flock f = false ->
  0 <= i < FLS_MAX_SIZE -> allocated (fls o) i = true ->
  exists s1 s2 s3 s4 s5,
    do_fls_set_value (current s) i v s = Ret (i, s1) /\
    do_switch_to_fiber (current s1) next s1 = Ret (SUCCESS, s2) /\
    do_fls_all qs (current s2) s2 = Ret (tt, s3) /\
    do_switch_to_fiber (current s3) old s3 = Ret (SUCCESS, s4) /\
    do_fls_get_value (current s4) i s4 = Ret (v, s5).
Proof.
  intros Hs Ht Ho Hf Hfree Hi Ha. set (g := task_tgid (current s)) in *.
  pose proof (proj2 (consistent_fiber_ok _ _ _ Hs Ho)) as Hlen.
  destruct (run_switch_free s old next f Hs Ht Hf Hfree) as [Hne _].
  destruct (run_fls s old o (FlsSet i v) Hs Ht Ho)
    as (s1 & R1 & H1 & [C1 _] & Fo1 & _ & T1 & F1).
  cbn [fls_eff] in R1, Fo1. rewrite (proj2 (fls_index_ok_iff i) Hi) in R1, Fo1.
  set (x1 := (fls_set i v (fls o)).2) in *. fold g in Fo1, F1.
  destruct (run_switch_free s1 old next f H1)
    as (_ & o1 & s2 & Ho1 & R2 & H2 & C2 & _ & T2 & Fn2 & Fo2 & _ & _ & F2).
  { by rewrite T1, <- Ht; unfold caller; rewrite C1. }
  { rewrite C1. fold g. rewrite F1; [done|congruence]. } { done. }
  rewrite C1 in Ho1, Fn2, Fo2. fold g in Ho1, Fn2, Fo2. rewrite Fo1 in Ho1.
  injection Ho1 as <-.
  assert (key (current s2) = caller s) as K2 by (rewrite C2, C1; done).
  assert (task_tgid (current s2) = g) as G2 by (rewrite C2, C1; done).
  destruct (run_fls_all qs s2 next
    (activate (task_pid (current s)) (utime (current s)) (set_flock true f)) H2)
    as (s3 & R3 & H3 & [C3 _] & Fn3 & _ & T3 & F3).
  { unfold caller. rewrite K2. unfold caller in T2. by rewrite C1 in T2. }
  { by rewrite G2. }
  rewrite G2 in Fn3, F3.
  destruct (run_switch_free s3 next old (suspend (current s) (set_fls x1 o)) H3)
    as (_ & o3 & s4 & _ & R4 & H4 & C4 & _ & T4 & Fo4 & _).
  { unfold caller. rewrite C3, K2, T3. unfold caller in T2. by rewrite C1 in T2. }
  { rewrite C3, G2, F3 by congruence. exact Fo2. } { done. }
  rewrite C3, G2 in Fo4.
  assert (task_tgid (current s4) = g) as G4 by (rewrite C4; cbn; by rewrite C3).
  destruct (run_fls s4 old (activate (task_pid (current s2)) (utime (current s2))
    (set_flock true (suspend (current s) (set_fls x1 o)))) (FlsGet i) H4) as (s5 & R5 & _).
  { etransitivity; [|exact T4]. unfold caller. f_equal. by rewrite C4. }
  { rewrite G4. exact Fo4. }
  exists s1, s2, s3, s4, s5. split.
  { etransitivity; [exact R1|]. unfold fls_set. unfold allocated in Ha. by rewrite Ha. }
  split; [exact R2|]. split; [exact R3|]. split; [exact R4|].
  etransitivity; [exact R5|]. cbn [fls_eff]. rewrite (proj2 (fls_index_ok_iff i) Hi). cbn.
  subst x1. by rewrite fls_get_set_same.
Qed.
End fls.
