(* ===== verification/Teardown.v ===== *)
(** * Closing the device, and running out of memory

    [cleanup_process] and [cleanup_all], as what they leave behind; and two
    behaviours the refinement excludes by hypothesis: what a failed [kmalloc]
    leads to, and what [cleanup_process] does when freed memory cannot be read
    back. *)
From S2P Require Import KState Fiber FiberSpec FiberRefine Cleanup FiberInv View Requests.
Local Open Scope prog_scope.

Section teardown.
Context `{K : KernelApi} `{L : !KernelLaws K} `{U : !Uninit K}.
Implicit Types (s : kstate K) (a : astate K).

(** [cleanup_process] answers 0 and leaves nothing of the process: no
    counter, no thread, no fiber; the other processes keep all of theirs. *)
Theorem cleanup_process_frees s g :
  uaf_traps = false -> consistent s ->
  exists s', cleanup_process g s = Ret (0, s') /\ consistent s' /\ keeps_frame s s' /\
    count_at s' g = None /\
    (forall p, thread_at s' (g, p) = None) /\ (forall i, fiber_at s' (g, i) = None) /\
    (forall g', g' <> g -> count_at s' g' = count_at s g') /\
    (forall k, k.1 <> g -> thread_at s' k = thread_at s k) /\
    (forall k, k.1 <> g -> fiber_at s' k = fiber_at s k).
Proof.
  intros Huaf (a & m & Hst & I & C & T & F)%consistent_st.
  pose proof (st_cleanup Huaf _ _ _ _ _ g Hst) as Hw.
  apply wp_run in Hw as (r & s' & Hrun & -> & m' & Hst' & _).
  destruct (st_holds _ _ _ _ _ Hst' (ainv_cleanup g a I)) as (Hs' & C' & T' & F').
  exists s'. split; [done|]. split; [done|].
  split; [destruct Hst' as (_ & ? & Hu); by injection Hu|]. rewrite C'. cbn.
  split; [apply lookup_delete_eq|].
  split; [|split; [|split; [|split]]].
  - intros p. rewrite T'. cbn. apply map_lookup_filter_None. right. cbn. auto.
  - intros i. rewrite F'. cbn. apply map_lookup_filter_None. right. cbn. auto.
  - intros g' Hne. rewrite C', C. cbn. by rewrite lookup_delete_ne by done.
  - intros k Hne. rewrite T', T. cbn. rewrite map_lookup_filter.
    destruct (athreads a !! k); cbn; [|done]. by rewrite option_guard_True by done.
  - intros k Hne. rewrite F', F. cbn. rewrite map_lookup_filter.
    destruct (afibers a !! k); cbn; [|done]. by rewrite option_guard_True by done.
Qed.

(** [cleanup_all], run when the module is removed, frees every process's
    threads and fibers: no lookup finds anything any more. *)
Theorem cleanup_all_empties s :
  uaf_traps = false -> consistent s ->
  exists s', cleanup_all s = Ret (SUCCESS, s') /\ consistent s' /\
    (forall g, count_at s' g = None) /\ (forall k, thread_at s' k = None) /\
    (forall k, fiber_at s' k = None).
Proof.
  intros Huaf (a & m & Hst & I & _)%consistent_st.
  pose proof (st_cleanup_all Huaf _ _ _ _ _ Hst) as Hw.
  apply wp_run in Hw as (r & s' & Hrun & -> & m' & Hst').
  destruct (st_holds _ _ _ _ _ Hst' ainv_init) as (Hs' & C' & T' & F').
  exists s'. split; [done|]. split; [done|].
  split; [|split]; intros k; [rewrite C'|rewrite T'|rewrite F']; apply lookup_empty.
Qed.

(** C20: the loop of [cleanup_process] steps to the next thread through the
    object it has just freed: as soon as the process has a thread, and
    freed memory is not readable, the cleanup faults. *)
Theorem cleanup_process_use_after_free s g p c :
  uaf_traps = true -> consistent s -> thread_at s (g, p) = Some c ->
  cleanup_process g s = Fault UseAfterFree.
Proof.
  intros Huaf (a & m & Hst & I & _ & T & _)%consistent_st. rewrite T. intros Hp.
  by eapply st_cleanup_traps.
Qed.

(** ** Out of memory *)
Lemma kmalloc_fail {A} `{!HeapOf A} (x : A) s :
  kmalloc_fails (nalloc s) = true ->
  kmalloc x s = Ret (NULL, set_nalloc (nalloc s + 1)%nat s).
Proof. intros H. unfold kmalloc, bind, get, put, ret. by rewrite H. Qed.

(** When the allocation of the first conversion of a process fails, the
    error number [generate_group] returns is used as a pointer. *)
Theorem convert_out_of_memory s :
  kmalloc_fails (nalloc s) = true -> consistent s ->
  count_at s (task_tgid (current s)) = None ->
  do_convert_thread_to_fiber (current s) s = Fault (BadPointer (- ESRCH)).
Proof.
  intros Hfail (a & m & (R & _ & Hu) & I & C & _)%consistent_st. rewrite C. intros Hg.
  injection Hu as Hp. unfold do_convert_thread_to_fiber. cbv zeta.
  rewrite (bind_run _ _ _ tt (set_plock true s)) by (unfold lock_plock, bind, get, put; by rewrite Hp).
  assert (rep (set_plock true s) a m) as R1 by by destruct R.
  assert (wp (get_group (task_tgid (current s))) (fun r s' => r = NULL /\ s' = set_plock true s)
    (set_plock true s)) as Hw.
  { eapply rep_get_group; [done|]. destruct (G m !! _) as [gl|] eqn:E; [|done].
    destruct (rep_group _ _ _ R _ _ E) as (? & ? & _ & ? & _). congruence. }
  apply wp_run in Hw as (? & ? & Hrun & -> & ->).
  rewrite (bind_run _ _ _ _ _ Hrun). cbn [is_null].
  set (s1 := set_nalloc (nalloc s + 1)%nat (set_plock true s)).
  rewrite (bind_run (generate_group _) _ _ (ERR (- ESRCH)) s1); [done|].
  unfold generate_group. rewrite (bind_run _ _ _ NULL s1); [done|]. by apply kmalloc_fail.
Qed.

(** Likewise for a fiber that cannot be allocated: when a converted
    thread creates one, the error number is the pointer the stack and the
    context are stored through. *)
Theorem create_out_of_memory s tg t sb ss ep arg :
  kmalloc_fails (nalloc s) = true ->
  get_group (task_tgid (current s)) s = Ret (PTR tg, s) ->
  get_thread (task_pid (current s)) (PTR tg) s = Ret (PTR t, s) ->
  do_create_fiber (current s) sb ss ep arg s = Fault (BadPointer (- ESRCH)).
Proof.
  intros Hfail Hg Ht. unfold do_create_fiber. cbv zeta.
  rewrite (bind_run _ _ _ _ _ Hg). cbn [is_null].
  rewrite (bind_run _ _ _ _ _ Ht). cbn [is_null].
  set (s1 := set_nalloc (nalloc s + 1)%nat s).
  rewrite (bind_run (generate_fiber _ _) _ _ (ERR (- ESRCH)) s1); [done|].
  unfold generate_fiber. rewrite (bind_run _ _ _ NULL s1); [done|]. by apply kmalloc_fail.
Qed.
End teardown.
