(* ===== verification/System.v ===== *)
(** * The module as its users see it: any task, any request, in any order

    [spec_ioctl] is the specification of the device's entry point
    [fibers_ioctl]: a function of the request number, the argument word, the
    caller's memory and the abstract state of FiberSpec.v.  A system is the
    kernel state and the tasks that exist; it moves when a task runs user
    code, is created, issues any ioctl with any argument, or closes the
    device.  Every such run is simulated by the abstract machine, which keeps the
    ownership invariant of FiberInv.v. *)
From S2P Require Import KState Fiber Device FiberSpec FiberRefine Cleanup FiberInv View.
Local Open Scope prog_scope.

Section ioctl.
Context `{K : KernelApi} `{L : !KernelLaws K} `{U : !Uninit K}.
Implicit Types (s : kstate K) (a : astate K).

(** ** The specification of the entry point *)
Definition read_args (u : umem) (p n : Z) : option (list Z) :=
  let '(r, bs) := copy_from_user u p n in if r =? 0 then Some bs else None.

Definition read_checked (u : umem) (p n : Z) : option (list Z) :=
  if access_ok p n then read_args u p n else None.

Definition spec_ioctl (cmd args : Z) (u : umem) (c : task_struct) (a : astate K)
    : Z * astate K * task_struct * umem :=
  let fls (k : fls_args_t -> Z * astate K) :=
    match read_checked u args sizeof_fls_args_t with
    | None => (- EINVAL, a, c, u)
    | Some bs => let '(r, a') := k (decode_fls_args bs) in (r, a', c, u)
    end in
  if cmd =? IOCTL_CONVERT_THREAD_TO_FIBER then
    let '(r, a') := spec_convert c a in (r, a', c, u)
  else if cmd =? IOCTL_CREATE_FIBER then
    match read_checked u args sizeof_fib_args_t with
    | None => (- EINVAL, a, c, u)
    | Some bs =>
        let x := decode_fib_args bs in
        let '(r, a') := spec_create c (fa_stack_base x) (fa_stack_size x)
                          (fa_entry_point x) (fa_params x) a in (r, a', c, u)
    end
  else if cmd =? IOCTL_SWITCH_TO_FIBER then
    match read_args u args sizeof_pid_t with
    | None => (- EINVAL, a, c, u)
    | Some bs => let '(r, a', c') := spec_switch c (decode_pid bs) a in (r, a', c', u)
    end
  else if cmd =? IOCTL_FLS_ALLOC then
    let '(r, a') := spec_fls_alloc c a in (r, a', c, u)
  else if cmd =? IOCTL_FLS_GET_VALUE then
    match read_checked u args sizeof_fls_args_t with
    | None => (- EINVAL, a, c, u)
    | Some bs =>
        let x := decode_fls_args bs in
        let '(r, u') := copy_to_user u (u64 (value x)) (le_bytes 8 (spec_fls_get c (idx x) a)) in
        (if r =? 0 then 0 else - EINVAL, a, c, u')
    end
  else if cmd =? IOCTL_FLS_FREE then fls (fun x => spec_fls_free c (idx x) a)
  else if cmd =? IOCTL_FLS_SET_VALUE then fls (fun x => spec_fls_set c (idx x) (value x) a)
  else (- EPERM, a, c, u).

(** ** Copying arguments *)
Lemma st_copy_in a m c u b s p n (Q : option (list Z) -> kstate K -> Prop) :
  st a m c (u, b) s -> Q (read_args u p n) s -> wp (copy_in p n) Q s.
Proof.
  intros (R & Hc & Hu) HQ. injection Hu as <- Hb. apply wp_bind, wp_get.
  unfold read_args in HQ. destruct (copy_from_user (user s) p n) as [r bs].
  by apply wp_ret.
Qed.

Lemma st_get_current a m c u s (Q : task_struct -> kstate K -> Prop) :
  st a m c u s -> Q c s -> wp get_current Q s.
Proof. intros (R & <- & Hu) HQ. by wp_auto. Qed.

Lemma st_with_fls_args a m c u b s args k (Q : Z -> kstate K -> Prop) :
  st a m c (u, b) s ->
  match read_checked u args sizeof_fls_args_t with
  | None => Q (- EINVAL) s
  | Some bs => wp (k (decode_fls_args bs)) Q s
  end ->
  wp (with_fls_args args k) Q s.
Proof.
  intros Hst HQ. unfold with_fls_args, read_checked in *.
  destruct (access_ok _ _); cbn [negb]; [|by apply wp_ret].
  apply wp_bind. eapply st_copy_in; [done|]. by case_match; [|apply wp_ret].
Qed.

(** ** The refinement of the entry point *)
Definition can_number (c : task_struct) a : Prop :=
  afibers a !! (task_tgid c, next_fid (task_tgid c) a) = None.

Definition ioctl_post (res : Z * astate K * task_struct * umem) (r : Z) s : Prop :=
  let '(r', a', c', u') := res in r = r' /\ exists m', st a' m' c' (u', false) s.

Lemma st_ioctl a m c u s cmd args :
  (forall n, kmalloc_fails n = false) ->
  st a m c (u, false) s -> can_number c a ->
  wp (fibers_ioctl cmd args) (ioctl_post (spec_ioctl cmd args u c a)) s.
Proof.
  intros Hmem Hst Hno. unfold fibers_ioctl, spec_ioctl. cbv zeta.
  case_match.
  { apply wp_bind. eapply st_get_current; [done|].
    eapply wp_mono; [by eapply st_convert|]. intros r s'.
    by destruct (spec_convert c a). }
  case_match.
  { unfold ioctl_create_fiber, read_checked.
    destruct (access_ok _ _); cbn [negb]; [|apply wp_ret; by split; eauto].
    apply wp_bind. eapply st_copy_in; [done|]. destruct (read_args _ _ _) as [bs|].
    2: { apply wp_ret. by split; eauto. }
    apply wp_bind. eapply st_get_current; [done|].
    eapply wp_mono; [by eapply st_create|]. intros r s'.
    by destruct (spec_create _ _ _ _ _ _). }
  case_match.
  { unfold ioctl_switch_to_fiber.
    apply wp_bind. eapply st_copy_in; [done|]. destruct (read_args _ _ _) as [bs|].
    2: { apply wp_ret. by split; eauto. }
    apply wp_bind. eapply st_get_current; [done|].
    eapply wp_mono; [by eapply st_switch|]. intros r s'.
    destruct (spec_switch _ _ _) as [[r' a'] c']. intros [-> H']. by split; eauto. }
  case_match.
  { apply wp_bind. eapply st_get_current; [done|].
    eapply wp_mono; [by eapply st_fls_alloc|]. intros r s'.
    destruct (spec_fls_alloc c a). intros [-> H']. by split; eauto. }
  case_match.
  { eapply st_with_fls_args; [done|]. destruct (read_checked _ _ _) as [bs|].
    2: { by split; eauto. }
    apply wp_bind. eapply st_get_current; [done|].
    apply wp_bind. eapply wp_mono; [by eapply st_fls_get|]. intros r s1 [-> Hs1].
    apply wp_bind, wp_bind, wp_get. destruct Hs1 as (R1 & Hc1 & Hu1).
    injection Hu1 as -> Hb1.
    destruct (copy_to_user _ _ _) as [r u'] eqn:E.
    wp_auto. split; [done|]. exists m. split; [by destruct R1|]. split; [done|].
    unfold frame_of. cbn. by rewrite Hb1. }
  case_match.
  { eapply st_with_fls_args; [done|]. destruct (read_checked _ _ _) as [bs|].
    2: { by split; eauto. }
    apply wp_bind. eapply st_get_current; [done|].
    eapply wp_mono; [by eapply st_fls_free|]. intros r s'.
    destruct (spec_fls_free _ _ _). intros [-> H']. by split; eauto. }
  case_match.
  { eapply st_with_fls_args; [done|]. destruct (read_checked _ _ _) as [bs|].
    2: { by split; eauto. }
    apply wp_bind. eapply st_get_current; [done|].
    eapply wp_mono; [by eapply st_fls_set|]. intros r s'.
    destruct (spec_fls_set _ _ _ _). intros [-> H']. by split; eauto. }
  apply wp_ret. by split; eauto.
Qed.

(** ** Opening and closing the device *)
Lemma st_module_refs a m c u s n : st a m c u s -> st a m c u (set_module_refs n s).
Proof. intros (R & ? & ?). split; [by destruct R|done]. Qed.

Lemma st_open a m c u s got :
  st a m c u s ->
  wp (fibers_open got) (fun r s' => r = (if got then SUCCESS else - ENOENT) /\ st a m c u s') s.
Proof.
  intros Hst. unfold fibers_open. destruct got; cbn [negb]; wp_auto; [|done].
  split; [done|]. by apply st_module_refs.
Qed.

Lemma st_release a m c u s :
  uaf_traps = false -> st a m c u s ->
  wp fibers_release (fun r s' =>
    r = SUCCESS /\ exists m', st (spec_cleanup (task_tgid c) a) m' c u s') s.
Proof.
  intros Huaf Hst. apply wp_bind. eapply st_get_current; [done|].
  apply wp_bind. eapply wp_mono; [by apply (st_cleanup Huaf)|].
  intros r s' (_ & m' & Hst' & _). wp_auto. split; [done|]. exists m'.
  by apply st_module_refs.
Qed.

Lemma ainv_ioctl cmd args u c a :
  ainv a -> 0 < task_pid c -> room (task_tgid c) a ->
  ainv (spec_ioctl cmd args u c a).1.1.2.
Proof.
  intros I Hp Hr. unfold spec_ioctl.
  pose proof (ainv_convert c a I Hp Hr).
  pose proof (fun sb ss ep arg => ainv_create c sb ss ep arg a I Hr) as Hcr.
  pose proof (fun nf => ainv_switch c nf a I) as Hsw.
  pose proof (ainv_fls_alloc c a I). pose proof (fun i => ainv_fls_free c i a I) as Hfr.
  pose proof (fun i v => ainv_fls_set c i v a I) as Hset.
  repeat case_match; simplify_eq; try done.
  all: match goal with
    | E : spec_convert _ _ = _ |- _ => by rewrite E in *
    | E : spec_create _ ?sb ?ss ?ep ?arg _ = _ |- _ =>
        specialize (Hcr sb ss ep arg); by rewrite E in Hcr
    | E : spec_switch _ ?nf _ = _ |- _ => specialize (Hsw nf); by rewrite E in Hsw
    | E : spec_fls_alloc _ _ = _ |- _ => by rewrite E in *
    | E : spec_fls_free _ ?i _ = _ |- _ => specialize (Hfr i); by rewrite E in Hfr
    | E : spec_fls_set _ ?i ?v _ = _ |- _ => specialize (Hset i v); by rewrite E in Hset
    end.
Qed.
End ioctl.

(** ** Systems *)
Section system.
Context `{K : KernelApi} `{L : !KernelLaws K} `{U : !Uninit K}.
Implicit Types (a : astate K).

Record system := { kern : kstate K; tasks : gmap Z task_struct }.

Inductive label :=
  | LSpawn (p : Z)
  | LUser (p : Z)
  | LIoctl (p cmd args r : Z)
  | LOpen (p r : Z)
  | LRelease (p : Z).

Inductive sys_step : system -> label -> system -> Prop :=
  | step_spawn k ts t :
      0 < task_pid t -> ts !! task_pid t = None ->
      sys_step {| kern := k; tasks := ts |} (LSpawn (task_pid t))
               {| kern := k; tasks := <[task_pid t := t]> ts |}
  | step_user k ts p t t' :
      ts !! p = Some t -> task_pid t' = task_pid t -> task_tgid t' = task_tgid t ->
      sys_step {| kern := k; tasks := ts |} (LUser p)
               {| kern := k; tasks := <[p := t']> ts |}
  | step_ioctl k ts p t u cmd args r k' :
      ts !! p = Some t -> fibers_ioctl cmd args (enter t u k) = Ret (r, k') ->
      sys_step {| kern := k; tasks := ts |} (LIoctl p cmd args r)
               {| kern := k'; tasks := <[p := current k']> ts |}
  | step_open k ts p t u got r k' :
      ts !! p = Some t -> fibers_open got (enter t u k) = Ret (r, k') ->
      sys_step {| kern := k; tasks := ts |} (LOpen p r)
               {| kern := k'; tasks := <[p := current k']> ts |}
  | step_release k ts p t u r k' :
      ts !! p = Some t -> fibers_release (enter t u k) = Ret (r, k') ->
      sys_step {| kern := k; tasks := ts |} (LRelease p)
               {| kern := k'; tasks := <[p := current k']> ts |}.

(** The module just loaded. *)
Definition booted (k : kstate K) : Prop :=
  groups k = hash_init /\ plock k = false /\ nalloc k = 0%nat /\
  heap_groups k = ∅ /\ heap_threads k = ∅ /\ heap_fibers k = ∅.

Inductive reachable : nat -> system -> Prop :=
  | reach_boot k : booted k -> reachable 0 {| kern := k; tasks := ∅ |}
  | reach_step n x l x' : reachable n x -> sys_step x l x' -> reachable (S n) x'.

(** ** The abstract machine *)
Record asystem := { abs : astate K; atasks : gmap Z task_struct }.

Inductive astep : asystem -> label -> asystem -> Prop :=
  | astep_spawn a ts t :
      0 < task_pid t -> ts !! task_pid t = None ->
      astep {| abs := a; atasks := ts |} (LSpawn (task_pid t))
            {| abs := a; atasks := <[task_pid t := t]> ts |}
  | astep_user a ts p t t' :
      ts !! p = Some t -> task_pid t' = task_pid t -> task_tgid t' = task_tgid t ->
      astep {| abs := a; atasks := ts |} (LUser p)
            {| abs := a; atasks := <[p := t']> ts |}
  | astep_ioctl a ts p t u cmd args r a' t' u' :
      ts !! p = Some t -> spec_ioctl cmd args u t a = (r, a', t', u') ->
      astep {| abs := a; atasks := ts |} (LIoctl p cmd args r)
            {| abs := a'; atasks := <[p := t']> ts |}
  | astep_open a ts p t r :
      ts !! p = Some t ->
      astep {| abs := a; atasks := ts |} (LOpen p r) {| abs := a; atasks := <[p := t]> ts |}
  | astep_release a ts p t :
      ts !! p = Some t ->
      astep {| abs := a; atasks := ts |} (LRelease p)
            {| abs := spec_cleanup (task_tgid t) a; atasks := <[p := t]> ts |}.

Definition simulates (x : system) (y : asystem) : Prop :=
  tasks x = atasks y /\ plock (kern x) = false /\ exists m, rep (kern x) (abs y) m.

Definition tasks_ok (ts : gmap Z task_struct) : Prop :=
  forall p t, ts !! p = Some t -> task_pid t = p /\ 0 < p.

(** No process has numbered more than [n] fibers. *)
Definition numbered (n : nat) a : Prop :=
  forall g c, agroups a !! g = Some c -> c <= Z.of_nat n - 1.

Definition asys_ok (n : nat) (y : asystem) : Prop :=
  ainv (abs y) /\ tasks_ok (atasks y) /\ numbered n (abs y).

Lemma simulates_st x y t u :
  simulates x y -> exists m, st (abs y) m t (u, false) (enter t u (kern x)).
Proof.
  intros (_ & Hp & m & R). exists m. split; [by apply rep_enter|]. split; [done|].
  unfold frame_of. cbn. by rewrite Hp.
Qed.

Lemma numbered_room n g a : numbered n a -> Z.of_nat n < 2 ^ 31 -> room g a.
Proof.
  intros Hn Hlt. unfold room. destruct (agroups a !! g) eqn:E; cbn.
  - apply Hn in E. unfold id. lia.
  - unfold NO_FIBERS. lia.
Qed.

Lemma can_number_room c a : ainv a -> room (task_tgid c) a -> can_number c a.
Proof. intros I Hr. by apply next_fid_fresh. Qed.

(** Requests keep the caller's identity. *)
Lemma spec_switch_task c nf a :
  let c' := (spec_switch c nf a).2 in task_tgid c' = task_tgid c /\ task_pid c' = task_pid c.
Proof. unfold spec_switch, hand_over. by repeat case_match. Qed.

Lemma spec_ioctl_task cmd args u c a :
  let c' := (spec_ioctl cmd args u c a).1.2 in
  task_tgid c' = task_tgid c /\ task_pid c' = task_pid c.
Proof.
  pose proof (fun nf => spec_switch_task c nf a) as Hsw. cbn zeta in *.
  unfold spec_ioctl. repeat case_match; simplify_eq; try done.
  match goal with E : spec_switch _ ?nf _ = _ |- _ =>
    specialize (Hsw nf); by rewrite E in Hsw end.
Qed.

(** Requests number at most one more fiber. *)
Lemma numbered_upd n g a c :
  numbered n a -> c <= Z.of_nat n -> numbered (S n) (upd_group g c a).
Proof.
  intros Hn Hc g' c'. cbn. rewrite lookup_insert. case_decide; [intros [= <-]; lia|].
  intros Hx. apply Hn in Hx. lia.
Qed.

Lemma numbered_mono n a a' : agroups a' = agroups a -> numbered n a -> numbered (S n) a'.
Proof. intros E Hn g c. rewrite E. intros H. apply Hn in H. lia. Qed.

Lemma next_fid_numbered n g a :
  ainv a -> numbered n a -> Z.of_nat n < 2 ^ 31 -> next_fid g a <= Z.of_nat n.
Proof.
  intros I Hn Hlt. destruct (next_fid_room g a I) as [-> _]; [by eapply numbered_room|].
  destruct (agroups a !! g) eqn:E; cbn; [apply Hn in E; unfold id; lia|unfold NO_FIBERS; lia].
Qed.

Lemma numbered_ioctl n cmd args u c a :
  ainv a -> numbered n a -> Z.of_nat n < 2 ^ 31 ->
  numbered (S n) (spec_ioctl cmd args u c a).1.1.2.
Proof.
  intros I Hn Hlt. pose proof (next_fid_numbered n (task_tgid c) a I Hn Hlt) as Hnext.
  pose proof (numbered_upd n (task_tgid c) a _ Hn Hnext) as Hup.
  pose proof (numbered_mono n a a eq_refl Hn) as Hsame.
  assert (forall op, numbered (S n) (on_current c op a).2) as Hon.
  { intros op. unfold on_current. repeat case_match; simplify_eq; try done. }
  unfold spec_ioctl, spec_convert, spec_create, spec_switch, hand_over,
    spec_fls_alloc, spec_fls_free, spec_fls_set.
  repeat case_match; simplify_eq; try done.
  all: match goal with
    | E : on_current _ ?op _ = _ |- _ => specialize (Hon op); by rewrite E in Hon
    end.
Qed.

(** ** The simulation *)
Section sim.
Hypothesis Hmem : forall n, kmalloc_fails n = false.

Lemma sim_ioctl_run x y n p t u cmd args :
  simulates x y -> asys_ok n y -> Z.of_nat n < 2 ^ 31 -> atasks y !! p = Some t ->
  exists r a' t' u' k', spec_ioctl cmd args u t (abs y) = (r, a', t', u') /\
    fibers_ioctl cmd args (enter t u (kern x)) = Ret (r, k') /\
    exists m', st a' m' t' (u', false) k'.
Proof.
  intros Hsim (I & Htk & Hn) Hlt Ht. destruct (simulates_st x y t u Hsim) as [m Hst].
  eapply (st_ioctl _ _ _ _ _ cmd args) in Hst; [|done|].
  - apply wp_run in Hst as (r & k' & Hrun & Hpost).
    destruct (spec_ioctl _ _ _ _ _) as [[[r' a'] t'] u'].
    destruct Hpost as [-> Hm]. by exists r', a', t', u', k'.
  - apply can_number_room; [done|]. by eapply numbered_room.
Qed.

Lemma tasks_ok_insert ts p t t' :
  tasks_ok ts -> ts !! p = Some t -> task_pid t' = task_pid t -> tasks_ok (<[p := t']> ts).
Proof.
  intros Hok Hp E q t0. rewrite lookup_insert. case_decide; [|apply Hok].
  intros [= <-]. subst q. rewrite E. by apply Hok.
Qed.

(** Every step of the system is a step of the abstract machine. *)
Lemma sim_step x l x' y n :
  uaf_traps = false ->
  sys_step x l x' -> simulates x y -> asys_ok n y -> Z.of_nat n < 2 ^ 31 ->
  exists y', astep y l y' /\ simulates x' y' /\ asys_ok (S n) y'.
Proof.
  intros Huaf Hstep Hsim Hok Hlt.
  pose proof Hsim as (Ht & Hp & m & R). pose proof Hok as (I & Htk & Hn).
  destruct y as [a ts0]. cbn in *. destruct Hstep; cbn in *; subst ts0.
  - exists {| abs := a; atasks := <[task_pid t := t]> ts |}.
    split; [by constructor|]. split; [by split; eauto|]. split; [done|].
    split; [|by eapply numbered_mono]. intros q t0. cbn. rewrite lookup_insert.
    case_decide; [|apply Htk]. intros [= <-]. subst q. done.
  - exists {| abs := a; atasks := <[p := t']> ts |}.
    split; [by econstructor|]. split; [by split; eauto|]. split; [done|].
    split; [by eapply tasks_ok_insert|by eapply numbered_mono].
  - destruct (sim_ioctl_run _ _ n p t u cmd args Hsim Hok Hlt H)
      as (r' & a' & t' & u' & k1 & Hspec & Hrun & m' & R' & Hc' & Hu').
    cbn in Hspec, Hrun. rewrite Hrun in H0. injection H0 as <- <-.
    exists {| abs := a'; atasks := <[p := t']> ts |}.
    split; [by econstructor|]. injection Hu' as _ Hl'. split.
    { split; [by rewrite Hc'|]. split; [done|]. by exists m'. }
    pose proof (spec_ioctl_task cmd args u t a) as [_ Hpid].
    pose proof (ainv_ioctl cmd args u t a I) as Hinv.
    pose proof (numbered_ioctl n cmd args u t a I Hn Hlt) as Hnum.
    rewrite Hspec in Hpid, Hinv, Hnum. cbn in *. split; [|split]; [|by eapply tasks_ok_insert|done].
    apply Hinv; [|by eapply numbered_room]. destruct (Htk _ _ H). lia.
  - destruct (simulates_st _ _ t u Hsim) as [m1 Hst]. cbn in Hst.
    apply (st_open _ _ _ _ _ got) in Hst.
    apply wp_run in Hst as (r1 & k1 & Hrun & _ & R2 & Hc2 & Hu2).
    injection Hu2 as _ Hl2. rewrite Hrun in H0. injection H0 as -> <-.
    exists {| abs := a; atasks := <[p := t]> ts |}. split; [by econstructor|]. split.
    { split; [by rewrite Hc2|]. split; [done|]. by exists m1. }
    split; [done|]. split; [by eapply tasks_ok_insert|by eapply numbered_mono].
  - destruct (simulates_st _ _ t u Hsim) as [m1 Hst]. cbn in Hst.
    apply st_release in Hst; [|done].
    apply wp_run in Hst as (r1 & k1 & Hrun & _ & m2 & R2 & Hc2 & Hu2).
    injection Hu2 as _ Hl2. pose proof (eq_trans (eq_sym Hrun) H0) as E. injection E as _ ->.
    exists {| abs := spec_cleanup (task_tgid t) a; atasks := <[p := t]> ts |}.
    split; [by econstructor|]. split.
    { split; [by rewrite Hc2|]. split; [done|]. by exists m2. }
    split; [by apply ainv_cleanup|]. split; [by eapply tasks_ok_insert|].
    intros g c Hg. cbn in Hg. apply lookup_delete_Some in Hg as [_ Hg].
    apply Hn in Hg. lia.
Qed.

Lemma sim_boot k :
  booted k -> simulates {| kern := k; tasks := ∅ |} {| abs := ainit; atasks := ∅ |}.
Proof.
  intros (Hg & Hp & Hn & HG & HT & HF). split; [done|]. split; [done|].
  exists {| G := ∅; T := ∅; F := ∅ |}.
  split; cbn; try (intros *; rewrite lookup_empty; done); rewrite ?Hg, ?HG, ?HT, ?HF;
    try (intros ?*; rewrite lookup_empty; done).
  by apply tab_is_init.
Qed.

Lemma asys_ok_init : asys_ok 0 {| abs := ainit; atasks := ∅ |}.
Proof.
  split; [apply ainv_init|]. split; intros p t; cbn; by rewrite lookup_empty.
Qed.

Lemma sim_reachable n x :
  uaf_traps = false -> reachable n x -> Z.of_nat n <= 2 ^ 31 ->
  exists y, simulates x y /\ asys_ok n y.
Proof.
  intros Huaf Hr. induction Hr as [k Hk|n x l x' Hr IH Hstep]; intros Hn.
  - exists {| abs := ainit; atasks := ∅ |}. split; [by apply sim_boot|apply asys_ok_init].
  - destruct IH as (y & Hs & Hok); [lia|].
    destruct (sim_step _ _ _ _ n Huaf Hstep Hs Hok) as (y' & _ & ? & ?); [lia|]. eauto.
Qed.
End sim.
End system.
Arguments system K : clear implicits.
Arguments asystem K : clear implicits.
