(* ===== verification/Safety.v ===== *)
(** * What holds in every run of the module

    The theorems of this file are about whole systems: any number of tasks of
    any number of processes, each making any request with any argument words
    and any contents of its memory, running user code and closing the device
    in any order.  They rest on the refinement of [fibers_ioctl] and on the simulation
    of System.v. *)
From S2P Require Import KState Fiber Device FiberSpec FiberRefine Cleanup FiberInv View Requests LocalStorage System.
Local Open Scope prog_scope.

Section frames.
Context `{K : KernelApi} `{U : !Uninit K}.
Implicit Types (a : astate K).

(** ** What requests leave alone, on the abstract state *)
Definition same_outside (g : Z) a a' : Prop :=
  (forall g', g' <> g -> agroups a' !! g' = agroups a !! g') /\
  (forall k, k.1 <> g -> athreads a' !! k = athreads a !! k) /\
  (forall k, k.1 <> g -> afibers a' !! k = afibers a !! k).

Lemma same_outside_refl g a : same_outside g a a.
Proof. done. Qed.
Lemma same_outside_fiber g i f a a1 :
  same_outside g a a1 -> same_outside g a (upd_fiber (g, i) f a1).
Proof.
  intros (C & T & F). split; [done|]. split; [done|]. intros k Hk. cbn.
  rewrite lookup_insert_ne; [by apply F|]. by intros <-.
Qed.
Lemma same_outside_thread g p c a a1 :
  same_outside g a a1 -> same_outside g a (upd_thread (g, p) c a1).
Proof.
  intros (C & T & F). split; [done|]. split; [|done]. intros k Hk. cbn.
  rewrite lookup_insert_ne; [by apply T|]. by intros <-.
Qed.
Lemma same_outside_group g c a a1 :
  same_outside g a a1 -> same_outside g a (upd_group g c a1).
Proof.
  intros (C & T & F). split; [|done]. intros k Hk. cbn.
  rewrite lookup_insert_ne by done. by apply C.
Qed.

Create HintDb frame.
Hint Resolve same_outside_refl same_outside_fiber same_outside_thread same_outside_group
  : frame.

Lemma same_outside_on_current c op a : same_outside (task_tgid c) a (on_current c op a).2.
Proof.
  unfold on_current. destruct (acurrent c a) as [[k f]|] eqn:E; [|done].
  destruct (acurrent_Some _ _ _ _ E) as (x & _ & -> & _).
  destruct (op (fls f)). cbn. auto with frame.
Qed.

Lemma same_outside_switch c next a : same_outside (task_tgid c) a (spec_switch c next a).1.2.
Proof. unfold spec_switch, hand_over, key. repeat case_match; simplify_eq; cbn; auto 10 with frame. Qed.

Lemma same_outside_ioctl cmd args u c a :
  same_outside (task_tgid c) a (spec_ioctl cmd args u c a).1.1.2.
Proof.
  pose proof (fun op => same_outside_on_current c op a) as Hon.
  pose proof (fun n => same_outside_switch c n a) as Hsw.
  unfold spec_ioctl, spec_convert, spec_create, spec_fls_alloc, spec_fls_free, spec_fls_set, key.
  repeat case_match; simplify_eq; cbn; try done; auto 10 with frame.
  all: match goal with
    | E : on_current _ ?op _ = _ |- _ => specialize (Hon op); by rewrite E in Hon
    | E : spec_switch _ ?n _ = _ |- _ => specialize (Hsw n); by rewrite E in Hsw
    end.
Qed.

Lemma same_outside_cleanup g a : same_outside g a (spec_cleanup g a).
Proof.
  split; [|split]; intros k Hk; cbn.
  - by rewrite lookup_delete_ne by done.
  - destruct (athreads a !! k) eqn:E.
    + by apply map_lookup_filter_Some.
    + apply map_lookup_filter_None. by left.
  - destruct (afibers a !! k) eqn:E.
    + by apply map_lookup_filter_Some.
    + apply map_lookup_filter_None. by left.
Qed.

(** ** A fiber nobody runs *)
Definition asleep (f f' : fiber K) : Prop :=
  fid f' = fid f /\ context f' = context f /\ fls f' = fls f.

Lemma on_current_asleep c op a k f :
  ainv a -> afibers a !! k = Some f -> flock f = false ->
  afibers (on_current c op a).2 !! k = Some f.
Proof.
  intros I Hk Hf. unfold on_current. destruct (acurrent c a) as [[k' f']|] eqn:E; [|done].
  destruct (acurrent_Some _ _ _ _ E) as (x & Hx & -> & Hf').
  destruct (op (fls f')). cbn. rewrite lookup_insert_ne; [done|]. intros <-.
  destruct (inv_current _ I _ _ _ Hx) as (_ & f2 & H2 & ? & _). congruence.
Qed.

Lemma spec_switch_asleep c next a k f r a' c' :
  ainv a -> afibers a !! k = Some f -> flock f = false ->
  spec_switch c next a = (r, a', c') ->
  exists f', afibers a' !! k = Some f' /\ asleep f f' /\
    (flock f' = true -> r = SUCCESS /\ c' = resume f c).
Proof.
  intros I Hk Hf E. destruct (athreads a !! key c) as [old|] eqn:Hx.
  2: { unfold spec_switch in E. rewrite Hx in E. simplify_eq.
       exists f. split; [done|]. split; [done|]. congruence. }
  destruct (afibers a !! (task_tgid c, next)) as [n|] eqn:Hn.
  2: { unfold spec_switch in E. rewrite Hx, Hn in E. simplify_eq.
       exists f. split; [done|]. split; [done|]. congruence. }
  destruct (flock n) eqn:Hb.
  - rewrite (spec_switch_busy _ _ _ _ _ Hx Hn Hb) in E. simplify_eq. exists f.
    cbn. rewrite lookup_insert_ne by congruence. split; [done|]. split; [done|]. congruence.
  - destruct (spec_switch_free _ _ _ _ _ I Hx Hn Hb) as (Hne & o & Ho & Hl & E').
    rewrite E' in E. simplify_eq. unfold switched. cbn.
    destruct (decide (k = (task_tgid c, next))) as [->|Hkn].
    + rewrite Hk in Hn. simplify_eq. eexists. rewrite lookup_insert_eq. done.
    + exists f. rewrite lookup_insert_ne by done.
      rewrite lookup_insert_ne by congruence. split; [done|]. split; [done|]. congruence.
Qed.

Lemma spec_ioctl_asleep cmd args u c a r a' c' u' k f :
  ainv a -> room (task_tgid c) a -> spec_ioctl cmd args u c a = (r, a', c', u') ->
  afibers a !! k = Some f -> flock f = false ->
  exists f', afibers a' !! k = Some f' /\ asleep f f' /\
    (flock f' = true -> cmd = IOCTL_SWITCH_TO_FIBER /\ r = SUCCESS /\ c' = resume f c).
Proof.
  intros I Hr E Hk Hf.
  assert (afibers a' !! k = Some f ->
    exists f', afibers a' !! k = Some f' /\ asleep f f' /\
    (flock f' = true -> cmd = IOCTL_SWITCH_TO_FIBER /\ r = SUCCESS /\ c' = resume f c)) as Hsame.
  { intros H1. exists f. split; [done|]. split; [done|]. congruence. }
  assert (forall f1 a1, afibers a1 = afibers a ->
    afibers (upd_fiber (task_tgid c, next_fid (task_tgid c) a) f1 a1) !! k = Some f) as Hadd.
  { intros f1 a1 E1. cbn. rewrite E1. rewrite lookup_insert_ne; [done|].
    pose proof (next_fid_fresh _ _ I Hr). congruence. }
  pose proof (fun op => on_current_asleep c op a k f I Hk Hf) as Hon.
  unfold spec_ioctl, spec_convert, spec_create, spec_fls_alloc, spec_fls_free, spec_fls_set in E.
  repeat case_match; simplify_eq; try (by apply Hsame); try (by apply Hsame, Hadd).
  all: match goal with
    | E : on_current _ ?op _ = _ |- _ => specialize (Hon op); rewrite E in Hon; by apply Hsame
    | E : spec_switch _ _ _ = _ |- _ =>
        destruct (spec_switch_asleep _ _ _ _ _ _ _ _ I Hk Hf E) as (f' & ? & ? & ?);
        exists f'; split; [done|]; split; [done|]; intros; split; [by apply Z.eqb_eq|eauto]
    end.
Qed.
End frames.

(** ** The theorems *)
Section safety.
Context `{K : KernelApi} `{L : !KernelLaws K} `{U : !Uninit K}.
Implicit Types (a : astate K) (s : kstate K) (f : fiber K).

(** C2: [fibers_ioctl] implements its specification: for every request
    number, argument word and user memory it returns (no fault), with the
    result, the caller's CPU state, the user memory and the fibers, threads
    and counters that [spec_ioctl] gives; the new state is consistent. *)
Theorem ioctl_refines s cmd args :
  (forall n, kmalloc_fails n = false) ->
  consistent s -> room_at s -> 0 < task_pid (current s) ->
  exists a s', holds a s /\
    let '(r, a', t', u') := spec_ioctl cmd args (user s) (current s) a in
    fibers_ioctl cmd args s = Ret (r, s') /\ holds a' s' /\ current s' = t' /\ user s' = u'.
Proof.
  intros Hmem Hs Hr Hp. destruct (consistent_st s Hs) as (a & m & Hst & I & C & _).
  assert (room (task_tgid (current s)) a) as Hroom by (unfold room; by rewrite <- C).
  pose proof (ainv_ioctl cmd args (user s) (current s) a I Hp Hroom) as I'.
  pose proof (st_ioctl _ _ _ _ s cmd args Hmem Hst (next_fid_fresh _ _ I Hroom)) as Hw.
  apply wp_run in Hw as (r & s' & Hrun & Hpost). unfold ioctl_post in Hpost.
  exists a, s'. split; [by eapply st_holds|].
  destruct (spec_ioctl _ _ _ _ _) as [[[r' a'] t'] u']. destruct Hpost as (-> & m' & Hst').
  split; [done|]. split; [by eapply st_holds|]. destruct Hst' as (_ & ? & Hu). by injection Hu.
Qed.

(** C18: no request and no release, whatever it answers, changes a fiber, a thread
    or the counter of another process. *)
Theorem ioctl_isolates_processes s cmd args r s' :
  (forall n, kmalloc_fails n = false) -> uaf_traps = false ->
  consistent s -> room_at s -> 0 < task_pid (current s) ->
  fibers_ioctl cmd args s = Ret (r, s') \/ fibers_release s = Ret (r, s') ->
  (forall g, g <> task_tgid (current s) -> count_at s' g = count_at s g) /\
  (forall k, k.1 <> task_tgid (current s) -> thread_at s' k = thread_at s k) /\
  (forall k, k.1 <> task_tgid (current s) -> fiber_at s' k = fiber_at s k).
Proof.
  intros Hmem Huaf Hs Hr Hp Hrun. destruct (consistent_st s Hs) as (a & m & Hst & I & C & T & F).
  assert (exists a', same_outside (task_tgid (current s)) a a' /\
    (forall g, count_at s' g = agroups a' !! g) /\
    (forall k, thread_at s' k = athreads a' !! k) /\
    (forall k, fiber_at s' k = afibers a' !! k)) as (a' & (Ca & Ta & Fa) & C' & T' & F').
  { destruct Hrun as [Hrun|Hrun].
    - assert (room (task_tgid (current s)) a) as Hroom by (unfold room; by rewrite <- C).
      pose proof (st_ioctl _ _ _ _ s cmd args Hmem Hst (next_fid_fresh _ _ I Hroom)) as Hw.
      unfold wp in Hw. rewrite Hrun in Hw.
      pose proof (same_outside_ioctl cmd args (user s) (current s) a) as Hso.
      unfold ioctl_post in Hw. destruct (spec_ioctl _ _ _ _ _) as [[[r' a'] t'] u'].
      destruct Hw as (_ & m' & R' & _). exists a'. split; [done|].
      split; [|split]; intros; [by eapply view_count|by eapply view_thread|by eapply view_fiber].
    - exists (spec_cleanup (task_tgid (current s)) a). split; [apply same_outside_cleanup|].
      pose proof (st_release _ _ _ _ _ Huaf Hst) as Hw.
      apply wp_run in Hw as (r1 & k1 & Hrun1 & _ & m2 & R2 & _).
      rewrite Hrun in Hrun1. injection Hrun1 as _ ->.
      split; [|split]; intros; [by eapply view_count|by eapply view_thread|by eapply view_fiber]. }
  split; [|split]; intros k Hk.
  - by rewrite C', C, Ca. - by rewrite T', T, Ta. - by rewrite F', F, Fa.
Qed.

(** A request number that is none of the seven is refused with [-EPERM]
    in every state, which is not touched. *)
Theorem ioctl_unknown s cmd args :
  cmd ∉ [IOCTL_CONVERT_THREAD_TO_FIBER; IOCTL_CREATE_FIBER; IOCTL_SWITCH_TO_FIBER;
         IOCTL_FLS_ALLOC; IOCTL_FLS_GET_VALUE; IOCTL_FLS_FREE; IOCTL_FLS_SET_VALUE] ->
  fibers_ioctl cmd args s = Ret (- EPERM, s).
Proof.
  rewrite !not_elem_of_cons. intros (? & ? & ? & ? & ? & ? & ? & _). unfold fibers_ioctl.
  by repeat rewrite (proj2 (Z.eqb_neq cmd _)) by done.
Qed.


(** The read request answers 0 even when the read failed: the error
    number is written to the caller's buffer as if it were the value stored. *)
Theorem ioctl_get_value_masks_errors s args bs u' :
  let x := decode_fls_args bs in
  access_ok args sizeof_fls_args_t = true ->
  copy_from_user (user s) args sizeof_fls_args_t = (0, bs) ->
  idx x < 0 \/ FLS_MAX_SIZE <= idx x ->
  copy_to_user (user s) (u64 (value x)) (le_bytes 8 (- ESRCH)) = (0, u') ->
  fibers_ioctl IOCTL_FLS_GET_VALUE args s = Ret (0, set_user u' s).
Proof.
  intros x Hacc Hcopy Hi Hout.
  change (ioctl_fls_get_value args s = Ret (0, set_user u' s)).
  unfold ioctl_fls_get_value, with_fls_args. rewrite Hacc. cbn [negb].
  rewrite (bind_run (copy_in args sizeof_fls_args_t) _ s (Some bs) s)
    by (unfold copy_in, bind, get; by rewrite Hcopy).
  rewrite (bind_run get_current _ s (current s) s) by done.
  assert (do_fls_get_value (current s) (idx (decode_fls_args bs)) s = Ret (- ESRCH, s)) as E.
  { unfold do_fls_get_value. apply fls_index_bad in Hi. apply negb_false_iff in Hi. fold x. by rewrite Hi. }
  rewrite (bind_run _ _ _ _ _ E). unfold copy_out, bind, get, put, ret. fold x.
  by rewrite Hout.
Qed.

Section runs.
Hypothesis Hmem : forall n, kmalloc_fails n = false.
Hypothesis Huaf : uaf_traps = false.

(** C3: the module refines the abstract machine of FiberSpec.v: each step of a
    system is matched by the step of the same label, from any state that
    represents the abstract one, to one that represents the next. *)
Theorem system_refines n x l x' y :
  sys_step x l x' -> simulates x y -> asys_ok n y -> Z.of_nat n < 2 ^ 31 ->
  exists y', astep y l y' /\ simulates x' y' /\ asys_ok (S n) y'.
Proof. intros Hst Hsim Hok Hn. by eapply sim_step. Qed.

Lemma reachable_consistent n x :
  reachable n x -> Z.of_nat n <= 2 ^ 31 ->
  consistent (kern x) /\ (forall p t, tasks x !! p = Some t -> task_pid t = p /\ 0 < p) /\
  (forall g c, count_at (kern x) g = Some c -> c <= Z.of_nat n - 1).
Proof.
  intros Hr Hn. destruct (sim_reachable Hmem n x Huaf Hr Hn) as (y & Hsim & I & Hts & Hnum).
  destruct Hsim as (Ht & Hp & m & R). split; [split; [done|by exists (abs y), m]|].
  split; [intros p t; rewrite Ht; apply Hts|].
  intros g c. rewrite (view_count _ _ _ _ R). apply Hnum.
Qed.


(** At any time at most one thread runs a fiber. *)
Theorem one_thread_per_fiber n x g p q i :
  reachable n x -> Z.of_nat n <= 2 ^ 31 ->
  thread_at (kern x) (g, p) = Some i -> thread_at (kern x) (g, q) = Some i -> p = q.
Proof.
  intros Hr Hn. destruct (reachable_consistent n x Hr Hn) as [Hs _].
  destruct (consistent_holds _ Hs) as (a & (_ & _ & T & _) & I). rewrite !T.
  intros Hp Hq. destruct (inv_current _ I _ _ _ Hp) as (_ & f & Hf & _ & <-).
  destruct (inv_current _ I _ _ _ Hq) as (_ & f' & Hf' & _ & <-). congruence.
Qed.

(** C4: the lock and the [state] of a fiber tell the truth: a fiber is locked
    exactly when some thread of its process is running it; [state] is then
    that thread's pid, and 0 otherwise; and the fiber a thread runs
    always exists. *)
Theorem locked_iff_running n x g :
  reachable n x -> Z.of_nat n <= 2 ^ 31 ->
  (forall i f, fiber_at (kern x) (g, i) = Some f ->
    (flock f = true <-> exists p, thread_at (kern x) (g, p) = Some i) /\
    (flock f = true -> thread_at (kern x) (g, state (info f)) = Some i) /\
    (flock f = false -> state (info f) = 0)) /\
  (forall p i, thread_at (kern x) (g, p) = Some i -> is_Some (fiber_at (kern x) (g, i))).
Proof.
  intros Hr Hn. destruct (reachable_consistent n x Hr Hn) as [Hs _].
  destruct (consistent_holds _ Hs) as (a & (_ & _ & T & F) & I).
  split; [intros i f; rewrite F; intros Hf; split; [split|split]|].
  - intros Hl. exists (state (info f)). rewrite T. by apply (inv_owner _ I).
  - intros [p Hp]. rewrite T in Hp. destruct (inv_current _ I _ _ _ Hp) as (_ & f' & ? & ? & _).
    congruence.
  - intros Hl. rewrite T. by apply (inv_owner _ I).
  - exact (inv_free _ I _ _ Hf).
  - intros p i. rewrite T, F. intros Hp.
    destruct (inv_current _ I _ _ _ Hp) as (_ & f' & Hf & _). by exists f'.
Qed.

(** C19: the fibers of a process are numbered 0 to [fid_count] without gaps, and a
    fiber's name is its number in decimal; the counter is at most the
    number of steps the system has made. *)
Theorem fibers_numbered n x g c :
  reachable n x -> Z.of_nat n <= 2 ^ 31 -> count_at (kern x) g = Some c ->
  c < Z.of_nat n /\
  (forall i, is_Some (fiber_at (kern x) (g, i)) <-> 0 <= i <= c) /\
  (forall i f, fiber_at (kern x) (g, i) = Some f -> fid f = i /\ name (info f) = format_d i).
Proof.
  intros Hr Hn Hc. destruct (reachable_consistent n x Hr Hn) as (Hs & _ & Hnum).
  destruct (consistent_holds _ Hs) as (a & (_ & C & _ & F) & I).
  split; [apply Hnum in Hc; lia|]. rewrite C in Hc.
  split; intros i; [rewrite F; by apply I|intros f; rewrite F; apply (inv_name _ I)].
Qed.

(** C5: while no thread runs a fiber, whatever the other fibers and processes do,
    its saved CPU state and its local storage stay as they are until its
    process closes the device; and the only step that starts it is a
    successful switch, which loads that CPU state into the switching
    task. *)
Theorem suspended_fiber_frozen n x l x' k f :
  reachable n x -> Z.of_nat n < 2 ^ 31 -> sys_step x l x' ->
  fiber_at (kern x) k = Some f -> flock f = false ->
  match fiber_at (kern x') k with
  | None => exists p t, l = LRelease p /\ tasks x !! p = Some t /\ task_tgid t = k.1
  | Some f' => asleep f f' /\ (flock f' = true -> exists p args t',
      l = LIoctl p IOCTL_SWITCH_TO_FIBER args SUCCESS /\ tasks x' !! p = Some t' /\
      task_regs t' = regs (context f) /\ task_fx t' = fpu (context f))
  end.
Proof.
  intros Hr Hn Hstep Hf Hl.
  destruct (sim_reachable Hmem n x Huaf Hr ltac:(lia)) as (y & Hsim & Hok).
  destruct (sim_step Hmem x l x' y n Huaf Hstep Hsim Hok Hn) as (y' & Ha & Hsim' & _).
  destruct Hsim as (Ht & _ & m & R). destruct Hsim' as (Ht' & _ & m' & R').
  rewrite (view_fiber _ _ _ _ R) in Hf. rewrite (view_fiber _ _ _ _ R').
  destruct Hok as (I & _ & Hnum).
  destruct Ha as [a ts t Hp Hno|a ts p t t' Htp Hpid Htg|a ts p t u cmd args r a' t' u' Htp Hspec|a ts p t r Htp|a ts p t Htp];
    cbn in *.
  - rewrite Hf. split; [done|]. congruence.
  - rewrite Hf. split; [done|]. congruence.
  - pose proof (numbered_room n (task_tgid t) a Hnum Hn) as Hroom.
    destruct (spec_ioctl_asleep _ _ _ _ _ _ _ _ _ _ _ I Hroom Hspec Hf Hl)
      as (f' & Hf' & Has & Hrun).
    rewrite Hf'. split; [done|]. intros Hl'. destruct (Hrun Hl') as (-> & -> & ->).
    exists p, args, (resume f t). split; [done|]. rewrite Ht'. by rewrite lookup_insert_eq.
  - rewrite Hf. split; [done|]. congruence.
  - destruct (filter _ _ !! k) as [f'|] eqn:E.
    + apply map_lookup_filter_Some in E as [E _]. simplify_eq. split; [done|]. congruence.
    + apply map_lookup_filter_None in E as [E|E]; [congruence|].
      exists p, t. split; [done|]. split; [by rewrite Ht|].
      destruct (decide (task_tgid t = k.1)); [done|]. exfalso. apply (E _ Hf). cbn. auto.
Qed.
End runs.
End safety.
