(* ===== verification/Interleave.v ===== *)
(** * Concurrent switches ([do_switch_to_fiber] on several processors)

    System.v runs each request to its end.  Here the threads of one process
    switch at the same time, and their steps interleave at the granularity of
    the accesses to shared memory in [do_switch_to_fiber]: the test-and-set of
    [spin_trylock], each atomic access, each write to a fiber.  The tables are
    fixed (no thread converts or creates meanwhile), so that a lookup by number
    is a lookup in the map [cfibers], whose keys are the fibers' [fid].  [micro] is the next access of a thread that
    is inside the function; user code and calls are the nondeterministic
    steps of [cstep].  The theorems are about every interleaving. *)
From S2P Require Import KState Fiber FiberSpec FiberInv View Requests.

(** ** Where a thread is in do_switch_to_fiber *)
Inductive pc :=
  | User
  | FindNew (next : Z)
  | TryLock (next : Z)
  | CheckState (next : Z) (locked : bool)
  | CountFailure (next : Z)
  | FindOld (next : Z)
  | SetState (next old : Z)
  | CountActivation (next old : Z)
  | SetCurrent (next old : Z)
  | SaveRegs (next old : Z)
  | SaveFx (next old : Z)
  | Account (next old : Z)
  | ClearState (next old : Z)
  | Unlock (next old : Z)
  | LoadRegs (next : Z)
  | LoadFx (next : Z).

(** The number of accesses left, at most. *)
Definition rank (x : pc) : nat :=
  match x with
  | User => 0 | FindNew _ => 14 | TryLock _ => 13 | CheckState _ _ => 12 | CountFailure _ => 1
  | FindOld _ => 11 | SetState _ _ => 10 | CountActivation _ _ => 9 | SetCurrent _ _ => 8
  | SaveRegs _ _ => 7 | SaveFx _ _ => 6 | Account _ _ => 5 | ClearState _ _ => 4
  | Unlock _ _ => 3 | LoadRegs _ => 2 | LoadFx _ => 1
  end.

(** A thread: its CPU, its [current_fid], the value its last call returned. *)
Record cthread := { ctask : task_struct; cfid : Z; cpc : pc; cret : Z }.

Definition goto (x : pc) (t : cthread) : cthread :=
  {| ctask := ctask t; cfid := cfid t; cpc := x; cret := cret t |}.
Definition return_ (r : Z) (t : cthread) : cthread :=
  {| ctask := ctask t; cfid := cfid t; cpc := User; cret := r |}.
Definition run_on (x : task_struct) (t : cthread) : cthread :=
  {| ctask := x; cfid := cfid t; cpc := cpc t; cret := cret t |}.
Definition at_time (u : Z) (x : task_struct) : task_struct :=
  {| task_tgid := task_tgid x; task_pid := task_pid x; utime := u;
     task_regs := task_regs x; task_fx := task_fx x |}.
Definition take_fiber (i : Z) (t : cthread) : cthread :=
  {| ctask := ctask t; cfid := i; cpc := cpc t; cret := cret t |}.

Section interleave.
Context `{K : KernelApi} `{U : !Uninit K}.
Implicit Types (f : fiber K) (h : gmap Z (fiber K)).

Definition count_activation (now : Z) f : fiber K :=
  let i := info f in set_info
    {| name := name i; parent := parent i; state := state i;
       successful_activations := u64 (successful_activations i + 1);
       failed_activations := failed_activations i;
       last_activation_time := now;
       total_running_time := total_running_time i;
       entry_point := entry_point i; param := param i |} f.

Definition with_state (x : Z) f : fiber K := set_info (set_state x (info f)) f.

(** Write fiber [i] and go on. *)
Definition write (i : Z) (w : fiber K -> fiber K) (x : pc) (t : cthread) h
    : option (cthread * gmap Z (fiber K)) :=
  match h !! i with
  | Some f => Some (goto x t, <[i := w f]> h)
  | None => None
  end.

Definition micro (t : cthread) h : option (cthread * gmap Z (fiber K)) :=
  let tsk := ctask t in
  match cpc t with
  | User => None
  | FindNew next =>
      Some (if h !! next is Some _ then goto (TryLock next) t else return_ (- ESRCH) t, h)
  | TryLock next =>
      match h !! next with
      | Some f =>
          Some (goto (CheckState next (negb (flock f))) t,
                if flock f then h else <[next := set_flock true f]> h)
      | None => None
      end
  | CheckState next locked =>
      match h !! next with
      | Some f =>
          Some (if negb locked || negb (state (info f) =? 0) then goto (CountFailure next) t
                else goto (FindOld next) t, h)
      | None => None
      end
  | CountFailure next =>
      match h !! next with
      | Some f => Some (return_ (- EAGAIN) t, <[next := count_failure f]> h)
      | None => None
      end
  | FindOld next =>
      Some (if h !! cfid t is Some _ then goto (SetState next (cfid t)) t
            else return_ (- ESRCH) t, h)
  | SetState next old => write next (with_state (task_pid tsk)) (CountActivation next old) t h
  | CountActivation next old =>
      write next (count_activation (utime tsk)) (SetCurrent next old) t h
  | SetCurrent next old => Some (goto (SaveRegs next old) (take_fiber next t), h)
  | SaveRegs next old => write old (set_regs (task_regs tsk)) (SaveFx next old) t h
  | SaveFx next old => write old (set_fpu (task_fx tsk)) (Account next old) t h
  | Account next old => write old (account_running_time (utime tsk)) (ClearState next old) t h
  | ClearState next old => write old (with_state 0) (Unlock next old) t h
  | Unlock next old => write old (set_flock false) (LoadRegs next) t h
  | LoadRegs next =>
      match h !! next with
      | Some f =>
          Some (goto (LoadFx next) (run_on (set_task_cpu (regs (context f)) (task_fx tsk) tsk) t), h)
      | None => None
      end
  | LoadFx next =>
      match h !! next with
      | Some f =>
          Some (return_ SUCCESS
                  (run_on (set_task_cpu (task_regs tsk) (fpu (context f)) tsk) t), h)
      | None => None
      end
  end.

(** ** The threads of a process *)
Record cstate := { cfibers : gmap Z (fiber K); cthreads : gmap Z cthread }.

Inductive cstep : cstate -> Z -> cstate -> Prop :=
  | c_user h ts p t x :
      ts !! p = Some t -> cpc t = User -> task_pid x = task_pid (ctask t) ->
      cstep {| cfibers := h; cthreads := ts |} p
            {| cfibers := h; cthreads := <[p := run_on x t]> ts |}
  | c_tick h ts p t u :
      ts !! p = Some t ->
      cstep {| cfibers := h; cthreads := ts |} p
            {| cfibers := h; cthreads := <[p := run_on (at_time u (ctask t)) t]> ts |}
  | c_call h ts p t next :
      ts !! p = Some t -> cpc t = User ->
      cstep {| cfibers := h; cthreads := ts |} p
            {| cfibers := h; cthreads := <[p := goto (FindNew next) t]> ts |}
  | c_micro h ts p t t' h' :
      ts !! p = Some t -> micro t h = Some (t', h') ->
      cstep {| cfibers := h; cthreads := ts |} p
            {| cfibers := h'; cthreads := <[p := t']> ts |}.

(** The same steps, executable. *)
Inductive event := EUser (x : task_struct) | ETick (u : Z) | ECall (next : Z) | EAccess.

Definition sched_event (p : Z) (e : event) (c : cstate) : option cstate :=
  match cthreads c !! p with
  | Some t =>
      let on t' h' := {| cfibers := h'; cthreads := <[p := t']> (cthreads c) |} in
      match e, cpc t with
      | EUser x, User =>
          if decide (task_pid x = task_pid (ctask t)) then Some (on (run_on x t) (cfibers c))
          else None
      | ETick u, _ => Some (on (run_on (at_time u (ctask t)) t) (cfibers c))
      | ECall next, User => Some (on (goto (FindNew next) t) (cfibers c))
      | EAccess, _ => if micro t (cfibers c) is Some (t', h') then Some (on t' h') else None
      | _, _ => None
      end
  | None => None
  end.

Fixpoint sched (es : list (Z * event)) (c : cstate) : option cstate :=
  match es with
  | [] => Some c
  | (p, e) :: es => if sched_event p e c is Some c' then sched es c' else None
  end.

(** A call that nothing interrupts, in at most [n] accesses. *)
Fixpoint solo (n : nat) (t : cthread) h : option (cthread * gmap Z (fiber K)) :=
  match cpc t, n with
  | User, _ => Some (t, h)
  | _, O => None
  | _, S n => if micro t h is Some (t', h') then solo n t' h' else None
  end.

(** A process between requests: the ownership invariant of FiberInv.v. *)
Record quiet (c : cstate) : Prop := {
  quiet_user p t : cthreads c !! p = Some t -> cpc t = User /\ task_pid (ctask t) = p /\ 0 < p;
  quiet_current p t : cthreads c !! p = Some t ->
    exists f, cfibers c !! cfid t = Some f /\ flock f = true /\ state (info f) = p;
  quiet_owner i f : cfibers c !! i = Some f -> flock f = true ->
    exists t, cthreads c !! state (info f) = Some t /\ cfid t = i;
  quiet_free i f : cfibers c !! i = Some f -> flock f = false -> state (info f) = 0;
}.

Inductive interleaved : cstate -> cstate -> Prop :=
  | inter_start c : quiet c -> interleaved c c
  | inter_step c0 c p c' : interleaved c0 c -> cstep c p c' -> interleaved c0 c'.

(** ** Ownership *)

(** The fibers a thread holds the lock of. *)
Definition owns (t : cthread) : list Z :=
  match cpc t with
  | User | FindNew _ | TryLock _ | CheckState _ false | CountFailure _ | LoadRegs _ | LoadFx _ =>
      [cfid t]
  | CheckState next true | FindOld next | SetState next _ | CountActivation next _
  | SetCurrent next _ => [cfid t; next]
  | SaveRegs next old | SaveFx next old | Account next old | ClearState next old
  | Unlock next old => [next; old]
  end.

(** The fiber a thread will write next is one it owns; its place in the code
    determines the [state] of the fibers it holds. *)
Definition pc_ok (p : Z) (t : cthread) h : Prop :=
  let st i x := exists f, h !! i = Some f /\ state (info f) = x in
  match cpc t with
  | User | FindNew _ => st (cfid t) p
  | TryLock next | CheckState next false | CountFailure next => st (cfid t) p /\ is_Some (h !! next)
  | CheckState next true | FindOld next => st (cfid t) p /\ st next 0
  | SetState next old => cfid t = old /\ st old p /\ st next 0
  | CountActivation next old | SetCurrent next old => cfid t = old /\ st old p /\ st next p
  | SaveRegs next old | SaveFx next old | Account next old | ClearState next old =>
      cfid t = next /\ st old p /\ st next p
  | Unlock next old => cfid t = next /\ st old 0 /\ st next p
  | LoadRegs next | LoadFx next => cfid t = next /\ st next p
  end.

Record cinv (c : cstate) : Prop := {
  cinv_pid p t : cthreads c !! p = Some t -> task_pid (ctask t) = p /\ 0 < p;
  cinv_pc p t : cthreads c !! p = Some t -> pc_ok p t (cfibers c);
  cinv_nodup p t : cthreads c !! p = Some t -> NoDup (owns t);
  cinv_excl p q t t' i : cthreads c !! p = Some t -> cthreads c !! q = Some t' ->
    i ∈ owns t -> i ∈ owns t' -> p = q;
  cinv_lock i f : cfibers c !! i = Some f ->
    flock f = true <-> (exists p t, cthreads c !! p = Some t /\ i ∈ owns t);
  cinv_free i f : cfibers c !! i = Some f -> flock f = false -> state (info f) = 0;
}.
End interleave.
Arguments cstate K : clear implicits.

(** ** Every step keeps the ownership *)
Section steps.
Context `{K : KernelApi} `{U : !Uninit K}.
Implicit Types (f : fiber K) (h : gmap Z (fiber K)) (c : cstate K).

(** What other threads can rely on about a fiber. *)
Definition same_fiber f f' : Prop :=
  fid f' = fid f /\ flock f' = flock f /\ state (info f') = state (info f) /\
  context f' = context f /\ fls f' = fls f.

Lemma same_fiber_refl f : same_fiber f f.
Proof. done. Qed.

(** A step of thread [p] from [t], [h] to [t'], [h']: it writes only fibers it
    owns before or after (elsewhere it counts failures), takes only free
    fibers, and releases fibers unlocked and with [state] 0. *)
Record okstep (p : Z) (t t' : cthread) h h' : Prop := {
  ok_pid : task_pid (ctask t') = task_pid (ctask t);
  ok_pc : pc_ok p t' h';
  ok_nodup : NoDup (owns t');
  ok_take i : i ∈ owns t' -> i ∈ owns t \/ exists f, h !! i = Some f /\ flock f = false;
  ok_dom i : is_Some (h !! i) <-> is_Some (h' !! i);
  ok_owned i f : i ∈ owns t' -> h' !! i = Some f -> flock f = true;
  ok_released i f : i ∈ owns t -> i ∉ owns t' -> h' !! i = Some f ->
    flock f = false /\ state (info f) = 0;
  ok_other i f : i ∉ owns t -> i ∉ owns t' -> h !! i = Some f ->
    exists f', h' !! i = Some f' /\ same_fiber f f';
}.

Lemma cthread_cases (ts : gmap Z cthread) p q t t' :
  <[p := t']> ts !! q = Some t -> (q = p /\ t = t') \/ (q <> p /\ ts !! q = Some t).
Proof. rewrite lookup_insert. case_decide; intros; simplify_eq; auto. Qed.

(** Another thread's place in the code stays right. *)
Lemma pc_ok_frame q t h h' :
  pc_ok q t h ->
  (forall i, is_Some (h !! i) -> is_Some (h' !! i)) ->
  (forall i f, i ∈ owns t -> h !! i = Some f ->
    exists f', h' !! i = Some f' /\ state (info f') = state (info f)) ->
  pc_ok q t h'.
Proof.
  intros Hok Hdom Hst. unfold pc_ok, owns in *.
  assert (forall i x, i ∈ owns t -> (exists f, h !! i = Some f /\ state (info f) = x) ->
    exists f, h' !! i = Some f /\ state (info f) = x) as H.
  { intros i x Hi (f & Hf & Hx). destruct (Hst i f Hi Hf) as (f' & ? & ?).
    exists f'. split; [done|congruence]. }
  unfold owns in H.
  destruct (cpc t) as [| | |? []| | | | | | | | | | | |]; destruct_and?; split_and?;
    eauto; apply H; set_solver.
Qed.

Lemma cinv_okstep h ts p t t' h' :
  cinv {| cfibers := h; cthreads := ts |} -> ts !! p = Some t -> okstep p t t' h h' ->
  cinv {| cfibers := h'; cthreads := <[p := t']> ts |}.
Proof.
  intros I Ht O. pose proof (cinv_pid _ I p t Ht) as [Hpid Hpos]. cbn in *.
  assert (forall q t0 i, q <> p -> ts !! q = Some t0 -> i ∈ owns t0 ->
    (i ∉ owns t) /\ (i ∉ owns t')) as Hsep.
  { intros q t0 i Hq H0 Hi. assert (i ∉ owns t) as Hno.
    { intros Hi'. apply Hq. by eapply (cinv_excl _ I). }
    split; [done|]. intros Hi'. destruct (ok_take _ _ _ _ _ O i Hi') as [|(f & Hf & Hl)]; [done|].
    assert (flock f = true) by (apply (cinv_lock _ I i f Hf); eauto). congruence. }
  assert (forall i f', h' !! i = Some f' -> i ∉ owns t -> i ∉ owns t' ->
    exists f, h !! i = Some f /\ same_fiber f f') as Hback.
  { intros i f' Hf' H1 H2. destruct (proj2 (ok_dom _ _ _ _ _ O i)) as [f Hf]; [by eexists|].
    exists f. split; [done|]. destruct (ok_other _ _ _ _ _ O i f H1 H2 Hf) as (f2 & ? & ?). congruence. }
  split; cbn.
  - intros q t0 [[-> ->]|[Hq H0]]%cthread_cases; [|by apply (cinv_pid _ I)].
    rewrite (ok_pid _ _ _ _ _ O). done.
  - intros q t0 [[-> ->]|[Hq H0]]%cthread_cases; [apply O|].
    eapply pc_ok_frame; [by apply (cinv_pc _ I)| |].
    + intros i. apply (ok_dom _ _ _ _ _ O).
    + intros i f Hi Hf. destruct (Hsep q t0 i Hq H0 Hi).
      destruct (ok_other _ _ _ _ _ O i f) as (f' & ? & _ & _ & ? & _); eauto.
  - intros q t0 [[-> ->]|[Hq H0]]%cthread_cases; [apply O|by apply (cinv_nodup _ I q)].
  - intros q1 q2 t1 t2 i [[-> ->]|[Hq1 H1]]%cthread_cases [[-> ->]|[Hq2 H2]]%cthread_cases Hi1 Hi2.
    + done.
    + destruct (Hsep q2 t2 i Hq2 H2 Hi2). done.
    + destruct (Hsep q1 t1 i Hq1 H1 Hi1). done.
    + by eapply (cinv_excl _ I).
  - intros i f Hf. destruct (decide (i ∈ owns t')) as [Hin|Hout].
    { split; [|intros _; by eapply ok_owned]. intros _. exists p, t'.
      by rewrite lookup_insert_eq. }
    destruct (decide (i ∈ owns t)) as [Hin'|Hout'].
    { destruct (ok_released _ _ _ _ _ O i f Hin' Hout Hf) as [Hl _]. split; [congruence|].
      intros (q & t0 & [[-> ->]|[Hq H0]]%cthread_cases & Hi); [done|].
      destruct (Hsep q t0 i Hq H0 Hi). done. }
    destruct (Hback i f Hf Hout' Hout) as (f0 & Hf0 & _ & -> & _).
    rewrite (cinv_lock _ I i f0 Hf0). split; intros (q & t0 & H0 & Hi).
    + exists q, t0. split; [|done]. rewrite lookup_insert_ne; [done|]. intros <-. cbn in H0. congruence.
    + apply cthread_cases in H0 as [[-> ->]|[Hq H0]]; [done|]. eauto.
  - intros i f Hf Hl. destruct (decide (i ∈ owns t')) as [Hin|Hout].
    { rewrite (ok_owned _ _ _ _ _ O i f Hin Hf) in Hl. done. }
    destruct (decide (i ∈ owns t)) as [Hin'|Hout'].
    { by apply (ok_released _ _ _ _ _ O i f Hin' Hout Hf). }
    destruct (Hback i f Hf Hout' Hout) as (f0 & Hf0 & _ & El & -> & _).
    apply (cinv_free _ I i f0 Hf0). congruence.
Qed.

(** Where a thread's fibers stand when it is about to step. *)
Record holding (p : Z) (t : cthread) h : Prop := {
  hold_pc : pc_ok p t h;
  hold_nodup : NoDup (owns t);
  hold_locked i f : i ∈ owns t -> h !! i = Some f -> flock f = true;
  hold_free i f : h !! i = Some f -> flock f = false -> state (info f) = 0;
}.

Lemma cinv_holding c p t : cinv c -> cthreads c !! p = Some t -> holding p t (cfibers c).
Proof.
  intros I Ht. split; [by apply I|by eapply cinv_nodup| |by apply I].
  intros i f Hi Hf. apply (cinv_lock _ I i f Hf). eauto.
Qed.

(** A step that keeps the locks and writes only an owned fiber, or counts. *)
Lemma okstep_update p t t' h i f f' :
  holding p t h -> h !! i = Some f -> (i ∈ owns t /\ flock f' = flock f \/ same_fiber f f') ->
  task_pid (ctask t') = task_pid (ctask t) -> owns t' ≡ₚ owns t -> pc_ok p t' (<[i := f']> h) ->
  okstep p t t' h (<[i := f']> h).
Proof.
  intros H Hi Hw Hpid Hown Hpc. split; auto.
  - rewrite Hown. apply H.
  - intros j. rewrite Hown. auto.
  - intros j. rewrite lookup_insert_is_Some'. split; [by right|]. by intros [<-|?]; [eexists|].
  - intros j g. rewrite Hown, lookup_insert. intros Hj. case_decide; [|by apply H].
    intros [= <-]. subst j. destruct Hw as [[_ ->]|(_ & -> & _)]; by eapply hold_locked.
  - intros j g Hj Hj'. by rewrite Hown in Hj'.
  - intros j g Hj _ Hg. rewrite lookup_insert. case_decide; [|by exists g].
    subst j. simplify_eq. exists f'. split; [done|]. destruct Hw as [[? _]|?]; [done|done].
Qed.

Lemma okstep_keep p t t' h :
  holding p t h -> task_pid (ctask t') = task_pid (ctask t) -> owns t' ≡ₚ owns t ->
  pc_ok p t' h -> okstep p t t' h h.
Proof.
  intros H Hpid Hown Hpc. split; auto.
  - rewrite Hown. apply H.
  - intros j. rewrite Hown. auto.
  - intros j g. rewrite Hown. apply H.
  - intros j g Hj Hj'. by rewrite Hown in Hj'.
  - intros j g _ _ Hg. by exists g.
Qed.

(** The test-and-set of a free fiber. *)
Lemma okstep_lock p t next h f :
  holding p t h -> cpc t = TryLock next -> h !! next = Some f -> flock f = false ->
  okstep p t (goto (CheckState next true) t) h (<[next := set_flock true f]> h).
Proof.
  intros H Hpc Hf Hl. pose proof (hold_pc _ _ _ H) as Hok. unfold pc_ok in Hok. rewrite Hpc in Hok.
  destruct Hok as [(o & Ho & Hst) _].
  assert (forall j, j ∈ owns t <-> j = cfid t) as Hown.
  { intros j. unfold owns. rewrite Hpc. set_solver. }
  assert (cfid t <> next) as Hne.
  { intros <-. rewrite (hold_locked _ _ _ H (cfid t) f) in Hl; [done|by apply Hown|done]. }
  split; cbn; auto.
  - split; [exists o; by rewrite lookup_insert_ne|].
    exists (set_flock true f). rewrite lookup_insert_eq. split; [done|]. by apply (hold_free _ _ _ H next f).
  - repeat constructor; set_solver.
  - intros j Hj. rewrite Hown. unfold owns in Hj. cbn in Hj.
    assert (j = cfid t \/ j = next) as [->| ->] by set_solver; eauto.
  - intros j. rewrite lookup_insert_is_Some'. split; [by right|]. by intros [<-|?]; [eexists|].
  - intros j g Hj. rewrite lookup_insert. case_decide; [by intros [= <-]|].
    intros Hg. apply (hold_locked _ _ _ H j); [|done]. apply Hown.
    unfold owns in Hj. cbn in Hj. set_solver.
  - intros j g Hj Hj'. apply Hown in Hj as ->. unfold owns in Hj'. cbn in Hj'. set_solver.
  - intros j g _ Hj' Hg. exists g. split; [|done]. rewrite lookup_insert_ne; [done|].
    unfold owns in Hj'. cbn in Hj'. set_solver.
Qed.

(** The release of the old fiber. *)
Lemma okstep_unlock p t next old h f :
  holding p t h -> cpc t = Unlock next old -> h !! old = Some f ->
  okstep p t (goto (LoadRegs next) t) h (<[old := set_flock false f]> h).
Proof.
  intros H Hpc Hf. pose proof (hold_pc _ _ _ H) as Hok. pose proof (hold_nodup _ _ _ H) as Hnd.
  unfold pc_ok in Hok. unfold owns in Hnd. rewrite Hpc in Hok, Hnd.
  destruct Hok as (Hc & (o & Ho & Hst) & (n & Hn & Hsn)).
  assert (o = f) as -> by congruence.
  assert (forall j, j ∈ owns t <-> j = next \/ j = old) as Hown.
  { intros j. unfold owns. rewrite Hpc. set_solver. }
  assert (forall j, j ∈ owns (goto (LoadRegs next) t) <-> j = next) as Hown'.
  { intros j. unfold owns. cbn. rewrite Hc. set_solver. }
  apply NoDup_cons in Hnd as [Hne%not_elem_of_cons _]. destruct Hne as [Hne _].
  split; cbn; auto.
  - split; [done|]. exists n. by rewrite lookup_insert_ne.
  - unfold owns. cbn. repeat constructor; set_solver.
  - intros j. rewrite Hown', Hown. auto.
  - intros j. rewrite lookup_insert_is_Some'. split; [by right|]. by intros [<-|?]; [eexists|].
  - intros j g Hj%Hown'. subst j. rewrite lookup_insert_ne by done.
    apply (hold_locked _ _ _ H). apply Hown. auto.
  - intros j g Hj Hj'. rewrite Hown' in Hj'. apply Hown in Hj as [->| ->]; [done|].
    rewrite lookup_insert_eq. by intros [= <-].
  - intros j g Hj _ Hg. exists g. split; [|done]. rewrite Hown in Hj. rewrite lookup_insert_ne; [done|].
    intros <-. auto.
Qed.

(** A write to an owned fiber that leaves its lock. *)
Lemma okstep_write p t t' h h' i w x :
  holding p t h -> write i w x t h = Some (t', h') -> i ∈ owns t ->
  (forall f, flock (w f) = flock f) -> owns (goto x t) ≡ₚ owns t ->
  (forall f, h !! i = Some f -> pc_ok p (goto x t) (<[i := w f]> h)) ->
  okstep p t t' h h'.
Proof.
  unfold write. destruct (h !! i) as [f|] eqn:Hi; intros H Hw Hown Hl Hx Hpc; simplify_eq.
  eapply okstep_update; eauto.
Qed.

(** The fibers of [pc_ok] in an updated map. *)
Lemma state_after h i f j x :
  (j <> i /\ exists g, h !! j = Some g /\ state (info g) = x) \/ (j = i /\ state (info f) = x) ->
  exists g, <[i := f]> h !! j = Some g /\ state (info g) = x.
Proof.
  intros [[Hne (g & Hg & Hx)]|[-> Hx]].
  - exists g. by rewrite lookup_insert_ne.
  - exists f. by rewrite lookup_insert_eq.
Qed.

Lemma NoDup_pair (i j : Z) : NoDup [i; j] -> i <> j.
Proof. intros [Hn%not_elem_of_cons _]%NoDup_cons. by destruct Hn. Qed.

(** Every access is such a step. *)
Lemma micro_okstep p t t' h h' :
  holding p t h -> task_pid (ctask t) = p -> micro t h = Some (t', h') -> okstep p t t' h h'.
Proof.
  intros H Hp Hm. pose proof (hold_pc _ _ _ H) as Hok. pose proof (hold_nodup _ _ _ H) as Hnd.
  unfold micro in Hm.
  destruct (cpc t) as [ | n | n | n [] | n | n | n o | n o | n o | n o | n o | n o | n o | n o | n | n ]
    eqn:E; repeat case_match; simplify_eq.
  all: try (by apply okstep_lock).
  all: unfold pc_ok, owns in Hok, Hnd; rewrite E in Hok, Hnd; cbn in Hok, Hnd; destruct_and?;
    try apply NoDup_pair in Hnd; simplify_eq.
  all: try (apply okstep_keep;
    [done|done|unfold owns; rewrite E; cbn; by try apply perm_swap|by unfold pc_ok; cbn; eauto]).
  all: try (eapply okstep_write;
    [done|done|unfold owns; rewrite E; set_solver|done|by unfold owns; rewrite E|];
    intros f Hf; unfold pc_ok; cbn; split_and?; try done; apply state_after; naive_solver).
  - destruct H3 as (g & Hg & Hs). simplify_eq. by rewrite Hs in H1.
  - eapply okstep_update; [done|done|by right|done|by unfold owns; rewrite E|].
    destruct H1 as (g & Hg & Hs). unfold pc_ok; cbn. apply state_after.
    destruct (decide (cfid t = n)) as [En|]; [right|left; eauto].
    rewrite En in Hg. by simplify_eq.
  - destruct H1 as (g & Hg & _). congruence.
  - unfold write in Hm. destruct (h !! o) as [f|] eqn:Hf; simplify_eq. by apply okstep_unlock.
Qed.

(** What a thread does by itself in its own CPU. *)
Lemma task_okstep p t t' h :
  holding p t h -> cfid t' = cfid t -> cpc t' = cpc t -> task_pid (ctask t') = task_pid (ctask t) ->
  okstep p t t' h h.
Proof.
  intros H Ef Ec Ep. pose proof (hold_pc _ _ _ H).
  apply okstep_keep; [done|done| |]; unfold owns, pc_ok in *; by rewrite Ec, Ef.
Qed.

Lemma call_okstep p t next h :
  holding p t h -> cpc t = User -> okstep p t (goto (FindNew next) t) h h.
Proof.
  intros H E. pose proof (hold_pc _ _ _ H) as Hok.
  apply okstep_keep; [done|done| |]; unfold owns, pc_ok in *; rewrite E in *; done.
Qed.

(** A step of the program, as a step of one thread. *)
Lemma cstep_okstep c p c' :
  cinv c -> cstep c p c' ->
  exists t t', cthreads c !! p = Some t /\ cthreads c' = <[p := t']> (cthreads c) /\
    okstep p t t' (cfibers c) (cfibers c').
Proof.
  intros I Hs. destruct Hs as [h ts p t x Ht E Hx|h ts p t u Ht|h ts p t next Ht E|h ts p t t' h' Ht Hm];
    eexists t, _; (split; [exact Ht|]); (split; [reflexivity|]);
    pose proof (cinv_holding _ p t I Ht) as H; cbn in *.
  - by apply task_okstep.
  - by apply task_okstep.
  - by apply call_okstep.
  - apply micro_okstep; [done|by apply (cinv_pid _ I)|done].
Qed.

Lemma cinv_step c p c' : cinv c -> cstep c p c' -> cinv c'.
Proof.
  intros I Hs. destruct (cstep_okstep c p c' I Hs) as (t & t' & Ht & E & O).
  destruct c, c'; cbn in *; subst. by eapply cinv_okstep.
Qed.

Lemma cinv_quiet c : quiet c -> cinv c.
Proof.
  intros Q. assert (forall p t, cthreads c !! p = Some t -> owns t = [cfid t]) as Hown.
  { intros p t Ht. unfold owns. by destruct (quiet_user _ Q p t Ht) as [-> _]. }
  split.
  - intros p t Ht. by apply (quiet_user _ Q).
  - intros p t Ht. unfold pc_ok. destruct (quiet_user _ Q p t Ht) as [-> _].
    destruct (quiet_current _ Q p t Ht) as (f & ? & _ & ?). by exists f.
  - intros p t Ht. rewrite (Hown p t Ht). repeat constructor. set_solver.
  - intros p q t t' i Ht Ht'. rewrite (Hown p t Ht), (Hown q t' Ht').
    intros ->%list_elem_of_singleton E%list_elem_of_singleton.
    destruct (quiet_current _ Q p t Ht) as (f & Hf & _ & ?).
    destruct (quiet_current _ Q q t' Ht') as (f' & Hf' & _ & ?). congruence.
  - intros i f Hf. split.
    + intros Hl. destruct (quiet_owner _ Q i f Hf Hl) as (t & Ht & <-).
      eexists _, t. split; [exact Ht|]. rewrite (Hown _ t Ht). set_solver.
    + intros (p & t & Ht & Hi). rewrite (Hown p t Ht) in Hi.
      apply list_elem_of_singleton in Hi as ->.
      destruct (quiet_current _ Q p t Ht) as (f' & ? & ? & _). congruence.
  - apply (quiet_free _ Q).
Qed.

Lemma cinv_interleaved c c' : interleaved c c' -> cinv c'.
Proof. induction 1; [by apply cinv_quiet|by eapply cinv_step]. Qed.

(** The scheduler makes steps of the relation. *)
Lemma sched_event_sound p e c c' : sched_event p e c = Some c' -> cstep c p c'.
Proof.
  destruct c as [h ts]. unfold sched_event. cbn.
  destruct (ts !! p) as [t|] eqn:Ht; [|done].
  destruct e as [x|u|next|].
  - destruct (cpc t) eqn:E; try done. case_decide; [|done]. intros [= <-]. by apply c_user.
  - assert (cstep {| cfibers := h; cthreads := ts |} p
      {| cfibers := h; cthreads := <[p := run_on (at_time u (ctask t)) t]> ts |}) by exact (c_tick h ts p t u Ht).
    destruct (cpc t); by intros [= <-].
  - destruct (cpc t) eqn:E; try done. intros [= <-]. by apply c_call.
  - assert (forall o, (if micro t h is Some (t', h')
        then Some {| cfibers := h'; cthreads := <[p := t']> ts |} else None) = Some o ->
      cstep {| cfibers := h; cthreads := ts |} p o).
    { intros o. destruct (micro t h) as [[t' h']|] eqn:E; [|done]. intros [= <-]. by apply (c_micro h ts p t). }
    destruct (cpc t); auto.
Qed.

Lemma sched_interleaved es : forall c0 c c',
  interleaved c0 c -> sched es c = Some c' -> interleaved c0 c'.
Proof.
  induction es as [|[p e] es IH]; cbn; intros c0 c c' Hr H; [by simplify_eq|].
  destruct (sched_event p e c) as [c1|] eqn:E; [|done].
  eapply IH; [|exact H]. econstructor; [exact Hr|by eapply sched_event_sound].
Qed.

(** The fiber a thread is on is one it owns. *)
Lemma current_owned p t h : pc_ok p t h -> cfid t ∈ owns t.
Proof.
  unfold pc_ok, owns. destruct (cpc t) as [| | |? []| | | | | | | | | | | |];
    intros H; destruct_and?; set_solver.
Qed.

Lemma owned_exists p t h i : pc_ok p t h -> i ∈ owns t -> is_Some (h !! i).
Proof.
  assert (forall j x, (exists f, h !! j = Some f /\ state (info f) = x) -> is_Some (h !! j)) as Hst.
  { intros j x (f & ? & _). by exists f. }
  unfold pc_ok, owns. intros H Hi.
  destruct (cpc t) as [| | |? []| | | | | | | | | | | |]; destruct_and?; subst;
    repeat (apply elem_of_cons in Hi as [->|Hi]; [by eauto|]); by apply not_elem_of_nil in Hi.
Qed.

(** With no call in progress the ownership is that between requests. *)
Lemma cinv_all_user c : cinv c -> (forall p t, cthreads c !! p = Some t -> cpc t = User) -> quiet c.
Proof.
  intros I Hu. assert (forall p t, cthreads c !! p = Some t ->
    exists f, cfibers c !! cfid t = Some f /\ flock f = true /\ state (info f) = p) as Hcur.
  { intros p t Ht. pose proof (cinv_pc _ I p t Ht) as Hok. unfold pc_ok in Hok.
    rewrite (Hu p t Ht) in Hok. destruct Hok as (f & Hf & Hst). exists f. split; [done|].
    split; [|done]. apply (cinv_lock _ I _ f Hf). exists p, t. split; [done|].
    by eapply current_owned, (cinv_pc _ I). }
  split.
  - intros p t Ht. split; [by eapply Hu|by apply (cinv_pid _ I)].
  - done.
  - intros i f Hf Hl. apply (cinv_lock _ I i f Hf) in Hl as (p & t & Ht & Hi).
    unfold owns in Hi. rewrite (Hu p t Ht) in Hi. apply list_elem_of_singleton in Hi as ->.
    destruct (Hcur p t Ht) as (f' & Hf' & _ & Hst). exists t. split; [|done]. congruence.
  - apply (cinv_free _ I).
Qed.

(** Inside the call there is always a next access, and it makes progress. *)
Lemma micro_total p t h : pc_ok p t h -> cpc t <> User -> is_Some (micro t h).
Proof.
  unfold pc_ok, micro, write. intros H Hin.
  destruct (cpc t) as [| | |? []| | | | | | | | | | | |]; try done;
    repeat match goal with H : _ /\ _ |- _ => destruct H | H : ex _ |- _ => destruct H
      | H : is_Some _ |- _ => destruct H end;
    repeat case_match; try congruence; eauto.
Qed.

Lemma micro_rank t h t' h' : micro t h = Some (t', h') -> (rank (cpc t') < rank (cpc t))%nat.
Proof.
  unfold micro, write. destruct (cpc t); repeat case_match; intros; simplify_eq; cbn; lia.
Qed.
End steps.
