(* ===== verification/Concurrent.v ===== *)
(** * Concurrent switches: what holds in every interleaving

    The theorems about the model of Interleave.v: the threads of a process
    never share a fiber, none is disturbed by the others, every call returns,
    and when no call is in progress the ownership invariant of FiberInv.v
    holds.  A call that nothing interrupts does what the sequential
    [do_switch_to_fiber] of Fiber.v does. *)
From S2P Require Import KState Fiber FiberSpec FiberRefine FiberInv View Requests Interleave.

Section concurrent.
Context `{K : KernelApi} `{U : !Uninit K}.
Implicit Types (f : fiber K) (h : gmap Z (fiber K)) (c : cstate K).

(** C6: however the switches of the threads of a process interleave, two
    threads never own the same fiber: they run different fibers, and the
    fiber one is switching to is neither run nor being switched to by
    another. *)
Theorem concurrent_exclusive c0 c p q t t' i :
  interleaved c0 c -> cthreads c !! p = Some t -> cthreads c !! q = Some t' -> p <> q ->
  i ∈ owns t -> (i ∉ owns t') /\ cfid t <> cfid t' /\
  exists f, cfibers c !! i = Some f /\ flock f = true.
Proof.
  intros Hr%cinv_interleaved Ht Ht' Hpq Hi.
  assert (forall j, j ∈ owns t -> j ∈ owns t' -> False) as Hno.
  { intros j H1 H2. apply Hpq. by apply (cinv_excl _ Hr p q t t' j). }
  split; [intros Hi'; by apply (Hno i)|]. split.
  - intros E. apply (Hno (cfid t)); [by eapply current_owned, (cinv_pc _ Hr)|].
    rewrite E. by eapply current_owned, (cinv_pc _ Hr).
  - destruct (owned_exists p t (cfibers c) i) as [f Hf]; [by apply (cinv_pc _ Hr)|done|].
    exists f. split; [done|]. apply (cinv_lock _ Hr i f Hf). eauto.
Qed.

(** While a thread owns a fiber, no step of another thread touches
    what it holds: its lock, its owner mark, its saved CPU state and its
    local storage stay; only its count of failed activations may grow. *)
Theorem concurrent_frozen c0 c c' p q t i f :
  interleaved c0 c -> cthreads c !! p = Some t -> i ∈ owns t -> cfibers c !! i = Some f ->
  cstep c q c' -> q <> p ->
  cthreads c' !! p = Some t /\ exists f', cfibers c' !! i = Some f' /\
    flock f' = true /\ state (info f') = state (info f) /\
    context f' = context f /\ fls f' = fls f.
Proof.
  intros Hr%cinv_interleaved Ht Hi Hf Hs Hq.
  destruct (cstep_okstep _ _ _ Hr Hs) as (u & u' & Hu & E & O).
  assert (flock f = true) as Hl by (apply (cinv_lock _ Hr i f Hf); eauto).
  split; [by rewrite E, lookup_insert_ne|].
  assert (i ∉ owns u) as Hn by (intros Hi'; apply Hq; by apply (cinv_excl _ Hr q p u t i)).
  destruct (ok_other _ _ _ _ _ O i f) as (f' & Hf' & _ & ? & ? & ? & ?).
  - done.
  - intros Hi'. destruct (ok_take _ _ _ _ _ O i Hi') as [|(g & Hg & ?)]; [done|congruence].
  - done.
  - exists f'. split; [done|]. by split; [congruence|].
Qed.

(** C9: a call to switch returns whatever the other threads do: it can
    always make its next access, and each of its own accesses brings it
    nearer to its return ([rank] starts at 14 and is 0 outside the call),
    while the others' steps leave it where it is. *)
Theorem concurrent_wait_free c0 c p t :
  interleaved c0 c -> cthreads c !! p = Some t -> cpc t <> User ->
  (exists c', cstep c p c' /\ exists t', cthreads c' !! p = Some t' /\
     (rank (cpc t') < rank (cpc t) <= 14)%nat) /\
  (forall t' h', micro t (cfibers c) = Some (t', h') -> (rank (cpc t') < rank (cpc t))%nat) /\
  (forall c' q, cstep c q c' -> q <> p -> cthreads c' !! p = Some t).
Proof.
  intros Hr%cinv_interleaved Ht Hin.
  assert (forall t' h', micro t (cfibers c) = Some (t', h') -> (rank (cpc t') < rank (cpc t))%nat) as Hrank.
  { intros t' h'. apply micro_rank. }
  split; [|split; [done|]].
  - destruct (micro_total p t (cfibers c)) as ([t' h'] & Hm); [by apply (cinv_pc _ Hr)|done|].
    destruct c as [h ts]. cbn in *. eexists. split; [by eapply c_micro|].
    exists t'. split; [by apply lookup_insert_eq|]. split; [by eapply Hrank|]. by destruct (cpc t); cbn; lia.
  - intros c' q Hs Hq. destruct (cstep_okstep _ _ _ Hr Hs) as (u & u' & Hu & E & _).
    by rewrite E, lookup_insert_ne.
Qed.

(** C7: when no call is in progress, nothing of the races is left: each
    thread runs a locked fiber marked with it, every locked fiber is run by
    the thread it is marked with, and the others are free; no failed switch
    leaks a lock. *)
Theorem concurrent_quiescent c0 c :
  interleaved c0 c -> (forall p t, cthreads c !! p = Some t -> cpc t = User) -> quiet c.
Proof. intros Hr%cinv_interleaved Hu. by apply cinv_all_user. Qed.
End concurrent.

(** ** A call that nothing interrupts *)
Section sequential.
Context `{K : KernelApi} `{L : !KernelLaws K} `{U : !Uninit K}.
Implicit Types (s : kstate K) (f o : fiber K) (h : gmap Z (fiber K)).

(** The caller of [s], at the start of the call. *)
Definition entering s (old next : Z) : cthread :=
  {| ctask := current s; cfid := old; cpc := FindNew next; cret := 0 |}.

Lemma solo_access n x i a r h :
  solo (S n) {| ctask := x; cfid := i; cpc := a; cret := r |} h =
    match a with
    | User => Some ({| ctask := x; cfid := i; cpc := a; cret := r |}, h)
    | _ => if micro {| ctask := x; cfid := i; cpc := a; cret := r |} h is Some (t', h')
           then solo n t' h' else None
    end.
Proof. by destruct a. Qed.

Ltac access :=
  rewrite solo_access; unfold micro, write, goto, return_, run_on, take_fiber;
  cbn [cpc cfid ctask cret].

(** The accesses of a call, run one after the other. *)
Lemma solo_missing s old next h :
  h !! next = None ->
  solo 14 (entering s old next) h = Some (return_ (- ESRCH) (entering s old next), h).
Proof. intros Hn. unfold entering. access. by rewrite Hn. Qed.

Lemma solo_busy s old next h f :
  h !! next = Some f -> flock f = true ->
  solo 14 (entering s old next) h =
    Some (return_ (- EAGAIN) (entering s old next), <[next := count_failure f]> h).
Proof.
  intros Hn Hl. unfold entering. access. rewrite Hn. access. rewrite Hn, Hl. cbn [negb].
  access. rewrite Hn. cbn [negb orb]. access. by rewrite Hn.
Qed.

Lemma solo_free s old next h f o :
  h !! next = Some f -> h !! old = Some o -> old <> next -> flock f = false -> state (info f) = 0 ->
  solo 14 (entering s old next) h =
    Some ({| ctask := resume f (current s); cfid := next; cpc := User; cret := SUCCESS |},
      <[old := suspend (current s) o]>
        (<[next := activate (task_pid (current s)) (utime (current s)) (set_flock true f)]> h)).
Proof.
  intros Hn Ho Hne Hl Hs. unfold entering.
  assert (forall g, <[next := g]> h !! old = Some o) as Ho' by (intros; by rewrite lookup_insert_ne).
  assert (forall g g', <[old := g]> (<[next := g']> h) !! next = Some g') as Hn'.
  { intros. rewrite lookup_insert_ne by done. apply lookup_insert_eq. }
  access. rewrite Hn. access. rewrite Hn, Hl. cbn [negb]. access. rewrite lookup_insert_eq.
  change (state (info (set_flock true f))) with (state (info f)). rewrite Hs. cbn [negb orb Z.eqb].
  access. rewrite Ho'.
  do 2 (access; rewrite lookup_insert_eq, insert_insert_eq). access. access. rewrite Ho'.
  do 4 (access; rewrite lookup_insert_eq, insert_insert_eq). do 2 (access; rewrite Hn').
  reflexivity.
Qed.

Lemma run_switch_missing s next :
  consistent s -> fiber_at s (task_tgid (current s), next) = None ->
  exists s', do_switch_to_fiber (current s) next s = Ret (- ESRCH, s') /\
    current s' = current s /\ (forall k, thread_at s' k = thread_at s k) /\
    (forall k, fiber_at s' k = fiber_at s k).
Proof.
  intros Hs Hn. destruct (run_switch s next Hs) as (a & (_ & _ & T & F) & I & H).
  assert (spec_switch (current s) next a = (- ESRCH, a, current s)) as E.
  { unfold spec_switch. rewrite F in Hn. rewrite Hn. by destruct (athreads a !! _). }
  rewrite E in H. destruct H as (s' & Hrun & (_ & _ & T' & F') & Hc & _).
  exists s'. split; [done|]. split; [done|]. by split; intros; rewrite ?T', ?T, ?F', ?F.
Qed.

Lemma consistent_free s k f :
  consistent s -> fiber_at s k = Some f -> flock f = false -> state (info f) = 0.
Proof.
  intros (a & (_ & _ & _ & F) & I)%consistent_holds. rewrite F. apply (inv_free _ I).
Qed.

(** C10: the accesses of a switch that no other thread's accesses
    interrupt, run one after the other on the fibers of the caller's
    process, end within 14 of them and do what the sequential
    [do_switch_to_fiber] does: same result, same CPU state, same current
    fiber, same fibers. *)
Theorem switch_sequential s old next h :
  consistent s -> thread_at s (caller s) = Some old ->
  (forall i, h !! i = fiber_at s (task_tgid (current s), i)) ->
  exists t' h' s', solo 14 (entering s old next) h = Some (t', h') /\
    do_switch_to_fiber (current s) next s = Ret (cret t', s') /\
    current s' = ctask t' /\ thread_at s' (caller s) = Some (cfid t') /\
    forall i, fiber_at s' (task_tgid (current s), i) = h' !! i.
Proof.
  intros Hs Ht Hh. pose proof (Hh next) as Hn. symmetry in Hn.
  destruct (h !! next) as [f|] eqn:Hf.
  2: { destruct (run_switch_missing s next Hs Hn) as (s' & Hrun & Hc & HT & HF).
    eexists _, h, s'. split; [by apply solo_missing|]. split; [exact Hrun|]. split; [exact Hc|].
    split; [by rewrite HT|]. intros i. by rewrite HF, Hh. }
  destruct (flock f) eqn:Hl.
  - destruct (run_switch_busy s old next f Hs Ht Hn Hl) as (s' & Hrun & _ & [Hc _] & Hf' & _ & HT & HF).
    eexists _, _, s'. split; [by apply solo_busy|]. split; [exact Hrun|]. split; [exact Hc|].
    split; [by rewrite HT|]. intros i. rewrite lookup_insert. case_decide as Hi.
    + subst i. exact Hf'.
    + rewrite HF, Hh; [done|congruence].
  - destruct (run_switch_free s old next f Hs Ht Hn Hl)
      as (Hne & o & s' & Ho & Hrun & _ & Hc & _ & HT & Hn' & Ho' & _ & _ & HF).
    rewrite <- Hh in Ho. eexists _, _, s'.
    split; [apply solo_free; [done..|by eapply consistent_free]|].
    split; [exact Hrun|]. split; [exact Hc|]. split; [exact HT|]. intros i.
    rewrite lookup_insert. case_decide as Hi; [subst i; exact Ho'|].
    rewrite lookup_insert. case_decide as Hi'; [subst i; exact Hn'|].
    rewrite HF, Hh; [done|congruence..].
Qed.
End sequential.
