(* ===== verification/Continuation.v ===== *)
(** * What a fiber goes on with, while its process's threads switch

    The registers a fiber goes on with are in the CPU of the thread that runs
    it, or in its [context]; a switch moves them from one to the other, a
    little before or after it moves the fiber itself, and the FX state apart
    from the registers.  [regs_in] and [fx_in] say which fiber the two parts
    of a CPU belong to at each place of [do_switch_to_fiber].  However the
    accesses of the threads interleave, no step but the user code of a fiber
    changes what it goes on with: a thread that switches to a fiber goes on
    with the registers the last thread that left it had there. *)
From S2P Require Import KState Fiber FiberSpec FiberInv View Requests Interleave.

(** The fiber whose registers are in the thread's CPU. *)
Definition regs_in (t : cthread) : option Z :=
  match cpc t with
  | SaveRegs _ old => Some old
  | SaveFx _ _ | Account _ _ | ClearState _ _ | Unlock _ _ | LoadRegs _ => None
  | _ => Some (cfid t)
  end.

(** The fiber whose FX state is in the thread's CPU. *)
Definition fx_in (t : cthread) : option Z :=
  match cpc t with
  | SaveRegs _ old | SaveFx _ old => Some old
  | Account _ _ | ClearState _ _ | Unlock _ _ | LoadRegs _ | LoadFx _ => None
  | _ => Some (cfid t)
  end.

Section kept.
Context `{K : KernelApi} `{U : !Uninit K}.
Implicit Types (f : fiber K) (h : gmap Z (fiber K)) (c : cstate K).

(** User code runs on fiber [i]. *)
Definition user_on (i p : Z) (e : event) c : bool :=
  match e, cthreads c !! p with
  | EUser _, Some t => cfid t =? i
  | _, _ => false
  end.

(** No step of a schedule is user code on fiber [i]. *)
Fixpoint unused (i : Z) (es : list (Z * event)) c : bool :=
  match es with
  | [] => true
  | (p, e) :: es =>
      negb (user_on i p e c) && (if sched_event p e c is Some c' then unused i es c' else true)
  end.

(** Outside the calls: fiber [i] is run with registers [r] and FX state [x],
    or is free and has them saved. *)
Definition goes_on_with c (i : Z) (r : pt_regs) (x : list Z) : Prop :=
  (exists p t, cthreads c !! p = Some t /\ cpc t = User /\ cfid t = i /\
    task_regs (ctask t) = r /\ task_fx (ctask t) = x) \/
  (exists f, cfibers c !! i = Some f /\ flock f = false /\
    regs (context f) = r /\ fpu (context f) = x).
End kept.

(** ** One part of the CPU state *)
Section part.
Context `{K : KernelApi} `{U : !Uninit K}.
Implicit Types (f : fiber K) (h : gmap Z (fiber K)) (c : cstate K).
Context {A : Type} (kept_for : cthread -> option Z) (cpu : task_struct -> A) (saved : fiber K -> A).

(** Fiber [i] has the value [v]: in the CPU of one thread, or saved. *)
Definition kept_at c (i : Z) (v : A) : Prop :=
  (exists p t, cthreads c !! p = Some t /\ kept_for t = Some i /\ cpu (ctask t) = v) \/
  ((forall p t, cthreads c !! p = Some t -> kept_for t <> Some i) /\
   exists f, cfibers c !! i = Some f /\ saved f = v).

(** A step of one thread that keeps the value of fiber [i] or moves it. *)
Record moves (i : Z) (t t' : cthread) h h' : Prop := {
  mv_carried : kept_for t = Some i ->
    kept_for t' = Some i /\ cpu (ctask t') = cpu (ctask t) \/
    kept_for t' <> Some i /\ exists f, h' !! i = Some f /\ saved f = cpu (ctask t);
  mv_stored f : kept_for t <> Some i -> h !! i = Some f ->
    kept_for t' = Some i /\ cpu (ctask t') = saved f \/
    kept_for t' <> Some i /\ exists f', h' !! i = Some f' /\ saved f' = saved f;
}.

(** The part is that of a fiber the thread has locked. *)
Hypothesis kept_owned : forall p t h i, pc_ok p t h -> kept_for t = Some i -> i ∈ owns t.

Lemma kept_one c p q t u i :
  cinv c -> cthreads c !! p = Some t -> cthreads c !! q = Some u ->
  kept_for t = Some i -> kept_for u = Some i -> p = q.
Proof.
  intros I Ht Hu Hi Hj. apply (cinv_excl _ I p q t u i Ht Hu); eapply kept_owned; eauto;
    by eapply (cinv_pc _ I).
Qed.

Lemma kept_at_moves c c' p t t' i v :
  cinv c -> cthreads c !! p = Some t -> cthreads c' = <[p := t']> (cthreads c) ->
  moves i t t' (cfibers c) (cfibers c') -> kept_at c i v -> kept_at c' i v.
Proof.
  intros I Ht E M. unfold kept_at. rewrite E.
  assert (cpu (ctask t') = v -> kept_for t' = Some i -> exists q u,
    <[p := t']> (cthreads c) !! q = Some u /\ kept_for u = Some i /\ cpu (ctask u) = v) as Hin.
  { intros Hv Hi. exists p, t'. by rewrite lookup_insert_eq. }
  intros [(q & u & Hu & Hi & Hv)|[Hno (f & Hf & Hv)]].
  - destruct (decide (q = p)) as [->|Hq]; [|left; exists q, u; by rewrite lookup_insert_ne].
    assert (u = t) as -> by congruence. destruct (mv_carried _ _ _ _ _ M Hi) as [[Hi' Ec]|[Hi' (f & Hf & Es)]].
    + left. apply Hin; [congruence|done].
    + right. split; [|exists f; split; [done|congruence]].
      intros q w [[-> ->]|[Hq Hw]]%cthread_cases; [done|]. intros Hw'. by apply Hq, (kept_one c q p w t i).
  - destruct (mv_stored _ _ _ _ _ M f (Hno p t Ht) Hf) as [[Hi' Ec]|[Hi' (f' & Hf' & Es)]].
    + left. apply Hin; [congruence|done].
    + right. split; [|exists f'; split; [done|congruence]].
      intros q w [[-> ->]|[Hq Hw]]%cthread_cases; [done|]. by apply (Hno q).
Qed.

Lemma kept_in_cpu c i v p t :
  cinv c -> kept_at c i v -> cthreads c !! p = Some t -> kept_for t = Some i -> cpu (ctask t) = v.
Proof.
  intros I [(q & u & Hu & Hi & <-)|[Hno _]] Ht Hk; [|by destruct (Hno p t Ht)].
  assert (q = p) as -> by (by eapply (kept_one c q p u t i)). congruence.
Qed.

(** The part of an unlocked fiber is saved. *)
Lemma unlocked_unkept c i f p t :
  cinv c -> cfibers c !! i = Some f -> flock f = false -> cthreads c !! p = Some t ->
  kept_for t <> Some i.
Proof.
  intros I Hf Hl Ht Hi. assert (flock f = true); [|congruence]. apply (cinv_lock _ I i f Hf).
  exists p, t. split; [done|]. eapply kept_owned; [|done]. by apply (cinv_pc _ I).
Qed.

Lemma kept_unlocked c i v f :
  cinv c -> cfibers c !! i = Some f -> flock f = false -> kept_at c i v <-> saved f = v.
Proof.
  intros I Hf Hl. split; [|intros Hv; right; split; [|by exists f]].
  - intros [(q & u & Hu & Hi & _)|[_ (g & Hg & <-)]]; [|by simplify_eq].
    by destruct (unlocked_unkept c i f q u I Hf Hl Hu).
  - intros p t Ht. by eapply unlocked_unkept.
Qed.
End part.

Section continuation.
Context `{K : KernelApi} `{U : !Uninit K}.
Implicit Types (f : fiber K) (h : gmap Z (fiber K)) (c : cstate K).

Definition saved_regs f : pt_regs := regs (context f).
Definition saved_fx f : list Z := fpu (context f).

Lemma regs_owned p t h i : pc_ok p t h -> regs_in t = Some i -> i ∈ owns t.
Proof.
  intros H. pose proof (current_owned p t h H) as Hc. unfold regs_in, owns in *.
  destruct (cpc t) as [| | |? []| | | | | | | | | | | |]; intros [= <-]; set_solver.
Qed.
Lemma fx_owned p t h i : pc_ok p t h -> fx_in t = Some i -> i ∈ owns t.
Proof.
  intros H. pose proof (current_owned p t h H) as Hc. unfold fx_in, owns in *.
  destruct (cpc t) as [| | |? []| | | | | | | | | | | |]; intros [= <-]; set_solver.
Qed.

(** A step that leaves the fibers and the thread's part. *)
Lemma moves_still {A} kept_for (cpu : task_struct -> A) (saved : fiber K -> A) i t t' h :
  kept_for t' = kept_for t -> (kept_for t = Some i -> cpu (ctask t') = cpu (ctask t)) ->
  moves kept_for cpu saved i t t' h h.
Proof.
  intros Ek Ec. split; rewrite Ek; [by left; auto|]. intros f Hn Hf. right. split; [done|]. by exists f.
Qed.

(** A write that changes the part of no fiber. *)
Lemma moves_write {A} kept_for (cpu : task_struct -> A) (saved : fiber K -> A) i t t' h j f f' :
  h !! j = Some f -> saved f' = saved f ->
  kept_for t' = kept_for t -> (kept_for t = Some i -> cpu (ctask t') = cpu (ctask t)) ->
  moves kept_for cpu saved i t t' h (<[j := f']> h).
Proof.
  intros Hj Es Ek Ec. split; rewrite Ek; [by left; auto|]. intros g Hn Hg. right. split; [done|].
  rewrite lookup_insert. case_decide; [|by exists g]. subst. exists f'. split; [done|congruence].
Qed.

(** The save of a thread's part in the fiber it is of. *)
Lemma moves_save {A} kept_for (cpu : task_struct -> A) (saved : fiber K -> A) i t t' h j f f' :
  h !! j = Some f -> kept_for t = Some j -> kept_for t' = None -> saved f' = cpu (ctask t) ->
  moves kept_for cpu saved i t t' h (<[j := f']> h).
Proof.
  intros Hj Ek Ek' Es. split; rewrite Ek, Ek'.
  - intros [= ->]. right. split; [done|]. exists f'. by rewrite lookup_insert_eq.
  - intros g Hn Hg. right. split; [done|]. exists g. rewrite lookup_insert_ne; [done|congruence].
Qed.

(** The load of the part of the fiber a thread is on. *)
Lemma moves_load {A} kept_for (cpu : task_struct -> A) (saved : fiber K -> A) i t t' h j f :
  h !! j = Some f -> kept_for t = None -> kept_for t' = Some j -> cpu (ctask t') = saved f ->
  moves kept_for cpu saved i t t' h h.
Proof.
  intros Hj Ek Ek' Es. split; rewrite Ek, Ek'; [done|]. intros g _ Hg.
  destruct (decide (i = j)) as [->|]; [left; split; [done|congruence]|right].
  split; [congruence|]. by exists g.
Qed.

(** The accesses of the function, one by one: [SaveRegs] and [SaveFx] save
    the two parts, [LoadRegs] and [LoadFx] load them, the others leave them. *)
Ltac still E :=
  first
    [ apply moves_still; unfold regs_in, fx_in; rewrite ?E; cbn; (done || congruence)
    | eapply moves_write; [eassumption|done|unfold regs_in, fx_in; rewrite ?E; cbn; (done || congruence)..] ].
Ltac accesses E Hok Hm :=
  unfold micro, write in Hm; unfold pc_ok in Hok;
  destruct (cpc _) as [ | n | n | n [] | n | n | n o | n o | n o | n o | n o | n o | n o | n o | n | n ]
    eqn:E; repeat case_match; simplify_eq; cbn in Hok; destruct_and?; simplify_eq; try still E.

Lemma micro_regs p i t t' h h' :
  pc_ok p t h -> micro t h = Some (t', h') -> moves regs_in task_regs saved_regs i t t' h h'.
Proof.
  intros Hok Hm. accesses E Hok Hm.
  - eapply moves_save; [eassumption|by unfold regs_in; rewrite ?E..|done].
  - eapply moves_load; [eassumption|by unfold regs_in; rewrite E|done..].
Qed.

Lemma micro_fx p i t t' h h' :
  pc_ok p t h -> micro t h = Some (t', h') -> moves fx_in task_fx saved_fx i t t' h h'.
Proof.
  intros Hok Hm. accesses E Hok Hm.
  - eapply moves_save; [eassumption|by unfold fx_in; rewrite ?E..|done].
  - eapply moves_load; [eassumption|by unfold fx_in; rewrite E|done..].
Qed.

(** A step of the schedule that is not user code on the fiber. *)
Lemma event_moves c p e c' i :
  cinv c -> sched_event p e c = Some c' -> user_on i p e c = false ->
  exists t t', cthreads c !! p = Some t /\ cthreads c' = <[p := t']> (cthreads c) /\
    moves regs_in task_regs saved_regs i t t' (cfibers c) (cfibers c') /\
    moves fx_in task_fx saved_fx i t t' (cfibers c) (cfibers c').
Proof.
  intros I. unfold sched_event, user_on. destruct (cthreads c !! p) as [t|] eqn:Ht; [|done].
  intros He Hu. pose proof (cinv_pc _ I p t Ht) as Hok.
  assert (exists t', cthreads c' = <[p := t']> (cthreads c) /\
    moves regs_in task_regs saved_regs i t t' (cfibers c) (cfibers c') /\
    moves fx_in task_fx saved_fx i t t' (cfibers c) (cfibers c')) as (t' & H); [|by exists t, t'].
  destruct e as [x|u|next|].
  - destruct (cpc t) eqn:E; try done. case_decide; [|done]. injection He as <-. eexists. split; [done|].
    apply Z.eqb_neq in Hu.
    split; apply moves_still; unfold regs_in, fx_in; cbn; rewrite ?E; congruence.
  - eexists (run_on (at_time u (ctask t)) t). destruct (cpc t); injection He as <-;
      (split; [done|]); by split; apply moves_still.
  - destruct (cpc t) eqn:E; try done. injection He as <-. eexists. split; [done|].
    by split; apply moves_still; unfold regs_in, fx_in; cbn; rewrite ?E.
  - assert ((if micro t (cfibers c) is Some (t', h')
        then Some {| cfibers := h'; cthreads := <[p := t']> (cthreads c) |} else None) = Some c') as Ha
      by (destruct (cpc t); exact He).
    destruct (micro t (cfibers c)) as [[t' h']|] eqn:E; [|done]. injection Ha as <-.
    exists t'. split; [done|]. split; [by eapply micro_regs|by eapply micro_fx].
Qed.

(** What fiber [i] goes on with, at any point of a schedule. *)
Definition carried c (i : Z) (r : pt_regs) (x : list Z) : Prop :=
  kept_at regs_in task_regs saved_regs c i r /\ kept_at fx_in task_fx saved_fx c i x.

Lemma event_carried c p e c' i r x :
  cinv c -> sched_event p e c = Some c' -> user_on i p e c = false ->
  carried c i r x -> carried c' i r x.
Proof.
  intros I He Hu [Hr Hx]. destruct (event_moves c p e c' i I He Hu) as (t & t' & Ht & E & Mr & Mx).
  split; eapply kept_at_moves; eauto using regs_owned, fx_owned.
Qed.

Lemma sched_carried es : forall c c' i r x,
  cinv c -> sched es c = Some c' -> unused i es c = true -> carried c i r x ->
  cinv c' /\ carried c' i r x.
Proof.
  induction es as [|[p e] es IH]; cbn; intros c c' i r x I H Hu Hc; [by simplify_eq|].
  apply andb_prop in Hu as [Hp%negb_true_iff Hu]. destruct (sched_event p e c) as [c1|] eqn:He; [|done].
  eapply IH; [|done..|by eapply event_carried]. by eapply cinv_step, sched_event_sound.
Qed.

(** Outside the calls. *)
Lemma goes_on_carried c i r x : cinv c -> goes_on_with c i r x -> carried c i r x.
Proof.
  intros I [(p & t & Ht & E & Hi & Hr & Hx)|(f & Hf & Hl & Hr & Hx)].
  - by split; left; exists p, t; unfold regs_in, fx_in; rewrite E, Hi.
  - split; eapply kept_unlocked; eauto using regs_owned, fx_owned.
Qed.

Lemma carried_running c i r x p t :
  cinv c -> carried c i r x -> cthreads c !! p = Some t -> cpc t = User -> cfid t = i ->
  task_regs (ctask t) = r /\ task_fx (ctask t) = x.
Proof.
  intros I [Hr Hx] Ht E Hi. split; (eapply kept_in_cpu; [|done|done|done|]);
    eauto using regs_owned, fx_owned; unfold regs_in, fx_in; by rewrite E, Hi.
Qed.

Lemma carried_free c i r x f :
  cinv c -> carried c i r x -> cfibers c !! i = Some f -> flock f = false ->
  regs (context f) = r /\ fpu (context f) = x.
Proof.
  intros I [Hr Hx] Hf Hl. split.
  - by eapply (kept_unlocked regs_in task_regs saved_regs regs_owned).
  - by eapply (kept_unlocked fx_in task_fx saved_fx fx_owned).
Qed.

(** C8: a fiber that is run with some registers and FX state, or is free
    with them saved, keeps them through every interleaving of switches in
    which no user code runs on it: a thread that has switched to it is back
    in user code with exactly these, whichever thread that is and whatever
    the others do meanwhile; while it is free it has them saved; and between
    calls one of the two is the case. *)
Theorem concurrent_continuation c0 c es c' i r x :
  interleaved c0 c -> goes_on_with c i r x -> sched es c = Some c' -> unused i es c = true ->
  (forall p t, cthreads c' !! p = Some t -> cpc t = User -> cfid t = i ->
     task_regs (ctask t) = r /\ task_fx (ctask t) = x) /\
  (forall f, cfibers c' !! i = Some f -> flock f = false ->
     regs (context f) = r /\ fpu (context f) = x) /\
  ((forall p t, cthreads c' !! p = Some t -> cpc t = User) -> goes_on_with c' i r x).
Proof.
  intros I%cinv_interleaved Hg He Hu.
  destruct (sched_carried es c c' i r x I He Hu (goes_on_carried c i r x I Hg)) as [I' C].
  split; [intros p t; by apply carried_running|]. split; [intros f; by apply carried_free|].
  intros Hq. pose proof C as [[(p & t & Ht & Hi & _)|[Hno (f & Hf & _)]] _].
  - unfold regs_in in Hi. rewrite (Hq p t Ht) in Hi. injection Hi as Hi.
    destruct (carried_running c' i r x p t I' C Ht (Hq p t Ht) Hi). left. exists p, t. split_and!; try done. by apply (Hq p).
  - right. exists f. assert (flock f = false) as Hl; [|by destruct (carried_free c' i r x f I' C Hf Hl)].
    apply not_true_is_false. intros (p & t & Ht & Hi)%(cinv_lock _ I' i f Hf).
    apply (Hno p t Ht). unfold owns in Hi. unfold regs_in. rewrite (Hq p t Ht) in *. set_solver.
Qed.
End continuation.
