(* ===== verification/Creation.v ===== *)
(** * Conversions and creations among concurrent switches ([fibers/fiber.c])

    Interleave.v has the threads of a process switch at the same time.  Here
    they also convert themselves and create fibers meanwhile, access by
    access: [do_convert_thread_to_fiber] and [do_create_fiber] put a fiber
    into the hash table (at the end of [generate_fiber]) before they have
    locked it, or written its stack and registers, so that a switch can find
    it half-made.

    The group exists; a fiber's memory is the thread's own until it is in the
    table, so that filling it and inserting it are one access; the insertions
    into the tables are atomic here (the code protects them with no lock, and
    hash_add_rcu requires one). *)
From S2P Require Import KState Fiber FiberSpec FiberInv View Requests Interleave.

(** What a thread is doing in the kernel, if it does not switch. *)
Inductive work := Convert | Create (sb ss ep arg : Z).

Section creation.
Context `{K : KernelApi} `{U : !Uninit K}.
Implicit Types (f : fiber K) (h : gmap Z (fiber K)).

Definition with_stack (sb sl ss : Z) f : fiber K :=
  {| fid := fid f; flock := flock f; flock_flags := flock_flags f; stack_base := sb; stack_limit := sl;
     guaranteed_stack_bytes := ss; context := context f; fls := fls f; info := info f |}.
Definition with_cpu (ip di sp bp : Z) f : fiber K :=
  set_regs {| ip := ip; di := di; sp := sp; bp := bp; other_regs := other_regs (regs (context f)) |} f.
Definition with_start (ep arg : Z) f : fiber K :=
  set_info {| name := name (info f); parent := parent (info f); state := state (info f);
    successful_activations := successful_activations (info f);
    failed_activations := failed_activations (info f);
    last_activation_time := last_activation_time (info f);
    total_running_time := total_running_time (info f); entry_point := ep; param := arg |} f.

(** The assignments of ALLOC_STACK and ALLOC_CONTEXT, in order. *)
Definition create_writes (sb ss ep arg : Z) : list (fiber K -> fiber K) :=
  [(fun f => with_stack sb (stack_limit f) (guaranteed_stack_bytes f) f);
   (fun f => with_stack (stack_base f) (u64 (stack_base f + ss)) (guaranteed_stack_bytes f) f);
   (fun f => with_stack (stack_base f) (stack_limit f) ss f);
   (fun f => let r := regs (context f) in with_cpu ep (di r) (sp r) (bp r) f);
   (fun f => let r := regs (context f) in with_cpu (ip r) arg (sp r) (bp r) f);
   (fun f => let r := regs (context f) in with_cpu (ip r) (di r) (u64 (stack_limit f - 8)) (bp r) f);
   (fun f => let r := regs (context f) in with_cpu (ip r) (di r) (sp r) (sp r) f);
   (fun f => with_start (ip (regs (context f))) (param (info f)) f);
   (fun f => with_start (entry_point (info f)) arg f)].

(** Where a thread is in do_create_fiber or do_convert_thread_to_fiber. *)
Inductive stage :=
  (* generate_fiber *)
  | Counting
  | Publishing (c : Z)
  (* do_create_fiber *)
  | Writing (c : Z) (ws : list (fiber K -> fiber K))
  (* do_convert_thread_to_fiber *)
  | TryFirst (c : Z)
  | CheckFirst (c : Z) (locked : bool)
  | CountRefusal (c : Z)
  | MarkFirst (c : Z)
  | CountFirst (c : Z)
  | TakeFirst (c : Z).

Record maker := { mtask : task_struct; mwork : work; mstage : stage }.
Definition at_stage (x : stage) (m : maker) : maker := {| mtask := mtask m; mwork := mwork m; mstage := x |}.

(** A process: its fibers and the threads that have one, the group's
    [fid_count], and the threads inside convert or create. *)
Record crowd := { shared : cstate K; fid_count : Z; making : gmap Z maker }.

Definition with_shared (c : cstate K) (s : crowd) : crowd :=
  {| shared := c; fid_count := fid_count s; making := making s |}.
Definition go (p : Z) (m : maker) (x : stage) (s : crowd) : crowd :=
  {| shared := shared s; fid_count := fid_count s; making := <[p := at_stage x m]> (making s) |}.

(** The fiber in the table is written, if it is there. *)
Definition writing (c : Z) (w : fiber K -> fiber K) (s : crowd) : option crowd :=
  match cfibers (shared s) !! c with
  | Some f => Some (with_shared {| cfibers := <[c := w f]> (cfibers (shared s)); cthreads := cthreads (shared s) |} s)
  | None => None
  end.

(** The call returns; the thread is on fiber [i]. *)
Definition finish (p : Z) (m : maker) (i r : Z) (s : crowd) : crowd :=
  {| shared := {| cfibers := cfibers (shared s);
       cthreads := <[p := {| ctask := mtask m; cfid := i; cpc := User; cret := r |}]> (cthreads (shared s)) |};
     fid_count := fid_count s; making := delete p (making s) |}.

(** The next access of thread [p] in its call. *)
Definition make (p : Z) (m : maker) (s : crowd) : option crowd :=
  let h := cfibers (shared s) in
  match mstage m with
  | Counting =>
      (* atomic_inc_return *)
      let c := i32 (fid_count s + 1) in
      let s := go p m (Publishing c) s in
      Some {| shared := shared s; fid_count := c; making := making s |}
  | Publishing c =>
      (* hash_add_rcu, of the fiber as PREPARE_* left it *)
      let s := with_shared {| cfibers := <[c := new_fiber c (mtask m)]> h; cthreads := cthreads (shared s) |} s in
      Some (go p m (match mwork m with
                    | Convert => TryFirst c
                    | Create sb ss ep arg => Writing c (create_writes sb ss ep arg)
                    end) s)
  | Writing c (w :: ws) => go p m (Writing c ws) <$> writing c w s
  | Writing c [] =>
      match h !! c, cthreads (shared s) !! p with
      | Some f, Some t => Some (finish p m (cfid t) (fid f) s)
      | _, _ => None
      end
  | TryFirst c =>
      match h !! c with
      | Some f => go p m (CheckFirst c (negb (flock f))) <$> writing c (set_flock true) s
      | None => None
      end
  | CheckFirst c locked =>
      match h !! c with
      | Some f =>
          Some (go p m (if negb locked || negb (state (info f) =? 0) then CountRefusal c else MarkFirst c) s)
      | None => None
      end
  | CountRefusal c => finish p m NO_FIBERS (- EAGAIN) <$> writing c count_failure s
  | MarkFirst c => go p m (CountFirst c) <$> writing c (with_state (task_pid (mtask m))) s
  | CountFirst c => go p m (TakeFirst c) <$> writing c (count_activation (utime (mtask m))) s
  | TakeFirst c =>
      match h !! c with
      | Some f => Some (finish p m (fid f) (fid f) s)
      | None => None
      end
  end.

(** ** The steps of a process

    [Thread e]: a step of Interleave.v. *)
Inductive move :=
  | Thread (e : event)
  | StartConvert (x : task_struct)
  | StartCreate (sb ss ep arg : Z)
  | Make
  | Tick (u : Z).

Definition start (p : Z) (x : task_struct) (w : work) (s : crowd) : crowd :=
  {| shared := shared s; fid_count := fid_count s;
     making := <[p := {| mtask := x; mwork := w; mstage := Counting |}]> (making s) |}.

Definition act (p : Z) (e : move) (s : crowd) : option crowd :=
  match making s !! p, e with
  | Some m, Make => make p m s
  | Some m, Tick u =>
      Some {| shared := shared s; fid_count := fid_count s;
              making := <[p := {| mtask := at_time u (mtask m); mwork := mwork m; mstage := mstage m |}]> (making s) |}
  | None, Thread e => (fun c => with_shared c s) <$> sched_event p e (shared s)
  | None, StartConvert x =>
      (* a thread of the table is refused by get_thread *)
      if bool_decide (cthreads (shared s) !! p = None /\ task_pid x = p /\ 0 < p)
      then Some (start p x Convert s) else None
  | None, StartCreate sb ss ep arg =>
      match cthreads (shared s) !! p with
      | Some t => match cpc t with
                  | User => Some (start p (ctask t) (Create sb ss ep arg) s)
                  | _ => None
                  end
      | None => None
      end
  | _, _ => None
  end.

Fixpoint acts (es : list (Z * move)) (s : crowd) : option crowd :=
  match es with
  | [] => Some s
  | (p, e) :: es => if act p e s is Some s' then acts es s' else None
  end.

(** The number a call is making a fiber of. *)
Definition number (x : stage) : option Z :=
  match x with
  | Counting => None
  | Publishing c | Writing c _ | TryFirst c | CheckFirst c _ | CountRefusal c | MarkFirst c
  | CountFirst c | TakeFirst c => Some c
  end.

(** A number that a call has returned: of a fiber in the table that no call is
    still making. *)
Definition given (s : crowd) (i : Z) : Prop :=
  is_Some (cfibers (shared s) !! i) /\ forall p m, making s !! p = Some m -> number (mstage m) <> Some i.

(** A program that only switches to numbers it was given. *)
Definition civil (s : crowd) (e : move) : Prop :=
  match e with Thread (ECall next) => given s next | _ => True end.

(** A process between requests. *)
Record idle (s : crowd) : Prop := {
  idle_quiet : quiet (shared s);
  idle_making : making s = ∅;
  idle_numbers i : is_Some (cfibers (shared s) !! i) -> 0 <= i <= fid_count s;
  idle_count : -1 <= fid_count s < 2 ^ 31;
}.

(** The runs in which the counter does not wrap; [wild]: of any program. *)
Inductive evolves (wild : Prop) : crowd -> crowd -> Prop :=
  | evolves_start s : idle s -> evolves wild s s
  | evolves_step s0 s p e s' :
      evolves wild s0 s -> act p e s = Some s' -> wild \/ civil s e -> fid_count s <= fid_count s' ->
      evolves wild s0 s'.
End creation.
Arguments stage K : clear implicits.
Arguments maker K : clear implicits.
Arguments crowd K : clear implicits.
Arguments move : clear implicits.
