(* ===== verification/CreationSafety.v ===== *)
(** * Conversions and creations among concurrent switches: what holds

    If the program only switches to numbers that a call has returned, a fiber
    is its maker's own until the call returns: the table is the disjoint union
    of the fibers of Interleave.v's invariant and of those being made
    ([parts]).  A program that guesses numbers breaks this (CreationWitness.v). *)
From S2P Require Import KState Fiber FiberSpec FiberInv View Requests Interleave Creation.

Section invariant.
Context `{K : KernelApi} `{U : !Uninit K}.
Implicit Types (f : fiber K) (h hs hn : gmap Z (fiber K)) (s : crowd K) (ts : gmap Z cthread).

(** ** A step among fibers that others are making *)

(** A step of a switch does not see the fibers its thread is not concerned with. *)
Lemma micro_frame p t hs hn t' h' :
  pc_ok p t hs -> hs ##ₘ hn -> (forall next, cpc t = FindNew next -> hn !! next = None) ->
  micro t (hs ∪ hn) = Some (t', h') -> exists hs', h' = hs' ∪ hn /\ micro t hs = Some (t', hs').
Proof.
  intros Hok Hd Hfind Hm.
  assert (forall i, is_Some (hs !! i) -> (hs ∪ hn) !! i = hs !! i) as Hl.
  { intros i [f Hf]. rewrite Hf. by apply lookup_union_Some_l. }
  assert (forall i x, (exists f, hs !! i = Some f /\ state (info f) = x) -> (hs ∪ hn) !! i = hs !! i) as Hl'.
  { intros i x (f & Hf & _). apply Hl. by exists f. }
  unfold micro, write, pc_ok in *. destruct (cpc t) as [|n|n|n []|n|n|n o|n o|n o|n o|n o|n o|n o|n o|n|n] eqn:E;
    destruct_and?; try rewrite (lookup_union_l hs hn n) in Hm by (by apply Hfind);
    repeat match goal with
      | H : exists f, hs !! ?i = Some f /\ _ |- _ => rewrite (Hl' i _ H) in Hm; clear H
      | H : is_Some (hs !! ?i) |- _ => rewrite (Hl i H) in Hm; clear H
      end;
    repeat case_match; simplify_eq; try done; eexists; (split; [|done]);
    rewrite ?insert_union_l; done.
Qed.

Lemma sched_frame p e hs hn ts c' :
  cinv {| cfibers := hs; cthreads := ts |} -> hs ##ₘ hn ->
  (forall t next, ts !! p = Some t -> cpc t = FindNew next -> hn !! next = None) ->
  sched_event p e {| cfibers := hs ∪ hn; cthreads := ts |} = Some c' ->
  exists hs', cfibers c' = hs' ∪ hn /\
    sched_event p e {| cfibers := hs; cthreads := ts |} = Some {| cfibers := hs'; cthreads := cthreads c' |}.
Proof.
  intros I Hd Hfind. unfold sched_event. cbn. destruct (ts !! p) as [t|] eqn:Ht; [|done].
  pose proof (cinv_pc _ I p t Ht) as Hok. cbn in Hok.
  assert (forall o, (if micro t (hs ∪ hn) is Some (t', h')
      then Some {| cfibers := h'; cthreads := <[p := t']> ts |} else None) = Some o ->
    exists hs', cfibers o = hs' ∪ hn /\ (if micro t hs is Some (t', h')
      then Some {| cfibers := h'; cthreads := <[p := t']> ts |} else None) =
      Some {| cfibers := hs'; cthreads := cthreads o |}) as Hacc.
  { intros o. destruct (micro t (hs ∪ hn)) as [[t' h']|] eqn:Hm; [|done]. intros [= <-]. cbn.
    destruct (micro_frame p t hs hn t' h' Hok Hd (fun n => Hfind t n eq_refl) Hm) as (hs' & -> & ->). by exists hs'. }
  destruct e, (cpc t); repeat case_match; try done; try (intros [= <-]; by exists hs); apply Hacc.
Qed.

(** A step changes its own thread only, and asks for a number only by a call. *)
Lemma sched_thread p e (c c' : cstate K) :
  sched_event p e c = Some c' -> exists t t', cthreads c !! p = Some t /\ cthreads c' = <[p := t']> (cthreads c) /\
    forall next, cpc t' = FindNew next -> e = ECall next \/ cpc t = FindNew next.
Proof.
  unfold sched_event. destruct (cthreads c !! p) as [t|] eqn:Ht; [|done].
  assert (forall o, (if micro t (cfibers c) is Some (t', h')
      then Some {| cfibers := h'; cthreads := <[p := t']> (cthreads c) |} else None) = Some o ->
    exists t0 t', Some t = Some t0 /\ cthreads o = <[p := t']> (cthreads c) /\
      forall next, cpc t' = FindNew next -> e = ECall next \/ cpc t0 = FindNew next) as Hacc.
  { intros o. destruct (micro t (cfibers c)) as [[t' h']|] eqn:Hm; [|done]. intros [= <-].
    exists t, t'. split; [done|]. split; [done|]. intros next Hn. exfalso.
    unfold micro, write in Hm. destruct (cpc t); repeat case_match; simplify_eq; cbn in Hn; congruence. }
  destruct e, (cpc t) eqn:E; repeat case_match; try done; try apply Hacc;
    intros [= <-]; eexists t, _; (split; [done|]); (split; [done|]); cbn; rewrite ?E; intros n; naive_solver.
Qed.

(** ** Fibers and threads that join *)
Lemma pc_ok_more q t h c f : pc_ok q t h -> h !! c = None -> pc_ok q t (<[c := f]> h).
Proof.
  intros Hok Hc. apply (pc_ok_frame q t h); [done| |].
  - intros i Hi. apply lookup_insert_is_Some'. by right.
  - intros i g _ Hg. exists g. split; [|done]. rewrite lookup_insert_ne; [done|]. congruence.
Qed.

Lemma cinv_more_fibers h ts c f :
  cinv {| cfibers := h; cthreads := ts |} -> h !! c = None -> flock f = false -> state (info f) = 0 ->
  cinv {| cfibers := <[c := f]> h; cthreads := ts |}.
Proof.
  intros I Hc Hl Hs. split; cbn.
  - apply (cinv_pid _ I).
  - intros p t Ht. apply pc_ok_more; [by apply (cinv_pc _ I)|done].
  - apply (cinv_nodup _ I).
  - apply (cinv_excl _ I).
  - intros i g. rewrite lookup_insert. case_decide as Hi; [|apply (cinv_lock _ I)].
    intros [= <-]. subst i. rewrite Hl. split; [done|]. intros (p & t & Ht & Hi).
    destruct (owned_exists p t h c) as [g Hg]; [by apply (cinv_pc _ I)|done|congruence].
  - intros i g. rewrite lookup_insert. case_decide; [by intros [= <-]|apply (cinv_free _ I)].
Qed.

Lemma cinv_more_threads h ts p c f x r :
  cinv {| cfibers := h; cthreads := ts |} -> h !! c = None -> ts !! p = None ->
  flock f = true -> state (info f) = p -> task_pid x = p -> 0 < p ->
  cinv {| cfibers := <[c := f]> h; cthreads := <[p := {| ctask := x; cfid := c; cpc := User; cret := r |}]> ts |}.
Proof.
  intros I Hc Hp Hl Hs Hx Hpos. set (tp := {| ctask := x; cfid := c; cpc := User; cret := r |}).
  assert (forall q t, ts !! q = Some t -> c ∉ owns t) as Hno.
  { intros q t Ht Hi. destruct (owned_exists q t h c) as [g Hg]; [by apply (cinv_pc _ I)|done|congruence]. }
  split; cbn.
  - intros q t [[-> ->]|[Hq Ht]]%cthread_cases; [done|by apply (cinv_pid _ I)].
  - intros q t [[-> ->]|[Hq Ht]]%cthread_cases.
    + cbn. exists f. split; [apply lookup_insert_eq|done].
    + apply pc_ok_more; [by apply (cinv_pc _ I)|done].
  - intros q t [[-> ->]|[Hq Ht]]%cthread_cases; [repeat constructor; set_solver|by apply (cinv_nodup _ I q)].
  - intros q1 q2 t1 t2 i [[-> ->]|[Hq1 H1]]%cthread_cases [[-> ->]|[Hq2 H2]]%cthread_cases Hi1 Hi2.
    + done.
    + apply list_elem_of_singleton in Hi1 as ->. by destruct (Hno q2 t2 H2).
    + apply list_elem_of_singleton in Hi2 as ->. by destruct (Hno q1 t1 H1).
    + by eapply (cinv_excl _ I).
  - intros i g. rewrite lookup_insert. case_decide as Hi.
    + intros [= <-]. subst i. split; [|done]. intros _. exists p, tp. rewrite lookup_insert_eq. split; [done|]. left.
    + intros Hg. rewrite (cinv_lock _ I i g Hg). split; intros (q & t & Ht & Hin).
      * exists q, t. cbn in Ht. rewrite lookup_insert_ne; [done|]. congruence.
      * apply cthread_cases in Ht as [[-> ->]|[Hq Ht]]; [|by exists q, t].
        by apply list_elem_of_singleton in Hin as ->.
  - intros i g. rewrite lookup_insert. case_decide; [|apply (cinv_free _ I)].
    intros [= <-]. congruence.
Qed.

(** ** Fibers being made *)

(** The number of a fiber that is in the table before its call returns. *)
Definition fresh (x : stage K) : option Z :=
  match x with Counting | Publishing _ => None | _ => number x end.

Definition kept (w : fiber K -> fiber K) : Prop :=
  forall f, fid (w f) = fid f /\ flock (w f) = flock f /\ state (info (w f)) = state (info f).

(** What a half-made fiber holds, by the place of its maker. *)
Definition half_made (m : maker K) hn : Prop :=
  let made c := new_fiber c (mtask m) in
  match mstage m, mwork m with
  | Counting, _ | Publishing _, _ => True
  | Writing c ws, Create sb ss ep arg =>
      exists f, hn !! c = Some f /\ Forall kept ws /\
        fold_left (fun f w => w f) ws f = prepare sb ss ep arg (made c)
  | TryFirst c, Convert => hn !! c = Some (made c)
  | CheckFirst c true, Convert | MarkFirst c, Convert => hn !! c = Some (set_flock true (made c))
  | CountFirst c, Convert => hn !! c = Some (with_state (task_pid (mtask m)) (set_flock true (made c)))
  | TakeFirst c, Convert =>
      exists u, hn !! c = Some (activate (task_pid (mtask m)) u (set_flock true (made c)))
  | _, _ => False
  end.

Record maker_ok (p : Z) (m : maker K) hn ts : Prop := {
  mo_pid : task_pid (mtask m) = p /\ 0 < p;
  mo_thread : match mwork m with
              | Convert => ts !! p = None
              | Create _ _ _ _ => exists t, ts !! p = Some t /\ cpc t = User
              end;
  mo_fiber : half_made m hn;
}.

(** The table is the settled fibers [hs] and the fresh ones [hn]. *)
Record parts s hs hn : Prop := {
  pa_split : cfibers (shared s) = hs ∪ hn;
  pa_disjoint : hs ##ₘ hn;
  pa_settled : cinv {| cfibers := hs; cthreads := cthreads (shared s) |};
  pa_fresh i : is_Some (hn !! i) <-> exists p m, making s !! p = Some m /\ fresh (mstage m) = Some i;
  pa_maker p m : making s !! p = Some m -> maker_ok p m hn (cthreads (shared s));
  pa_distinct p q m m' c : making s !! p = Some m -> making s !! q = Some m' ->
    number (mstage m) = Some c -> number (mstage m') = Some c -> p = q;
  pa_unborn p m c : making s !! p = Some m -> number (mstage m) = Some c -> hs !! c = None /\ 0 <= c <= fid_count s;
  pa_numbers i : is_Some (hs !! i) -> 0 <= i <= fid_count s;
  pa_target p t next : cthreads (shared s) !! p = Some t -> cpc t = FindNew next ->
    next <= fid_count s /\ forall q m, making s !! q = Some m -> number (mstage m) <> Some next;
  pa_count : -1 <= fid_count s < 2 ^ 31;
}.

Lemma fresh_number (x : stage K) c : fresh x = Some c -> number x = Some c.
Proof. by destruct x. Qed.

Lemma half_made_frame (m : maker K) hn hn' :
  half_made m hn -> (forall c, number (mstage m) = Some c -> hn' !! c = hn !! c) -> half_made m hn'.
Proof.
  unfold half_made. intros H Heq. destruct (mstage m) as [| | | |? []| | | |], (mwork m); cbn in Heq; try done;
    by rewrite (Heq _ eq_refl).
Qed.

(** A maker goes on; it writes its own fiber at most. *)
Lemma parts_go p m m' c hn' s hs hn :
  parts s hs hn -> making s !! p = Some m -> number (mstage m) = Some c -> fresh (mstage m') = Some c ->
  (forall i, i <> c -> hn' !! i = hn !! i) -> is_Some (hn' !! c) ->
  maker_ok p m' hn' (cthreads (shared s)) ->
  parts {| shared := {| cfibers := hs ∪ hn'; cthreads := cthreads (shared s) |}; fid_count := fid_count s;
           making := <[p := m']> (making s) |} hs hn'.
Proof.
  intros P Hp Hc Hc' Hother Hin Hok. pose proof (pa_unborn _ _ _ P p m c Hp Hc) as [Hnone Hrange].
  assert (forall q m0, q <> p -> making s !! q = Some m0 -> number (mstage m0) <> Some c) as Hne.
  { intros q m0 Hq Hm E. apply Hq. by eapply (pa_distinct _ _ _ P). }
  pose proof (fresh_number _ _ Hc') as Hc''. split; cbn.
  - done.
  - apply map_disjoint_spec. intros i f g Hf Hg. destruct (decide (i = c)) as [->|Hi]; [congruence|].
    rewrite Hother in Hg by done. by eapply map_disjoint_spec; [apply P|..].
  - apply P.
  - intros i. destruct (decide (i = c)) as [->|Hi].
    + split; [|done]. intros _. exists p, m'. by rewrite lookup_insert_eq.
    + rewrite Hother, (pa_fresh _ _ _ P) by done. split; intros (q & m0 & Hm & E); exists q, m0.
      * rewrite lookup_insert_ne; [done|]. intros <-. apply fresh_number in E. congruence.
      * rewrite lookup_insert in Hm. case_decide; [|done]. simplify_eq.
  - intros q m0. rewrite lookup_insert. case_decide as Hq; [intros [= <-]; by subst|]. intros Hm.
    destruct (pa_maker _ _ _ P q m0 Hm). split; [done|done|]. eapply half_made_frame; [done|].
    intros i Hi. apply Hother. intros ->. by apply (Hne q m0).
  - intros q1 q2 m1 m2 i. rewrite !lookup_insert. repeat case_decide; subst; intros; simplify_eq; try done.
    + exfalso. eapply (Hne q2 m2); [done|done|congruence].
    + exfalso. eapply (Hne q1 m1); [done|done|congruence].
    + by eapply (pa_distinct _ _ _ P).
  - intros q m0 i. rewrite lookup_insert. case_decide; [|by apply (pa_unborn _ _ _ P)].
    intros [= <-] ?. simplify_eq. done.
  - apply P.
  - intros q t next Ht Hn. destruct (pa_target _ _ _ P q t next Ht Hn) as [? Hall]. split; [done|].
    intros q' m0. rewrite lookup_insert. case_decide; [|apply Hall]. intros [= <-]. rewrite Hc''.
    specialize (Hall p m Hp). congruence.
  - apply P.
Qed.

(** A call returns: its fiber is settled. *)
Lemma parts_finish p m c f t r s hs hn :
  parts s hs hn -> making s !! p = Some m -> fresh (mstage m) = Some c -> hn !! c = Some f -> cpc t = User ->
  cinv {| cfibers := <[c := f]> hs; cthreads := <[p := t]> (cthreads (shared s)) |} ->
  r = {| shared := {| cfibers := cfibers (shared s); cthreads := <[p := t]> (cthreads (shared s)) |};
         fid_count := fid_count s; making := delete p (making s) |} ->
  parts r (<[c := f]> hs) (delete c hn).
Proof.
  intros P Hp Hc Hf Ht I ->. pose proof (fresh_number _ _ Hc) as Hc'.
  pose proof (pa_unborn _ _ _ P p m c Hp Hc') as [Hnone Hrange].
  assert (forall q m0, q <> p -> making s !! q = Some m0 -> number (mstage m0) <> Some c) as Hne.
  { intros q m0 Hq Hm E. apply Hq. by eapply (pa_distinct _ _ _ P). }
  split; cbn.
  - rewrite (pa_split _ _ _ P). rewrite <- (insert_delete_id hn c f) at 1 by done.
    by rewrite <- insert_union_r, insert_union_l.
  - apply map_disjoint_insert_l_2; [apply lookup_delete_eq|]. apply map_disjoint_delete_r, P.
  - exact I.
  - intros i. destruct (decide (i = c)) as [->|Hi].
    + rewrite lookup_delete_eq. split; [by intros [? [=]]|]. intros (q & m0 & Hm%lookup_delete_Some & E).
      destruct (Hne q m0); [naive_solver|naive_solver|by apply fresh_number].
    + rewrite lookup_delete_ne, (pa_fresh _ _ _ P) by done. split; intros (q & m0 & Hm & E); exists q, m0.
      * rewrite lookup_delete_ne; [done|]. intros <-. apply fresh_number in E. congruence.
      * by apply lookup_delete_Some in Hm as [_ ?].
  - intros q m0 [Hq Hm]%lookup_delete_Some. destruct (pa_maker _ _ _ P q m0 Hm) as [H1 H2 H3]. split; [done| |].
    + destruct (mwork m0); by rewrite lookup_insert_ne.
    + eapply half_made_frame; [done|]. intros i Hi. rewrite lookup_delete_ne; [done|].
      intros <-. by apply (Hne q m0).
  - intros q1 q2 m1 m2 i [_ H1]%lookup_delete_Some [_ H2]%lookup_delete_Some. by apply (pa_distinct _ _ _ P).
  - intros q m0 i [Hq Hm]%lookup_delete_Some Hi. destruct (pa_unborn _ _ _ P q m0 i Hm Hi). split; [|done].
    rewrite lookup_insert_ne; [done|]. intros <-. by apply (Hne q m0).
  - intros i. rewrite lookup_insert_is_Some'. intros [<-|?]; [done|by apply (pa_numbers _ _ _ P)].
  - intros q t0 next [[-> ->]|[Hq H0]]%cthread_cases Hn; [congruence|].
    destruct (pa_target _ _ _ P q t0 next H0 Hn) as [? Hall]. split; [done|].
    intros q' m0 [_ Hm]%lookup_delete_Some. by apply (Hall q').
  - apply P.
Qed.

(** ** Every step keeps the parts *)
Lemma create_writes_kept sb ss ep arg : Forall kept (create_writes sb ss ep arg).
Proof. repeat constructor. Qed.

(** The assignments one by one are the [prepare] of the abstract machine. *)
Lemma create_writes_prepare sb ss ep arg f :
  fold_left (fun f w => w f) (create_writes sb ss ep arg) f = prepare sb ss ep arg f.
Proof. reflexivity. Qed.

Lemma parts_write p m x c g s hs hn :
  parts s hs hn -> making s !! p = Some m -> number (mstage m) = Some c -> fresh x = Some c ->
  half_made (at_stage x m) (<[c := g]> hn) ->
  parts (go p m x (with_shared {| cfibers := <[c := g]> (cfibers (shared s)); cthreads := cthreads (shared s) |} s))
    hs (<[c := g]> hn).
Proof.
  intros P Hp Hc Hx Hh. destruct (pa_unborn _ _ _ P p m c Hp Hc) as [Hnone _].
  destruct (pa_maker _ _ _ P p m Hp) as [H1 H2 _].
  rewrite (pa_split _ _ _ P), insert_union_r by done.
  apply (parts_go p m (at_stage x m) c (<[c := g]> hn) s hs hn); [done..| | |by split].
  - intros i Hi. by rewrite lookup_insert_ne.
  - by rewrite lookup_insert_eq.
Qed.

(** A stage that leaves the fiber. *)
Lemma parts_stay p m x c s hs hn :
  parts s hs hn -> making s !! p = Some m -> fresh (mstage m) = Some c -> fresh x = Some c ->
  half_made (at_stage x m) hn -> parts (go p m x s) hs hn.
Proof.
  intros P Hp Hc Hx Hh. destruct (pa_maker _ _ _ P p m Hp) as [H1 H2 _].
  pose proof (parts_go p m (at_stage x m) c hn s hs hn P Hp (fresh_number _ _ Hc) Hx) as H.
  rewrite <- (pa_split _ _ _ P) in H. unfold go. destruct s as [[h ts] n mk]; cbn in *. apply H; [done| |by split].
  apply (pa_fresh _ _ _ P). by exists p, m.
Qed.

(** A fiber being made is found in the table. *)
Lemma parts_lookup p m c s hs hn :
  parts s hs hn -> making s !! p = Some m -> number (mstage m) = Some c -> cfibers (shared s) !! c = hn !! c.
Proof.
  intros P Hp Hc. destruct (pa_unborn _ _ _ P p m c Hp Hc) as [Hnone _].
  rewrite (pa_split _ _ _ P). by apply lookup_union_r.
Qed.

(** atomic_inc_return: a number no fiber has. *)
Lemma parts_count p m s hs hn s' :
  parts s hs hn -> making s !! p = Some m -> mstage m = Counting -> make p m s = Some s' ->
  fid_count s <= fid_count s' -> parts s' hs hn.
Proof.
  intros P Hp Hst. unfold make. rewrite Hst. set (c := i32 (fid_count s + 1)). intros [= <-] Hn. cbn in Hn.
  pose proof (pa_count _ _ _ P) as Hr. assert (c = fid_count s + 1) as Hc.
  { unfold c in *. destruct (decide (fid_count s + 1 < 2 ^ 31)); [apply i32_small; unfold in_i32; lia|].
    exfalso. assert (fid_count s = 2 ^ 31 - 1) as E by lia. rewrite E in Hn. by vm_compute in Hn. }
  assert (c < 2 ^ 31) as Hlt by (unfold c; pose proof (wrapS_range 32 (fid_count s + 1) ltac:(lia)); unfold i32; lia).
  assert (forall q m0 i, making s !! q = Some m0 -> number (mstage m0) = Some i -> i < c) as Hless.
  { intros q m0 i Hm Hi. destruct (pa_unborn _ _ _ P q m0 i Hm Hi). lia. }
  assert (fresh (mstage m) = None) as Hfr by by rewrite Hst.
  split; cbn.
  - apply P.
  - apply P.
  - apply P.
  - intros i. rewrite (pa_fresh _ _ _ P). split; intros (q & m0 & Hm & E).
    + exists q, m0. rewrite lookup_insert_ne; [done|]. intros <-. congruence.
    + rewrite lookup_insert in Hm. case_decide; [simplify_eq; done|by exists q, m0].
  - intros q m0. rewrite lookup_insert. case_decide as Hq; [|by apply (pa_maker _ _ _ P)].
    intros [= <-]. subst q. by destruct (pa_maker _ _ _ P p m Hp).
  - intros q1 q2 m1 m2 i. rewrite !lookup_insert. repeat case_decide; subst; intros; simplify_eq; cbn in *; simplify_eq; try done.
    + exfalso. specialize (Hless q2 m2 _ ltac:(done) ltac:(done)). lia.
    + exfalso. specialize (Hless q1 m1 _ ltac:(done) ltac:(done)). lia.
    + by eapply (pa_distinct _ _ _ P).
  - intros q m0 i. rewrite lookup_insert. case_decide.
    + intros [= <-] [= <-]. split; [|lia]. apply eq_None_not_Some. intros Hin.
      apply (pa_numbers _ _ _ P) in Hin. lia.
    + intros Hm Hi. destruct (pa_unborn _ _ _ P q m0 i Hm Hi). split; [done|lia].
  - intros i Hi. apply (pa_numbers _ _ _ P) in Hi. lia.
  - intros q t next Ht Hn'. destruct (pa_target _ _ _ P q t next Ht Hn') as [? Hall]. split; [lia|].
    intros q' m0. rewrite lookup_insert. case_decide; [|apply Hall]. intros [= <-] [= <-]. lia.
  - lia.
Qed.

Lemma fold_kept ws : forall f, Forall kept ws ->
  flock (fold_left (fun f w => w f) ws f) = flock f /\ state (info (fold_left (fun f w => w f) ws f)) = state (info f) /\
  fid (fold_left (fun f w => w f) ws f) = fid f.
Proof.
  induction ws as [|w ws IH]; intros f; [done|]. intros [Hw Hws]%Forall_cons. cbn [fold_left].
  destruct (IH (w f) Hws) as (-> & -> & ->). by destruct (Hw f) as (-> & -> & ->).
Qed.

(** What a created fiber is when its number is returned. *)
Lemma half_created p m c sb ss ep arg hn ts :
  maker_ok p m hn ts -> mstage m = Writing c [] -> mwork m = Create sb ss ep arg ->
  hn !! c = Some (prepare sb ss ep arg (new_fiber c (mtask m))).
Proof. intros [_ _ H] Hs Hw. unfold half_made in H. rewrite Hs, Hw in H. by destruct H as (f & Hf & _ & <-). Qed.

(** do_create_fiber returns. *)
Lemma parts_created p m c t s hs hn s' :
  parts s hs hn -> making s !! p = Some m -> mstage m = Writing c [] ->
  cthreads (shared s) !! p = Some t -> make p m s = Some s' ->
  exists f, hn !! c = Some f /\ s' = finish p m (cfid t) c s /\ parts s' (<[c := f]> hs) (delete c hn).
Proof.
  intros P Hp Hst Ht Hm. pose proof (pa_maker _ _ _ P p m Hp) as Hok. pose proof Hok as [[Hpid _] Hth Hh].
  unfold half_made in Hh. rewrite Hst in Hh. destruct (mwork m) as [|sb ss ep arg] eqn:Hw; [done|].
  destruct Hth as (t0 & Ht0 & Hu). rewrite Ht in Ht0. injection Ht0 as <-. clear Hh.
  pose proof (half_created p m c sb ss ep arg hn _ Hok Hst Hw) as Hf.
  set (f := prepare sb ss ep arg (new_fiber c (mtask m))) in *. exists f. split; [done|].
  unfold make in Hm. rewrite Hst, (parts_lookup p m c s hs hn P Hp), Hf, Ht in Hm by by rewrite Hst.
  injection Hm as <-. split; [done|].
  destruct (pa_unborn _ _ _ P p m c Hp) as [Hnone _]; [by rewrite Hst|].
  eapply (parts_finish p m c f); [done|done|by rewrite Hst|done| | |reflexivity]; [done|].
  pose proof (cinv_more_fibers hs (cthreads (shared s)) c f (pa_settled _ _ _ P) Hnone eq_refl eq_refl) as I.
  eapply cinv_okstep; [exact I|exact Ht|]. apply task_okstep; [|done|done|].
  - exact (cinv_holding _ p t I Ht).
  - cbn. rewrite Hpid. symmetry. by apply (cinv_pid _ (pa_settled _ _ _ P) p t).
Qed.

(** do_convert_thread_to_fiber returns. *)
Lemma parts_converted p m c s hs hn s' :
  parts s hs hn -> making s !! p = Some m -> mstage m = TakeFirst c -> make p m s = Some s' ->
  exists f u, hn !! c = Some f /\ f = activate p u (set_flock true (new_fiber c (mtask m))) /\
    s' = finish p m c c s /\ parts s' (<[c := f]> hs) (delete c hn).
Proof.
  intros P Hp Hst Hm. pose proof (pa_maker _ _ _ P p m Hp) as [[Hpid Hpos] Hth Hh].
  unfold half_made in Hh. rewrite Hst in Hh. destruct (mwork m) eqn:Hw; [|done]. destruct Hh as [u Hf].
  rewrite Hpid in Hf. set (f := activate p u _) in *. exists f, u. split; [done|]. split; [done|].
  unfold make in Hm. rewrite Hst, (parts_lookup p m c s hs hn P Hp), Hf in Hm by by rewrite Hst.
  injection Hm as <-. split; [done|].
  destruct (pa_unborn _ _ _ P p m c Hp) as [Hnone _]; [by rewrite Hst|].
  eapply (parts_finish p m c f); [done|done|by rewrite Hst|done| | |reflexivity]; [done|].
  by apply cinv_more_threads; [apply P|..].
Qed.

(** A stage that writes the fiber. *)
Lemma parts_writing p m x c w f s hs hn s' :
  parts s hs hn -> making s !! p = Some m -> number (mstage m) = Some c -> hn !! c = Some f ->
  go p m x <$> writing c w s = Some s' -> fresh x = Some c -> half_made (at_stage x m) (<[c := w f]> hn) ->
  exists hs' hn', parts s' hs' hn'.
Proof.
  intros P Hp Hc Hf Hm Hx Hh. unfold writing in Hm. rewrite (parts_lookup p m c s hs hn P Hp Hc), Hf in Hm.
  injection Hm as <-. exists hs. eexists. by apply parts_write.
Qed.

Lemma parts_make p m s hs hn s' :
  parts s hs hn -> making s !! p = Some m -> make p m s = Some s' -> fid_count s <= fid_count s' ->
  exists hs' hn', parts s' hs' hn'.
Proof.
  intros P Hp Hm Hcount. pose proof (pa_maker _ _ _ P p m Hp) as [_ Hth Hh].
  assert (forall c, number (mstage m) = Some c -> cfibers (shared s) !! c = hn !! c) as Hl
    by (intros c; exact (parts_lookup p m c s hs hn P Hp)).
  unfold half_made in Hh. pose proof Hm as Hm0. unfold make in Hm0.
  destruct (mstage m) as [|c|c [|w ws]|c|c []|c|c|c|c] eqn:Hst; destruct (mwork m) as [|sb ss ep arg] eqn:Hw; try done;
    try rewrite (Hl c eq_refl) in Hm0.
  (* Counting, Publishing *)
  1-2: exists hs, hn; by eapply parts_count.
  1-2: injection Hm0 as <-; exists hs; eexists; (eapply (parts_write p m); [done|done|by rewrite Hst|done|]);
    unfold half_made; cbn [mstage mwork mtask at_stage]; rewrite Hw.
  - apply lookup_insert_eq.
  - exists (new_fiber c (mtask m)). split; [apply lookup_insert_eq|].
    split; [apply create_writes_kept|apply create_writes_prepare].
  (* Writing *)
  - destruct Hth as (t & Ht & _).
    destruct (parts_created p m c t s hs hn s' P Hp Hst Ht Hm) as (f & _ & _ & H). by eexists _, _.
  - destruct Hh as (f & Hf & [_ Hk]%Forall_cons & Heq).
    eapply (parts_writing p m); [done|done|by rewrite Hst|done|exact Hm0|done|].
    unfold half_made. cbn [mstage mwork mtask at_stage]. rewrite Hw. exists (w f). by rewrite lookup_insert_eq.
  (* TryFirst *)
  - rewrite Hh in Hm0. eapply (parts_writing p m); [done|done|by rewrite Hst|done|exact Hm0|done|].
    unfold half_made. cbn [mstage mwork mtask at_stage]. rewrite Hw. apply lookup_insert_eq.
  - rewrite Hh in Hm0. injection Hm0 as <-. exists hs, hn.
    apply (parts_stay p m (MarkFirst c) c); [done|done|by rewrite Hst|done|]. unfold half_made. cbn [mstage mwork mtask at_stage]. by rewrite Hw.
  (* MarkFirst, CountFirst, TakeFirst *)
  - eapply (parts_writing p m); [done|done|by rewrite Hst|done|exact Hm0|done|].
    unfold half_made. cbn [mstage mwork mtask at_stage]. rewrite Hw. apply lookup_insert_eq.
  - eapply (parts_writing p m); [done|done|by rewrite Hst|done|exact Hm0|done|].
    unfold half_made. cbn [mstage mwork mtask at_stage]. rewrite Hw. exists (utime (mtask m)). apply lookup_insert_eq.
  - destruct (parts_converted p m c s hs hn s' P Hp Hst Hm) as (f & u & _ & _ & _ & H). by eexists _, _.
Qed.

(** A thread begins a call, or time passes in it. *)
Lemma parts_start p m' s hs hn :
  parts s hs hn -> maker_ok p m' hn (cthreads (shared s)) ->
  (making s !! p = None /\ mstage m' = Counting \/
   exists m, making s !! p = Some m /\ mstage m' = mstage m) ->
  parts {| shared := shared s; fid_count := fid_count s; making := <[p := m']> (making s) |} hs hn.
Proof.
  intros P Hok Hst. assert (forall c, number (mstage m') = Some c ->
    exists m, making s !! p = Some m /\ mstage m' = mstage m) as Hn.
  { intros c Hc. destruct Hst as [[_ E]|Hm]; [by rewrite E in Hc|done]. }
  split; cbn; try apply P.
  - intros i. rewrite (pa_fresh _ _ _ P). split; intros (q & m0 & Hm & E).
    + destruct (decide (p = q)) as [<-|Hq]; [|exists q, m0; by rewrite lookup_insert_ne].
      exists p, m'. rewrite lookup_insert_eq. split; [done|]. destruct Hst as [[? _]|(m & ? & ->)]; congruence.
    + rewrite lookup_insert in Hm. case_decide; [|by exists q, m0]. simplify_eq.
      destruct (Hn i (fresh_number _ _ E)) as (m & ? & Em). exists q, m. by rewrite <- Em.
  - intros q m0. rewrite lookup_insert. case_decide as Hq; [intros [= <-]; by subst|]. by apply (pa_maker _ _ _ P).
  - intros q1 q2 m1 m2 i. rewrite !lookup_insert. repeat case_decide; subst; intros; simplify_eq; try done.
    + destruct (Hn i) as (m & ? & Em); [done|]. apply (pa_distinct _ _ _ P _ q2 m m2 i); congruence.
    + destruct (Hn i) as (m & ? & Em); [done|]. apply (pa_distinct _ _ _ P q1 _ m1 m i); congruence.
    + by eapply (pa_distinct _ _ _ P).
  - intros q m0 i. rewrite lookup_insert. case_decide; [|by apply (pa_unborn _ _ _ P)].
    intros [= <-] Hi. destruct (Hn i Hi) as (m & ? & Em). apply (pa_unborn _ _ _ P p m); congruence.
  - intros q t next Ht Hnx. destruct (pa_target _ _ _ P q t next Ht Hnx) as [? Hall]. split; [done|].
    intros q' m0. rewrite lookup_insert. case_decide; [|apply Hall]. intros [= <-] E.
    destruct (Hn next E) as (m & Hm & Em). apply (Hall p m Hm). congruence.
Qed.

(** A step of a thread outside convert and create. *)
Lemma parts_thread p e c s hs hn :
  parts s hs hn -> making s !! p = None -> sched_event p e (shared s) = Some c -> civil s (Thread e) ->
  exists hs', parts (with_shared c s) hs' hn.
Proof.
  intros P Hp Hs Hciv. destruct (sched_thread p e _ _ Hs) as (t & t' & Ht & Ets & Hask).
  assert (shared s = {| cfibers := hs ∪ hn; cthreads := cthreads (shared s) |}) as Esh.
  { rewrite <- (pa_split _ _ _ P). by destruct (shared s). }
  rewrite Esh in Hs. destruct (sched_frame p e hs hn _ c (pa_settled _ _ _ P) (pa_disjoint _ _ _ P)) as (hs' & Ec & Hs').
  { intros t0 next Ht0 Hn. apply eq_None_not_Some. intros (q & m & Hm & E)%(pa_fresh _ _ _ P).
    destruct (pa_target _ _ _ P p t0 next Ht0 Hn) as [_ Hall]. by apply (Hall q m), fresh_number. }
  { exact Hs. }
  pose proof (sched_event_sound _ _ _ _ Hs') as Hstep. pose proof (pa_settled _ _ _ P) as I0.
  destruct (cstep_okstep _ _ _ I0 Hstep) as (u1 & u2 & _ & _ & O). pose proof (ok_dom _ _ _ _ _ O) as Hdom. cbn in Hdom.
  assert (forall i, hs !! i = None <-> hs' !! i = None) as Hdom'.
  { intros i. rewrite !eq_None_not_Some. by rewrite Hdom. }
  exists hs'. split; cbn; try apply P.
  - done.
  - apply map_disjoint_alt. intros i. destruct (map_disjoint_alt hs hn) as [Hd _].
    destruct (Hd (pa_disjoint _ _ _ P) i) as [?%Hdom'|?]; auto.
  - by eapply cinv_step.
  - intros q m Hm. assert (q <> p) as Hq by congruence. destruct (pa_maker _ _ _ P q m Hm) as [H1 H2 H3].
    split; [done| |done]. rewrite Ets. destruct (mwork m); by rewrite lookup_insert_ne.
  - intros q m i Hm Hi. destruct (pa_unborn _ _ _ P q m i Hm Hi). by rewrite <- Hdom'.
  - intros i. rewrite <- Hdom. apply (pa_numbers _ _ _ P).
  - rewrite Ets. intros q t0 next [[-> ->]|[Hq H0]]%cthread_cases Hn; [|by apply (pa_target _ _ _ P q t0)].
    destruct (Hask next Hn) as [->|Hn']; [|by apply (pa_target _ _ _ P p t)].
    destruct Hciv as [Hin Hall]. split; [|exact Hall].
    rewrite (pa_split _ _ _ P) in Hin. destruct Hin as [f [Hf|[_ Hf]]%lookup_union_Some_raw].
    + apply (pa_numbers _ _ _ P). by exists f.
    + assert (is_Some (hn !! next)) as (q & m & Hm & E)%(pa_fresh _ _ _ P) by by exists f.
      by destruct (Hall q m Hm); apply fresh_number.
Qed.

Lemma half_made_tick u (m : maker K) hn :
  half_made {| mtask := at_time u (mtask m); mwork := mwork m; mstage := mstage m |} hn <-> half_made m hn.
Proof. unfold half_made. by destruct (mstage m) as [| | | |? []| | | |], (mwork m). Qed.

Lemma parts_act p e s hs hn s' :
  parts s hs hn -> act p e s = Some s' -> civil s e -> fid_count s <= fid_count s' ->
  exists hs' hn', parts s' hs' hn'.
Proof.
  intros P. unfold act. destruct (making s !! p) as [m|] eqn:Hp; destruct e as [e|x|sb ss ep arg| |u]; try done.
  - intros Hm _. by eapply parts_make.
  - intros [= <-] _ _. exists hs, hn. destruct (pa_maker _ _ _ P p m Hp). apply parts_start; [done| |right; by exists m].
    split; [done|done|by apply half_made_tick].
  - destruct (sched_event p e (shared s)) as [c|] eqn:Hs; [|done]. intros [= <-] Hciv _.
    destruct (parts_thread p e c s hs hn P Hp Hs Hciv) as [hs' H]. by exists hs', hn.
  - case_bool_decide as Hx; [|done]. destruct Hx as (Ht & Hx & Hpos). intros [= <-] _ _. exists hs, hn.
    apply parts_start; [done|by split|by left].
  - destruct (cthreads (shared s) !! p) as [t|] eqn:Ht; [|done]. destruct (cpc t) eqn:Hu; try done.
    intros [= <-] _ _. exists hs, hn. apply parts_start; [done| |by left].
    split; [by apply (cinv_pid _ (pa_settled _ _ _ P))|by exists t|done].
Qed.

Lemma parts_idle s : idle s -> parts s (cfibers (shared s)) ∅.
Proof.
  intros [Q Hm Hn Hc]. split; rewrite ?Hm.
  - by rewrite map_union_empty.
  - apply map_disjoint_empty_r.
  - apply cinv_quiet. by destruct (shared s).
  - intros i. rewrite lookup_empty. split; [by intros [? [=]]|by intros (q & m & Hq%lookup_empty_Some & _)].
  - by intros p m ?%lookup_empty_Some.
  - by intros p q m m' c ?%lookup_empty_Some.
  - by intros p m c ?%lookup_empty_Some.
  - done.
  - intros p t next Ht Hpc. destruct (quiet_user _ Q p t Ht). congruence.
  - done.
Qed.

Lemma parts_evolves s0 s : evolves False s0 s -> exists hs hn, parts s hs hn.
Proof.
  induction 1 as [s Hs|s0 s p e s' _ (hs & hn & P) Ha [[]|Hciv] Hn]; [|by eapply parts_act].
  eexists _, _. by apply parts_idle.
Qed.
End invariant.

(** ** Properties *)
Section properties.
Context `{K : KernelApi} `{U : !Uninit K}.
Implicit Types (f : fiber K) (s : crowd K).



(** The accesses a call has left, at most. *)
Definition accesses_left (x : stage K) : nat :=
  match x with
  | Counting => 12 | Publishing _ => 11 | Writing _ ws => S (length ws)
  | TryFirst _ => 5 | CheckFirst _ _ => 4 | MarkFirst _ => 3 | CountFirst _ => 2
  | TakeFirst _ | CountRefusal _ => 1
  end.

Lemma make_others q m s s' p : q <> p -> make q m s = Some s' -> making s' !! p = making s !! p.
Proof.
  intros Hq. assert (forall c w s1, writing c w s = Some s1 -> making s1 = making s) as Hw.
  { intros c w s1. unfold writing. case_match; [|done]. by intros [= <-]. }
  assert (forall x c w, go q m x <$> writing c w s = Some s' -> making s' !! p = making s !! p) as Hgo.
  { intros x c w. destruct (writing c w s) as [s1|] eqn:E; [|done]. intros [= <-]. cbn.
    by rewrite lookup_insert_ne, (Hw _ _ _ E). }
  unfold make. destruct (mstage m) as [|c|c [|w ws]|c|c locked|c|c|c|c]; try apply Hgo.
  6: { destruct (writing c count_failure s) as [s1|] eqn:E; [|done]. intros [= <-]. cbn.
    by rewrite lookup_delete_ne, (Hw _ _ _ E). }
  all: repeat case_match; intros; simplify_eq; cbn; try (by rewrite ?lookup_insert_ne, ?lookup_delete_ne).
  by eapply Hgo.
Qed.

(** A call to convert or create returns whatever the others do: it can always
    make its next access, each brings it nearer to its return, and the others'
    steps leave it where it is. *)
Theorem creation_wait_free s0 s p m :
  evolves False s0 s -> making s !! p = Some m ->
  (exists s', act p Make s = Some s' /\
     (making s' !! p = None \/ exists m', making s' !! p = Some m' /\
        (accesses_left (mstage m') < accesses_left (mstage m))%nat)) /\
  (forall q e s', q <> p -> act q e s = Some s' -> making s' !! p = Some m).
Proof.
  intros (hs & hn & P)%parts_evolves Hp. pose proof (pa_maker _ _ _ P p m Hp) as [_ Hth Hh].
  assert (forall c, number (mstage m) = Some c -> cfibers (shared s) !! c = hn !! c) as Hl
    by (intros c; exact (parts_lookup p m c s hs hn P Hp)).
  split.
  - unfold act. rewrite Hp. unfold make, writing. unfold half_made in Hh.
    destruct (mstage m) as [|c|c [|w ws]|c|c []|c|c|c|c] eqn:Hst; destruct (mwork m) as [|sb ss ep arg] eqn:Hw; try done;
      try destruct Hh as (f & Hf & _); try destruct Hh as (u & Hf); try rewrite (Hl c eq_refl), ?Hh, ?Hf;
      try destruct Hth as (t & Ht & _); try rewrite Ht;
      (eexists; split; [reflexivity|]); cbn;
      first [by left; apply lookup_delete_eq|right; eexists; (split; [apply lookup_insert_eq|]); cbn; lia].
  - clear Hth Hh Hl. intros q e s' Hq. unfold act. destruct (making s !! q) as [m'|] eqn:Hm, e; try done.
    + intros Ha. by rewrite (make_others q m' s s').
    + intros [= <-]. cbn. by rewrite lookup_insert_ne.
    + destruct (sched_event _ _ _); [|done]. by intros [= <-].
    + case_bool_decide; [|done]. intros [= <-]. cbn. by rewrite lookup_insert_ne.
    + repeat case_match; intros; simplify_eq. cbn. by rewrite lookup_insert_ne.
Qed.
End properties.
