(* ===== verification/CreationAlone.v ===== *)
(** * A conversion or a creation that nothing interrupts

    The accesses of Creation.v, made one after the other, do what the
    sequential functions of Fiber.v do. *)
From S2P Require Import KState Fiber FiberSpec FiberRefine FiberInv View Requests Interleave Creation CreationSafety.

Section alone.
Context `{K : KernelApi} `{L : !KernelLaws K} `{U : !Uninit K}.
Implicit Types (f : fiber K) (h : gmap Z (fiber K)) (ts : gmap Z cthread) (s : kstate K).

(** One thread in a call. *)
Definition in_call (p : Z) (m : maker K) h ts (n : Z) : crowd K :=
  {| shared := {| cfibers := h; cthreads := ts |}; fid_count := n; making := <[p := m]> ∅ |}.
Definition no_call h ts (n : Z) : crowd K :=
  {| shared := {| cfibers := h; cthreads := ts |}; fid_count := n; making := ∅ |}.

Lemma acts_app es es' (c : crowd K) :
  acts (es ++ es') c = match acts es c with Some c' => acts es' c' | None => None end.
Proof.
  revert c. induction es as [|[p e] es IH]; intros c; cbn; [done|]. destruct (act p e c); [apply IH|done].
Qed.

Lemma acts_make p m es h ts n :
  acts ((p, Make) :: es) (in_call p m h ts n) =
    match make p m (in_call p m h ts n) with Some c => acts es c | None => None end.
Proof. cbn [acts]. unfold act. cbn [making in_call]. by rewrite lookup_insert_eq. Qed.

Lemma go_in_call p m x m' h ts n : go p m x (in_call p m' h ts n) = in_call p (at_stage x m) h ts n.
Proof. unfold go, in_call. cbn. by rewrite insert_insert_eq. Qed.

(** One access that writes the fiber. *)
Lemma make_writing p m x c w f h ts n :
  h !! c = Some f -> go p m x <$> writing c w (in_call p m h ts n) = Some (in_call p (at_stage x m) (<[c := w f]> h) ts n).
Proof.
  intros Hf. unfold writing. cbn [cfibers shared in_call]. rewrite Hf. cbn [fmap option_fmap option_map].
  unfold go, with_shared, in_call. cbn. by rewrite insert_insert_eq.
Qed.

Lemma finish_in_call p m i r h ts n :
  finish p m i r (in_call p m h ts n) =
    no_call h (<[p := {| ctask := mtask m; cfid := i; cpc := User; cret := r |}]> ts) n.
Proof. unfold finish, in_call, no_call. cbn. by rewrite delete_insert_id. Qed.

Lemma acts_writing p w c ws : forall x f h ts n,
  h !! c = Some f ->
  acts (replicate (length ws) (p, Make)) (in_call p {| mtask := x; mwork := w; mstage := Writing c ws |} h ts n) =
    Some (in_call p {| mtask := x; mwork := w; mstage := Writing c [] |}
      (<[c := fold_left (fun f w => w f) ws f]> h) ts n).
Proof.
  induction ws as [|v ws IH]; intros x f h ts n Hf.
  - cbn. by rewrite insert_id.
  - cbn [length replicate]. rewrite acts_make. unfold make at 1. cbn [mstage].
    rewrite (make_writing p _ _ c v f) by done. unfold at_stage. cbn [mtask mwork].
    rewrite (IH x (v f)) by apply lookup_insert_eq. by rewrite insert_insert_eq.
Qed.

Ltac made := rewrite acts_make; unfold make at 1; cbn [mstage at_stage mtask mwork].

Lemma acts_publish p x w h ts n es :
  -1 <= n < 2 ^ 31 - 1 ->
  acts ((p, Make) :: (p, Make) :: es) (in_call p {| mtask := x; mwork := w; mstage := Counting |} h ts n) =
    acts es (in_call p {| mtask := x; mwork := w;
        mstage := match w with Convert => TryFirst (n + 1) | Create sb ss ep arg => Writing (n + 1) (create_writes sb ss ep arg) end |}
      (<[n + 1 := new_fiber (n + 1) x]> h) ts (n + 1)).
Proof.
  intros Hn. made. rewrite go_in_call. cbn [fid_count in_call shared making].
  rewrite i32_small by (unfold in_i32; lia).
  change {| shared := _; fid_count := n + 1; making := _ |} with
    (in_call p {| mtask := x; mwork := w; mstage := Publishing (n + 1) |} h ts (n + 1)).
  made. unfold go, with_shared, in_call. cbn. by rewrite insert_insert_eq.
Qed.

Lemma acts_create p t sb ss ep arg h ts n :
  ts !! p = Some t -> cpc t = User -> -1 <= n < 2 ^ 31 - 1 ->
  acts ((p, StartCreate sb ss ep arg) :: replicate 12 (p, Make)) (no_call h ts n) =
    Some (no_call (<[n + 1 := prepare sb ss ep arg (new_fiber (n + 1) (ctask t))]> h)
      (<[p := {| ctask := ctask t; cfid := cfid t; cpc := User; cret := n + 1 |}]> ts) (n + 1)).
Proof.
  intros Ht Hu Hn. cbn [acts]. unfold act at 1. cbn [making no_call]. rewrite lookup_empty. cbn [shared cthreads no_call].
  rewrite Ht, Hu. change (replicate 12 (p, Make)) with
    ((p, Make) :: (p, Make) :: replicate (length (create_writes (K := K) sb ss ep arg)) (p, Make) ++ [(p, Make)]).
  change (start p _ _ _) with
    (in_call p {| mtask := ctask t; mwork := Create sb ss ep arg; mstage := Counting |} h ts n).
  rewrite acts_publish by done. rewrite acts_app.
  rewrite (acts_writing p _ (n + 1) _ _ (new_fiber (n + 1) (ctask t))) by apply lookup_insert_eq.
  rewrite insert_insert_eq, create_writes_prepare. made. cbn [cfibers cthreads shared in_call].
  rewrite lookup_insert_eq, Ht. cbn [acts]. by rewrite finish_in_call.
Qed.

Lemma acts_convert p x h ts n :
  ts !! p = None -> task_pid x = p -> 0 < p -> -1 <= n < 2 ^ 31 - 1 ->
  acts ((p, StartConvert x) :: replicate 7 (p, Make)) (no_call h ts n) =
    Some (no_call (<[n + 1 := activate p (utime x) (set_flock true (new_fiber (n + 1) x))]> h)
      (<[p := {| ctask := x; cfid := n + 1; cpc := User; cret := n + 1 |}]> ts) (n + 1)).
Proof.
  intros Ht Hx Hp Hn. cbn [acts]. unfold act at 1. cbn [making no_call]. rewrite lookup_empty. cbn [shared cthreads no_call].
  rewrite bool_decide_true by done.
  change (start p _ _ _) with (in_call p {| mtask := x; mwork := Convert; mstage := Counting |} h ts n).
  change (replicate 7 (p, Make)) with ((p, Make) :: (p, Make) :: replicate 5 (p, @Make)).
  rewrite acts_publish by done. cbn [replicate]. set (f := new_fiber (n + 1) x).
  made. cbn [cfibers shared in_call]. rewrite lookup_insert_eq.
  fold (in_call p {| mtask := x; mwork := Convert; mstage := TryFirst (n + 1) |} (<[n + 1 := f]> h) ts (n + 1)).
  rewrite (make_writing p _ _ (n + 1) (set_flock true) f) by apply lookup_insert_eq. rewrite insert_insert_eq.
  made. cbn [cfibers shared in_call]. rewrite lookup_insert_eq. cbn [negb orb].
  change (state (info (set_flock true f)) =? 0) with true. change (flock f) with false. cbn [negb orb].
  fold (in_call p (at_stage (CheckFirst (n + 1) true) {| mtask := x; mwork := Convert; mstage := TryFirst (n + 1) |})
    (<[n + 1 := set_flock true f]> h) ts (n + 1)).
  rewrite go_in_call. made.
  rewrite (make_writing p _ _ (n + 1) (with_state (task_pid x)) (set_flock true f)) by apply lookup_insert_eq. rewrite insert_insert_eq.
  made. rewrite (make_writing p _ _ (n + 1) (count_activation (utime x)) (with_state (task_pid x) (set_flock true f)))
    by apply lookup_insert_eq. rewrite insert_insert_eq.
  made. cbn [cfibers shared in_call]. rewrite lookup_insert_eq. cbn [acts].
  rewrite <- Hx. by rewrite finish_in_call.
Qed.

(** The process of the caller of [s], as the threads of this file see it. *)
Definition seen_by s (c : crowd K) : Prop :=
  (forall i, cfibers (shared c) !! i = fiber_at s (task_tgid (current s), i)) /\
  count_at s (task_tgid (current s)) = Some (fid_count c) /\
  cfid <$> cthreads (shared c) !! task_pid (current s) = thread_at s (caller s).

Lemma next_number_seen s c : consistent s -> room_at s -> seen_by s c ->
  next_number s = fid_count c + 1 /\ -1 <= fid_count c < 2 ^ 31 - 1.
Proof.
  intros Hs Hr (_ & Hc & _). unfold next_number, room_at in *. rewrite Hc in *. split; [done|].
  destruct (run_get_group_some _ _ _ Hs Hc) as (_ & _ & _ & _ & _ & ? & _). cbn in *. unfold id in *. lia.
Qed.

(** What both requests leave, told from what they do to the abstract state. *)
Lemma seen_after s s' a c f t i n :
  holds (upd_fiber (task_tgid (current s), i) f a) s' -> current s' = current s ->
  (forall j, afibers a !! (task_tgid (current s), j) = cfibers (shared c) !! j) ->
  agroups a !! task_tgid (current s) = Some n -> athreads a !! key (current s) = Some (cfid t) ->
  seen_by s' (no_call (<[i := f]> (cfibers (shared c))) (<[task_pid (current s) := t]> (cthreads (shared c))) n).
Proof.
  intros (_ & C & T & F) Hc Hf Hg Ht. unfold seen_by, caller, no_call. rewrite Hc. cbn.
  split; [|split].
  - intros j. rewrite F. cbn. destruct (decide (i = j)) as [->|Hj]; [by rewrite !lookup_insert_eq|].
    rewrite !lookup_insert_ne by congruence. by rewrite Hf.
  - by rewrite C.
  - rewrite T, lookup_insert_eq. symmetry. exact Ht.
Qed.

(** C13: the accesses of a conversion or a creation, made one after the other
    while no other thread makes any, do what [do_convert_thread_to_fiber] and
    [do_create_fiber] do as requests of the sequential module: the same
    result, the same fibers, counter and current fiber of the caller. *)
Theorem creation_sequential s c :
  (forall n, kmalloc_fails n = false) -> consistent s -> room_at s -> 0 < task_pid (current s) ->
  seen_by s c -> making c = ∅ ->
  let p := task_pid (current s) in
  match cthreads (shared c) !! p with
  | None => exists s' c' t', do_convert_thread_to_fiber (current s) s = Ret (cret t', s') /\
      acts ((p, StartConvert (current s)) :: replicate 7 (p, Make)) c = Some c' /\
      cthreads (shared c') !! p = Some t' /\ current s' = current s /\ seen_by s' c'
  | Some t => cpc t = User -> ctask t = current s -> forall sb ss ep arg,
      exists s' c' t', do_create_fiber (current s) sb ss ep arg s = Ret (cret t', s') /\
      acts ((p, StartCreate sb ss ep arg) :: replicate 12 (p, Make)) c = Some c' /\
      cthreads (shared c') !! p = Some t' /\ current s' = current s /\ seen_by s' c'
  end.
Proof.
  intros Hmem Hs Hroom Hpos V Hm p. destruct (next_number_seen s c Hs Hroom V) as [Hnext Hn].
  pose proof V as (F & C & T).
  assert (c = no_call (cfibers (shared c)) (cthreads (shared c)) (fid_count c)) as Ec.
  { destruct c as [[] ? ?]. cbn in *. by subst. }
  destruct (cthreads (shared c) !! p) as [t|] eqn:Ht.
  - intros Hu Htask sb ss ep arg. fold p in T. rewrite Ht in T.
    destruct (run_create Hmem s sb ss ep arg Hs Hroom) as (a & (_ & C' & T' & F') & I & Hid & H).
    unfold spec_create in H. rewrite T' in T. change (caller s) with (key (current s)) in T. rewrite <- T in H.
    rewrite Hid, Hnext in H. destruct H as (s' & Hrun & Ha & [Hc _]). rewrite Ec.
    pose proof (acts_create p t sb ss ep arg (cfibers (shared c)) (cthreads (shared c)) (fid_count c) Ht Hu Hn) as Hacts.
    eexists s', _, _. split; [|split; [exact Hacts|split; [apply lookup_insert_eq|split; [done|]]]]; [exact Hrun|].
    rewrite Htask. apply (seen_after s s' (upd_group (task_tgid (current s)) (fid_count c + 1) a) c); [exact Ha|done| | |].
    + intros j. by rewrite F, F'.
    + apply lookup_insert_eq.
    + done.
  - fold p in T. rewrite Ht in T.
    destruct (run_convert Hmem s Hs Hroom Hpos) as (a & (_ & C' & T' & F') & I & Hid & H).
    unfold spec_convert in H. rewrite T' in T. change (caller s) with (key (current s)) in T. rewrite <- T in H.
    cbn [fmap option_fmap option_map] in H. rewrite Hid, Hnext in H. destruct H as (s' & Hrun & Ha & [Hc _]). rewrite Ec.
    pose proof (acts_convert p (current s) (cfibers (shared c)) (cthreads (shared c)) (fid_count c) Ht eq_refl Hpos Hn) as Hacts.
    eexists s', _, _. split; [|split; [exact Hacts|split; [apply lookup_insert_eq|split; [done|]]]]; [exact Hrun|].
    apply (seen_after s s' (upd_thread (key (current s)) (fid_count c + 1)
      (upd_group (task_tgid (current s)) (fid_count c + 1) a)) c); [exact Ha|done| | |].
    + intros j. by rewrite F, F'.
    + apply lookup_insert_eq.
    + apply lookup_insert_eq.
Qed.
End alone.
