(* ===== verification/Proc.v ===== *)
(** * The /proc interface ([fibers/proc.c], [fibers/include/proc.h])

    Each process that uses fibers gets a directory [fibers] with one file per
    fiber.  [fibers_lookup] and [fibers_readdir] build the array of its
    entries from the table of fibers; [fibers_read] prints one fiber.  The
    inode's task, the kernel's [proc_pident_*] functions, [kstrtoul] and the
    kernel's rendering of pointers are code outside the repository: class
    [ProcApi]. *)
From S2P Require Import KState Fiber FiberSpec FiberRefine Cleanup FiberInv View.
From Stdlib Require Ascii.
Local Open Scope prog_scope.

(** ** Entries *)
Inductive fops := NoFops | FibersProcFops | FibersFops.

Record pid_entry := {
  pe_name : option string;
  pe_len : Z;
  pe_mode : Z;
  pe_fop : fops;
}.

Definition sizeof_pid_entry : Z := 40.
Definition zero_entry : pid_entry :=
  {| pe_name := None; pe_len := 0; pe_mode := 0; pe_fop := NoFops |}.

Definition S_IFREG : Z := 32768. (* 0100000 *)
Definition S_IRUGO : Z := 292. (* 0444 *)
Definition INFO_SIZE : Z := 1024.

Class ProcApi := {
  (* get_proc_task(inode); None is NULL *)
  inode : Type;
  get_proc_task : inode -> option task_struct;
  proc_pident_lookup : list pid_entry -> Z -> Z;
  proc_pident_readdir : list pid_entry -> Z -> Z;
  kstrtoul : string -> option Z;
  format_p : Z -> string;
  (* what freshly allocated entries hold, and the largest kmalloc *)
  uninit_entry : pid_entry;
  kmalloc_max : Z;
}.

(** ** Text *)
Definition bytes_of (x : string) : list Z :=
  map (fun c => Z.of_N (Ascii.N_of_ascii c)) (String.list_ascii_of_string x).

Definition hex_digit (d : Z) : string :=
  match String.get (Z.to_nat d) "0123456789abcdef" with
  | Some c => String c ""
  | None => ""
  end.

(* %x of a value cut to 32 bits: at most eight digits *)
Fixpoint hex_digits (n : nat) (x : Z) (acc : string) : string :=
  match n with
  | O => acc
  | S n =>
      let acc := (hex_digit (x mod 16) +:+ acc)%string in
      if x / 16 =? 0 then acc else hex_digits n (x / 16) acc
  end.
Definition format_x (x : Z) : string := hex_digits 8 (u32 x) "".

Definition newline : string := String (Ascii.ascii_of_nat 10) "".

Section proc.
Context `{K : KernelApi} `{U : !Uninit K} `{P : !ProcApi}.
Abbreviation M := (M (kstate K)).

(** ** Directory listings *)
Definition kmalloc_entries (nents : Z) : M (option (list pid_entry)) :=
  s <- get ;;
  put (set_nalloc (nalloc s + 1)%nat s) ;;;
  ret (if kmalloc_fails (nalloc s) || (kmalloc_max <? u64 (nents * sizeof_pid_entry))
       then None else Some (replicate (Z.to_nat nents) uninit_entry)).

(* memset(pid_fibers, 0, nents * sizeof(struct pid_entry)) *)
Definition memset_entries (a : option (list pid_entry)) (nents : Z) : M (option (list pid_entry)) :=
  match a with
  | None => if nents =? 0 then ret None else crash NullDeref
  | Some a => ret (Some (replicate (length a) zero_entry))
  end.

(* pid_fibers[i] = e *)
Definition set_entry (a : option (list pid_entry)) (i : nat) (e : pid_entry)
    : M (option (list pid_entry)) :=
  match a with
  | None => crash NullDeref
  | Some a =>
      if decide (i < length a)%nat then ret (Some (<[i := e]> a))
      else crash (OutOfBounds (Z.of_nat i))
  end.

Definition fiber_entry (f : fiber K) : pid_entry :=
  {| pe_name := Some (name (info f)); pe_len := Z.of_nat (String.length (name (info f)));
     pe_mode := Z.lor S_IFREG S_IRUGO; pe_fop := FibersProcFops |}.

Fixpoint fill_entries (l : list loc) (i : nat) (a : option (list pid_entry))
    : M (option (list pid_entry)) :=
  match l with
  | [] => ret a
  | x :: l' =>
      f <- load (A := fiber K) (PTR x) ;;
      a <- set_entry a i (fiber_entry f) ;;
      next_of (A := fiber K) (PTR x) ;;;
      fill_entries l' (S i) a
  end.

(** The body the two functions share (as repeated text): [call] is the
    kernel function the array is passed to. *)
Definition list_fibers (id : Z) (call : list pid_entry -> Z -> Z) : M Z :=
  tg <- get_group id ;;
  if is_null tg then ret 0 else
  g <- load (A := thread_group K) tg ;;
  let nents := u64 (fid_count g) in
  a <- kmalloc_entries nents ;;
  a <- memset_entries a nents ;;
  g <- load (A := thread_group K) tg ;;
  a <- fill_entries (hash_each (fibers g)) 0 a ;;
  ret (call (default [] a) nents).

Definition fibers_lookup (dir : inode) : M Z :=
  match get_proc_task dir with
  | None => ret (- ESRCH)
  | Some task => list_fibers (task_tgid task) proc_pident_lookup
  end.

Definition fibers_readdir (file_inode : inode) : M Z :=
  match get_proc_task file_inode with
  | None => ret (- ESRCH)
  | Some task => list_fibers (task_tgid task) proc_pident_readdir
  end.

(** ** One fiber *)
Definition fiber_text (f : fiber K) : string :=
  let i := info f in
  ("Name (Fiber ID): " +:+ name i +:+ newline +:+
   "Created by Thread: " +:+ format_d (parent i) +:+ newline +:+
   "Currently used by Thread: " +:+ format_d (state i) +:+ newline +:+
   "Entry point: " +:+ format_x (entry_point i) +:+ newline +:+
   "Parameters: " +:+ format_p (param i) +:+ newline +:+
   "Activations: " +:+ format_d (i32 (successful_activations i)) +:+ " success, " +:+
     format_d (failed_activations i) +:+ " failed" +:+ newline +:+
   "Last activation time: " +:+ pretty (last_activation_time i) +:+ newline +:+
   "Total running time: " +:+ pretty (total_running_time i) +:+ newline +:+ newline)%string.

(* snprintf into char[INFO_SIZE] *)
Definition fiber_data (f : fiber K) : list Z :=
  take (Z.to_nat (INFO_SIZE - 1)) (bytes_of (fiber_text f)).

(** The value returned and the new file offset. *)
Definition fibers_read (file_inode : inode) (d_name : string) (buf buf_size offset : Z)
    : M (Z * Z) :=
  match get_proc_task file_inode with
  | None => crash NullDeref
  | Some task =>
      tg <- get_group (task_tgid task) ;;
      if is_null tg then ret (- ESRCH, offset) else
      let read_fid := default 0 (kstrtoul d_name) in
      f <- get_fiber (i32 read_fid) tg ;;
      if is_null f then ret (- ESRCH, offset) else
      x <- load (A := fiber K) f ;;
      let data := fiber_data x in
      let data_lenght := Z.of_nat (length data) in
      if offset >=? data_lenght then ret (0, offset) else
      let read_bytes :=
        if buf_size <? u64 (data_lenght - offset - 1) then buf_size
        else data_lenght - offset - 1 in
      if offset <? 0 then crash (OutOfBounds offset) else
      s <- get ;;
      let '(r, m) := copy_to_user (user s) buf
                       (take (Z.to_nat read_bytes) (drop (Z.to_nat offset) data)) in
      put (set_user m s) ;;;
      if negb (r =? 0) then ret (-1, offset) else
      ret (read_bytes, offset + read_bytes)
  end.

(** A program that reads the file from [offset] with a buffer of [n] bytes
    at [buf] until a read returns 0, and collects what it finds there. *)
Fixpoint read_file (fuel : nat) (ino : inode) (d_name : string) (buf n offset : Z)
    : M (list Z) :=
  match fuel with
  | O => crash OutOfFuel
  | S fuel =>
      x <- fibers_read ino d_name buf n offset ;;
      let '(r, offset') := x in
      if r <=? 0 then ret [] else
      s <- get ;;
      let '(_, bs) := copy_from_user (user s) buf r in
      rest <- read_file fuel ino d_name buf n offset' ;;
      ret (bs ++ rest)
  end.
End proc.

(** ** Properties *)
Section proc_properties.
Context `{K : KernelApi} `{L : !KernelLaws K} `{U : !Uninit K} `{P : !ProcApi}.
Implicit Types (s : kstate K) (f : fiber K).

Lemma length_fiber_data f : (1 <= length (fiber_data f) <= 1023)%nat.
Proof.
  unfold fiber_data. rewrite length_take. change (Z.to_nat (INFO_SIZE - 1)) with 1023%nat.
  assert (1 <= length (bytes_of (fiber_text f)))%nat; [|lia].
  unfold bytes_of, fiber_text. rewrite length_map. cbv zeta.
  match goal with |- context [("Name (Fiber ID): " +:+ ?x)%string] => generalize x end.
  intros x. apply le_n_S, Nat.le_0_l.
Qed.

(** One read, in the middle of the text or at its end. *)
Lemma run_fibers_read s ino task d i f buf n off :
  consistent s -> get_proc_task ino = Some task ->
  fiber_at s (task_tgid task, i) = Some f -> kstrtoul d = Some i -> in_i32 i ->
  0 <= off ->
  fibers_read ino d buf n off s =
    (let len := Z.of_nat (length (fiber_data f)) in
     if off >=? len then Ret ((0, off), s) else
     let r := Z.min n (len - off - 1) in
     let '(e, m) := copy_to_user (user s) buf
                      (take (Z.to_nat r) (drop (Z.to_nat off) (fiber_data f))) in
     Ret (if e =? 0 then (r, off + r) else (-1, off), set_user m s)).
Proof.
  intros Hs Hino Hf Hd Hi Hoff. unfold fibers_read. rewrite Hino.
  destruct (run_get_fiber s _ _ f Hs Hf) as (gl & l & Hg & Hl & Hload).
  rewrite (bind_run _ _ _ _ _ Hg). cbn [is_null]. rewrite Hd. cbn [default].
  change (default 0 (Some i)) with i. rewrite i32_small by done.
  rewrite (bind_run _ _ _ _ _ Hl). cbn [is_null]. rewrite (bind_run _ _ _ _ _ Hload).
  cbv zeta. pose proof (length_fiber_data f) as Hlen.
  destruct (_ >=? _) eqn:Hge; [done|]. rewrite Z.geb_leb, Z.leb_gt in Hge.
  rewrite u64_small by (unfold in_u64; lia).
  rewrite (proj2 (Z.ltb_ge off 0)) by lia.
  assert ((if n <? Z.of_nat (length (fiber_data f)) - off - 1 then n
           else Z.of_nat (length (fiber_data f)) - off - 1)
          = Z.min n (Z.of_nat (length (fiber_data f)) - off - 1)) as ->.
  { destruct (Z.ltb_spec n (Z.of_nat (length (fiber_data f)) - off - 1)); lia. }
  unfold bind at 1, get. cbn beta iota.
  destruct (copy_to_user _ _ _) as [e m]. unfold bind, put. by destruct (e =? 0).
Qed.

(** C24: a program that reads the file of a fiber from its start, with a buffer of
    any size, gets the whole description of the fiber but its last byte
    (the final newline), and the reads come to an end. *)
Theorem proc_read_file s ino task d i f buf n fuel :
  consistent s -> get_proc_task ino = Some task ->
  fiber_at s (task_tgid task, i) = Some f -> kstrtoul d = Some i -> in_i32 i ->
  0 < n -> writable (user s) buf n -> (length (fiber_data f) <= fuel)%nat ->
  exists s', read_file fuel ino d buf n 0 s =
    Ret (take (length (fiber_data f) - 1) (fiber_data f), s') /\ consistent s'.
Proof.
  intros Hs Hino Hf Hd Hi Hn Hw Hfuel. pose proof (length_fiber_data f) as Hlen.
  assert (forall fuel off s, consistent s -> fiber_at s (task_tgid task, i) = Some f ->
    writable (user s) buf n -> (off < length (fiber_data f))%nat ->
    (length (fiber_data f) - off <= fuel)%nat ->
    exists s', read_file fuel ino d buf n (Z.of_nat off) s =
      Ret (take (length (fiber_data f) - 1 - off) (drop off (fiber_data f)), s') /\
      consistent s') as Hloop.
  { clear s Hs Hf Hw fuel Hfuel. induction fuel as [|fuel IH]; intros off s Hs Hf Hw Hlt Hfuel; [lia|].
    cbn [read_file].
    pose proof (run_fibers_read s ino task d i f buf n (Z.of_nat off) Hs Hino Hf Hd Hi ltac:(lia))
      as Hrun. cbv zeta in Hrun. rewrite Z.geb_leb, (proj2 (Z.leb_gt _ _)) in Hrun by lia.
    set (r := Z.min n (Z.of_nat (length (fiber_data f)) - Z.of_nat off - 1)) in *.
    rewrite Nat2Z.id in Hrun. set (bs := take (Z.to_nat r) (drop off (fiber_data f))) in *.
    assert (Z.of_nat (length bs) = r) as Hbs.
    { subst bs. rewrite length_take, length_drop. lia. }
    destruct (Hw bs) as [m Hm]; [lia|]. rewrite Hm in Hrun. cbn in Hrun.
    rewrite (bind_run _ _ _ _ _ Hrun). cbn beta iota.
    destruct (r <=? 0) eqn:Hr.
    - apply Z.leb_le in Hr. exists (set_user m s). split; [|by apply consistent_set_user].
      replace (length (fiber_data f) - 1 - off)%nat with 0%nat by lia. done.
    - apply Z.leb_gt in Hr.
      unfold bind at 1, get. cbn beta iota. cbn [user set_user].
      pose proof (copy_to_from_user _ _ _ _ Hm) as Hback. rewrite Hbs in Hback. rewrite Hback.
      destruct (IH (off + Z.to_nat r)%nat (set_user m s)) as (s' & Hrest & Hs').
      + by apply consistent_set_user.
      + by rewrite fiber_set_user.
      + by eapply copy_to_user_stable.
      + lia.
      + lia.
      + rewrite Nat2Z.inj_add, Z2Nat.id in Hrest by lia.
        rewrite (bind_run _ _ _ _ _ Hrest). exists s'. split; [|done].
        unfold ret. f_equal. f_equal. subst bs. rewrite <- drop_drop.
        replace (length (fiber_data f) - 1 - off)%nat
          with (Z.to_nat r + (length (fiber_data f) - 1 - (off + Z.to_nat r)))%nat by lia.
        by rewrite <- take_take_drop. }
  destruct (Hloop fuel 0%nat s Hs Hf Hw ltac:(lia) ltac:(lia)) as (s' & Hrun & Hs').
  exists s'. split; [|done]. rewrite Nat.sub_0_r in Hrun. by rewrite drop_0 in Hrun.
Qed.

(** Reading the file of a fiber the process does not have (or of
    a process that has none) is answered [-ESRCH], and changes nothing. *)
Theorem proc_read_missing s ino task d i buf n off :
  consistent s -> get_proc_task ino = Some task ->
  fiber_at s (task_tgid task, i) = None -> kstrtoul d = Some i -> in_i32 i ->
  fibers_read ino d buf n off s = Ret ((- ESRCH, off), s).
Proof.
  intros Hs Hino Hf Hd Hi. unfold fibers_read. rewrite Hino, Hd.
  change (default 0 (Some i)) with i. rewrite i32_small by done.
  destruct (run_get_fiber_none s _ i Hs Hf) as [Hg|(gl & Hg & Hl)];
    rewrite (bind_run _ _ _ _ _ Hg); cbn [is_null]; [done|].
  by rewrite (bind_run _ _ _ _ _ Hl).
Qed.

(** ** The listing overflows its array *)
Lemma fill_entries_overflow l : forall i (a : list pid_entry) s,
  (forall x, x ∈ l -> exists f, heap_fibers s !! x = Some (Live f)) ->
  (i <= length a)%nat -> (length a < i + length l)%nat ->
  fill_entries l i (Some a) s = Fault (OutOfBounds (Z.of_nat (length a))).
Proof.
  induction l as [|x l IH]; intros i a s Hl Hi Hlen; cbn [length] in *; [lia|].
  destruct (Hl x) as [f Hf]; [set_solver|]. cbn [fill_entries].
  pose proof (load_run (HA := fiber_heap) x f s Hf) as Hload.
  rewrite (bind_run _ _ _ _ _ Hload). unfold set_entry. case_decide.
  - rewrite (bind_run _ _ s _ s eq_refl).
    rewrite (bind_run (next_of _) _ s tt s); [|unfold next_of; by rewrite (bind_run _ _ _ _ _ Hload)].
    rewrite IH; rewrite ?length_insert; [done|set_solver|lia|lia].
  - apply bind_fault. unfold crash. do 3 f_equal. lia.
Qed.

(** C25: listing or looking up the fibers of a process writes past the end of
    the array it allocates: the array has [fid_count] entries, and the
    process has one fiber more than that. *)
Theorem proc_listing_overflows s ino task c :
  (forall n, kmalloc_fails n = false) ->
  consistent s -> get_proc_task ino = Some task -> count_at s (task_tgid task) = Some c ->
  0 <= c -> c * sizeof_pid_entry <= kmalloc_max ->
  fibers_readdir ino s = Fault (OutOfBounds c) /\ fibers_lookup ino s = Fault (OutOfBounds c).
Proof.
  intros Hmem Hs Hino Hc Hpos Hmax.
  destruct (run_get_group_some s _ c Hs Hc) as (gl & x & Hg & Hx & Hcnt & Hrange & Hlen & Hlive).
  assert (forall call, list_fibers (task_tgid task) call s = Fault (OutOfBounds c)) as H.
  { intros call. unfold list_fibers. rewrite (bind_run _ _ _ _ _ Hg). cbn [is_null].
    rewrite (bind_run _ _ _ _ _ (load_run (HA := group_heap) gl x s Hx)). cbv zeta. rewrite Hcnt.
    rewrite u64_small by (unfold in_u64; lia).
    set (s1 := set_nalloc (nalloc s + 1)%nat s).
    rewrite (bind_run (kmalloc_entries c) _ s (Some (replicate (Z.to_nat c) uninit_entry)) s1).
    2: { unfold kmalloc_entries, bind, get, put, ret. rewrite Hmem. cbn [orb].
         rewrite u64_small by (unfold in_u64, sizeof_pid_entry in *; lia).
         by rewrite (proj2 (Z.ltb_ge _ _)). }
    rewrite (bind_run (memset_entries _ _) _ s1 (Some (replicate (Z.to_nat c) zero_entry)) s1)
      by (unfold memset_entries; by rewrite length_replicate).
    rewrite (bind_run _ _ _ _ _ (load_run (HA := group_heap) gl x s1 Hx)).
    apply bind_fault. rewrite fill_entries_overflow; rewrite ?length_replicate; [|done|lia|lia].
    by rewrite Z2Nat.id. }
  unfold fibers_readdir, fibers_lookup. by rewrite Hino, !H.
Qed.
End proc_properties.
