(* ===== verification/Driver.v ===== *)
(** * Loading and unloading ([fibers/module.c], the end of [fibers/device.c],
    [fibers/probes.c])

    The functions that register the character device and the two
    kretprobes and undo it, the handlers of the probes, and the module's entry
    points.  The kernel functions they call are outside the repository: class
    [DriverApi] gives their answers, and the state records the calls made, in
    order, so that the theorems are about the sequence of calls. *)
From S2P Require Import KState Fiber FiberSpec FiberRefine Cleanup FiberInv View Proc.
Local Open Scope prog_scope.

Inductive call :=
  | RegisterChrdev
  | ClassCreate
  | SetDevnode (class : ptr)
  | DeviceCreate (class : ptr) (major : Z)
  | DeviceDestroy (class : ptr) (major : Z)
  | ClassUnregister (class : ptr)
  | ClassDestroy (class : ptr)
  | UnregisterChrdev (major : Z)
  | RegisterKretprobe (symbol : string)
  | UnregisterKretprobe (symbol : string)
  (* the entries passed start at fibers_dir + first, [count] of them *)
  | PidentReaddir (first count : Z)
  | PidentLookup (first count : Z).

Class DriverApi := {
  register_chrdev : Z;
  class_create : ptr;
  device_create : ptr;
  kallsyms_lookup_name : string -> Z;
  register_kretprobe : string -> Z;
}.

Definition MAX_ERRNO : Z := 4095.
Definition IS_ERR (p : ptr) : bool := match p with ERR e => true | _ => false end.
Definition PTR_ERR (p : ptr) : Z := match p with NULL => 0 | ERR e => e | PTR l => Zpos l end.

Record proc_kernel_syms_t := {
  sym_readdir : Z; sym_lookup : Z; sym_setattr : Z; sym_getattr : Z;
}.

(** struct kretprobe, as far as the module fills it in *)
Inductive handler := NoHandler | EntryReaddir | HandlerReaddir | EntryLookup | HandlerLookup.
Record kretprobe := {
  entry_handler : handler; ret_handler : handler; data_size : Z; symbol_name : string;
}.

Section driver.
Context `{K : KernelApi} `{U : !Uninit K} `{P : !ProcApi} `{D : !DriverApi}.

Record driver := {
  kernel : kstate K;
  fibers_device_major : Z;
  fibers_device_class : ptr;
  fibers_device : ptr;
  proc_kernel_syms : proc_kernel_syms_t;
  (* fibers_iops.getattr and .setattr *)
  iops_getattr : Z;
  iops_setattr : Z;
  proc_readdir_krp : kretprobe;
  proc_lookup_krp : kretprobe;
  nents : Z;
  check_nents : bool;
  calls : list call;
}.

Abbreviation M := (M driver).

Definition set_kernel (k : kstate K) (d : driver) : driver :=
  {| kernel := k; fibers_device_major := fibers_device_major d;
     fibers_device_class := fibers_device_class d; fibers_device := fibers_device d;
     proc_kernel_syms := proc_kernel_syms d; iops_getattr := iops_getattr d;
     iops_setattr := iops_setattr d; proc_readdir_krp := proc_readdir_krp d;
     proc_lookup_krp := proc_lookup_krp d; nents := nents d;
     check_nents := check_nents d; calls := calls d |}.
Definition set_device (major : Z) (class dev : ptr) (d : driver) : driver :=
  {| kernel := kernel d; fibers_device_major := major;
     fibers_device_class := class; fibers_device := dev;
     proc_kernel_syms := proc_kernel_syms d; iops_getattr := iops_getattr d;
     iops_setattr := iops_setattr d; proc_readdir_krp := proc_readdir_krp d;
     proc_lookup_krp := proc_lookup_krp d; nents := nents d;
     check_nents := check_nents d; calls := calls d |}.
Definition set_probes (sy : proc_kernel_syms_t) (ga sa : Z) (rd lk : kretprobe) (d : driver)
    : driver :=
  {| kernel := kernel d; fibers_device_major := fibers_device_major d;
     fibers_device_class := fibers_device_class d; fibers_device := fibers_device d;
     proc_kernel_syms := sy; iops_getattr := ga; iops_setattr := sa;
     proc_readdir_krp := rd; proc_lookup_krp := lk; nents := nents d;
     check_nents := check_nents d; calls := calls d |}.
Definition set_nents (n : Z) (b : bool) (d : driver) : driver :=
  {| kernel := kernel d; fibers_device_major := fibers_device_major d;
     fibers_device_class := fibers_device_class d; fibers_device := fibers_device d;
     proc_kernel_syms := proc_kernel_syms d; iops_getattr := iops_getattr d;
     iops_setattr := iops_setattr d; proc_readdir_krp := proc_readdir_krp d;
     proc_lookup_krp := proc_lookup_krp d; nents := n; check_nents := b; calls := calls d |}.
Definition add_call (c : call) (d : driver) : driver :=
  {| kernel := kernel d; fibers_device_major := fibers_device_major d;
     fibers_device_class := fibers_device_class d; fibers_device := fibers_device d;
     proc_kernel_syms := proc_kernel_syms d; iops_getattr := iops_getattr d;
     iops_setattr := iops_setattr d; proc_readdir_krp := proc_readdir_krp d;
     proc_lookup_krp := proc_lookup_krp d; nents := nents d;
     check_nents := check_nents d; calls := calls d ++ [c] |}.

Definition do_call (c : call) : M unit := modify (add_call c).

(** Run an operation of the fiber module. *)
Definition on_kernel {A} (m : Prelude.M (kstate K) A) : M A :=
  d <- get ;;
  match m (kernel d) with
  | Ret (x, k) => put (set_kernel k d) ;;; ret x
  | Fault f => crash f
  end.

(** ** device.c *)
(* the mode written through the pointer, if there is one *)
Definition devnode_mode (mode : option Z) : option Z :=
  match mode with Some _ => Some 438 (* 0666 *) | None => None end.

Definition fibers_register_device : M Z :=
  do_call RegisterChrdev ;;;
  modify (fun d => set_device register_chrdev (fibers_device_class d) (fibers_device d) d) ;;;
  if register_chrdev <? 0 then d <- get ;; ret (fibers_device_major d) else
  do_call ClassCreate ;;;
  modify (fun d => set_device (fibers_device_major d) class_create (fibers_device d) d) ;;;
  if IS_ERR class_create then
    d <- get ;;
    do_call (UnregisterChrdev (fibers_device_major d)) ;;;
    ret (PTR_ERR class_create)
  else
  do_call (SetDevnode class_create) ;;;
  d <- get ;;
  do_call (DeviceCreate (fibers_device_class d) (fibers_device_major d)) ;;;
  modify (fun d => set_device (fibers_device_major d) (fibers_device_class d) device_create d) ;;;
  if IS_ERR device_create then
    d <- get ;;
    do_call (ClassDestroy (fibers_device_class d)) ;;;
    do_call (UnregisterChrdev (fibers_device_major d)) ;;;
    ret (PTR_ERR device_create)
  else ret SUCCESS.

Definition fibers_unregister_device : M Z :=
  d <- get ;;
  do_call (DeviceDestroy (fibers_device_class d) (fibers_device_major d)) ;;;
  do_call (ClassUnregister (fibers_device_class d)) ;;;
  do_call (ClassDestroy (fibers_device_class d)) ;;;
  do_call (UnregisterChrdev (fibers_device_major d)) ;;;
  ret SUCCESS.

(** ** probes.c *)
Definition fibers_register_kretprobe : M Z :=
  let sy := {| sym_readdir := kallsyms_lookup_name "proc_pident_readdir";
               sym_lookup := kallsyms_lookup_name "proc_pident_lookup";
               sym_setattr := kallsyms_lookup_name "proc_setattr";
               sym_getattr := kallsyms_lookup_name "pid_getattr" |} in
  modify (set_probes sy (sym_getattr sy) (sym_setattr sy)
    {| entry_handler := EntryReaddir; ret_handler := HandlerReaddir; data_size := 16;
       symbol_name := "proc_tgid_base_readdir" |}
    {| entry_handler := EntryLookup; ret_handler := HandlerLookup; data_size := 16;
       symbol_name := "proc_tgid_base_lookup" |}) ;;;
  d <- get ;;
  do_call (RegisterKretprobe (symbol_name (proc_readdir_krp d))) ;;;
  do_call (RegisterKretprobe (symbol_name (proc_lookup_krp d))) ;;;
  ret SUCCESS.

Definition fibers_unregister_kretprobe : M Z :=
  d <- get ;;
  do_call (UnregisterKretprobe (symbol_name (proc_readdir_krp d))) ;;;
  do_call (UnregisterKretprobe (symbol_name (proc_lookup_krp d))) ;;;
  ret SUCCESS.

(** What the entry handlers save of the probed call's first two arguments. *)
Record tgid_dir_data := { dd_file : inode; dd_ctx_pos : Z }.
Record tgid_lookup_data := { ld_inode : inode; ld_dentry : Z }.
Definition entry_handler_readdir (di : inode) (si : Z) : tgid_dir_data * Z :=
  ({| dd_file := di; dd_ctx_pos := si |}, 0).
Definition entry_handler_lookup (di : inode) (si : Z) : tgid_lookup_data * Z :=
  ({| ld_inode := di; ld_dentry := si |}, 0).

(* fibers_dir - (pos - 2), pos - 1, in unsigned arithmetic *)
Definition window (pos : Z) : Z * Z := (- u32 (pos - 2), u32 (pos - 1)).

Definition handler_lookup (data : tgid_lookup_data) : M Z :=
  match get_proc_task (ld_inode data) with
  | None => crash NullDeref
  | Some task =>
      tg <- on_kernel (get_group (task_tgid task)) ;;
      if is_null tg then ret 0 else
      d <- get ;;
      if nents d =? 0 then ret 0 else
      let pos := u32 (nents d) in
      do_call (PidentLookup (window pos).1 (window pos).2) ;;;
      ret 0
  end.

Definition handler_readdir (data : tgid_dir_data) : M Z :=
  d <- get ;;
  (if nents d =? 0 then
     if check_nents d then crash DeadLock else
     modify (fun d => set_nents (nents d) true d) ;;;
     modify (fun d => if nents d =? 0 then set_nents (i32 (dd_ctx_pos data)) (check_nents d) d
                      else d) ;;;
     modify (fun d => set_nents (nents d) false d)
   else ret tt) ;;;
  match get_proc_task (dd_file data) with
  | None => crash NullDeref
  | Some task =>
      tg <- on_kernel (get_group (task_tgid task)) ;;
      if is_null tg then ret 0 else
      d <- get ;;
      let pos := u32 (nents d) in
      do_call (PidentReaddir (window pos).1 (window pos).2) ;;;
      ret 0
  end.

(** ** module.c *)
Definition fibers_init_module : M Z :=
  fibers_register_device ;;;
  fibers_register_kretprobe ;;;
  ret SUCCESS.

Definition fibers_exit_module : M unit :=
  on_kernel cleanup_all ;;;
  fibers_unregister_kretprobe ;;;
  fibers_unregister_device ;;;
  ret tt.
End driver.
Arguments driver K : clear implicits.

(** ** Properties *)
Section driver_properties.
Context `{K : KernelApi} `{L : !KernelLaws K} `{U : !Uninit K} `{P : !ProcApi} `{D : !DriverApi}.
Implicit Types (d : driver K).

(** What a sequence of calls holds at its end, and whether each release was of something
    held. *)
Record resources := { has_chrdev : bool; has_class : bool; has_device : bool }.
Definition nothing : resources := {| has_chrdev := false; has_class := false; has_device := false |}.
Definition everything : resources := {| has_chrdev := true; has_class := true; has_device := true |}.

Definition acquire_release (c : call) (r : resources) : resources :=
  match c with
  | RegisterChrdev => {| has_chrdev := negb (register_chrdev <? 0);
                         has_class := has_class r; has_device := has_device r |}
  | ClassCreate => {| has_chrdev := has_chrdev r; has_class := negb (IS_ERR class_create);
                      has_device := has_device r |}
  | DeviceCreate _ _ => {| has_chrdev := has_chrdev r; has_class := has_class r;
                           has_device := negb (IS_ERR device_create) |}
  | DeviceDestroy _ _ => {| has_chrdev := has_chrdev r; has_class := has_class r;
                            has_device := false |}
  | ClassUnregister _ | ClassDestroy _ =>
      {| has_chrdev := has_chrdev r; has_class := false; has_device := has_device r |}
  | UnregisterChrdev _ =>
      {| has_chrdev := false; has_class := has_class r; has_device := has_device r |}
  | _ => r
  end.
Definition needs (c : call) (r : resources) : bool :=
  match c with
  | DeviceDestroy _ _ => has_device r
  | ClassUnregister _ | ClassDestroy _ | SetDevnode _ | DeviceCreate _ _ => has_class r
  | UnregisterChrdev _ => has_chrdev r
  | _ => true
  end.
Fixpoint held (cs : list call) (r : resources) : resources :=
  match cs with [] => r | c :: cs => held cs (acquire_release c r) end.
Fixpoint proper (cs : list call) (r : resources) : bool :=
  match cs with [] => true | c :: cs => needs c r && proper cs (acquire_release c r) end.

(** A pointer the kernel returns: an object or an error number. *)
Definition ptr_or_err (p : ptr) : Prop :=
  match p with NULL => False | ERR e => - MAX_ERRNO <= e < 0 | PTR _ => True end.

(** Registering the device succeeds with the major number, the class and
    the device all held, or returns a negative error and holds none of
    them: on each error path exactly what was acquired is released. *)
Theorem register_device_all_or_nothing d :
  ptr_or_err class_create -> ptr_or_err device_create ->
  exists r d' cs, fibers_register_device d = Ret (r, d') /\ calls d' = calls d ++ cs /\
    proper cs nothing = true /\
    ((r = SUCCESS /\ held cs nothing = everything /\
      fibers_device_major d' = register_chrdev /\
      fibers_device_class d' = class_create /\ fibers_device d' = device_create) \/
     (r < 0 /\ held cs nothing = nothing)).
Proof.
  intros Hc Hd. unfold fibers_register_device, do_call, bind, modify, get, ret.
  destruct (register_chrdev <? 0) eqn:Hm.
  { eexists _, _, [_]. split; [done|]. split; [done|]. split; [done|]. right. cbn. rewrite Hm.
    apply Z.ltb_lt in Hm. by split; [lia|]. }
  destruct class_create as [|e|l] eqn:Ec; [done|..]; cbn [IS_ERR PTR_ERR].
  { eexists _, _, [_; _; _]. split; [done|]. cbn. rewrite <- !app_assoc. split; [done|].
    cbn. rewrite ?Hm, ?Ec. cbn. split; [done|]. right. cbn in Hc. split; [lia|done]. }
  destruct device_create as [|e|l'] eqn:Ed; [done|..]; cbn [IS_ERR PTR_ERR].
  - eexists _, _, [_; _; _; _; _; _]. split; [done|]. cbn. rewrite <- !app_assoc.
    split; [done|]. cbn. rewrite ?Hm, ?Ec, ?Ed. cbn. split; [done|]. right. cbn in Hd. split; [lia|done].
  - eexists _, _, [_; _; _; _]. split; [done|]. cbn. rewrite <- !app_assoc.
    split; [done|]. cbn. rewrite ?Hm, ?Ec, ?Ed. cbn. split; [done|]. left. done.
Qed.

(** Unregistering a device that was registered leaves nothing held,
    but not properly: its class, which [class_unregister] has just
    released, is released again by [class_destroy]; without the first of
    the two calls every release would be of something held. *)
Theorem unregister_device_releases_class_twice d :
  let cl := fibers_device_class d in
  let mj := fibers_device_major d in
  exists d' before after, fibers_unregister_device d = Ret (SUCCESS, d') /\
    calls d' = calls d ++ before ++ ClassUnregister cl :: after /\
    held (before ++ ClassUnregister cl :: after) everything = nothing /\
    proper (before ++ ClassUnregister cl :: after) everything = false /\
    proper (before ++ after) everything = true.
Proof.
  intros cl mj. unfold fibers_unregister_device, do_call, bind, modify, get, ret.
  eexists _, [DeviceDestroy cl mj], [ClassDestroy cl; UnregisterChrdev mj].
  split; [done|]. cbn. by rewrite <- !app_assoc.
Qed.

(** Loading the module reports success even when the device could not be
    registered: the probes are installed, and there is no device. *)
Theorem init_ignores_failure d :
  register_chrdev < 0 ->
  exists d' cs, fibers_init_module d = Ret (SUCCESS, d') /\ calls d' = calls d ++ cs /\
    held cs nothing = nothing /\
    RegisterKretprobe "proc_tgid_base_readdir" ∈ cs /\
    RegisterKretprobe "proc_tgid_base_lookup" ∈ cs.
Proof.
  intros Hm%Z.ltb_lt. unfold fibers_init_module, fibers_register_device, fibers_register_kretprobe,
    do_call, bind, modify, get, ret. rewrite Hm. cbn beta iota.
  eexists _, [_; _; _]. split; [done|]. cbn. rewrite <- !app_assoc. split; [done|].
  cbn. rewrite Hm. split; [done|]. set_solver.
Qed.

Lemma on_kernel_run {A} (m : Prelude.M (kstate K) A) d x k :
  m (kernel d) = Ret (x, k) -> on_kernel m d = Ret (x, set_kernel k d).
Proof. intros H. unfold on_kernel, bind, get, put, ret. by rewrite H. Qed.

(** Unloading the module from a consistent state returns, after freeing every
    process's threads and fibers, removing the probes and then the device. *)
Theorem exit_module_cleans d :
  uaf_traps = false -> consistent (kernel d) ->
  exists d', fibers_exit_module d = Ret (tt, d') /\ consistent (kernel d') /\
    (forall g, count_at (kernel d') g = None) /\
    (forall k, thread_at (kernel d') k = None) /\ (forall k, fiber_at (kernel d') k = None) /\
    calls d' = calls d ++ [UnregisterKretprobe (symbol_name (proc_readdir_krp d));
      UnregisterKretprobe (symbol_name (proc_lookup_krp d));
      DeviceDestroy (fibers_device_class d) (fibers_device_major d);
      ClassUnregister (fibers_device_class d); ClassDestroy (fibers_device_class d);
      UnregisterChrdev (fibers_device_major d)].
Proof.
  intros Huaf (a & m & Hst & I & _)%consistent_st.
  pose proof (st_cleanup_all Huaf _ _ _ _ _ Hst) as Hw.
  apply wp_run in Hw as (r & k & Hrun & -> & m' & Hst').
  destruct (st_holds _ _ _ _ _ Hst' ainv_init) as (Hs' & C' & T' & F').
  unfold fibers_exit_module. rewrite (bind_run _ _ _ _ _ (on_kernel_run _ _ _ _ Hrun)).
  unfold fibers_unregister_kretprobe, fibers_unregister_device, do_call, bind, modify, get, ret.
  eexists. split; [done|]. cbn. rewrite <- !app_assoc. split; [done|].
  split; [|split; [|split; [|done]]]; intros k'; [rewrite C'|rewrite T'|rewrite F'];
    apply lookup_empty.
Qed.

(** The probe of the directory listing passes the array [fibers_dir] shifted so that
    its only element comes last, at index [nents - 2]: the number of
    entries is fixed by the first listing, whatever position later ones
    start at.  The elements before it are outside [fibers_dir]. *)
Theorem readdir_window d data task n :
  consistent (kernel d) -> check_nents d = false -> get_proc_task (dd_file data) = Some task ->
  is_Some (count_at (kernel d) (task_tgid task)) ->
  n = (if nents d =? 0 then dd_ctx_pos data else nents d) -> 2 <= n < 2 ^ 31 ->
  exists d' first count, handler_readdir data d = Ret (0, d') /\
    calls d' = calls d ++ [PidentReaddir first count] /\
    nents d' = n /\ check_nents d' = false /\
    first + (n - 2) = 0 /\ first + count = 1 /\ (2 < n -> first < 0).
Proof.
  intros Hs Hlock Htask [c Hc] Hn Hrange.
  destruct (run_get_group_some _ _ c Hs Hc) as (gl & x & Hg & _).
  assert (i32 n = n) as Hi by (apply i32_small; unfold in_i32; lia).
  unfold handler_readdir. rewrite (bind_run _ _ d d d eq_refl).
  set (d1 := if nents d =? 0 then set_nents n false d else d).
  assert (nents d1 = n /\ check_nents d1 = false /\ calls d1 = calls d /\ kernel d1 = kernel d)
    as (H1 & H2 & H3 & H4).
  { subst d1. rewrite Hn. destruct (nents d =? 0) eqn:E; cbn; [done|]. done. }
  rewrite (bind_run _ _ d tt d1).
  2: { subst d1. destruct (nents d =? 0) eqn:E; [|done]. rewrite Hlock. subst n.
       unfold bind, modify, get, ret. cbn. rewrite E. cbn. by rewrite Hi. }
  rewrite Htask.
  assert (on_kernel (get_group (task_tgid task)) d1 = Ret (PTR gl, set_kernel (kernel d) d1)) as Hk.
  { apply on_kernel_run. by rewrite H4. }
  rewrite (bind_run _ _ _ _ _ Hk). cbn [is_null].
  unfold bind, get, do_call, modify, ret. cbn. rewrite H1.
  unfold window. rewrite (u32_small n) by (unfold in_u32; lia).
  rewrite !u32_small by (unfold in_u32; lia).
  eexists _, _, _. split; [done|]. cbn. rewrite H1, H2, H3. do 3 (split; [done|]). lia.
Qed.
End driver_properties.
