(* ===== verification/FiberLib.v ===== *)
(** * The user library ([libfibers/fiberlib.c], [libfibers/include/fiberlib.h])

    The seven functions a program calls, on top of the ioctls of Device.v.
    A process has the kernel under it and the global [fd].  The arguments go
    through the process's memory as bytes: each structure is written to the
    address it has on the stack and read by the kernel from there.  [open],
    [posix_memalign] and the addresses of the locals are the environment's:
    class [LibApi]. *)
From S2P Require Import KState Fiber Device FiberSpec FiberRefine FiberInv View Requests Switching LocalStorage.
Local Open Scope prog_scope.

Class LibApi := {
  (* open("/dev/fibers", O_RDWR) *)
  open_device : Z;
  (* posix_memalign(&p, align, size): its result and the pointer stored *)
  posix_memalign : Z -> Z -> Z * Z;
  (* where the argument structures, and read_value of Fls_get_value, live *)
  args_slot : Z;
  value_slot : Z;
}.

Section lib.
Context `{K : KernelApi} `{U : !Uninit K} `{B : !LibApi}.

Record process := { ker : kstate K; fd : Z }.
Abbreviation M := (M process).

Definition set_fd (x : Z) (p : process) : process := {| ker := ker p; fd := x |}.

Definition in_kernel {A} (m : Prelude.M (kstate K) A) : M A :=
  p <- get ;;
  match m (ker p) with
  | Ret (x, k) => put {| ker := k; fd := fd p |} ;;; ret x
  | Fault f => crash f
  end.

(** The process stores bytes in its own memory. *)
Definition poke (a : Z) (bs : list Z) : M unit :=
  p <- get ;;
  let '(r, m) := copy_to_user (user (ker p)) a bs in
  if r =? 0 then put {| ker := set_user m (ker p); fd := fd p |} else crash (BadPointer a).

Definition peek (a n : Z) : M (list Z) :=
  p <- get ;;
  let '(r, bs) := copy_from_user (user (ker p)) a n in
  if r =? 0 then ret bs else crash (BadPointer a).

(* the C library's ioctl: -1 (and errno) when the kernel returns an error
   number, or when [fd] is not the device *)
Definition libc_result (r : Z) : Z := if (- 4095 <=? r) && (r <? 0) then -1 else r.

Definition ioctl (cmd arg : Z) : M Z :=
  p <- get ;;
  if (fd p =? open_device) && (0 <=? fd p) then
    r <- in_kernel (fibers_ioctl cmd arg) ;; ret (libc_result r)
  else ret (-1).

Definition exit {A} (code : Z) : M A := crash (Exited code).

Definition Convert_thread_to_fiber : M Z :=
  modify (set_fd open_device) ;;;
  if open_device <? 0 then exit (- ENOENT) else
  in_kernel (fibers_open true) ;;;
  r <- ioctl IOCTL_CONVERT_THREAD_TO_FIBER 0 ;;
  ret (i32 r).

Definition Create_fiber (stack_size entry params : Z) : M Z :=
  let '(err, stack) := posix_memalign 16 stack_size in
  if negb (err =? 0) then exit (- ECANCELED) else
  poke stack (replicate (Z.to_nat stack_size) 0) ;;;
  poke args_slot (encode_fib_args {| fa_stack_base := stack; fa_stack_size := stack_size;
                                     fa_entry_point := entry; fa_params := params |}) ;;;
  r <- ioctl IOCTL_CREATE_FIBER args_slot ;;
  ret (i32 r).

(* the kernel is given the address of the parameter [fib], a void pointer *)
Definition Switch_to_fiber (fib : Z) : M Z :=
  poke args_slot (le_bytes 8 fib) ;;;
  r <- ioctl IOCTL_SWITCH_TO_FIBER args_slot ;;
  if r <? 0 then ret (- EAGAIN) else ret (i32 r).

Definition Fls_alloc : M Z :=
  r <- ioctl IOCTL_FLS_ALLOC 0 ;;
  if r <? 0 then ret (- EAGAIN) else ret r.

Definition Fls_get_value (index : Z) : M Z :=
  poke value_slot (le_bytes 8 0) ;;;
  poke args_slot (encode_fls_args {| idx := index; value := value_slot |}) ;;;
  r <- ioctl IOCTL_FLS_GET_VALUE args_slot ;;
  if r <? 0 then ret (- EAGAIN) else
  bs <- peek value_slot 8 ;;
  ret (i64 (le_value bs)).

Definition Fls_free (index : Z) : M Z :=
  poke args_slot (encode_fls_args {| idx := index; value := 0 |}) ;;;
  r <- ioctl IOCTL_FLS_FREE args_slot ;;
  if i32 r <? 0 then ret (- EAGAIN) else ret (i32 r).

Definition Fls_set_value (index v : Z) : M Z :=
  poke args_slot (encode_fls_args {| idx := index; value := v |}) ;;;
  r <- ioctl IOCTL_FLS_SET_VALUE args_slot ;;
  if r <? 0 then ret (- EAGAIN) else ret r.
End lib.
Arguments process K : clear implicits.

(** ** How the entry point dispatches *)
Section dispatch.
Context `{K : KernelApi} `{U : !Uninit K}.
Implicit Types (s : kstate K).

Lemma copy_in_run s p n bs :
  copy_from_user (user s) p n = (0, bs) -> copy_in p n s = Ret (Some bs, s).
Proof. intros H. unfold copy_in, bind, get. by rewrite H. Qed.

Lemma with_fls_args_run s args bs k :
  access_ok args sizeof_fls_args_t = true ->
  copy_from_user (user s) args sizeof_fls_args_t = (0, bs) ->
  with_fls_args args k s = k (decode_fls_args bs) s.
Proof.
  intros Ha Hc. unfold with_fls_args. rewrite Ha. cbn [negb].
  by rewrite (bind_run _ _ _ _ _ (copy_in_run _ _ _ _ Hc)).
Qed.

Lemma ioctl_set_run s args bs :
  access_ok args sizeof_fls_args_t = true ->
  copy_from_user (user s) args sizeof_fls_args_t = (0, bs) ->
  fibers_ioctl IOCTL_FLS_SET_VALUE args s =
    do_fls_set_value (current s) (idx (decode_fls_args bs)) (value (decode_fls_args bs)) s.
Proof.
  intros Ha Hc. etransitivity; [|apply (with_fls_args_run s args bs (fun a =>
    tsk <- get_current ;; do_fls_set_value tsk (idx a) (value a)) Ha Hc)]. done.
Qed.

Lemma ioctl_free_run s args bs :
  access_ok args sizeof_fls_args_t = true ->
  copy_from_user (user s) args sizeof_fls_args_t = (0, bs) ->
  fibers_ioctl IOCTL_FLS_FREE args s = do_fls_free (current s) (idx (decode_fls_args bs)) s.
Proof.
  intros Ha Hc. etransitivity; [|apply (with_fls_args_run s args bs (fun a =>
    tsk <- get_current ;; do_fls_free tsk (idx a)) Ha Hc)]. done.
Qed.

Lemma ioctl_get_run s args bs v s1 m :
  access_ok args sizeof_fls_args_t = true ->
  copy_from_user (user s) args sizeof_fls_args_t = (0, bs) ->
  do_fls_get_value (current s) (idx (decode_fls_args bs)) s = Ret (v, s1) ->
  copy_to_user (user s1) (u64 (value (decode_fls_args bs))) (le_bytes 8 v) = (0, m) ->
  fibers_ioctl IOCTL_FLS_GET_VALUE args s = Ret (0, set_user m s1).
Proof.
  intros Ha Hc Hg Hm. change (fibers_ioctl IOCTL_FLS_GET_VALUE args s)
    with (ioctl_fls_get_value args s).
  unfold ioctl_fls_get_value. rewrite (with_fls_args_run _ _ _ _ Ha Hc).
  rewrite (bind_run get_current _ s (current s) s) by done.
  rewrite (bind_run _ _ _ _ _ Hg). unfold copy_out, bind, get, put, ret. by rewrite Hm.
Qed.

Lemma ioctl_create_run s args bs :
  access_ok args sizeof_fib_args_t = true ->
  copy_from_user (user s) args sizeof_fib_args_t = (0, bs) ->
  let x := decode_fib_args bs in
  fibers_ioctl IOCTL_CREATE_FIBER args s =
    do_create_fiber (current s) (fa_stack_base x) (fa_stack_size x) (fa_entry_point x)
      (fa_params x) s.
Proof.
  intros Ha Hc x. change (fibers_ioctl IOCTL_CREATE_FIBER args s)
    with (ioctl_create_fiber args s).
  unfold ioctl_create_fiber. rewrite Ha. cbn [negb].
  by rewrite (bind_run _ _ _ _ _ (copy_in_run _ _ _ _ Hc)).
Qed.

Lemma ioctl_switch_run s args bs :
  copy_from_user (user s) args sizeof_pid_t = (0, bs) ->
  fibers_ioctl IOCTL_SWITCH_TO_FIBER args s = do_switch_to_fiber (current s) (decode_pid bs) s.
Proof.
  intros Hc. change (fibers_ioctl IOCTL_SWITCH_TO_FIBER args s)
    with (ioctl_switch_to_fiber args s).
  unfold ioctl_switch_to_fiber. by rewrite (bind_run _ _ _ _ _ (copy_in_run _ _ _ _ Hc)).
Qed.
End dispatch.

(** ** Properties *)
Section lib_properties.
Context `{K : KernelApi} `{L : !KernelLaws K} `{U : !Uninit K} `{B : !LibApi}.
Implicit Types (p : process K) (s : kstate K) (f : fiber K).

(** A process that has opened the device, whose stack slots are its own memory. *)
Record ready p : Prop := {
  ready_consistent : consistent (ker p);
  ready_fd : fd p = open_device;
  ready_open : 0 <= open_device;
  ready_args : writable (user (ker p)) args_slot 32;
  ready_value : writable (user (ker p)) value_slot 8;
  ready_access : access_ok args_slot sizeof_fls_args_t = true /\
                 access_ok args_slot sizeof_fib_args_t = true;
  ready_disjoint : args_slot + 32 <= value_slot \/ value_slot + 8 <= args_slot;
  ready_slot : 0 <= value_slot < 2 ^ 63;
}.

Lemma ready_user p m k :
  ready p -> consistent k -> user k = m ->
  (forall a n, writable (user (ker p)) a n -> writable m a n) ->
  ready {| ker := k; fd := fd p |}.
Proof. intros R Hk <- Hw. destruct R. split; cbn; auto. Qed.

(** A kernel request keeps the process ready. *)
Lemma ready_kernel p k :
  ready p -> consistent k -> user k = user (ker p) -> ready {| ker := k; fd := fd p |}.
Proof. intros R Hk Hu. by eapply (ready_user p (user (ker p)) k R Hk Hu). Qed.

Lemma run_poke p a bs n :
  ready p -> writable (user (ker p)) a n -> Z.of_nat (length bs) <= n ->
  exists m, poke a bs p = Ret (tt, {| ker := set_user m (ker p); fd := fd p |}) /\
    copy_from_user m a (Z.of_nat (length bs)) = (0, bs) /\
    (forall q k, q + k <= a \/ a + Z.of_nat (length bs) <= q ->
      copy_from_user m q k = copy_from_user (user (ker p)) q k) /\
    ready {| ker := set_user m (ker p); fd := fd p |}.
Proof.
  intros R Hw Hl. destruct (Hw bs Hl) as [m Hm]. exists m. split; [|split; [|split]].
  - unfold poke, bind, get. rewrite Hm. done.
  - by eapply copy_to_from_user.
  - intros q k Hd. by eapply copy_to_from_user_disjoint.
  - eapply ready_user; [done|apply consistent_set_user, R|done|].
    intros a' n'. by eapply copy_to_user_stable.
Qed.

Lemma run_ioctl p cmd arg r k :
  ready p -> fibers_ioctl cmd arg (ker p) = Ret (r, k) ->
  ioctl cmd arg p = Ret (libc_result r, {| ker := k; fd := fd p |}).
Proof.
  intros R Hrun. unfold ioctl, in_kernel, bind, get, put, ret.
  rewrite (ready_fd _ R), Z.eqb_refl, (proj2 (Z.leb_le _ _) (ready_open _ R)). cbn.
  rewrite Hrun, (ready_fd _ R). done.
Qed.

Lemma libc_result_ok r : 0 <= r -> libc_result r = r.
Proof. intros H. unfold libc_result. by rewrite (proj2 (Z.ltb_ge r 0)), andb_false_r. Qed.

Lemma libc_result_err e : 0 < e <= 4095 -> libc_result (- e) = -1.
Proof.
  intros H. unfold libc_result.
  by rewrite (proj2 (Z.leb_le _ _)), (proj2 (Z.ltb_lt _ _)) by lia.
Qed.

(** What the library makes of the C library's answer. *)
Lemma libc_error {S} r (s : S) :
  - 4095 <= r ->
  (if libc_result r <? 0 then ret (- EAGAIN) else ret (libc_result r)) s =
    Ret (if r <? 0 then - EAGAIN else r, s).
Proof.
  intros Hr. unfold libc_result. rewrite (proj2 (Z.leb_le _ _) Hr). cbn [andb].
  destruct (r <? 0) eqn:E; [done|]. by rewrite E.
Qed.

Lemma length_encode_fls a : length (encode_fls_args a) = 16%nat.
Proof. unfold encode_fls_args. by rewrite length_app, !length_le_bytes. Qed.
Lemma length_encode_fib a : length (encode_fib_args a) = 32%nat.
Proof. unfold encode_fib_args. by rewrite !length_app, !length_le_bytes. Qed.

(** Passing the FLS arguments: what the kernel finds in [args_slot]. *)
Lemma run_poke_fls p i v :
  ready p -> in_i64 i -> in_i64 v ->
  let a := {| idx := i; value := v |} in
  exists m, poke args_slot (encode_fls_args a) p =
      Ret (tt, {| ker := set_user m (ker p); fd := fd p |}) /\
    copy_from_user m args_slot sizeof_fls_args_t = (0, encode_fls_args a) /\
    decode_fls_args (encode_fls_args a) = a /\
    ready {| ker := set_user m (ker p); fd := fd p |}.
Proof.
  intros R Hi Hv a. destruct (run_poke p args_slot (encode_fls_args a) 32 R) as (m & Hp & Hc & _ & R').
  - apply R.
  - by rewrite length_encode_fls.
  - rewrite length_encode_fls in Hc.
    exists m. split; [done|]. split; [exact Hc|]. split; [|done].
    by apply decode_encode_fls_args.
Qed.

(** The caller runs fiber [c], which is [f]. *)
Definition running p (c : Z) f : Prop :=
  thread_at (ker p) (caller (ker p)) = Some c /\
  fiber_at (ker p) (task_tgid (current (ker p)), c) = Some f.

Lemma running_user p m c f :
  ready p -> running p c f -> running {| ker := set_user m (ker p); fd := fd p |} c f.
Proof.
  intros R [Ht Hf]. split; cbn.
  - rewrite thread_set_user by apply R. exact Ht.
  - rewrite fiber_set_user by apply R. exact Hf.
Qed.

(** The CPU, the threads and the fibers but [c] are as they were. *)
Definition elsewhere (c : Z) p p' : Prop :=
  current (ker p') = current (ker p) /\
  (forall k, thread_at (ker p') k = thread_at (ker p) k) /\
  (forall k, k <> (task_tgid (current (ker p)), c) -> fiber_at (ker p') k = fiber_at (ker p) k).

#[export] Instance elsewhere_preorder c : PreOrder (elsewhere c).
Proof.
  split; [done|]. intros p1 p2 p3 (C1 & T1 & F1) (C2 & T2 & F2). split; [congruence|].
  split; intros k; [by rewrite T2|]. intros Hk. rewrite F2; [by apply F1|by rewrite C1].
Qed.

Lemma elsewhere_user c p m : ready p -> elsewhere c p {| ker := set_user m (ker p); fd := fd p |}.
Proof.
  intros R. split; [done|]. split; intros k; cbn; [by apply thread_set_user, R|].
  intros _. apply fiber_set_user, R.
Qed.

(** A request on the local storage of the running fiber, from a ready process. *)
Lemma run_request p c f q :
  ready p -> running p c f ->
  exists k, do_fls q (current (ker p)) (ker p) = Ret ((fls_eff q (fls f)).1, k) /\
    ready {| ker := k; fd := fd p |} /\
    running {| ker := k; fd := fd p |} c (set_fls (fls_eff q (fls f)).2 f) /\
    elsewhere c p {| ker := k; fd := fd p |}.
Proof.
  intros R [Ht Hf]. destruct (run_fls (ker p) c f q (ready_consistent _ R) Ht Hf)
    as (k & Hrun & Hk & [Hc Hu] & Hf' & _ & T & F).
  exists k. split; [done|]. split; [by apply ready_kernel|]. split; [split; cbn|by split].
  - unfold caller. by rewrite Hc, T.
  - by rewrite Hc.
Qed.

(** A request whose arguments go through [args_slot]. *)
Lemma run_fls_args p c f i v :
  ready p -> running p c f -> in_i64 i -> in_i64 v ->
  let a := {| idx := i; value := v |} in
  exists p1, poke args_slot (encode_fls_args a) p = Ret (tt, p1) /\
    copy_from_user (user (ker p1)) args_slot sizeof_fls_args_t = (0, encode_fls_args a) /\
    decode_fls_args (encode_fls_args a) = a /\
    ready p1 /\ running p1 c f /\ elsewhere c p p1.
Proof.
  intros R Hrun Hi Hv a. destruct (run_poke_fls p i v R Hi Hv) as (m & Hp & Hc & Hdec & R1).
  eexists. split; [exact Hp|]. split; [exact Hc|]. split; [exact Hdec|]. split; [done|].
  split; [by apply running_user|by apply elsewhere_user].
Qed.

Lemma run_Fls_set p c f i v :
  ready p -> running p c f -> in_i64 i -> in_i64 v ->
  let e := fls_eff (FlsSet i v) (fls f) in
  - 4095 <= e.1 ->
  exists p1, Fls_set_value i v p = Ret (if e.1 <? 0 then - EAGAIN else e.1, p1) /\
    ready p1 /\ running p1 c (set_fls e.2 f) /\ elsewhere c p p1.
Proof.
  intros R Hrun Hi Hv e He.
  destruct (run_fls_args p c f i v R Hrun Hi Hv) as (p1 & Hp & Hc & Hdec & R1 & Hrun1 & E1).
  destruct (run_request _ c f (FlsSet i v) R1 Hrun1) as (k & Hreq & R2 & Hrun2 & E2). fold e in Hreq, Hrun2.
  unfold Fls_set_value. rewrite (bind_run _ _ _ _ _ Hp).
  pose proof (ioctl_set_run _ args_slot _ (proj1 (ready_access _ R)) Hc) as Hio.
  rewrite Hdec in Hio. cbn [idx value] in Hio.
  rewrite (bind_run _ _ _ _ _ (run_ioctl _ _ _ _ k R1 (eq_trans Hio Hreq))).
  rewrite libc_error by done. eexists. split; [done|]. split; [done|]. split; [done|by etransitivity].
Qed.

Lemma run_Fls_set_value p c f i v :
  ready p -> running p c f -> 0 <= i < FLS_MAX_SIZE -> in_i64 v ->
  allocated (fls f) i = true ->
  exists p1, Fls_set_value i v p = Ret (i, p1) /\ ready p1 /\
    running p1 c (set_fls (fls_set i v (fls f)).2 f) /\ elsewhere c p p1.
Proof.
  intros R Hrun Hi Hv Ha. assert (in_i64 i) as Hi' by (unfold in_i64, FLS_MAX_SIZE in *; lia).
  pose proof (run_Fls_set p c f i v R Hrun Hi' Hv) as H. cbn [fls_eff] in H.
  rewrite (proj2 (fls_index_ok_iff i) Hi) in H.
  assert ((fls_set i v (fls f)).1 = i) as Er by (unfold fls_set; unfold allocated in Ha; by rewrite Ha).
  rewrite Er, (proj2 (Z.ltb_ge i 0)) in H by lia. apply H. lia.
Qed.

Lemma run_Fls_get_value p c f i :
  ready p -> running p c f -> in_i64 i ->
  exists p1, Fls_get_value i p = Ret (i64 (u64 (fls_eff (FlsGet i) (fls f)).1), p1) /\
    ready p1 /\ running p1 c f /\ elsewhere c p p1.
Proof.
  intros R Hrun Hi. pose proof (ready_slot _ R) as Hslot. unfold Fls_get_value.
  destruct (run_poke p value_slot (le_bytes 8 0) 8 R (ready_value _ R)) as (m0 & Hp0 & _ & _ & R0);
    [by rewrite length_le_bytes|].
  rewrite (bind_run _ _ _ _ _ Hp0).
  pose proof (running_user p m0 c f R Hrun) as Hrun0.
  destruct (run_fls_args _ c f i value_slot R0 Hrun0 Hi) as (p1 & Hp & Hc & Hdec & R1 & Hrun1 & E1);
    [unfold in_i64; lia|].
  rewrite (bind_run _ _ _ _ _ Hp).
  destruct (run_request _ c f (FlsGet i) R1 Hrun1) as (k & Hreq & R2 & Hrun2 & E2).
  cbn [fls_eff snd] in Hrun2. rewrite set_fls_id in Hrun2.
  destruct (ready_value _ R2 (le_bytes 8 (fls_eff (FlsGet i) (fls f)).1)) as [m2 Hm2];
    [by rewrite length_le_bytes|].
  assert (fibers_ioctl IOCTL_FLS_GET_VALUE args_slot (ker p1) = Ret (0, set_user m2 k)) as Hio.
  { eapply ioctl_get_run; [apply R|exact Hc|rewrite Hdec; exact Hreq|].
    rewrite Hdec. cbn [value]. rewrite u64_small by (unfold in_u64; lia). exact Hm2. }
  rewrite (bind_run _ _ _ _ _ (run_ioctl _ _ _ 0 _ R1 Hio)). cbn [libc_result Z.ltb].
  rewrite (libc_result_ok 0) by lia. cbn [Z.ltb Z.compare].
  rewrite (bind_run _ _ _ (le_bytes 8 (fls_eff (FlsGet i) (fls f)).1)
    {| ker := set_user m2 k; fd := fd p1 |}).
  - unfold ret. rewrite le_value_bytes_u64. eexists. split; [done|]. split; [|split].
    + eapply (ready_user _ _ _ R2); [apply consistent_set_user, R2|done|].
      intros a n. by eapply copy_to_user_stable.
    + exact (running_user _ m2 c _ R2 Hrun2).
    + etransitivity; [apply (elsewhere_user c p m0 R)|]. etransitivity; [exact E1|].
      etransitivity; [exact E2|]. exact (elsewhere_user c _ m2 R2).
  - unfold peek, bind, get, ret. cbn.
    pose proof (copy_to_from_user _ _ _ _ Hm2) as Hback. rewrite length_le_bytes in Hback.
    change (Z.of_nat 8) with 8 in Hback. by rewrite Hback.
Qed.

(** Allocation: the kernel's answer, or [-EAGAIN] for any error. *)
Lemma run_Fls_alloc p c f :
  ready p -> running p c f -> let r := (fls_alloc (fls f)).1 in
  - 4095 <= r ->
  exists p1, Fls_alloc p = Ret (if r <? 0 then - EAGAIN else r, p1) /\
    ready p1 /\ running p1 c (set_fls (fls_alloc (fls f)).2 f) /\ elsewhere c p p1.
Proof.
  intros R Hrun r Hr. destruct (run_request p c f FlsAlloc R Hrun) as (k & Hreq & R1 & Hrun1 & E1).
  cbn [fls_eff] in Hreq, Hrun1. unfold Fls_alloc.
  assert (fibers_ioctl IOCTL_FLS_ALLOC 0 (ker p) = Ret (r, k)) as Hio by exact Hreq.
  rewrite (bind_run _ _ _ _ _ (run_ioctl _ _ _ _ k R Hio)).
  exists {| ker := k; fd := fd p |}. split; [|done]. by rewrite libc_error.
Qed.

Lemma next_number_range s : consistent s -> room_at s -> 0 <= next_number s < 2 ^ 31.
Proof.
  intros Hs Hroom. unfold next_number, room_at in *.
  destruct (count_at s (task_tgid (current s))) as [cnt|] eqn:E.
  - destruct (run_get_group_some _ _ _ Hs E) as (_ & _ & _ & _ & _ & ? & _).
    cbn in *. unfold id in *. lia.
  - cbn. unfold NO_FIBERS. lia.
Qed.

(** Opening the device changes nothing a request can look up. *)
Lemma module_refs_view s n :
  consistent s -> consistent (set_module_refs n s) /\ same_view s (set_module_refs n s).
Proof.
  intros (Hp & a & m & R & I). assert (rep (set_module_refs n s) a m) as R1 by by destruct R.
  assert (holds a s) as H by by apply (st_holds a m (current s) (user s)); [split; [|split; [|by unfold frame_of; rewrite Hp]]|].
  split; [split; [done|by exists a, m]|]. apply (holds_same_view a); [done|].
  split; [split; [done|by exists a, m]|].
  split; [|split]; intros x; [by apply (view_count _ _ _ _ R1)|by apply (view_thread _ _ _ _ R1)|
    by apply (view_fiber _ _ _ _ R1)].
Qed.

(** C21: a program that sets an index it has allocated gets the index back, and
    then reads the value it stored, whatever the value: the round trip goes
    through the argument structures in memory, the ioctl and the kernel. *)
Theorem lib_set_get p c f i v :
  ready p -> running p c f -> 0 <= i < FLS_MAX_SIZE -> in_i64 v ->
  allocated (fls f) i = true ->
  exists p1 p2, Fls_set_value i v p = Ret (i, p1) /\ Fls_get_value i p1 = Ret (v, p2).
Proof.
  intros R Hrun Hi Hv Ha.
  pose proof (proj2 (consistent_fiber_ok _ _ _ (ready_consistent _ R) (proj2 Hrun))) as Hlen.
  destruct (run_Fls_set_value p c f i v R Hrun Hi Hv Ha) as (p1 & Hset & R1 & Hrun1 & _).
  destruct (run_Fls_get_value p1 c _ i R1 Hrun1) as (p2 & Hget & _).
  { unfold in_i64, FLS_MAX_SIZE in *. lia. }
  exists p1, p2. split; [done|]. rewrite Hget. cbn [fls_eff fls set_fls].
  rewrite (proj2 (fls_index_ok_iff i)) by done. cbn [fst].
  by rewrite fls_get_set_same, i64_u64.
Qed.

(** Reading an index that is not allocated does not fail: the library's
    [Fls_get_value] returns the kernel's error number as if it were the
    value stored, never the [-EAGAIN] it returns for errors. *)
Theorem lib_get_error_is_a_value p c f i :
  ready p -> running p c f -> in_i64 i ->
  (fls_index_ok i = true -> allocated (fls f) i = false) ->
  exists p1, Fls_get_value i p =
    Ret (if fls_index_ok i then - EACCES else - ESRCH, p1) /\ ready p1.
Proof.
  intros R Hrun Hi Hno. destruct (run_Fls_get_value p c f i R Hrun Hi) as (p1 & Hget & R1 & _).
  exists p1. split; [|done]. rewrite Hget. cbn [fls_eff fst].
  destruct (fls_index_ok i); [|done]. unfold fls_get. unfold allocated in Hno. by rewrite Hno.
Qed.

(** [Create_fiber] returns the number of a new fiber whose stack pointer is 8
    below the end of the stack the library allocated, inside it, and
    aligned as the calling convention wants at a function's entry whenever
    the size is a multiple of 16. *)
Theorem lib_create p c f size entry arg base :
  (forall n, kmalloc_fails n = false) ->
  ready p -> running p c f -> room_at (ker p) ->
  posix_memalign 16 size = (0, base) -> base mod 16 = 0 ->
  writable (user (ker p)) base size ->
  8 <= size -> 0 <= base -> base + size < 2 ^ 64 -> in_u64 entry -> in_u64 arg ->
  let g := task_tgid (current (ker p)) in
  exists p1 f1, Create_fiber size entry arg p = Ret (next_number (ker p), p1) /\ ready p1 /\
    fiber_at (ker p1) (g, next_number (ker p)) = Some f1 /\ flock f1 = false /\
    ip (regs (context f1)) = entry /\ di (regs (context f1)) = arg /\
    base <= sp (regs (context f1)) /\ sp (regs (context f1)) + 8 = base + size /\
    (size mod 16 = 0 -> (sp (regs (context f1)) + 8) mod 16 = 0).
Proof.
  intros Hmem R Hrun Hroom Halloc Hal Hw Hsz Hb Hlt He Hp g. unfold Create_fiber.
  rewrite Halloc. cbn [Z.eqb negb].
  destruct (run_poke p base (replicate (Z.to_nat size) 0) size R Hw) as (m0 & Hp0 & _ & _ & R0);
    [rewrite length_replicate; lia|].
  rewrite (bind_run _ _ _ _ _ Hp0).
  set (a := {| fa_stack_base := base; fa_stack_size := size;
               fa_entry_point := entry; fa_params := arg |}).
  destruct (run_poke _ args_slot (encode_fib_args a) 32 R0 (ready_args _ R0))
    as (m & Hpk & Hc & _ & R1); [by rewrite length_encode_fib|].
  rewrite length_encode_fib in Hc. rewrite (bind_run _ _ _ _ _ Hpk).
  assert (decode_fib_args (encode_fib_args a) = a) as Hdec.
  { apply decode_encode_fib_args; try done; unfold in_u64; cbn; lia. }
  set (k1 := set_user m (set_user m0 (ker p))) in *. cbn [ker fd] in R1 |- *. fold k1 in R1 |- *.
  assert (next_number k1 = next_number (ker p)) as Hnext.
  { unfold next_number, k1. cbn [current set_user].
    rewrite !count_set_user; [done|apply R|apply consistent_set_user, R]. }
  assert (room_at k1) as Hroom1.
  { unfold room_at, k1 in *. cbn [current set_user].
    rewrite !count_set_user; [done|apply R|apply consistent_set_user, R]. }
  destruct (run_create Hmem k1 base size entry arg (ready_consistent _ R1) Hroom1)
    as (a0 & (_ & C & T & _) & I & Hid & H).
  assert (athreads a0 !! key (current k1) = Some c) as Ht.
  { rewrite <- T. unfold k1. rewrite !thread_set_user; [apply Hrun|apply R|apply consistent_set_user, R]. }
  unfold spec_create in H. rewrite Ht, Hid, Hnext in H.
  destruct H as (k & Hreq & (Hk & C' & T' & F') & [Hck Huk]).
  pose proof (ioctl_create_run k1 args_slot _ (proj2 (ready_access _ R)) Hc) as Hio.
  cbv zeta in Hio. rewrite Hdec in Hio. cbn [fa_stack_base fa_stack_size fa_entry_point fa_params a] in Hio.
  pose proof (next_number_range _ (ready_consistent _ R) Hroom) as Hrange.
  pose proof (run_ioctl _ _ _ _ k R1 (eq_trans Hio Hreq)) as Hrun1.
  rewrite libc_result_ok in Hrun1 by lia.
  rewrite (bind_run _ _ _ _ _ Hrun1). unfold ret. rewrite i32_small by (unfold in_i32; lia).
  eexists _, _. split; [done|]. split; [by apply ready_kernel with (p := {| ker := k1; fd := fd p |})|].
  cbn [ker]. rewrite F'. split; [apply lookup_insert_eq|]. cbn.
  rewrite (u64_small (base + size)) by (unfold in_u64; lia).
  rewrite u64_small by (unfold in_u64; lia).
  split; [done|]. split; [done|]. split; [done|]. split; [lia|]. split; [lia|]. intros Hm.
  rewrite Z.sub_add, Z.add_mod, Hal, Hm by lia. done.
Qed.

(** [Switch_to_fiber] of a number the process has switches when that fiber is
    free (the CPU is loaded with its saved state) and returns 0; it returns
    [-EAGAIN] both when the fiber is running and when it does not exist,
    and then the CPU state stays. *)
Theorem lib_switch p c f fib :
  ready p -> running p c f -> in_i32 fib ->
  let g := task_tgid (current (ker p)) in
  exists r p1, Switch_to_fiber fib p = Ret (r, p1) /\ ready p1 /\
    match fiber_at (ker p) (g, fib) with
    | Some n =>
        if flock n then r = - EAGAIN /\ current (ker p1) = current (ker p)
        else r = 0 /\ task_regs (current (ker p1)) = regs (context n) /\
          task_fx (current (ker p1)) = fpu (context n) /\
          thread_at (ker p1) (caller (ker p)) = Some fib
    | None => r = - EAGAIN /\ current (ker p1) = current (ker p)
    end.
Proof.
  intros R Hrun Hfib g. unfold Switch_to_fiber.
  destruct (run_poke p args_slot (le_bytes 8 fib) 32 R (ready_args _ R))
    as (m & Hpk & Hc & _ & R1); [by rewrite length_le_bytes|].
  rewrite (bind_run _ _ _ _ _ Hpk). rewrite length_le_bytes in Hc.
  apply (copy_from_user_prefix _ _ _ sizeof_pid_t) in Hc; [|unfold sizeof_pid_t; lia].
  set (k1 := set_user m (ker p)) in *.
  assert (decode_pid (take (Z.to_nat sizeof_pid_t) (le_bytes 8 fib)) = fib) as Hdec.
  { rewrite <- (decode_pid_slot fib Hfib) at 2. done. }
  pose proof (ioctl_switch_run k1 args_slot _ Hc) as Hio. rewrite Hdec in Hio.
  destruct (running_user p m c f R Hrun) as [Ht _]. cbn [ker] in Ht. fold k1 in Ht.
  assert (fiber_at (ker p) (g, fib) = fiber_at k1 (task_tgid (current k1), fib)) as ->.
  { unfold k1. by rewrite fiber_set_user by apply R. }
  assert (forall k e, 0 < e <= 4095 -> do_switch_to_fiber (current k1) fib k1 = Ret (- e, k) ->
    consistent k -> user k = user k1 ->
    ready {| ker := k; fd := fd p |} /\
    bind (ioctl IOCTL_SWITCH_TO_FIBER args_slot) (fun r => if r <? 0 then ret (- EAGAIN) else ret (i32 r))
      {| ker := k1; fd := fd p |} = Ret (- EAGAIN, {| ker := k; fd := fd p |})) as Herr.
  { intros k e He Hsw Hk Hu. split; [by apply (ready_kernel _ _ R1)|].
    rewrite (bind_run _ _ _ _ _ (run_ioctl _ _ _ _ k R1 (eq_trans Hio Hsw))).
    by rewrite libc_result_err. }
  destruct (fiber_at k1 (task_tgid (current k1), fib)) as [n|] eqn:Hn.
  - destruct (flock n) eqn:Hl.
    + destruct (run_switch_busy k1 c fib n (ready_consistent _ R1) Ht Hn Hl)
        as (k & Hsw & Hk & [Hck Huk] & _).
      destruct (Herr k EAGAIN) as [Rk Hrk]; [done..|].
      exists (- EAGAIN), {| ker := k; fd := fd p |}. split; [exact Hrk|]. done.
    + destruct (run_switch_free k1 c fib n (ready_consistent _ R1) Ht Hn Hl)
        as (_ & o & k & _ & Hsw & Hk & Hck & Huk & Ht' & _).
      rewrite (bind_run _ _ _ _ _ (run_ioctl _ _ _ _ k R1 (eq_trans Hio Hsw))).
      exists 0, {| ker := k; fd := fd p |}. split; [done|].
      split; [by apply (ready_kernel _ _ R1)|]. cbn [ker]. rewrite Hck. done.
  - destruct (run_switch k1 fib (ready_consistent _ R1)) as (a & (_ & _ & T & F) & I & H).
    assert (spec_switch (current k1) fib a = (- ESRCH, a, current k1)) as E.
    { unfold spec_switch. rewrite F in Hn. rewrite Hn. by destruct (athreads a !! _). }
    rewrite E in H. destruct H as (k & Hsw & [Hk _] & Hck & Huk).
    destruct (Herr k ESRCH) as [Rk Hrk]; [done..|].
    exists (- EAGAIN), {| ker := k; fd := fd p |}. split; [exact Hrk|]. done.
Qed.

(** [Convert_thread_to_fiber] opens the device and gives the thread its first
    fiber; called again by the same thread it returns -1 (not the kernel's
    [-EEXIST]) and changes no thread and no fiber. *)
Theorem lib_convert p :
  (forall n, kmalloc_fails n = false) -> 0 <= open_device ->
  consistent (ker p) -> room_at (ker p) -> 0 < task_pid (current (ker p)) ->
  exists r p1, Convert_thread_to_fiber p = Ret (r, p1) /\ consistent (ker p1) /\
    fd p1 = open_device /\ current (ker p1) = current (ker p) /\
    match thread_at (ker p) (caller (ker p)) with
    | None => r = next_number (ker p) /\ thread_at (ker p1) (caller (ker p)) = Some r
    | Some _ => r = -1 /\ same_view (ker p) (ker p1)
    end.
Proof.
  intros Hmem Hopen Hs Hroom Hpid. unfold Convert_thread_to_fiber.
  set (k1 := set_module_refs (module_refs (ker p) + 1) (ker p)).
  destruct (module_refs_view (ker p) (module_refs (ker p) + 1) Hs) as (Hk1 & C1 & T1 & F1).
  fold k1 in Hk1, C1, T1, F1.
  assert (next_number k1 = next_number (ker p)) as Hn by (unfold next_number; by rewrite C1).
  assert (room_at k1) as Hroom1 by (unfold room_at; by rewrite C1).
  destruct (run_convert Hmem k1 Hk1 Hroom1 Hpid) as (a & Ha & I & Hid & H).
  pose proof (next_number_range _ Hs Hroom) as Hrange.
  assert (forall r k, do_convert_thread_to_fiber (current k1) k1 = Ret (r, k) ->
    (modify (set_fd open_device) ;;;
     if open_device <? 0 then exit (- ENOENT) else
     in_kernel (fibers_open true) ;;;
     r <- ioctl IOCTL_CONVERT_THREAD_TO_FIBER 0 ;;
     ret (i32 r)) p = Ret (i32 (libc_result r), {| ker := k; fd := open_device |})) as Hrun.
  { intros r k Hk. rewrite (bind_run _ _ p tt (set_fd open_device p)) by done.
    rewrite (proj2 (Z.ltb_ge _ _) Hopen).
    rewrite (bind_run (in_kernel _) _ _ SUCCESS {| ker := k1; fd := open_device |}) by done.
    rewrite (bind_run (ioctl _ _) _ _ (libc_result r) {| ker := k; fd := open_device |}); [done|].
    unfold ioctl. rewrite (bind_run get _ _ _ _ eq_refl). cbn [fd].
    rewrite Z.eqb_refl, (proj2 (Z.leb_le _ _) Hopen). cbn [andb].
    rewrite (bind_run (in_kernel _) _ _ r {| ker := k; fd := open_device |}); [done|].
    unfold in_kernel. rewrite (bind_run get _ _ _ _ eq_refl). cbn [ker fd].
    change (fibers_ioctl IOCTL_CONVERT_THREAD_TO_FIBER 0 k1)
      with (do_convert_thread_to_fiber (current k1) k1). by rewrite Hk. }
  unfold spec_convert in H. pose proof Ha as (_ & _ & Ta & _). rewrite <- Ta, T1 in H.
  change (key (current k1)) with (caller (ker p)) in H.
  destruct (thread_at (ker p) (caller (ker p))) as [x|]; destruct H as (k & Hk & Hh & [Hck Huk]).
  - exists (-1), {| ker := k; fd := open_device |}. rewrite (Hrun _ _ Hk).
    split; [done|]. split; [apply Hh|]. split; [done|]. split; [done|]. split; [done|].
    destruct (holds_same_view a k1 k Ha Hh) as (C2 & T2 & F2).
    split; [|split]; intros; cbn [ker]; [by rewrite C2|by rewrite T2|by rewrite F2].
  - rewrite Hid, Hn in Hk. rewrite Hid, Hn in Hh.
    exists (next_number (ker p)), {| ker := k; fd := open_device |}. rewrite (Hrun _ _ Hk).
    rewrite libc_result_ok, i32_small by (unfold in_i32; lia).
    split; [done|]. destruct Hh as (Hcon & _ & T & _). split; [done|]. split; [done|].
    split; [done|]. split; [done|]. cbn [ker]. rewrite T. cbn. apply lookup_insert_eq.
Qed.
End lib_properties.
