(* ===== verification/Doubles.v ===== *)
(** * C's [double]

    The IEEE 754 binary64 numbers and operations of the Standard Library's
    executable specification (round to nearest, ties to even), with the
    conversions C makes between them and integers, and the lemmas about
    rounding that the testbed's components use. *)
From Stdlib Require Import SpecFloat.
From S2P Require Import Prelude.

Definition double : Type := spec_float.
#[export] Instance double_eq_dec : EqDecision double.
Proof. solve_decision. Defined.

(** ** Operations *)
Definition dadd : double -> double -> double := SFadd 53 1024.
Definition dsub : double -> double -> double := SFsub 53 1024.
Definition dmul : double -> double -> double := SFmul 53 1024.
Definition ddiv : double -> double -> double := SFdiv 53 1024.
Definition dlt : double -> double -> bool := SFltb.
Definition dle : double -> double -> bool := SFleb.
Definition deq : double -> double -> bool := SFeqb.
Definition dopp : double -> double := SFopp.

(** An integer as a double (exact up to 2^53). *)
Definition of_Z (z : Z) : double := binary_normalize 53 1024 z 0 false.

(** The conversion to an integer type truncates; it is undefined for a value
    the type cannot hold. *)
Definition trunc (x : double) : option Z :=
  match x with
  | S754_zero _ => Some 0
  | S754_finite s m e =>
      let a := if 0 <=? e then Zpos m * 2 ^ e else Zpos m / 2 ^ (- e) in
      Some (if s then - a else a)
  | _ => None
  end.

(** ** Digits and shifts *)
Lemma digits_bounds m : 2 ^ (Zpos (digits2_pos m) - 1) <= Zpos m < 2 ^ Zpos (digits2_pos m).
Proof.
  induction m as [m IH|m IH|]; cbn [digits2_pos]; [| |done].
  all: rewrite Pos2Z.inj_succ; replace (Z.succ (Zpos (digits2_pos m)) - 1) with
    (Z.succ (Zpos (digits2_pos m) - 1)) by lia; rewrite !Z.pow_succ_r by lia; lia.
Qed.

Lemma digits_unique m d : 0 < d -> 2 ^ (d - 1) <= Zpos m < 2 ^ d -> Zpos (digits2_pos m) = d.
Proof.
  intros Hd Hm. pose proof (digits_bounds m) as Hb.
  destruct (Z.lt_trichotomy (Zpos (digits2_pos m)) d) as [H|[H|H]]; [|done|].
  - assert (2 ^ Zpos (digits2_pos m) <= 2 ^ (d - 1)) by (apply Z.pow_le_mono_r; lia). lia.
  - assert (2 ^ d <= 2 ^ (Zpos (digits2_pos m) - 1)) by (apply Z.pow_le_mono_r; lia). lia.
Qed.

Lemma iter_pos_iter {A} (f : A -> A) p x : SpecFloat.iter_pos f p x = Pos.iter f x p.
Proof.
  revert x. induction p as [p IH|p IH|]; intros x; cbn; [| |done]; rewrite !IH.
  - by rewrite <- Pos.iter_swap, <- Pos.iter_swap.
  - done.
Qed.

Lemma shr_1_half r : 0 <= shr_m r -> shr_m (shr_1 r) = shr_m r / 2.
Proof.
  destruct r as [[|[p|p|]|p] ? ?]; intros; rewrite <- Z.div2_div; cbn in *; lia.
Qed.

Lemma shr_iter p r :
  0 <= shr_m r -> shr_m (SpecFloat.iter_pos shr_1 p r) = shr_m r / 2 ^ Zpos p.
Proof.
  intros Hr. rewrite iter_pos_iter.
  enough (shr_m (Pos.iter shr_1 r p) = shr_m r / 2 ^ Zpos p /\
    0 <= shr_m (Pos.iter shr_1 r p)) by tauto.
  induction p as [|p IH] using Pos.peano_ind.
  - cbn [Pos.iter]. rewrite shr_1_half by done. split; [done|]. apply Z.div_pos; lia.
  - rewrite Pos.iter_succ. destruct IH as [IH Hp]. rewrite shr_1_half by done.
    rewrite IH, Pos2Z.inj_succ, Z.pow_succ_r, Z.mul_comm, Z.div_div by lia.
    rewrite Z.mul_comm. split; [done|]. apply Z.div_pos; lia.
Qed.

(** ** Rounding *)
Lemma fexp_normal e : -1021 <= e -> fexp 53 1024 e = e - 53.
Proof. intros. unfold fexp, emin. lia. Qed.

Lemma shr_m_of_loc m l : shr_m (shr_record_of_loc m l) = m.
Proof. by destruct l as [|[]]. Qed.

(** Dropping the digits beyond the 53rd. *)
Lemma shr_fexp_normal m e l d :
  Zpos (digits2_pos m) = d -> 53 <= d -> -1021 <= d + e ->
  shr_m (shr_fexp 53 1024 (Zpos m) e l).1 = Zpos m / 2 ^ (d - 53) /\
  (shr_fexp 53 1024 (Zpos m) e l).2 = e + (d - 53).
Proof.
  intros Hd H53 He. unfold shr_fexp. cbn [Zdigits2]. rewrite Hd.
  rewrite fexp_normal by lia. replace (d + e - 53 - e) with (d - 53) by lia.
  destruct (d - 53) as [|p|p] eqn:Hp; [| |lia]; cbn [shr fst snd].
  - rewrite shr_m_of_loc, Z.div_1_r. split; [done|lia].
  - rewrite shr_iter; rewrite shr_m_of_loc; done.
Qed.

Lemma shr_fexp_none m e :
  2 ^ 52 <= Zpos m < 2 ^ 53 -> -1074 <= e ->
  shr_fexp 53 1024 (Zpos m) e loc_Exact = ({| shr_m := Zpos m; shr_r := false; shr_s := false |}, e).
Proof.
  intros Hm He. unfold shr_fexp. cbn [Zdigits2 shr_record_of_loc].
  rewrite (digits_unique m 53) by lia. rewrite fexp_normal by lia.
  by replace (53 + e - 53 - e) with 0 by lia.
Qed.

Lemma shr_fexp_carry e :
  -1074 <= e ->
  shr_fexp 53 1024 9007199254740992 e loc_Exact =
    ({| shr_m := 4503599627370496; shr_r := false; shr_s := false |}, e + 1).
Proof.
  intros He. unfold shr_fexp. change (Zdigits2 9007199254740992) with 54.
  rewrite fexp_normal by lia. by replace (54 + e - 53 - e) with 1 by lia.
Qed.

Lemma nearest_bounds q l : q <= round_nearest_even q l <= q + 1.
Proof. destruct l as [|[]]; cbn; [| destruct (Z.even q) | |]; lia. Qed.

(** A product or sum in the range of normal numbers: the digits kept, or one
    more in the last place, which may carry into the exponent. *)
Lemma round_normal m e l d :
  Zpos (digits2_pos m) = d -> 53 <= d -> -1021 <= d + e < 1024 ->
  exists m' e', binary_round_aux 53 1024 false (Zpos m) e l = S754_finite false m' e' /\
    2 ^ 52 <= Zpos m' < 2 ^ 53 /\
    (e' = e + (d - 53) \/ e' = e + (d - 53) + 1 /\ Zpos m / 2 ^ (d - 53) + 1 = 2 ^ 53).
Proof.
  intros Hd H53 He. pose proof (digits_bounds m) as Hm. rewrite Hd in Hm.
  assert (0 < 2 ^ (d - 53)) as Hpos by (apply Z.pow_pos_nonneg; lia).
  assert (2 ^ 52 <= Zpos m / 2 ^ (d - 53)) as Hlow.
  { apply Z.div_le_lower_bound; [done|].
    rewrite <- Z.pow_add_r by lia. replace (d - 53 + 52) with (d - 1) by lia. lia. }
  assert (Zpos m / 2 ^ (d - 53) < 2 ^ 53) as Hup.
  { apply Z.div_lt_upper_bound; [done|].
    rewrite <- Z.pow_add_r by lia. replace (d - 53 + 53) with d by lia. lia. }
  unfold binary_round_aux.
  destruct (shr_fexp_normal m e l d Hd H53 ltac:(lia)) as [Hs1 Hs2].
  destruct (shr_fexp 53 1024 (Zpos m) e l) as [r e']. cbn [fst snd] in Hs1, Hs2. subst e'.
  rewrite Hs1. pose proof (nearest_bounds (Zpos m / 2 ^ (d - 53)) (loc_of_shr_record r)) as Hb.
  destruct (round_nearest_even (Zpos m / 2 ^ (d - 53)) (loc_of_shr_record r)) as [|m'|m'] eqn:Er; [lia| |lia].
  destruct (decide (Zpos m' = 2 ^ 53)) as [E|Hne].
  - assert (m' = 9007199254740992%positive) as -> by lia.
    rewrite shr_fexp_carry by lia. cbn [shr_m].
    rewrite (proj2 (Z.leb_le _ _)) by lia. eexists _, _. split; [done|]. split; [done|]. right. lia.
  - rewrite shr_fexp_none by lia. cbn [shr_m].
    rewrite (proj2 (Z.leb_le _ _)) by lia. eexists m', _. split; [done|]. lia.
Qed.

(** A mantissa of exactly 53 digits is not rounded. *)
Lemma round_exact m e :
  2 ^ 52 <= Zpos m < 2 ^ 53 -> -1074 <= e <= 971 ->
  binary_round_aux 53 1024 false (Zpos m) e loc_Exact = S754_finite false m e.
Proof.
  intros Hm He. unfold binary_round_aux. rewrite shr_fexp_none by lia. cbn [shr_m loc_of_shr_record round_nearest_even].
  rewrite shr_fexp_none by lia. cbn [shr_m]. by rewrite (proj2 (Z.leb_le _ _)) by lia.
Qed.

(** ** Integers are exact *)
Lemma iter_double m p : Zpos (Pos.iter xO m p) = Zpos m * 2 ^ Zpos p.
Proof.
  induction p as [|p IH] using Pos.peano_ind; [cbn; lia|].
  rewrite Pos.iter_succ, Pos2Z.inj_xO, IH, Pos2Z.inj_succ, Z.pow_succ_r by lia. lia.
Qed.

Lemma shr_exact q p :
  0 < q ->
  SpecFloat.iter_pos shr_1 p {| shr_m := q * 2 ^ Zpos p; shr_r := false; shr_s := false |} =
    {| shr_m := q; shr_r := false; shr_s := false |}.
Proof.
  intros Hq. rewrite iter_pos_iter. revert q Hq.
  assert (forall q, 0 < q -> shr_1 {| shr_m := q * 2; shr_r := false; shr_s := false |} =
    {| shr_m := q; shr_r := false; shr_s := false |}) as H1.
  { intros [|q|q] ?; try lia. rewrite Z.mul_comm, <- Pos2Z.inj_xO. done. }
  induction p as [|p IH] using Pos.peano_ind; intros q Hq; [by apply H1|].
  rewrite Pos.iter_succ, Pos2Z.inj_succ, Z.pow_succ_r by lia.
  replace (q * (2 * 2 ^ Zpos p)) with (q * 2 * 2 ^ Zpos p) by lia.
  rewrite IH by lia. by apply H1.
Qed.

(** The double that holds a positive integer of at most 53 digits. *)
Definition is_int (z : Z) (x : double) : Prop :=
  exists m d, 0 < d <= 53 /\ 2 ^ (d - 1) <= z < 2 ^ d /\
    Zpos m = z * 2 ^ (53 - d) /\ x = S754_finite false m (d - 53).

Lemma normalize_int z k :
  0 < z < 2 ^ 53 -> 0 <= k -> is_int z (binary_normalize 53 1024 (z * 2 ^ k) (- k) false).
Proof.
  intros Hz Hk. destruct z as [|z|z]; try lia.
  set (d := Zpos (digits2_pos z)). pose proof (digits_bounds z) as Hd. fold d in Hd.
  assert (0 < d <= 53) as Hd53.
  { split; [lia|]. destruct (Z.le_gt_cases d 53); [done|].
    assert (2 ^ 53 <= 2 ^ (d - 1)) by (apply Z.pow_le_mono_r; lia). lia. }
  assert (0 < 2 ^ k) as Hpk by (apply Z.pow_pos_nonneg; lia).
  destruct (Zpos z * 2 ^ k) as [|m|m] eqn:Em; try lia.
  assert (Zpos (digits2_pos m) = d + k) as Hdm.
  { apply digits_unique; [lia|]. rewrite <- Em. replace (d + k - 1) with (d - 1 + k) by lia.
    rewrite !Z.pow_add_r by lia. nia. }
  cbn [binary_normalize]. unfold binary_round. rewrite Hdm, fexp_normal by lia.
  replace (d + k + - k - 53) with (d - 53) by lia.
  assert (forall m', Zpos m' = Zpos z * 2 ^ (53 - d) ->
    is_int (Zpos z) (binary_round_aux 53 1024 false (Zpos m') (d - 53) loc_Exact)) as Hfin.
  { intros m' Hm'. exists m', d. split; [done|]. split; [done|]. split; [done|].
    apply round_exact; [|lia]. rewrite Hm'.
    assert (2 ^ 52 = 2 ^ (d - 1) * 2 ^ (53 - d)) as ->.
    { rewrite <- Z.pow_add_r by lia. f_equal. lia. }
    assert (2 ^ 53 = 2 ^ d * 2 ^ (53 - d)) as ->.
    { rewrite <- Z.pow_add_r by lia. f_equal. lia. }
    assert (0 < 2 ^ (53 - d)) by (apply Z.pow_pos_nonneg; lia). nia. }
  unfold shl_align. destruct (d - 53 - - k) as [|p|p] eqn:Ep.
  - replace (- k) with (d - 53) by lia. apply Hfin. rewrite <- Em. f_equal. f_equal. lia.
  - (* more digits than 53, all zeros *)
    set (q := Zpos z * 2 ^ (53 - d)).
    assert (Zpos m = q * 2 ^ Zpos p) as Hq.
    { rewrite <- Em. unfold q. rewrite <- Z.mul_assoc, <- Z.pow_add_r by lia. f_equal. f_equal. lia. }
    assert (0 < q) by (unfold q; assert (0 < 2 ^ (53 - d)) by (apply Z.pow_pos_nonneg; lia); nia).
    destruct q as [|m'|m'] eqn:Eq; try lia.
    specialize (Hfin m' ltac:(unfold q in Eq; lia)).
    replace (binary_round_aux 53 1024 false (Zpos m) (- k) loc_Exact)
      with (binary_round_aux 53 1024 false (Zpos m') (d - 53) loc_Exact); [done|].
    assert (shr_fexp 53 1024 (Zpos m) (- k) loc_Exact =
      ({| shr_m := Zpos m'; shr_r := false; shr_s := false |}, d - 53)) as E.
    { unfold shr_fexp. cbn [Zdigits2 shr_record_of_loc]. rewrite Hdm, fexp_normal by lia.
      replace (d + k + - k - 53 - - k) with (Zpos p) by lia. cbn [shr].
      rewrite Hq, shr_exact by lia. f_equal. lia. }
    unfold binary_round_aux. rewrite E.
    destruct Hfin as (m2 & d2 & _ & _ & _ & _).
    rewrite shr_fexp_none; [done| |lia].
    rewrite <- Eq. unfold q.
    assert (2 ^ 52 = 2 ^ (d - 1) * 2 ^ (53 - d)) as ->.
    { rewrite <- Z.pow_add_r by lia. f_equal. lia. }
    assert (2 ^ 53 = 2 ^ d * 2 ^ (53 - d)) as ->.
    { rewrite <- Z.pow_add_r by lia. f_equal. lia. }
    assert (0 < 2 ^ (53 - d)) by (apply Z.pow_pos_nonneg; lia). nia.
  - apply Hfin. rewrite iter_double, <- Em, <- Z.mul_assoc, <- Z.pow_add_r by lia.
    f_equal. f_equal. lia.
Qed.

Lemma of_Z_int z : 0 < z < 2 ^ 53 -> is_int z (of_Z z).
Proof.
  intros Hz. pose proof (normalize_int z 0 Hz ltac:(lia)) as H.
  by rewrite Z.mul_1_r in H.
Qed.

Lemma align_int m e ez : ez <= e -> Zpos (fst (shl_align m e ez)) = Zpos m * 2 ^ (e - ez).
Proof.
  intros He. unfold shl_align. destruct (ez - e) as [|p|p] eqn:E; cbn [fst].
  - replace (e - ez) with 0 by lia. lia.
  - lia.
  - rewrite iter_double. do 2 f_equal. lia.
Qed.

Lemma dadd_int a b x y :
  is_int a x -> is_int b y -> 0 < a -> 0 < b -> a + b < 2 ^ 53 -> is_int (a + b) (dadd x y).
Proof.
  intros (m1 & d1 & Hd1 & _ & Hm1 & ->) (m2 & d2 & Hd2 & _ & Hm2 & ->) Ha Hb Hab.
  unfold dadd. cbn [SFadd cond_Zopp].
  set (ez := Z.min (d1 - 53) (d2 - 53)).
  rewrite !align_int by (unfold ez; lia). rewrite Hm1, Hm2, <- !Z.mul_assoc, <- !Z.pow_add_r by (unfold ez; lia).
  replace (53 - d1 + (d1 - 53 - ez)) with (- ez) by lia.
  replace (53 - d2 + (d2 - 53 - ez)) with (- ez) by lia.
  rewrite <- Z.mul_add_distr_r. replace ez with (- - ez) at 2 by lia.
  apply normalize_int; [lia|unfold ez; lia].
Qed.

Lemma trunc_int z x : is_int z x -> trunc x = Some z.
Proof.
  intros (m & d & Hd & _ & Hm & ->). cbn [trunc]. rewrite Hm.
  destruct (Z.leb_spec 0 (d - 53)).
  - replace (d - 53) with 0 by lia. replace (53 - d) with 0 by lia. by rewrite !Z.mul_1_r.
  - replace (- (d - 53)) with (53 - d) by lia. rewrite Z.div_mul; [done|].
    apply Z.pow_nonzero; lia.
Qed.

Lemma trunc_of_Z z : 0 <= z < 2 ^ 53 -> trunc (of_Z z) = Some z.
Proof.
  intros Hz. destruct (decide (z = 0)) as [->|]; [done|]. apply trunc_int, of_Z_int. lia.
Qed.

(** ** The order *)
Definition number (x : double) : bool := match x with S754_nan => false | _ => true end.

Lemma compare_cont_pos m1 m2 : Pos.compare_cont Eq m1 m2 = (Zpos m1 ?= Zpos m2).
Proof. done. Qed.

(** Finite numbers compare by sign, exponent and mantissa. *)
Ltac compare_cases :=
  repeat match goal with
  | H : context [Z.compare ?a ?b] |- _ => destruct (Z.compare_spec a b); subst
  | |- context [Z.compare ?a ?b] => destruct (Z.compare_spec a b); subst
  end; try done; try lia.

Lemma dle_total x y : number x = true -> number y = true -> dlt y x = false -> dle x y = true.
Proof.
  unfold dlt, dle, SFltb, SFleb.
  destruct x as [sx|[]| |[] mx ex], y as [sy|[]| |[] my ey]; cbn [SFcompare number];
    rewrite ?compare_cont_pos; intros; compare_cases; done.
Qed.

Lemma dlt_le x y : dlt x y = true -> dle x y = true.
Proof. unfold dlt, dle, SFltb, SFleb. by destruct (SFcompare x y) as [[]|]. Qed.

Lemma dle_refl x : number x = true -> dle x x = true.
Proof. intros Hx. apply dle_total; [done..|]. unfold dlt, SFltb.
  destruct x as [sx|[]| |[] mx ex]; cbn [SFcompare]; rewrite ?compare_cont_pos, ?Z.compare_refl; done.
Qed.

Lemma dle_trans x y z : dle x y = true -> dle y z = true -> dle x z = true.
Proof.
  unfold dle, SFleb.
  destruct x as [sx|[]| |[] mx ex], y as [sy|[]| |[] my ey], z as [sz|[]| |[] mz ez];
    cbn [SFcompare]; try done; rewrite ?compare_cont_pos; unfold CompOpp;
    intros; compare_cases.
Qed.

(** *** Comparing integers *)
Lemma round_sign s m e l :
  binary_round_aux 53 1024 s m e l =
    (if s then SFopp (binary_round_aux 53 1024 false m e l) else binary_round_aux 53 1024 false m e l).
Proof.
  destruct s; [|done]. unfold binary_round_aux.
  destruct (shr_fexp 53 1024 m e l) as [r e'].
  destruct (shr_fexp 53 1024 (round_nearest_even (shr_m r) (loc_of_shr_record r)) e' loc_Exact) as [r2 e2].
  destruct (shr_m r2); [done| |done]. by destruct (e2 <=? 1024 - 53).
Qed.

Lemma of_Z_opp z : 0 < z -> of_Z (- z) = SFopp (of_Z z).
Proof.
  destruct z as [|z|z]; try lia. intros _. unfold of_Z. change (- Zpos z) with (Zneg z).
  cbn [binary_normalize]. unfold binary_round.
  destruct (shl_align z 0 _) as [m e]. by rewrite (round_sign true).
Qed.

Lemma dlt_int a b x y :
  is_int a x -> is_int b y -> dlt x y = (a <? b) /\ dlt (SFopp x) (SFopp y) = (b <? a) /\
    dlt (SFopp x) y = true /\ dlt x (SFopp y) = false.
Proof.
  intros (m1 & d1 & Hd1 & Hb1 & Hm1 & ->) (m2 & d2 & Hd2 & Hb2 & Hm2 & ->).
  unfold dlt, SFltb. cbn [SFopp negb SFcompare]. rewrite !compare_cont_pos.
  assert (forall i j u v, i < j -> 0 < i <= 53 -> j <= 53 -> u < 2 ^ i -> 2 ^ (j - 1) <= v -> u < v) as Hlt.
  { intros i j u v Hij Hi Hj Hu Hv. assert (2 ^ i <= 2 ^ (j - 1)) by (apply Z.pow_le_mono_r; lia). lia. }
  destruct (Z.compare_spec (d1 - 53) (d2 - 53)) as [E|E|E].
  - assert (d1 = d2) as -> by lia. rewrite Hm1, Hm2.
    assert (0 < 2 ^ (53 - d2)) by (apply Z.pow_pos_nonneg; lia).
    assert (forall u v, (u * 2 ^ (53 - d2) ?= v * 2 ^ (53 - d2)) = (u ?= v)) as Hc.
    { intros u v. symmetry. by apply Zmult_compare_compat_r; lia. }
    rewrite !Hc. unfold Z.ltb. rewrite (Z.compare_antisym a b). by destruct (a ?= b).
  - assert (a < b) by (apply (Hlt d1 d2); lia). cbn.
    rewrite (proj2 (Z.ltb_lt a b)), (proj2 (Z.ltb_ge b a)) by lia. done.
  - assert (b < a) by (apply (Hlt d2 d1); lia). cbn.
    rewrite (proj2 (Z.ltb_lt b a)), (proj2 (Z.ltb_ge a b)) by lia. done.
Qed.

Lemma dlt_of_Z a b : - 2 ^ 53 < a < 2 ^ 53 -> - 2 ^ 53 < b < 2 ^ 53 -> dlt (of_Z a) (of_Z b) = (a <? b).
Proof.
  intros Ha Hb.
  assert (forall z, - 2 ^ 53 < z < 2 ^ 53 -> z = 0 \/ (0 < z /\ is_int z (of_Z z)) \/
    (z < 0 /\ of_Z z = SFopp (of_Z (- z)) /\ is_int (- z) (of_Z (- z)))) as Hc.
  { intros z Hz. destruct (Z.lt_trichotomy z 0) as [H|[H|H]]; [right; right|by left|right; left].
    - split; [done|]. split; [|apply of_Z_int; lia]. rewrite <- of_Z_opp by lia. f_equal. lia.
    - split; [done|]. apply of_Z_int. lia. }
  destruct (Hc a Ha) as [->|[[Pa Ia]|[Na [Ea Ia]]]], (Hc b Hb) as [->|[[Pb Ib]|[Nb [Eb Ib]]]];
    rewrite ?Ea, ?Eb.
  - done.
  - destruct Ib as (m & d & _ & _ & _ & ->). symmetry. by apply Z.ltb_lt.
  - destruct Ib as (m & d & _ & _ & _ & ->). symmetry. apply Z.ltb_ge. lia.
  - destruct Ia as (m & d & _ & _ & _ & ->). symmetry. apply Z.ltb_ge. lia.
  - apply (dlt_int a b _ _ Ia Ib).
  - destruct (dlt_int a (- b) _ _ Ia Ib) as (_ & _ & _ & ->). symmetry. apply Z.ltb_ge. lia.
  - destruct Ia as (m & d & _ & _ & _ & ->). symmetry. apply Z.ltb_lt. lia.
  - destruct (dlt_int (- a) b _ _ Ia Ib) as (_ & _ & -> & _). symmetry. apply Z.ltb_lt. lia.
  - destruct (dlt_int (- a) (- b) _ _ Ia Ib) as (_ & -> & _).
    destruct (Z.ltb_spec (- b) (- a)), (Z.ltb_spec a b); done || lia.
Qed.

(** *** Signs *)
Definition nonneg (x : double) : bool :=
  match x with
  | S754_zero _ => true
  | S754_infinity s | S754_finite s _ _ => negb s
  | S754_nan => false
  end.
Definition above_zero (x : double) : bool := dlt (S754_zero false) x.

Lemma round_nonneg m e l :
  number (binary_round_aux 53 1024 false m e l) = true -> nonneg (binary_round_aux 53 1024 false m e l) = true.
Proof.
  unfold binary_round_aux. destruct (shr_fexp 53 1024 m e l) as [r e'].
  destruct (shr_fexp 53 1024 _ e' loc_Exact) as [r2 e2].
  destruct (shr_m r2); [done| |done]. by destruct (e2 <=? 1024 - 53).
Qed.

Lemma shr_fexp_nonneg m e l : 0 <= m -> 0 <= shr_m (shr_fexp 53 1024 m e l).1.
Proof.
  intros Hm. unfold shr_fexp, shr. pose proof (shr_m_of_loc m l) as E.
  destruct (_ - e) as [|p|p]; cbn [fst]; rewrite ?E; try done.
  rewrite shr_iter; rewrite E; [|done]. by apply Z.div_pos, Z.pow_pos_nonneg.
Qed.

Lemma round_number m e l : 0 <= m -> number (binary_round_aux 53 1024 false m e l) = true.
Proof.
  intros Hm. unfold binary_round_aux. pose proof (shr_fexp_nonneg m e l Hm) as H1.
  destruct (shr_fexp 53 1024 m e l) as [r e']. cbn [fst] in H1.
  pose proof (nearest_bounds (shr_m r) (loc_of_shr_record r)) as H2.
  pose proof (shr_fexp_nonneg _ e' loc_Exact (Z.le_trans _ _ _ H1 (proj1 H2))) as H3.
  destruct (shr_fexp 53 1024 _ e' loc_Exact) as [r2 e2]. cbn [fst] in H3.
  destruct (shr_m r2); [done| |lia]. by destruct (e2 <=? 1024 - 53).
Qed.

Lemma round_pos m e l : 0 <= m -> nonneg (binary_round_aux 53 1024 false m e l) = true.
Proof. intros Hm. by apply round_nonneg, round_number. Qed.

Lemma dadd_nonneg x y : nonneg x = true -> nonneg y = true -> nonneg (dadd x y) = true.
Proof.
  destruct x as [sx|[]| |[] mx ex], y as [sy|[]| |[] my ey]; try done; intros _ _; unfold dadd; cbn [SFadd].
  - by destruct sx, sy.
  - cbn [cond_Zopp]. rewrite <- Pos2Z.inj_add. cbn [binary_normalize]. unfold binary_round.
    destruct (shl_align (_ + _) _ _) as [m e]. by apply round_pos.
Qed.

(** Finite and above 0. *)
Definition finite_pos (x : double) : bool := match x with S754_finite false _ _ => true | _ => false end.

Lemma dmul_nonneg x y : finite_pos x = true -> nonneg (dopp y) = true -> nonneg (dmul (dopp x) y) = true.
Proof.
  destruct x as [sx|sx| |[] mx ex], y as [sy|[]| |[] my ey]; try done; intros _ _.
  unfold dmul, dopp. cbn [SFopp negb SFmul xorb]. by apply round_pos.
Qed.

Lemma dmul_nonneg_r x y : finite_pos x = true -> nonneg y = true -> nonneg (dmul x y) = true.
Proof.
  destruct x as [sx|sx| |[] mx ex], y as [sy|[]| |[] my ey]; try done; intros _ _.
  unfold dmul. cbn [SFmul xorb]. by apply round_pos.
Qed.

(** A quotient that can be converted is not negative. *)
Lemma trunc_div x y z :
  nonneg x = true -> above_zero y = true -> trunc (ddiv x y) = Some z -> 0 <= z.
Proof.
  intros Hx Hy. assert (nonneg (ddiv x y) = true \/ trunc (ddiv x y) = None) as [H|H].
  { unfold ddiv. destruct x as [sx|[]| |[] mx ex], y as [sy|[]| |[] my ey]; try done; cbn [SFdiv xorb]; auto.
    destruct (SFdiv_core_binary _ _ _ _ _ _) as [[m e] l].
    destruct (number (binary_round_aux 53 1024 false m e l)) eqn:E.
    - left. by apply round_nonneg.
    - right. by destruct (binary_round_aux _ _ _ _ _ _). }
  - destruct (ddiv x y) as [s|s| |[] m e]; cbn in H |- *; try done; intros [= <-]; [done|].
    case_match; [|apply Z.div_pos; [done|apply Z.pow_pos_nonneg; lia]].
    apply Z.mul_nonneg_nonneg; [done|]. apply Z.pow_nonneg. lia.
  - by rewrite H.
Qed.

(** *** Dividing by 10 *)
Lemma trunc_bound m e k :
  Zpos m < 2 ^ 53 -> 0 <= k -> e <= k - 53 ->
  exists z, trunc (S754_finite false m e) = Some z /\ 0 <= z < 2 ^ k.
Proof.
  intros Hm Hk He. eexists. split; [reflexivity|]. cbn. destruct (Z.leb_spec 0 e).
  - assert (Zpos m * 2 ^ e < 2 ^ 53 * 2 ^ e) by (apply Z.mul_lt_mono_pos_r; [apply Z.pow_pos_nonneg; lia|done]).
    rewrite <- Z.pow_add_r in * by lia.
    assert (2 ^ (53 + e) <= 2 ^ k) by (apply Z.pow_le_mono_r; lia).
    assert (0 < 2 ^ e) by (apply Z.pow_pos_nonneg; lia). nia.
  - split; [apply Z.div_pos; [lia|apply Z.pow_pos_nonneg; lia]|].
    apply Z.div_lt_upper_bound; [apply Z.pow_pos_nonneg; lia|]. rewrite <- Z.pow_add_r by lia.
    assert (2 ^ 53 <= 2 ^ (- e + k)) by (apply Z.pow_le_mono_r; lia). lia.
Qed.

Lemma trunc_div10 a :
  0 < a < 2 ^ 31 -> exists z, trunc (ddiv (of_Z a) (of_Z 10)) = Some z /\ 0 <= z < 2 ^ 31.
Proof.
  intros Ha. destruct (of_Z_int a ltac:(lia)) as (m & d & Hd & Hb & Hm & ->).
  assert (d <= 31) as Hd31.
  { destruct (Z.le_gt_cases d 31); [done|].
    assert (2 ^ 31 <= 2 ^ (d - 1)) by (apply Z.pow_le_mono_r; lia). lia. }
  assert (0 < 2 ^ (53 - d)) as Hk by (apply Z.pow_pos_nonneg; lia).
  assert (2 ^ 52 = 2 ^ (d - 1) * 2 ^ (53 - d)) as E52 by (rewrite <- Z.pow_add_r by lia; f_equal; lia).
  assert (2 ^ 53 = 2 ^ d * 2 ^ (53 - d)) as E53 by (rewrite <- Z.pow_add_r by lia; f_equal; lia).
  assert (2 ^ 52 <= Zpos m < 2 ^ 53) as Hmr by nia.
  change (of_Z 10) with (S754_finite false 5629499534213120 (-49)).
  unfold ddiv. cbn [SFdiv xorb]. unfold SFdiv_core_binary. cbn [Zdigits2].
  rewrite (digits_unique m 53) by (cbn; lia).
  change (Zpos (digits2_pos 5629499534213120)) with 53.
  rewrite fexp_normal by lia.
  replace (Z.min (53 + (d - 53) - (53 + -49) - 53) (d - 53 - -49)) with (d - 57) by lia.
  replace (d - 53 - -49 - (d - 57)) with 53 by lia.
  rewrite Z.shiftl_mul_pow2 by lia.
  pose proof (Z_div_mod (Zpos m * 2 ^ 53) 5629499534213120 ltac:(lia)) as Hdiv.
  destruct (Z.div_eucl (Zpos m * 2 ^ 53) 5629499534213120) as [q r].
  destruct Hdiv as [Eq Hr]. assert (2 ^ 52 <= q < 2 ^ 54) as Hq by lia.
  destruct q as [|q|q]; try lia.
  assert (53 <= Zpos (digits2_pos q) <= 54) as Hdig.
  { destruct (decide (Zpos q < 2 ^ 53)); [rewrite (digits_unique q 53) by (cbn; lia); lia|].
    rewrite (digits_unique q 54) by (cbn; lia). lia. }
  destruct (round_normal q (d - 57) (new_location 5629499534213120 r) _ eq_refl)
    as (m' & e' & -> & Hm' & He'); [lia..|].
  destruct (trunc_bound m' e' 31) as (z & Hz & Hzr); [lia|lia|lia|]. exists z. by split.
Qed.
