(* ===== verification/Numerical.v ===== *)
(** * Random numbers of the testbed ([testbed/src/numerical.c])

    The thread-local seed, [Random] and [Expent].  [random()] is a stream of
    the C library; the n-th call of a thread returns [random n].  [log] is the
    C library's.  The state they act on is a part of any state ([HasRng]). *)
From Stdlib Require Import SpecFloat.
From S2P Require Import Prelude Doubles.
Local Open Scope prog_scope.

(* 1.0 *)
Definition DOUBLE_1 : double := S754_finite false 4503599627370496 (-52).

(** ** The C library *)
Class Libc := {
  random : nat -> Z;
  dlog : double -> double;
  dpow : double -> double -> double;
  malloc_fails : nat -> bool;
}.

(** POSIX: random() returns a number in [0, 2^31 - 1]. *)
Class LibcLaws (L : Libc) : Prop := {
  random_range n : 0 <= random n < 2 ^ 31;
}.

(** C: log(x) is not positive for x up to 1. *)
Class LogLaws (L : Libc) : Prop := {
  log_unit r : dlt (S754_zero false) r = true -> dlt r DOUBLE_1 = true ->
    nonneg (dopp (dlog (dsub DOUBLE_1 r))) = true;
}.

(** ** State *)
Record rng := { master_seed : Z; draws : nat }.

Class HasRng (S : Type) := {
  get_rng : S -> rng;
  set_rng : rng -> S -> S;
  get_set_rng r s : get_rng (set_rng r s) = r;
}.

(* 2.328306435454494e-10 *)
Definition SCALE : double := S754_finite false 9007199250546688 (-85).
Definition EXIT_FAILURE : Z := 1.

(** ** Operations *)

(* the two halves of the seed, as little-endian 32-bit words *)
Definition lo32 (x : Z) : Z := Z.land x (2 ^ 32 - 1).
Definition hi32 (x : Z) : Z := Z.shiftr x 32.
Definition join32 (lo hi : Z) : Z := lo + Z.shiftl hi 32.

Definition mwc (a x : Z) : Z := u32 (u32 (a * Z.land x 65535) + Z.shiftr x 16).

Definition mix (seed1 seed2 : Z) : Z :=
  u32 (u32 (u32 (Z.shiftl seed1 16) + Z.shiftr seed1 16) + seed2).

Section numerical.
Context `{L : Libc} {S : Type} `{H : !HasRng S}.

Definition Random : M S double :=
  s <- get ;;
  let r := get_rng s in
  let r := if master_seed r =? 0
           then {| master_seed := u64 (random (draws r)); draws := (draws r + 1)%nat |} else r in
  let seed1 := mwc 36969 (lo32 (master_seed r)) in
  let seed2 := mwc 18000 (hi32 (master_seed r)) in
  put (set_rng {| master_seed := join32 seed1 seed2; draws := draws r |} s) ;;;
  ret (dmul (dadd (of_Z (mix seed1 seed2)) DOUBLE_1) SCALE).

Definition Expent (mean : double) : M S double :=
  if dlt mean (S754_zero false) then crash (Exited EXIT_FAILURE) else
  r <- Random ;;
  ret (dmul (dopp mean) (dlog (dsub DOUBLE_1 r))).
End numerical.

(** ** The multiply-with-carry step *)
Lemma u32_range x : in_u32 (u32 x).
Proof. apply wrapU_range. lia. Qed.

Lemma lo32_range x : in_u32 (lo32 x).
Proof. unfold lo32. change (2 ^ 32 - 1) with (Z.ones 32). rewrite Z.land_ones by lia. apply Z.mod_pos_bound. lia. Qed.

Lemma lo32_join lo hi : in_u32 lo -> 0 <= hi -> lo32 (join32 lo hi) = lo /\ hi32 (join32 lo hi) = hi.
Proof.
  unfold in_u32, lo32, hi32, join32. intros Hlo Hhi.
  change (2 ^ 32 - 1) with (Z.ones 32).
  rewrite Z.land_ones, Z.shiftl_mul_pow2, Z.shiftr_div_pow2 by lia.
  rewrite Z_mod_plus_full, Z.mod_small, Z.div_add, Z.div_small by lia. lia.
Qed.

(** No wrap-around: the carry fits, and only 0 goes to 0. *)
Lemma mwc_value a x :
  in_u32 x -> 0 < a < 2 ^ 16 -> mwc a x = a * (x mod 2 ^ 16) + x / 2 ^ 16.
Proof.
  unfold in_u32. intros Hx Ha. unfold mwc. change 65535 with (Z.ones 16).
  rewrite Z.land_ones, Z.shiftr_div_pow2 by lia.
  pose proof (Z.mod_pos_bound x (2 ^ 16) ltac:(lia)).
  assert (0 <= x / 2 ^ 16 < 2 ^ 16).
  { split; [apply Z.div_pos; lia|]. apply Z.div_lt_upper_bound; lia. }
  rewrite (u32_small (a * _)) by (unfold in_u32; nia). apply u32_small. unfold in_u32. nia.
Qed.

Lemma mwc_nonzero a x : in_u32 x -> 0 < a < 2 ^ 16 -> mwc a x = 0 <-> x = 0.
Proof.
  intros Hx Ha. rewrite mwc_value by done. unfold in_u32 in Hx.
  pose proof (Z.div_mod x (2 ^ 16) ltac:(lia)). pose proof (Z.mod_pos_bound x (2 ^ 16) ltac:(lia)).
  assert (0 <= x / 2 ^ 16) by (apply Z.div_pos; lia). split; intros; [nia|]. subst x.
  rewrite Z.mod_0_l, Z.div_0_l by lia. lia.
Qed.

Lemma mwc_range a x : in_u32 (mwc a x).
Proof. apply u32_range. Qed.

(** ** The result is strictly between 0 and 1 *)
Lemma dadd_one z : 0 <= z < 2 ^ 32 -> is_int (z + 1) (dadd (of_Z z) DOUBLE_1).
Proof.
  intros Hz. destruct (decide (z = 0)) as [->|Hne].
  - exists 4503599627370496%positive, 1. by repeat split.
  - apply dadd_int; [apply of_Z_int; lia| |lia..].
    exists 4503599627370496%positive, 1. by repeat split.
Qed.

Lemma below_one m e :
  2 ^ 52 <= Zpos m < 2 ^ 53 -> e <= -53 ->
  dlt (S754_zero false) (S754_finite false m e) = true /\
  dlt (S754_finite false m e) DOUBLE_1 = true.
Proof.
  intros Hm He. split; [done|]. unfold dlt, SFltb, DOUBLE_1. cbn [SFcompare].
  by rewrite (proj2 (Z.compare_lt_iff e (-52))) by lia.
Qed.

Lemma scale_below_one z x :
  0 < z <= 2 ^ 32 -> is_int z x ->
  dlt (S754_zero false) (dmul x SCALE) = true /\ dlt (dmul x SCALE) DOUBLE_1 = true.
Proof.
  intros Hz (m & d & Hd & Hb & Hm & ->). unfold dmul, SCALE. cbn [SFmul xorb].
  set (k := 2 ^ (53 - d)). assert (0 < k) by (apply Z.pow_pos_nonneg; lia).
  assert (2 ^ 52 = 2 ^ (d - 1) * k) as E52 by (unfold k; rewrite <- Z.pow_add_r by lia; f_equal; lia).
  assert (2 ^ 53 = 2 ^ d * k) as E53 by (unfold k; rewrite <- Z.pow_add_r by lia; f_equal; lia).
  assert (2 ^ 52 <= Zpos m < 2 ^ 53) as Hm53 by (rewrite Hm; fold k; nia).
  set (p := (m * 9007199250546688)%positive).
  assert (Zpos p = Zpos m * 9007199250546688) as Hp by (unfold p; lia).
  destruct (decide (d = 33)) as [->|Hd33].
  - assert (z = 2 ^ 32) as -> by lia.
    assert (m = 4503599627370496%positive) as -> by (unfold k in Hm; cbn in Hm; lia).
    by vm_compute.
  - assert (d <= 32) as Hd32.
    { destruct (Z.le_gt_cases d 32); [done|]. exfalso.
      assert (2 ^ 33 <= 2 ^ (d - 1)) by (apply Z.pow_le_mono_r; lia). lia. }
    assert (2 ^ 21 <= k) as Hk by (unfold k; apply Z.pow_le_mono_r; lia).
    assert (Zpos m <= 2 ^ 53 - k) as Hmk by (rewrite Hm; fold k; nia).
    assert (Zpos (digits2_pos p) = 105 \/ Zpos (digits2_pos p) = 106) as Hdig.
    { destruct (decide (Zpos p < 2 ^ 105)); [left|right]; apply digits_unique; lia. }
    destruct (round_normal p (d - 53 + -85) loc_Exact (Zpos (digits2_pos p)) eq_refl) as (m' & e' & -> & Hm' & He'); [lia..|].
    apply below_one; [done|]. destruct Hdig as [Hdig|Hdig]; rewrite Hdig in He'; [lia|].
    destruct He' as [|[-> Hcarry]]; [lia|].
    assert (Zpos p / 2 ^ (106 - 53) < 2 ^ 53 - 1); [|lia].
    apply Z.div_lt_upper_bound; [done|]. lia.
Qed.

Section random.
Context `{L : Libc} {S : Type} `{H : !HasRng S}.
Implicit Types s : S.

(** What a draw does to the seed, and the number it returns. *)
Definition seeded (r : rng) : rng :=
  if master_seed r =? 0
  then {| master_seed := u64 (random (draws r)); draws := (draws r + 1)%nat |} else r.

Lemma run_Random s :
  let r := seeded (get_rng s) in
  let seed1 := mwc 36969 (lo32 (master_seed r)) in
  let seed2 := mwc 18000 (hi32 (master_seed r)) in
  Random s = Ret (dmul (dadd (of_Z (mix seed1 seed2)) DOUBLE_1) SCALE,
    set_rng {| master_seed := join32 seed1 seed2; draws := draws r |} s).
Proof. done. Qed.

Lemma Random_unit s :
  exists x r, Random s = Ret (x, set_rng r s) /\
    dlt (S754_zero false) x = true /\ dlt x DOUBLE_1 = true.
Proof.
  eexists _, _. split; [apply run_Random|].
  match goal with |- context[mix ?a ?b] => pose proof (u32_range (u32 (u32 (Z.shiftl a 16) + Z.shiftr a 16) + b)) as Hr;
    change (u32 (u32 (u32 (Z.shiftl a 16) + Z.shiftr a 16) + b)) with (mix a b) in Hr;
    generalize dependent (mix a b) end.
  intros z Hz. unfold in_u32 in Hz. apply (scale_below_one (z + 1)); [lia|].
  by apply dadd_one.
Qed.

(** [Random] returns a number strictly between 0 and 1, whatever the seed. *)
Theorem random_in_unit s :
  exists x s', Random s = Ret (x, s') /\
    dlt (S754_zero false) x = true /\ dlt x DOUBLE_1 = true.
Proof. destruct (Random_unit s) as (x & r & Hx). by exists x, (set_rng r s). Qed.

(** The second of the two generators that are to be combined never runs: the
    seed is a 31-bit number of random() in a 64-bit word, so the upper half
    is 0, which multiply-with-carry maps to 0.  The numbers are those of the
    first generator alone, and random() is asked again only while it returns
    0. *)
Theorem random_second_generator_dead s :
  LibcLaws L -> 0 <= master_seed (get_rng s) < 2 ^ 32 ->
  exists seed1 s', Random s = Ret (dmul (dadd (of_Z (mix seed1 0)) DOUBLE_1) SCALE, s') /\
    master_seed (get_rng s') = seed1 /\ 0 <= seed1 < 2 ^ 32 /\
    (master_seed (get_rng s) <> 0 -> seed1 <> 0 /\ draws (get_rng s') = draws (get_rng s)).
Proof.
  intros LL Hs. set (r := seeded (get_rng s)).
  assert (0 <= master_seed r < 2 ^ 32) as Hr.
  { unfold r, seeded. case_match; [|done]. cbn. pose proof (random_range (draws (get_rng s))).
    rewrite u64_small by (unfold in_u64; lia). lia. }
  assert (hi32 (master_seed r) = 0 /\ lo32 (master_seed r) = master_seed r) as [Ehi Elo].
  { pose proof (lo32_join (master_seed r) 0 Hr ltac:(lia)) as [E1 E2].
    unfold join32 in E1, E2. rewrite Z.shiftl_0_l, Z.add_0_r in E1, E2. done. }
  pose proof (run_Random s) as Hrun. fold r in Hrun. cbn zeta in Hrun. rewrite Ehi, Elo in Hrun.
  change (mwc 18000 0) with 0 in Hrun.
  pose proof (mwc_range 36969 (master_seed r)) as Hm.
  eexists _, _. split; [exact Hrun|]. rewrite get_set_rng. cbn.
  unfold join32. rewrite Z.shiftl_0_l, Z.add_0_r. split; [done|]. split; [exact Hm|].
  intros Hne. assert (r = get_rng s) as -> by (unfold r, seeded; by rewrite (proj2 (Z.eqb_neq _ _) Hne)).
  split; [|done]. rewrite mwc_nonzero; [done|exact Hs|lia].
Qed.

(** A draw of an exponential variable. *)
Lemma run_Expent mean s :
  dlt mean (S754_zero false) = false ->
  exists x s', Expent mean s = Ret (x, s') /\
    exists r, Random s = Ret (r, s') /\ x = dmul (dopp mean) (dlog (dsub DOUBLE_1 r)).
Proof.
  intros Hm. unfold Expent. rewrite Hm. pose proof (run_Random s) as Hrun. cbn zeta in Hrun.
  rewrite (bind_run _ _ _ _ _ Hrun). eexists _, _. split; [reflexivity|].
  eexists. split; [exact Hrun|done].
Qed.

(** With a positive mean it is not negative, since the log of a number below
    1 is not positive. *)
Lemma Expent_nonneg mean s :
  LogLaws L -> finite_pos mean = true ->
  exists x r, Expent mean s = Ret (x, set_rng r s) /\ nonneg x = true.
Proof.
  intros LL Hm. destruct (Random_unit s) as (u & r & Hr & H0 & H1).
  eexists _, r. split.
  - unfold Expent. assert (dlt mean (S754_zero false) = false) as -> by by destruct mean as [| | |[]].
    rewrite (bind_run _ _ _ _ _ Hr). reflexivity.
  - apply dmul_nonneg; [done|]. by apply log_unit.
Qed.

(** A draw touches nothing but the generator. *)
Lemma Random_frame s :
  exists x r, Random s = Ret (x, set_rng r s).
Proof. eexists _, _. apply run_Random. Qed.
Lemma Expent_frame mean s :
  dlt mean (S754_zero false) = false -> exists x r, Expent mean s = Ret (x, set_rng r s).
Proof.
  intros (x & s' & Hrun & r & Hr & _)%(run_Expent _ s).
  destruct (Random_frame s) as (y & r' & Hy). rewrite Hy in Hr. injection Hr as <- <-.
  eexists _, _. exact Hrun.
Qed.
End random.
