(* ===== verification/Channel.v ===== *)
(** * Channel allocation of the cell model ([testbed/src/channel.c], [model.h])

    A GSM cell has a bitmap of busy channels and a doubly linked list of the
    calls that use them, through [prev] from the newest.  The structures live
    in heaps of their own type; a freed or unknown address faults.  The loops
    that walk the list take as fuel the number of list nodes in the heap. *)
From Stdlib Require Import SpecFloat.
From S2P Require Import Prelude Doubles Numerical.
Local Open Scope prog_scope.

Abbreviation loc := positive.

(** ** Structures of model.h *)
Record sir_data_per_cell := { fading : double; power : double }.

Record channel := {
  channel_id : Z;
  sir_data : option loc;
  next : option loc;
  prev : option loc;
}.

Record lp_state_type := {
  channel_counter : Z; arriving_calls : Z; complete_calls : Z;
  blocked_on_setup : Z; blocked_on_handoff : Z; leaving_handoffs : Z;
  arriving_handoffs : Z; cont_no_sir_aim : Z; executed_events : Z;
  lvt : double; ta : double; ref_ta : double; ta_duration : double; ta_change : double;
  channels_per_cell : Z;
  channel_state : list Z;
  channels : option loc;
  dummy : Z; dummy_flag : bool;
}.

Definition set_channel_state (x : list Z) (p : lp_state_type) : lp_state_type :=
  {| channel_counter := channel_counter p; arriving_calls := arriving_calls p;
     complete_calls := complete_calls p; blocked_on_setup := blocked_on_setup p;
     blocked_on_handoff := blocked_on_handoff p; leaving_handoffs := leaving_handoffs p;
     arriving_handoffs := arriving_handoffs p; cont_no_sir_aim := cont_no_sir_aim p;
     executed_events := executed_events p; lvt := lvt p; ta := ta p; ref_ta := ref_ta p;
     ta_duration := ta_duration p; ta_change := ta_change p;
     channels_per_cell := channels_per_cell p; channel_state := x; channels := channels p;
     dummy := dummy p; dummy_flag := dummy_flag p |}.
Definition set_channels (x : option loc) (p : lp_state_type) : lp_state_type :=
  {| channel_counter := channel_counter p; arriving_calls := arriving_calls p;
     complete_calls := complete_calls p; blocked_on_setup := blocked_on_setup p;
     blocked_on_handoff := blocked_on_handoff p; leaving_handoffs := leaving_handoffs p;
     arriving_handoffs := arriving_handoffs p; cont_no_sir_aim := cont_no_sir_aim p;
     executed_events := executed_events p; lvt := lvt p; ta := ta p; ref_ta := ref_ta p;
     ta_duration := ta_duration p; ta_change := ta_change p;
     channels_per_cell := channels_per_cell p; channel_state := channel_state p; channels := x;
     dummy := dummy p; dummy_flag := dummy_flag p |}.

Definition set_fading (x : double) (d : sir_data_per_cell) : sir_data_per_cell :=
  {| fading := x; power := power d |}.
Definition set_power (x : double) (d : sir_data_per_cell) : sir_data_per_cell :=
  {| fading := fading d; power := x |}.
Definition set_next (x : option loc) (c : channel) : channel :=
  {| channel_id := channel_id c; sir_data := sir_data c; next := x; prev := prev c |}.
Definition set_prev (x : option loc) (c : channel) : channel :=
  {| channel_id := channel_id c; sir_data := sir_data c; next := next c; prev := x |}.

Definition MIN_POWER : double := of_Z 3.
Definition MAX_POWER : double := of_Z 3000.
Definition SIR_AIM : double := of_Z 10.
Definition CROSS_PATH_GAIN : double := ddiv (of_Z 5) (of_Z (10 ^ 14)).
Definition PATH_GAIN : double := ddiv (of_Z 1) (of_Z (10 ^ 10)).

(** The bit macros, on 32-bit words. *)
Definition BITS : Z := 32.
Definition SET_CHANNEL_BIT (b k : Z) : Z := Z.lor b (u32 (Z.shiftl 1 k)).
Definition RESET_CHANNEL_BIT (b k : Z) : Z := Z.land b (u32 (Z.lnot (Z.shiftl 1 k))).
Definition CHECK_CHANNEL_BIT (b k : Z) : bool := negb (Z.land b (u32 (Z.shiftl 1 k)) =? 0).

(** ** The interval between calls, by the time of the week *)
Definition HOUR : Z := 3600.
Definition DAY : Z := 24 * HOUR.
Definition WEEK : Z := 7 * DAY.
Definition EARLY_MORNING : double := dmul (ddiv (of_Z 85) (of_Z 10)) (of_Z HOUR).
Definition MORNING : Z := 13 * HOUR.
Definition LUNCH : Z := 15 * HOUR.
Definition AFTERNOON : Z := 19 * HOUR.
Definition EVENING : Z := 21 * HOUR.
Definition EARLY_MORNING_FACTOR : double := of_Z 4.
Definition MORNING_FACTOR : double := ddiv (of_Z 8) (of_Z 10).
Definition LUNCH_FACTOR : double := ddiv (of_Z 25) (of_Z 10).
Definition AFTERNOON_FACTOR : double := of_Z 2.
Definition EVENING_FACTOR : double := ddiv (of_Z 22) (of_Z 10).
Definition NIGHT_FACTOR : double := ddiv (of_Z 45) (of_Z 10).
Definition WEEKEND_FACTOR : double := of_Z 5.

(* [None]: the conversion of the time to int is undefined *)
Definition recompute_ta (ref_ta time_now : double) : option double :=
  match trunc time_now with
  | Some now =>
      if decide (in_i32 now) then
        let now := Z.rem now WEEK in
        Some (dmul ref_ta
          (if now >? 5 * DAY then WEEKEND_FACTOR else
           let now := Z.rem now DAY in
           if dlt (of_Z now) EARLY_MORNING then EARLY_MORNING_FACTOR else
           if now <? MORNING then MORNING_FACTOR else
           if now <? LUNCH then LUNCH_FACTOR else
           if now <? AFTERNOON then AFTERNOON_FACTOR else
           if now <? EVENING then EVENING_FACTOR else NIGHT_FACTOR))
      else None
  | None => None
  end.

(** The schedule repeats every week. *)
Lemma recompute_ta_weekly ref_ta t :
  0 <= t < 2 ^ 31 - WEEK ->
  recompute_ta ref_ta (of_Z (t + WEEK)) = recompute_ta ref_ta (of_Z t) /\
  is_Some (recompute_ta ref_ta (of_Z t)).
Proof.
  intros Ht. assert (WEEK = 604800) as EW by done.
  unfold recompute_ta. rewrite !trunc_of_Z by lia.
  rewrite !decide_True by (unfold in_i32; lia).
  rewrite !(Z.rem_mod_nonneg _ WEEK) by lia.
  replace (t + WEEK) with (t + 1 * WEEK) by lia. rewrite Z_mod_plus_full. by split; [|eexists].
Qed.

(** ** Memory *)
Record tb := {
  tb_rng : rng;
  tb_lps : gmap loc lp_state_type;
  tb_chans : gmap loc channel;
  tb_sirs : gmap loc sir_data_per_cell;
  tb_mallocs : nat;
}.

#[export] Program Instance tb_has_rng : HasRng tb := {|
  get_rng := tb_rng;
  set_rng r s := {| tb_rng := r; tb_lps := tb_lps s; tb_chans := tb_chans s;
    tb_sirs := tb_sirs s; tb_mallocs := tb_mallocs s |};
|}.
Next Obligation. done. Qed.

Class TbHeap (A : Type) := {
  tb_heap : tb -> gmap loc A;
  set_tb_heap : gmap loc A -> tb -> tb;
}.
#[export] Instance lps_heap : TbHeap lp_state_type := {|
  tb_heap := tb_lps;
  set_tb_heap h s := {| tb_rng := tb_rng s; tb_lps := h; tb_chans := tb_chans s;
    tb_sirs := tb_sirs s; tb_mallocs := tb_mallocs s |};
|}.
#[export] Instance chans_heap : TbHeap channel := {|
  tb_heap := tb_chans;
  set_tb_heap h s := {| tb_rng := tb_rng s; tb_lps := tb_lps s; tb_chans := h;
    tb_sirs := tb_sirs s; tb_mallocs := tb_mallocs s |};
|}.
#[export] Instance sirs_heap : TbHeap sir_data_per_cell := {|
  tb_heap := tb_sirs;
  set_tb_heap h s := {| tb_rng := tb_rng s; tb_lps := tb_lps s; tb_chans := tb_chans s;
    tb_sirs := h; tb_mallocs := tb_mallocs s |};
|}.

(** What uninitialised memory holds. *)
Class Junk := { junk_channel : channel; junk_sir : sir_data_per_cell }.

Section memory.
Context `{L : Libc} {A : Type} `{!TbHeap A}.

Definition load (p : option loc) : M tb A :=
  match p with
  | None => crash NullDeref
  | Some l => s <- get ;;
      match tb_heap s !! l with Some a => ret a | None => crash UseAfterFree end
  end.

Definition store (p : option loc) (a : A) : M tb unit :=
  match p with
  | None => crash NullDeref
  | Some l => s <- get ;;
      match tb_heap s !! l with
      | Some _ => put (set_tb_heap (<[l := a]> (tb_heap s)) s)
      | None => crash UseAfterFree
      end
  end.

Definition update (p : option loc) (f : A -> A) : M tb unit := a <- load p ;; store p (f a).

Definition malloc (a : A) : M tb (option loc) :=
  s <- get ;;
  let n := tb_mallocs s in
  let s' := {| tb_rng := tb_rng s; tb_lps := tb_lps s; tb_chans := tb_chans s;
               tb_sirs := tb_sirs s; tb_mallocs := S n |} in
  if malloc_fails n then put s' ;;; ret None
  else put (set_tb_heap (<[Pos.of_succ_nat n := a]> (tb_heap s')) s') ;;;
       ret (Some (Pos.of_succ_nat n)).

Definition free (p : option loc) : M tb unit :=
  match p with
  | None => ret tt
  | Some l => s <- get ;;
      match tb_heap s !! l with
      | Some _ => put (set_tb_heap (delete l (tb_heap s)) s)
      | None => crash UseAfterFree
      end
  end.
End memory.

(** ** Operations *)
Section channel.
Context `{L : Libc} `{J : Junk}.

Definition channel_word (pointer : option loc) (i : Z) : M tb Z :=
  p <- load (A := lp_state_type) pointer ;;
  match channel_state p !! Z.to_nat (i / BITS) with
  | Some w => ret w
  | None => crash (OutOfBounds (i / BITS))
  end.

Definition CHECK_CHANNEL (pointer : option loc) (i : Z) : M tb bool :=
  w <- channel_word pointer i ;; ret (CHECK_CHANNEL_BIT w (i mod BITS)).

Definition change_channel (f : Z -> Z -> Z) (pointer : option loc) (i : Z) : M tb unit :=
  w <- channel_word pointer i ;;
  update pointer (fun p => set_channel_state
    (<[Z.to_nat (i / BITS) := f w (i mod BITS)]> (channel_state p)) p).
Definition SET_CHANNEL := change_channel SET_CHANNEL_BIT.
Definition RESET_CHANNEL := change_channel RESET_CHANNEL_BIT.

(* the nodes a list can have at most *)
Definition list_fuel : M tb nat := s <- get ;; ret (S (size (tb_chans s))).

Fixpoint fading_loop (fuel : nat) (ch : option loc) : M tb unit :=
  match ch, fuel with
  | None, _ => ret tt
  | Some _, O => crash OutOfFuel
  | Some _, S fuel =>
      x <- Expent (of_Z 1) ;;
      c <- load (A := channel) ch ;;
      update (sir_data c) (set_fading x) ;;;
      c <- load (A := channel) ch ;;
      fading_loop fuel (prev c)
  end.

Definition fading_recheck (pointer : option loc) : M tb unit :=
  p <- load (A := lp_state_type) pointer ;;
  fuel <- list_fuel ;;
  fading_loop fuel (channels p).

Definition path_gain (gain : double) : M tb double :=
  r <- Random ;;
  let variation := dmul (of_Z 10) r in
  let variation := dpow (of_Z 10) (ddiv variation (of_Z 10)) in
  ret (dmul gain variation).
Definition generate_cross_path_gain : M tb double := path_gain CROSS_PATH_GAIN.
Definition generate_path_gain : M tb double := path_gain PATH_GAIN.

Fixpoint find_channel (fuel : nat) (c : option loc) (ch : Z) : M tb (option loc) :=
  match c, fuel with
  | None, _ => ret None
  | Some _, O => crash OutOfFuel
  | Some _, S fuel =>
      x <- load (A := channel) c ;;
      if channel_id x =? ch then ret c else find_channel fuel (prev x) ch
  end.

Definition unlink (pointer c : option loc) : M tb unit :=
  p <- load (A := lp_state_type) pointer ;;
  x <- load (A := channel) c ;;
  if bool_decide (c = channels p) then
    update pointer (set_channels (prev x)) ;;;
    match prev x with
    | Some _ => update (prev x) (set_next None)
    | None => ret tt
    end
  else
    match next x with
    | Some _ => update (next x) (set_prev (prev x))
    | None => ret tt
    end ;;;
    x <- load (A := channel) c ;;
    match prev x with
    | Some _ => update (prev x) (set_next (next x))
    | None => ret tt
    end.

Definition deallocation (pointer : option loc) (ch : Z) : M tb unit :=
  p <- load (A := lp_state_type) pointer ;;
  fuel <- list_fuel ;;
  c <- find_channel fuel (channels p) ch ;;
  match c with
  | Some _ =>
      unlink pointer c ;;;
      RESET_CHANNEL pointer ch ;;;
      x <- load (A := channel) c ;;
      free (A := sir_data_per_cell) (sir_data x) ;;;
      free (A := channel) c
  | None => crash Aborted
  end ;;;
  fading_recheck pointer.

(* the for loop over the channels, from [i], [n] of them left *)
Fixpoint free_index (n : nat) (pointer : option loc) (i : Z) : M tb Z :=
  match n with
  | O => ret (-1)
  | S n =>
      b <- CHECK_CHANNEL pointer i ;;
      if b then free_index n pointer (i + 1) else ret i
  end.

Fixpoint interference (fuel : nat) (ch : option loc) (summ : double) : M tb double :=
  match ch, fuel with
  | None, _ => ret summ
  | Some _, O => crash OutOfFuel
  | Some _, S fuel =>
      x <- Expent (of_Z 1) ;;
      c <- load (A := channel) ch ;;
      update (sir_data c) (set_fading x) ;;;
      g <- generate_cross_path_gain ;;
      d <- load (A := sir_data_per_cell) (sir_data c) ;;
      interference fuel (prev c) (dadd summ (dmul (dmul g (power d)) (fading d)))
  end.

Definition choose_power (c : option loc) (summ : double) : M tb unit :=
  x <- load (A := channel) c ;;
  if deq summ (S754_zero false) then update (sir_data x) (set_power MIN_POWER)
  else
    f <- Expent (of_Z 1) ;;
    update (sir_data x) (set_fading f) ;;;
    g <- generate_path_gain ;;
    d <- load (A := sir_data_per_cell) (sir_data x) ;;
    update (sir_data x) (set_power (ddiv (dmul SIR_AIM summ) (dmul g (fading d)))) ;;;
    d <- load (A := sir_data_per_cell) (sir_data x) ;;
    (if dlt (power d) MIN_POWER then update (sir_data x) (set_power MIN_POWER) else ret tt) ;;;
    d <- load (A := sir_data_per_cell) (sir_data x) ;;
    (if dlt MAX_POWER (power d) then update (sir_data x) (set_power MAX_POWER) else ret tt).

(* a node for channel [index], linked in front of the list *)
Definition add_call (pointer : option loc) (index : Z) : M tb (option loc) :=
  c <- malloc junk_channel ;;
  match c with None => crash (Exited (-1)) | Some _ =>
  p <- load (A := lp_state_type) pointer ;;
  update c (fun x => {| channel_id := index; sir_data := sir_data x; next := None; prev := channels p |}) ;;;
  d <- malloc junk_sir ;;
  update c (fun x => {| channel_id := channel_id x; sir_data := d; next := next x; prev := prev x |}) ;;;
  match d with None => crash (Exited (-1)) | Some _ =>
  match channels p with
  | Some _ => update (channels p) (set_next c)
  | None => ret tt
  end ;;;
  update pointer (set_channels c) ;;;
  ret c
  end end.

Definition allocation (pointer : option loc) : M tb Z :=
  p <- load (A := lp_state_type) pointer ;;
  index <- free_index (Z.to_nat (channels_per_cell p)) pointer 0 ;;
  (if index =? -1 then crash Aborted else
   SET_CHANNEL pointer index ;;;
   c <- add_call pointer index ;;
   x <- load (A := channel) c ;;
   fuel <- list_fuel ;;
   summ <- interference fuel (prev x) (S754_zero false) ;;
   choose_power c summ) ;;;
  fading_recheck pointer ;;;
  ret index.
End channel.
