(* ===== verification/Cell.v ===== *)
(** * What channel allocation does to a cell

    [cell] describes a cell by the list of its calls, newest first: where the
    list nodes are, how they are linked, and that the bitmap marks exactly
    their channels.  [allocation] adds the least free channel to it and
    [deallocation] removes one; both are exact about memory. *)
From Stdlib Require Import SpecFloat.
From S2P Require Import Prelude Doubles Numerical Channel.
Local Open Scope prog_scope.

(** ** Bits of a word *)
Lemma u32_bit k : 0 <= k < 32 -> u32 (Z.shiftl 1 k) = 2 ^ k.
Proof.
  intros Hk. rewrite Z.shiftl_1_l. apply u32_small. split; [apply Z.pow_nonneg; lia|].
  apply Z.pow_lt_mono_r; lia.
Qed.

Lemma check_bit w k : 0 <= k < 32 -> CHECK_CHANNEL_BIT w k = Z.testbit w k.
Proof.
  intros Hk. unfold CHECK_CHANNEL_BIT. rewrite u32_bit by done.
  destruct (Z.testbit w k) eqn:E.
  - apply negb_true_iff, Z.eqb_neq. intros H.
    assert (Z.testbit (Z.land w (2 ^ k)) k = true) as Ht; [|by rewrite H, Z.bits_0 in Ht].
    by rewrite Z.land_spec, E, Z.pow2_bits_true by lia.
  - apply negb_false_iff, Z.eqb_eq. apply Z.bits_inj'. intros n Hn.
    rewrite Z.land_spec, Z.bits_0, Z.pow2_bits_eqb by lia.
    destruct (Z.eqb_spec k n) as [<-|]; [by rewrite E|apply andb_false_r].
Qed.

Lemma check_set w k j :
  0 <= k < 32 -> 0 <= j < 32 ->
  CHECK_CHANNEL_BIT (SET_CHANNEL_BIT w k) j = (k =? j) || CHECK_CHANNEL_BIT w j.
Proof.
  intros Hk Hj. rewrite !check_bit by done. unfold SET_CHANNEL_BIT.
  rewrite u32_bit, Z.lor_spec, Z.pow2_bits_eqb by lia. apply orb_comm.
Qed.

Lemma check_reset w k j :
  0 <= k < 32 -> 0 <= j < 32 ->
  CHECK_CHANNEL_BIT (RESET_CHANNEL_BIT w k) j = negb (k =? j) && CHECK_CHANNEL_BIT w j.
Proof.
  intros Hk Hj. rewrite !check_bit by done. unfold RESET_CHANNEL_BIT.
  rewrite Z.land_spec. unfold u32, wrapU. rewrite Z.mod_pow2_bits_low, Z.lnot_spec by lia.
  rewrite Z.shiftl_1_l, Z.pow2_bits_eqb by lia. apply andb_comm.
Qed.

Definition busy_bit (st : lp_state_type) (i : Z) : bool :=
  match channel_state st !! Z.to_nat (i / BITS) with
  | Some w => CHECK_CHANNEL_BIT w (i mod BITS)
  | None => false
  end.

Lemma word_index i j :
  0 <= i -> 0 <= j -> Z.to_nat (i / BITS) = Z.to_nat (j / BITS) -> (i mod BITS =? j mod BITS) = (i =? j).
Proof.
  unfold BITS. intros Hi Hj E.
  assert (i / 32 = j / 32) by (apply Z2Nat.inj; [apply Z.div_pos; lia..|done]).
  pose proof (Z.div_mod i 32 ltac:(lia)). pose proof (Z.div_mod j 32 ltac:(lia)).
  destruct (Z.eqb_spec (i mod 32) (j mod 32)), (Z.eqb_spec i j); try done; [lia|congruence].
Qed.

(** What changing one bit does to the others. *)
Lemma busy_bit_change f g st i j w :
  (forall w k j, 0 <= k < 32 -> 0 <= j < 32 ->
     CHECK_CHANNEL_BIT (f w k) j = g (k =? j) (CHECK_CHANNEL_BIT w j)) ->
  (forall b, g false b = b) ->
  0 <= i -> 0 <= j -> channel_state st !! Z.to_nat (i / BITS) = Some w ->
  busy_bit (set_channel_state (<[Z.to_nat (i / BITS) := f w (i mod BITS)]> (channel_state st)) st) j =
    g (i =? j) (busy_bit st j).
Proof.
  intros Hf Hg Hi Hj Hw. unfold busy_bit. cbn [channel_state set_channel_state].
  destruct (decide (Z.to_nat (i / BITS) = Z.to_nat (j / BITS))) as [E|Hne].
  - rewrite <- E, list_lookup_insert_eq, Hw by (by eapply lookup_lt_Some).
    rewrite Hf by (apply Z.mod_pos_bound; done). by rewrite word_index.
  - rewrite list_lookup_insert_ne by done.
    assert ((i =? j) = false) as -> by (apply Z.eqb_neq; intros ->; done). by rewrite Hg.
Qed.

(** ** Accesses *)
Section access.
Context `{L : Libc} {A : Type} `{!TbHeap A}.
Implicit Types (Q : A -> tb -> Prop) (s : tb).

Lemma wp_tb_load Q s l a : tb_heap s !! l = Some a -> Q a s -> wp (load (A := A) (Some l)) Q s.
Proof. intros Hl HQ. unfold wp, load, bind, get. by rewrite Hl. Qed.

Lemma wp_tb_store (Q : unit -> tb -> Prop) s l a b :
  tb_heap s !! l = Some a -> Q tt (set_tb_heap (<[l := b]> (tb_heap s)) s) ->
  wp (store (A := A) (Some l) b) Q s.
Proof. intros Hl HQ. unfold wp, store, bind, get. by rewrite Hl. Qed.

Lemma wp_tb_update (Q : unit -> tb -> Prop) s l a f :
  tb_heap s !! l = Some a -> Q tt (set_tb_heap (<[l := f a]> (tb_heap s)) s) ->
  wp (update (A := A) (Some l) f) Q s.
Proof. intros Hl HQ. apply wp_bind. eapply wp_tb_load; [done|]. by eapply wp_tb_store. Qed.

Lemma wp_tb_free (Q : unit -> tb -> Prop) s l a :
  tb_heap s !! l = Some a -> Q tt (set_tb_heap (delete l (tb_heap s)) s) ->
  wp (free (A := A) (Some l)) Q s.
Proof. intros Hl HQ. unfold wp, free, bind, get. by rewrite Hl. Qed.

Definition counted s : tb :=
  {| tb_rng := tb_rng s; tb_lps := tb_lps s; tb_chans := tb_chans s;
     tb_sirs := tb_sirs s; tb_mallocs := S (tb_mallocs s) |}.

Lemma wp_tb_malloc (Q : option loc -> tb -> Prop) s a :
  malloc_fails (tb_mallocs s) = false ->
  (let l := Pos.of_succ_nat (tb_mallocs s) in
   Q (Some l) (set_tb_heap (<[l := a]> (tb_heap (counted s))) (counted s))) ->
  wp (malloc (A := A) a) Q s.
Proof. intros Hm HQ. unfold wp, malloc, bind, get. by rewrite Hm. Qed.
End access.

Lemma wp_Random `{L : Libc} (Q : double -> tb -> Prop) s :
  (forall x r, Q x (set_rng r s)) -> wp Random Q s.
Proof. intros HQ. destruct (Random_frame s) as (x & r & Hr). unfold wp. by rewrite Hr. Qed.

Lemma wp_Expent `{L : Libc} (Q : double -> tb -> Prop) mean s :
  dlt mean (S754_zero false) = false -> (forall x r, Q x (set_rng r s)) -> wp (Expent mean) Q s.
Proof.
  intros Hm HQ. destruct (Expent_frame mean s Hm) as (x & r & Hr). unfold wp. by rewrite Hr.
Qed.

(** ** The list of calls *)
Record node := { at_ : loc; num : Z; sir_at : loc }.
Implicit Types (l : list node) (h : gmap loc channel) (s : tb).

(** The head of a list that goes on with [p]; the last node of one that
    follows [n]. *)
Definition hd_of l (p : option loc) : option loc := if l is x :: _ then Some (at_ x) else p.
Definition lst_of (n : option loc) l : option loc := if last l is Some x then Some (at_ x) else n.

Definition node_at (n : option loc) (x : node) (p : option loc) : channel :=
  {| channel_id := num x; sir_data := Some (sir_at x); next := n; prev := p |}.

Fixpoint seg h (n : option loc) l (p : option loc) : Prop :=
  match l with
  | [] => True
  | x :: l' => h !! at_ x = Some (node_at n x (hd_of l' p)) /\ seg h (Some (at_ x)) l' p
  end.

Lemma lst_of_cons n x l : lst_of n (x :: l) = lst_of (Some (at_ x)) l.
Proof. unfold lst_of. rewrite last_cons. by destruct (last l). Qed.

Lemma hd_of_app l1 l2 p : hd_of (l1 ++ l2) p = hd_of l1 (hd_of l2 p).
Proof. by destruct l1. Qed.

Lemma seg_app h l1 : forall n l2 p,
  seg h n (l1 ++ l2) p <-> seg h n l1 (hd_of l2 p) /\ seg h (lst_of n l1) l2 p.
Proof.
  induction l1 as [|x l1 IH]; intros n l2 p; cbn [seg app]; [tauto|].
  rewrite IH, lst_of_cons, hd_of_app. tauto.
Qed.

(** Writing outside the list. *)
Lemma seg_frame h h' l : forall n p,
  (forall x, x ∈ l -> h' !! at_ x = h !! at_ x) -> seg h n l p -> seg h' n l p.
Proof.
  induction l as [|x l IH]; intros n p Hh; cbn; [done|].
  intros [Hx Hl]. split; [rewrite Hh; [done|left]|]. apply IH; [|done]. intros y Hy. apply Hh. by right.
Qed.

Lemma seg_insert h l n p a c : a ∉ at_ <$> l -> seg h n l p -> seg (<[a := c]> h) n l p.
Proof.
  intros Ha. apply seg_frame. intros x Hx. apply lookup_insert_ne. intros ->.
  apply Ha, list_elem_of_fmap. by exists x.
Qed.

Lemma seg_delete h l n p a : a ∉ at_ <$> l -> seg h n l p -> seg (delete a h) n l p.
Proof.
  intros Ha. apply seg_frame. intros x Hx. apply lookup_delete_ne. intros ->.
  apply Ha, list_elem_of_fmap. by exists x.
Qed.

Lemma seg_lookup h l : forall n p x, seg h n l p -> x ∈ l ->
  exists n' p', h !! at_ x = Some (node_at n' x p').
Proof.
  induction l as [|y l IH]; intros n p x; cbn; [intros _ []%not_elem_of_nil|].
  intros [Hy Hl] [->|Hx]%elem_of_cons; [eauto|by eapply IH].
Qed.

(** Relinking the ends. *)
Lemma seg_relink_next h l n n' p y :
  NoDup (at_ <$> y :: l) -> seg h n (y :: l) p ->
  seg (<[at_ y := node_at n' y (hd_of l p)]> h) n' (y :: l) p.
Proof.
  intros [Hy _]%NoDup_cons [_ Hl]. split; [by rewrite lookup_insert_eq|]. by apply seg_insert.
Qed.

Lemma seg_relink_prev h l n p p' z :
  NoDup (at_ <$> l ++ [z]) -> seg h n (l ++ [z]) p ->
  seg (<[at_ z := node_at (lst_of n l) z p']> h) n (l ++ [z]) p'.
Proof.
  intros Hnd. rewrite !seg_app. intros [Hl _]. rewrite fmap_app in Hnd.
  apply NoDup_app in Hnd as (_ & Hz & _).
  split; [|split; [by rewrite lookup_insert_eq|done]].
  apply seg_insert; [|done]. intros Hin. apply (Hz _ Hin). left.
Qed.

(** ** Loops over the list *)

(** The parts of the state the walks leave alone. *)
Record calm s s' : Prop := {
  calm_lps : tb_lps s' = tb_lps s;
  calm_chans : tb_chans s' = tb_chans s;
  calm_mallocs : tb_mallocs s' = tb_mallocs s;
  calm_sirs a : is_Some (tb_sirs s' !! a) <-> is_Some (tb_sirs s !! a);
}.

#[export] Instance calm_preorder : PreOrder calm.
Proof.
  split; [done|]. intros s1 s2 s3 [? ? ? H1] [? ? ? H2]. split; try congruence.
  intros a. by rewrite H2, H1.
Qed.

Lemma calm_rng r s : calm s (set_rng r s).
Proof. done. Qed.

Lemma calm_sir s a (d : sir_data_per_cell) : is_Some (tb_sirs s !! a) -> calm s (set_tb_heap (<[a := d]> (tb_heap s)) s).
Proof.
  intros Ha. split; cbn; try done. intros b. rewrite lookup_insert. case_decide; [|done].
  subst. split; eauto.
Qed.

Section loops.
Context `{L : Libc} `{J : Junk}.

Definition listed s l : Prop :=
  forall x, x ∈ l -> is_Some (tb_sirs s !! sir_at x).

Lemma listed_calm s s' l : calm s s' -> listed s l -> listed s' l.
Proof. intros C Hl x Hx. apply (calm_sirs _ _ C), Hl, Hx. Qed.

(** Updating the SIR data of a call. *)
Lemma wp_sir_update (Q : unit -> tb -> Prop) s a f :
  is_Some (tb_sirs s !! a) -> (forall s', calm s s' -> Q tt s') ->
  wp (update (A := sir_data_per_cell) (Some a) f) Q s.
Proof. intros [d Hd] HQ. eapply wp_tb_update; [exact Hd|]. apply HQ, calm_sir. by eexists. Qed.

Lemma wp_fading_loop l : forall fuel n s,
  (length l <= fuel)%nat -> seg (tb_chans s) n l None -> listed s l ->
  wp (fading_loop fuel (hd_of l None)) (fun _ s' => calm s s') s.
Proof.
  induction l as [|x l IH]; intros fuel n s Hf Hseg Hl; [by destruct fuel|].
  destruct fuel as [|fuel]; cbn in Hf; [lia|]. destruct Hseg as [Hx Hseg]. cbn [hd_of fading_loop].
  apply wp_bind, wp_Expent; [by vm_compute|]. intros f r.
  apply wp_bind. eapply wp_tb_load; [exact Hx|]. cbn [sir_data node_at].
  apply wp_bind, wp_sir_update; [by apply Hl; left|]. intros s' C.
  assert (calm s s') as C' by (etransitivity; [apply calm_rng|exact C]).
  apply wp_bind. eapply wp_tb_load; [cbn; rewrite (calm_chans _ _ C'); exact Hx|].
  cbn [prev node_at]. eapply wp_mono.
  - apply (IH fuel (Some (at_ x))); [lia|by rewrite (calm_chans _ _ C')|].
    apply (listed_calm s); [done|]. intros y Hy. apply Hl. by right.
  - intros ? s2 C2. by etransitivity.
Qed.

Lemma wp_path_gain gain s (Q : double -> tb -> Prop) :
  (forall x s', calm s s' -> Q x s') -> wp (path_gain gain) Q s.
Proof.
  intros HQ. apply wp_bind, wp_Random. intros x r. apply wp_ret, HQ, calm_rng.
Qed.

Lemma wp_interference l : forall fuel n summ s,
  (length l <= fuel)%nat -> seg (tb_chans s) n l None -> listed s l ->
  wp (interference fuel (hd_of l None) summ) (fun _ s' => calm s s') s.
Proof.
  induction l as [|x l IH]; intros fuel n summ s Hf Hseg Hl; [by destruct fuel|].
  destruct fuel as [|fuel]; cbn in Hf; [lia|]. destruct Hseg as [Hx Hseg]. cbn [hd_of interference].
  apply wp_bind, wp_Expent; [by vm_compute|]. intros f r.
  apply wp_bind. eapply wp_tb_load; [exact Hx|]. cbn [sir_data node_at].
  apply wp_bind, wp_sir_update; [by apply Hl; left|]. intros s' C.
  apply wp_bind, wp_path_gain. intros g s2 C2.
  assert (calm s s2) as C' by (etransitivity; [apply calm_rng|by etransitivity]).
  destruct (Hl x ltac:(left)) as [d0 Hd0].
  destruct (proj2 (calm_sirs _ _ C' (sir_at x)) ltac:(by eexists)) as [d Hd].
  apply wp_bind. eapply wp_tb_load; [exact Hd|]. cbn [prev node_at]. eapply wp_mono.
  - apply (IH fuel (Some (at_ x))); [lia|by rewrite (calm_chans _ _ C')|].
    apply (listed_calm s); [done|]. intros y Hy. apply Hl. by right.
  - intros ? s3 C3. by etransitivity.
Qed.

Lemma wp_find_channel l ch : forall fuel n s,
  (length l <= fuel)%nat -> seg (tb_chans s) n l None ->
  wp (find_channel fuel (hd_of l None) ch) (fun c s' => s' = s /\
    (c = None /\ (ch ∉ num <$> l) \/
     exists l1 x l2, l = l1 ++ x :: l2 /\ c = Some (at_ x) /\ num x = ch /\ ch ∉ num <$> l1)) s.
Proof.
  induction l as [|x l IH]; intros fuel n s Hf Hseg.
  - destruct fuel; (split; [done|left]; split; [done|apply not_elem_of_nil]).
  - destruct fuel as [|fuel]; cbn in Hf; [lia|]. destruct Hseg as [Hx Hseg]. cbn [hd_of find_channel].
    apply wp_bind. eapply wp_tb_load; [exact Hx|]. cbn [channel_id node_at prev].
    destruct (Z.eqb_spec (num x) ch) as [E|Hne].
    + apply wp_ret. split; [done|right]. exists [], x, l. split; [done|]. split; [done|]. split; [done|].
      apply not_elem_of_nil.
    + eapply wp_mono; [by apply (IH fuel (Some (at_ x))); [lia|]|].
      intros c s' (-> & [[-> Hno]|(l1 & y & l2 & -> & -> & Hy & Hno)]); (split; [done|]).
      * left. split; [done|]. cbn. rewrite elem_of_cons. intros [|]; [congruence|done].
      * right. exists (x :: l1), y, l2. split; [done|]. split; [done|]. split; [done|].
        cbn. rewrite elem_of_cons. intros [|]; [congruence|done].
Qed.
End loops.

(** ** Unlinking a node *)
Lemma nodup_mid l1 (x : node) l2 :
  NoDup (at_ <$> l1 ++ x :: l2) ->
  NoDup (at_ <$> l1) /\ NoDup (at_ <$> l2) /\ (at_ x ∉ at_ <$> l1) /\ (at_ x ∉ at_ <$> l2) /\
  (forall a, a ∈ at_ <$> l1 -> a ∉ at_ <$> l2).
Proof.
  rewrite fmap_app. cbn. intros (H1 & H12 & [Hx H2]%NoDup_cons)%NoDup_app.
  split; [done|]. split; [done|]. split; [|split; [done|]].
  - intros Hin. apply (H12 _ Hin). left.
  - intros a Ha Ha2. apply (H12 _ Ha). by right.
Qed.

Section unlink.
Context `{L : Libc} `{J : Junk}.

(** The node's neighbours are linked to each other; nothing else is written. *)
Lemma wp_unlink p st l1 x l2 s (Q : unit -> tb -> Prop) :
  tb_lps s !! p = Some st -> channels st = hd_of (l1 ++ x :: l2) None ->
  seg (tb_chans s) None (l1 ++ x :: l2) None -> NoDup (at_ <$> l1 ++ x :: l2) ->
  (forall s', seg (tb_chans s') None (l1 ++ l2) None ->
     tb_lps s' = <[p := set_channels (hd_of (l1 ++ l2) None) st]> (tb_lps s) ->
     tb_sirs s' = tb_sirs s -> tb_mallocs s' = tb_mallocs s ->
     (forall a, a ∉ at_ <$> l1 ++ l2 -> tb_chans s' !! a = tb_chans s !! a) -> Q tt s') ->
  wp (unlink (Some p) (Some (at_ x))) Q s.
Proof.
  intros Hp Hc Hseg Hnd HQ. pose proof (nodup_mid _ _ _ Hnd) as (Hn1 & Hn2 & Hx1 & Hx2 & H12).
  pose proof (proj1 (seg_app _ l1 None (x :: l2) None) Hseg) as [Hseg1 [Hx Hseg2]]. cbn [hd_of] in Hseg1.
  unfold unlink. apply wp_bind. eapply wp_tb_load; [exact Hp|].
  apply wp_bind. eapply wp_tb_load; [exact Hx|]. rewrite Hc.
  destruct l1 as [|w l1 _] using rev_ind.
  - cbn [app hd_of]. rewrite bool_decide_eq_true_2 by done. cbn [prev node_at].
    apply wp_bind. eapply wp_tb_update; [exact Hp|]. destruct l2 as [|y l2]; cbn [hd_of].
    + apply wp_ret. by apply HQ.
    + destruct Hseg2 as [Hy Hseg2]. eapply wp_tb_update; [exact Hy|].
      apply HQ; [|done|done|done|].
      * by apply (seg_relink_next (tb_chans s) l2 (Some (at_ x)) None None y).
      * intros a Ha. cbn. apply lookup_insert_ne. intros <-. apply Ha. left.
  - rewrite bool_decide_eq_false_2.
    2: { destruct l1 as [|v l1]; cbn; intros [= E]; apply Hx1; rewrite E; cbn; [left|left]. }
    assert (lst_of None (l1 ++ [w]) = Some (at_ w)) as Elst by (unfold lst_of; by rewrite last_snoc).
    rewrite Elst in Hx. cbn [next prev node_at].
    assert (at_ w <> at_ x) as Hwx.
    { intros E. apply Hx1. rewrite fmap_app. apply elem_of_app. right. rewrite <- E. left. }
    assert (set_channels (hd_of ((l1 ++ [w]) ++ l2) None) st = st) as Est.
    { replace (hd_of ((l1 ++ [w]) ++ l2) None) with (channels st); [by destruct st|].
      rewrite Hc. by destruct l1. }
    pose proof (proj1 (seg_app _ l1 None [w] (Some (at_ x))) Hseg1) as [Hseg0 [Hw _]]. cbn [hd_of] in Hseg0.
    rewrite Elst. apply wp_bind. eapply wp_tb_update; [exact Hw|].
    pose proof (seg_relink_prev (tb_chans s) l1 None _ (hd_of l2 None) w Hn1 Hseg1) as Hseg1'.
    change (set_prev (hd_of l2 None) (node_at (lst_of None l1) w (hd_of [] (Some (at_ x)))))
      with (node_at (lst_of None l1) w (hd_of l2 None)).
    apply wp_bind. eapply wp_tb_load; [cbn; rewrite lookup_insert_ne by done; exact Hx|].
    cbn [next prev node_at].
    assert (at_ w ∉ at_ <$> l2) as Hw2.
    { apply H12. rewrite fmap_app. apply elem_of_app. right. left. }
    destruct l2 as [|y l2]; cbn [hd_of] in *.
    + apply wp_ret. rewrite app_nil_r in *. apply HQ; [exact Hseg1'|by rewrite Est, (insert_id (tb_lps s))|done|done|].
      intros a Ha. cbn. apply lookup_insert_ne. intros <-. apply Ha.
      rewrite fmap_app. apply elem_of_app. right. left.
    + destruct Hseg2 as [Hy Hseg2]. assert (at_ w <> at_ y) as Hwy by (intros E; apply Hw2; rewrite E; left).
      eapply wp_tb_update; [cbn; rewrite lookup_insert_ne by done; exact Hy|].
      apply HQ; [|by rewrite Est, (insert_id (tb_lps s))|done|done|].
      * apply seg_app. cbn [hd_of]. rewrite Elst. split.
        -- apply seg_insert; [|exact Hseg1']. intros Hin. apply (H12 _ Hin). left.
        -- apply (seg_relink_next _ l2 (Some (at_ x)) (Some (at_ w)) None y); [done|].
           apply seg_insert; [exact Hw2|]. by split.
      * intros a Ha. cbn. rewrite !lookup_insert_ne; [done| |].
        -- intros <-. apply Ha. rewrite !fmap_app. apply elem_of_app. left. apply elem_of_app. right. left.
        -- intros <-. apply Ha. rewrite !fmap_app. apply elem_of_app. right. left.
Qed.
End unlink.

(** ** Cells *)
Record cell (p : loc) (st : lp_state_type) l s : Prop := {
  cell_lp : tb_lps s !! p = Some st;
  cell_head : channels st = hd_of l None;
  cell_seg : seg (tb_chans s) None l None;
  cell_nodup : NoDup (at_ <$> l);
  cell_sir_nodup : NoDup (sir_at <$> l);
  cell_listed : listed s l;
  cell_words : 0 <= channels_per_cell st <= 32 * Z.of_nat (length (channel_state st));
  cell_nums : NoDup (num <$> l);
  cell_range x : x ∈ l -> 0 <= num x < channels_per_cell st;
  cell_bits i : 0 <= i < channels_per_cell st -> busy_bit st i = true <-> i ∈ num <$> l;
  cell_fresh a : is_Some (tb_chans s !! a) \/ is_Some (tb_sirs s !! a) ->
    (Pos.to_nat a <= tb_mallocs s)%nat;
}.

(** A channel that no call uses. *)
Definition channel_free (st : lp_state_type) l (i : Z) : Prop :=
  0 <= i < channels_per_cell st /\ i ∉ num <$> l.

Section cell.
Context `{L : Libc} `{J : Junk}.

Lemma cell_calm p st l s s' : calm s s' -> cell p st l s -> cell p st l s'.
Proof.
  intros [E1 E2 E3 E4] C. destruct C. split; rewrite ?E1, ?E2, ?E3; auto.
  - intros x Hx. apply E4; auto.
  - intros a. rewrite E4. auto.
Qed.

Lemma cell_word p st l s i :
  cell p st l s -> 0 <= i < channels_per_cell st ->
  exists w, channel_state st !! Z.to_nat (i / BITS) = Some w.
Proof.
  intros C Hi. apply lookup_lt_is_Some. pose proof (cell_words _ _ _ _ C). unfold BITS.
  assert (i / 32 < Z.of_nat (length (channel_state st))) by (apply Z.div_lt_upper_bound; lia).
  assert (0 <= i / 32) by (apply Z.div_pos; lia). lia.
Qed.

(** The list is no longer than the heap: the fuel is enough. *)
Lemma seg_size p st l s : cell p st l s -> (length l <= size (tb_chans s))%nat.
Proof.
  intros C. rewrite <- (length_fmap at_ l), <- size_dom.
  rewrite <- (size_list_to_set (C := gset loc) (at_ <$> l)) by apply C.
  apply subseteq_size. intros a (x & -> & Hx)%elem_of_list_to_set%list_elem_of_fmap.
  apply elem_of_dom. destruct (seg_lookup _ _ _ _ x (cell_seg _ _ _ _ C) Hx) as (n & q & ->). by eexists.
Qed.

Lemma wp_fading_recheck p st l s (Q : unit -> tb -> Prop) :
  cell p st l s -> (forall s', calm s s' -> Q tt s') -> wp (fading_recheck (Some p)) Q s.
Proof.
  intros C HQ. apply wp_bind. eapply wp_tb_load; [apply C|]. apply wp_bind, wp_ret.
  rewrite (cell_head _ _ _ _ C). eapply wp_mono.
  - eapply wp_fading_loop; [|apply C..]. pose proof (seg_size _ _ _ _ C). lia.
  - intros [] s' Hs. by apply HQ.
Qed.

Lemma wp_channel_word p st l s i (Q : Z -> tb -> Prop) :
  cell p st l s -> 0 <= i < channels_per_cell st ->
  (forall w, channel_state st !! Z.to_nat (i / BITS) = Some w -> Q w s) ->
  wp (channel_word (Some p) i) Q s.
Proof.
  intros C Hi HQ. apply wp_bind. eapply wp_tb_load; [apply C|].
  destruct (cell_word _ _ _ _ i C Hi) as [w Hw]. rewrite Hw. apply wp_ret. by apply HQ.
Qed.

(** The search for a free channel. *)
Lemma wp_free_index p st l s n : forall i,
  cell p st l s -> 0 <= i -> i + Z.of_nat n = channels_per_cell st ->
  wp (free_index n (Some p) i) (fun r s' => s' = s /\
    ((r = -1 /\ (forall j, i <= j < channels_per_cell st -> j ∈ num <$> l)) \/
     (i <= r /\ channel_free st l r /\ forall j, i <= j < r -> j ∈ num <$> l))) s.
Proof.
  induction n as [|n IH]; intros i C Hi Hn; cbn [free_index].
  - apply wp_ret. split; [done|left]. split; [done|]. intros. lia.
  - apply wp_bind, wp_bind. eapply wp_channel_word; [done|lia|]. intros w Hw. apply wp_ret.
    pose proof (cell_bits _ _ _ _ C i ltac:(lia)) as Hb. unfold busy_bit in Hb. rewrite Hw in Hb.
    destruct (CHECK_CHANNEL_BIT w (i mod BITS)).
    + assert (i ∈ num <$> l) as Hi' by by apply Hb.
      assert (forall j, i <= j -> j = i \/ i + 1 <= j) as Hcase by lia.
      eapply wp_mono; [apply IH; [done|lia..]|].
      intros r s' (-> & [[-> Hall]|(Hr & Hf & Hall)]); (split; [done|]); [left|right].
      * split; [done|]. intros j Hj. destruct (Hcase j) as [->|]; [lia|done|]. apply Hall. lia.
      * split; [lia|]. split; [done|]. intros j Hj. destruct (Hcase j) as [->|]; [lia|done|]. apply Hall. lia.
    + apply wp_ret. split; [done|right]. split; [lia|]. split; [|intros; lia].
      split; [lia|]. intros Hin. by apply Hb in Hin.
Qed.
End cell.
