(* ===== verification/Calls.v ===== *)
(** * Starting and ending calls in a cell

    The theorems about [allocation] and [deallocation] of channel.c, in terms
    of the [cell] predicate of Cell.v. *)
From Stdlib Require Import SpecFloat.
From S2P Require Import Prelude Doubles Numerical Channel Cell.
Local Open Scope prog_scope.

Implicit Types (l : list node) (s : tb) (st : lp_state_type).

Lemma fmap_middle {B} (f : node -> B) l1 x l2 : f <$> l1 ++ x :: l2 ≡ₚ f x :: (f <$> l1 ++ l2).
Proof. by rewrite <- Permutation_middle. Qed.

Lemma NoDup_middle {B} (f : node -> B) l1 x l2 :
  NoDup (f <$> l1 ++ x :: l2) -> (f x ∉ f <$> l1 ++ l2) /\ NoDup (f <$> l1 ++ l2).
Proof. rewrite fmap_middle. apply NoDup_cons. Qed.

Section calls.
Context `{L : Libc} `{J : Junk}.

(** The rest of the cell's record is untouched. *)
Definition same_cell st st' : Prop :=
  st' = set_channels (channels st') (set_channel_state (channel_state st') st).

(** A state whose other cells and lists are those of [s]. *)
Record others_kept (p : loc) l s s' : Prop := {
  kept_lps q : q <> p -> tb_lps s' !! q = tb_lps s !! q;
  kept_chans a : (Pos.to_nat a <= tb_mallocs s)%nat -> a ∉ at_ <$> l -> tb_chans s' !! a = tb_chans s !! a;
}.

Lemma others_calm p l s s1 s2 : others_kept p l s s1 -> calm s1 s2 -> others_kept p l s s2.
Proof. intros [H1 H2] [E1 E2 _ _]. split; rewrite ?E1, ?E2; auto. Qed.

Lemma wp_change_channel f p st l s i (Q : unit -> tb -> Prop) :
  cell p st l s -> 0 <= i < channels_per_cell st ->
  (forall w, channel_state st !! Z.to_nat (i / BITS) = Some w ->
     Q tt (set_tb_heap (<[p := set_channel_state
       (<[Z.to_nat (i / BITS) := f w (i mod BITS)]> (channel_state st)) st]> (tb_heap s)) s)) ->
  wp (change_channel f (Some p) i) Q s.
Proof.
  intros C Hi HQ. apply wp_bind. eapply wp_channel_word; [done..|]. intros w Hw.
  eapply wp_tb_update; [apply C|]. by apply HQ.
Qed.

Lemma find_run p st l s ch :
  cell p st l s ->
  wp (find_channel (S (size (tb_chans s))) (channels st) ch) (fun c s' => s' = s /\
    (c = None /\ (ch ∉ num <$> l) \/
     exists l1 x l2, l = l1 ++ x :: l2 /\ c = Some (at_ x) /\ num x = ch /\ ch ∉ num <$> l1)) s.
Proof.
  intros C. rewrite (cell_head _ _ _ _ C). eapply wp_find_channel; [|apply C].
  pose proof (seg_size _ _ _ _ C). lia.
Qed.

(** What is left of a cell when the memory of a call is gone. *)
Lemma cell_remove p st l1 x l2 s st' s' :
  cell p st (l1 ++ x :: l2) s ->
  tb_lps s' !! p = Some st' -> same_cell st st' -> channels st' = hd_of (l1 ++ l2) None ->
  length (channel_state st') = length (channel_state st) ->
  (forall i, 0 <= i -> busy_bit st' i = negb (num x =? i) && busy_bit st i) ->
  seg (tb_chans s') None (l1 ++ l2) None ->
  (forall a, is_Some (tb_chans s' !! a) -> is_Some (tb_chans s !! a)) ->
  tb_sirs s' = delete (sir_at x) (tb_sirs s) -> tb_mallocs s' = tb_mallocs s ->
  cell p st' (l1 ++ l2) s'.
Proof.
  intros C Hp Hsame Hhd Hlen Hbits Hseg Hdom Hsirs Hm.
  assert (channels_per_cell st' = channels_per_cell st) as Hcpc by (rewrite Hsame; done).
  pose proof (NoDup_middle _ _ _ _ (cell_nodup _ _ _ _ C)) as [_ Hn1].
  pose proof (NoDup_middle _ _ _ _ (cell_sir_nodup _ _ _ _ C)) as [Hx2 Hn2].
  pose proof (NoDup_middle _ _ _ _ (cell_nums _ _ _ _ C)) as [Hx3 Hn3].
  assert (forall y, y ∈ l1 ++ l2 -> y ∈ l1 ++ x :: l2) as Hsub by set_solver.
  split; try done; rewrite ?Hcpc, ?Hlen.
  - intros y Hy. rewrite Hsirs, lookup_delete_ne; [by apply (cell_listed _ _ _ _ C), Hsub|].
    intros E. apply Hx2. rewrite E. by apply list_elem_of_fmap_2.
  - apply C.
  - intros y Hy. by apply (cell_range _ _ _ _ C), Hsub.
  - intros i Hi. rewrite Hbits, andb_true_iff, negb_true_iff, Z.eqb_neq, (cell_bits _ _ _ _ C i Hi) by lia.
    rewrite fmap_middle, elem_of_cons. split.
    + intros [Hne [E|Hin]]; [congruence|done].
    + intros Hin. split; [|by right]. intros <-. done.
  - intros a Ha. rewrite Hm. apply (cell_fresh _ _ _ _ C). rewrite Hsirs in Ha.
    destruct Ha as [Ha|Ha]; [left; auto|right]. destruct Ha as [d [_ Hd]%lookup_delete_Some]. by eexists.
Qed.

(** [deallocation] of a call the cell has. *)
Lemma run_deallocation p st l s ch :
  cell p st l s -> ch ∈ num <$> l ->
  exists l1 x l2 st' s', l = l1 ++ x :: l2 /\ num x = ch /\
    deallocation (Some p) ch s = Ret (tt, s') /\
    cell p st' (l1 ++ l2) s' /\ same_cell st st' /\
    tb_chans s' !! at_ x = None /\ tb_sirs s' !! sir_at x = None /\
    (forall i, 0 <= i -> busy_bit st' i = negb (ch =? i) && busy_bit st i) /\
    others_kept p l s s' /\ tb_mallocs s' = tb_mallocs s.
Proof.
  intros C Hch.
  destruct (wp_run _ _ _ (find_run _ _ _ _ ch C)) as (c & s0 & Hfind & -> & [[_ Hno]|Hsome]); [done|].
  destruct Hsome as (l1 & x & l2 & -> & -> & <- & _).
  pose proof (nodup_mid _ _ _ (cell_nodup _ _ _ _ C)) as (_ & _ & Hx1 & Hx2 & _).
  assert (at_ x ∉ at_ <$> l1 ++ l2) as Hx by (rewrite fmap_app, elem_of_app; tauto).
  assert (0 <= num x < channels_per_cell st) as Hrange by (apply (cell_range _ _ _ _ C); set_solver).
  destruct (cell_word _ _ _ _ _ C Hrange) as [w Hw].
  set (st1 := set_channels (hd_of (l1 ++ l2) None) st).
  set (st' := set_channel_state (<[Z.to_nat (num x / BITS) :=
    RESET_CHANNEL_BIT w (num x mod BITS)]> (channel_state st)) st1).
  assert (forall i, 0 <= i -> busy_bit st' i = negb (num x =? i) && busy_bit st i) as Hbits.
  { intros i Hi. apply (busy_bit_change RESET_CHANNEL_BIT (fun b c => negb b && c) st); try done.
    - intros. by apply check_reset.
    - lia. }
  assert (wp (deallocation (Some p) (num x)) (fun _ s' => cell p st' (l1 ++ l2) s' /\
    tb_chans s' !! at_ x = None /\ tb_sirs s' !! sir_at x = None /\
    others_kept p (l1 ++ x :: l2) s s' /\ tb_mallocs s' = tb_mallocs s) s) as Hwp.
  { apply wp_bind. eapply wp_tb_load; [apply C|]. apply wp_bind, wp_ret.
    apply wp_bind. unfold wp at 1. rewrite Hfind. apply wp_bind.
    apply wp_bind. eapply wp_unlink; [apply C..|]. intros s1 Hseg1 Hlps1 Hsirs1 Hm1 Hframe1.
    assert (tb_lps s1 !! p = Some st1) as Hp1 by (rewrite Hlps1; apply lookup_insert_eq).
    apply wp_bind, wp_bind, wp_bind. eapply wp_tb_load; [exact Hp1|].
    change (channel_state st1) with (channel_state st). rewrite Hw. apply wp_ret.
    eapply wp_tb_update; [exact Hp1|].
    destruct (seg_lookup _ _ _ _ x (cell_seg _ _ _ _ C)) as (n & q & Hnode); [set_solver|].
    assert (tb_chans s1 !! at_ x = Some (node_at n x q)) as Hnode1 by (rewrite Hframe1; [exact Hnode|done]).
    apply wp_bind. eapply wp_tb_load; [exact Hnode1|]. cbn [sir_data node_at].
    destruct (cell_listed _ _ _ _ C x) as [d Hd]; [set_solver|].
    apply wp_bind. eapply wp_tb_free; [cbn; rewrite Hsirs1; exact Hd|].
    eapply wp_tb_free; [exact Hnode1|].
    match goal with |- wp _ _ ?s4 => assert (cell p st' (l1 ++ l2) s4) as C4 end.
    { eapply cell_remove; [exact C|cbn; by rewrite lookup_insert_eq|done|done|by apply length_insert|done
        | | |cbn; by rewrite Hsirs1|done].
      - by apply seg_delete.
      - intros a. cbn. intros [c [Hne Hc]%lookup_delete_Some].
        destruct (decide (a ∈ at_ <$> l1 ++ l2)) as [Hin|Hout]; [|rewrite <- Hframe1 by done; by eexists].
        apply list_elem_of_fmap in Hin as (y & -> & Hy).
        destruct (seg_lookup _ _ _ _ y (cell_seg _ _ _ _ C)) as (? & ? & ->); [set_solver|]. by eexists. }
    eapply wp_fading_recheck; [exact C4|]. intros s5 Hcalm.
    split; [by eapply cell_calm|]. split; [rewrite (calm_chans _ _ Hcalm); apply lookup_delete_eq|].
    split.
    { apply eq_None_not_Some. rewrite (calm_sirs _ _ Hcalm). cbn. rewrite lookup_delete_eq. by intros [? [=]]. }
    split; [|by rewrite (calm_mallocs _ _ Hcalm)].
    eapply others_calm; [|exact Hcalm]. split; cbn.
    - intros q' Hq. by rewrite lookup_insert_ne, Hlps1, lookup_insert_ne by done.
    - intros a _ Ha. rewrite fmap_middle, elem_of_cons in Ha. rewrite lookup_delete_ne by (intros <-; tauto).
      apply Hframe1. tauto. }
  apply wp_run in Hwp as ([] & s' & Hrun & C' & H1 & H2 & H3).
  exists l1, x, l2, st', s'. by do 8 (split; [done|]).
Qed.

(** C35: a call that ends gives its channel back: its node is taken out of
    the list, whose other calls keep their order, its channel's bit alone is
    cleared, and its two pieces of memory are freed; the lists and records of
    other cells are not touched. *)
Theorem deallocation_frees p st l s ch :
  cell p st l s -> ch ∈ num <$> l ->
  exists l1 x l2 st' s', l = l1 ++ x :: l2 /\ num x = ch /\
    deallocation (Some p) ch s = Ret (tt, s') /\
    cell p st' (l1 ++ l2) s' /\ same_cell st st' /\
    tb_chans s' !! at_ x = None /\ tb_sirs s' !! sir_at x = None /\
    (forall i, 0 <= i -> busy_bit st' i = negb (ch =? i) && busy_bit st i) /\
    others_kept p l s s'.
Proof.
  intros C Hch. destruct (run_deallocation p st l s ch C Hch) as (l1 & x & l2 & st' & s' & H).
  exists l1, x, l2, st', s'. do 8 (destruct H as [? H]; split; [done|]). apply H.
Qed.

(** Ending a call the cell does not have aborts the program. *)
Theorem deallocation_unknown p st l s ch :
  cell p st l s -> ch ∉ num <$> l -> deallocation (Some p) ch s = Fault Aborted.
Proof.
  intros C Hch.
  destruct (wp_run _ _ _ (find_run _ _ _ _ ch C)) as (c & s0 & Hfind & -> & [[-> _]|Hsome]).
  - assert (load (A := lp_state_type) (Some p) s = Ret (st, s)) as Hload.
    { unfold load, bind, get. cbn. by rewrite (cell_lp _ _ _ _ C). }
    unfold deallocation. rewrite (bind_run _ _ _ _ _ Hload).
    rewrite (bind_run list_fuel _ s (S (size (tb_chans s))) s) by done.
    by rewrite (bind_run _ _ _ _ _ Hfind).
  - destruct Hsome as (l1 & x & l2 & -> & _ & <- & _). exfalso. apply Hch. set_solver.
Qed.

(** ** Starting a call *)
Lemma wp_choose_power c n x q s summ (Q : unit -> tb -> Prop) :
  tb_chans s !! c = Some (node_at n x q) -> is_Some (tb_sirs s !! sir_at x) ->
  (forall s', calm s s' -> Q tt s') -> wp (choose_power (Some c) summ) Q s.
Proof.
  intros Hc Hd HQ. apply wp_bind. eapply wp_tb_load; [exact Hc|]. cbn [sir_data node_at].
  assert (forall s', calm s s' -> is_Some (tb_sirs s' !! sir_at x)) as Hsir.
  { intros s' C. by apply (calm_sirs _ _ C). }
  case_match; [by apply wp_sir_update|].
  apply wp_bind, wp_Expent; [by vm_compute|]. intros f r.
  apply wp_bind, wp_sir_update; [by apply Hsir, calm_rng|]. intros s1 C1.
  assert (calm s s1) as D1 by (etransitivity; [apply calm_rng|exact C1]).
  apply wp_bind, wp_path_gain. intros g s2 C2. assert (calm s s2) as D2 by by etransitivity.
  destruct (Hsir _ D2) as [d Hd2]. apply wp_bind. eapply wp_tb_load; [exact Hd2|].
  apply wp_bind, wp_sir_update; [by apply Hsir|]. intros s3 C3. assert (calm s s3) as D3 by by etransitivity.
  destruct (Hsir _ D3) as [d3 Hd3]. apply wp_bind. eapply wp_tb_load; [exact Hd3|].
  apply wp_bind.
  assert (forall s4, calm s s4 -> wp (d <- load (A := sir_data_per_cell) (Some (sir_at x)) ;;
    if dlt MAX_POWER (power d) then update (Some (sir_at x)) (set_power MAX_POWER) else ret tt) Q s4) as Hlast.
  { intros s4 D4. destruct (Hsir _ D4) as [d4 Hd4]. apply wp_bind. eapply wp_tb_load; [exact Hd4|].
    case_match; [|by apply wp_ret, HQ]. apply wp_sir_update; [by apply Hsir|].
    intros s5 C5. apply HQ. by etransitivity. }
  case_match; [|by apply wp_ret, Hlast].
  apply wp_sir_update; [by apply Hsir|]. intros s4 C4. apply Hlast. by etransitivity.
Qed.

(** The steps of [add_call], on states known by their parts. *)
Lemma wp_chan_update a c f s (Q : unit -> tb -> Prop) :
  tb_chans s !! a = Some c ->
  (forall s', tb_chans s' = <[a := f c]> (tb_chans s) -> tb_lps s' = tb_lps s ->
     tb_sirs s' = tb_sirs s -> tb_mallocs s' = tb_mallocs s -> Q tt s') ->
  wp (update (A := channel) (Some a) f) Q s.
Proof. intros Hc HQ. eapply wp_tb_update; [exact Hc|]. by apply HQ. Qed.

Lemma wp_malloc_channel s (Q : option loc -> tb -> Prop) :
  malloc_fails (tb_mallocs s) = false ->
  (forall s', tb_chans s' = <[Pos.of_succ_nat (tb_mallocs s) := junk_channel]> (tb_chans s) ->
     tb_lps s' = tb_lps s -> tb_sirs s' = tb_sirs s -> tb_mallocs s' = S (tb_mallocs s) ->
     Q (Some (Pos.of_succ_nat (tb_mallocs s))) s') ->
  wp (malloc junk_channel) Q s.
Proof. intros Hm HQ. apply wp_tb_malloc; [done|]. by apply HQ. Qed.

Lemma wp_malloc_sir s (Q : option loc -> tb -> Prop) :
  malloc_fails (tb_mallocs s) = false ->
  (forall s', tb_sirs s' = <[Pos.of_succ_nat (tb_mallocs s) := junk_sir]> (tb_sirs s) ->
     tb_lps s' = tb_lps s -> tb_chans s' = tb_chans s -> tb_mallocs s' = S (tb_mallocs s) ->
     Q (Some (Pos.of_succ_nat (tb_mallocs s))) s') ->
  wp (malloc junk_sir) Q s.
Proof. intros Hm HQ. apply wp_tb_malloc; [done|]. by apply HQ. Qed.

Definition new_node (i : Z) (n : nat) : node :=
  {| at_ := Pos.of_succ_nat n; num := i; sir_at := Pos.of_succ_nat (S n) |}.

Lemma wp_add_call p st l i s x (Q : option loc -> tb -> Prop) :
  x = new_node i (tb_mallocs s) ->
  tb_lps s !! p = Some st -> channels st = hd_of l None -> seg (tb_chans s) None l None ->
  NoDup (at_ <$> l) -> (at_ x ∉ at_ <$> l) ->
  malloc_fails (tb_mallocs s) = false -> malloc_fails (S (tb_mallocs s)) = false ->
  (forall s', seg (tb_chans s') None (x :: l) None ->
     tb_lps s' = <[p := set_channels (Some (at_ x)) st]> (tb_lps s) ->
     tb_sirs s' = <[sir_at x := junk_sir]> (tb_sirs s) ->
     tb_mallocs s' = S (S (tb_mallocs s)) ->
     (forall a, a <> at_ x -> a ∉ at_ <$> l -> tb_chans s' !! a = tb_chans s !! a) ->
     Q (Some (at_ x)) s') ->
  wp (add_call (Some p) i) Q s.
Proof.
  intros Ex Hp Hhd Hseg Hnd Hx Hm1 Hm2 HQ.
  assert (at_ x = Pos.of_succ_nat (tb_mallocs s) /\ num x = i /\
    sir_at x = Pos.of_succ_nat (S (tb_mallocs s))) as (Eat & Enum & Esir) by by rewrite Ex.
  apply wp_bind, wp_malloc_channel; [done|]. intros s1 Hc1 Hl1 Hs1 Hn1.
  apply wp_bind. eapply wp_tb_load; [cbn; rewrite Hl1; exact Hp|].
  apply wp_bind. eapply wp_chan_update; [rewrite Hc1; apply lookup_insert_eq|].
  intros s2 Hc2 Hl2 Hs2 Hn2. rewrite Hc1, insert_insert_eq in Hc2.
  apply wp_bind, wp_malloc_sir; [by rewrite Hn2, Hn1|]. intros s3 Hs3 Hl3 Hc3 Hn3.
  rewrite Hn2, Hn1 in Hs3 |- *.
  apply wp_bind. eapply wp_chan_update; [rewrite Hc3, Hc2; apply lookup_insert_eq|].
  intros s4 Hc4 Hl4 Hs4 Hn4. rewrite Hc3, Hc2, insert_insert_eq in Hc4. cbn [channel_id sir_data next prev] in Hc4.
  rewrite <- Eat, <- Esir in *. rewrite Hhd, <- Enum in Hc4. rewrite Hhd.
  change {| channel_id := num x; sir_data := Some (sir_at x); next := None; prev := hd_of l None |}
    with (node_at None x (hd_of l None)) in Hc4.
  assert (seg (tb_chans s4) None l None) as Hseg4 by (rewrite Hc4; by apply seg_insert).
  assert (tb_chans s4 !! at_ x = Some (node_at None x (hd_of l None))) as Hx4
    by (rewrite Hc4; apply lookup_insert_eq).
  assert (forall s5, tb_lps s5 = tb_lps s4 -> tb_sirs s5 = tb_sirs s4 -> tb_mallocs s5 = tb_mallocs s4 ->
    tb_chans s5 !! at_ x = tb_chans s4 !! at_ x -> seg (tb_chans s5) (Some (at_ x)) l None ->
    (forall a, a ∉ at_ <$> l -> tb_chans s5 !! a = tb_chans s4 !! a) ->
    wp (update (Some p) (set_channels (Some (at_ x))) ;;; ret (Some (at_ x))) Q s5) as Hlast.
  { intros s5 Hl5 Hs5 Hn5 Hx5 Hseg5 Hf5. apply wp_bind.
    eapply wp_tb_update; [cbn; rewrite Hl5, Hl4, Hl3, Hl2, Hl1; exact Hp|]. apply wp_ret, HQ; cbn.
    - split; [by rewrite Hx5|done].
    - by rewrite Hl5, Hl4, Hl3, Hl2, Hl1.
    - by rewrite Hs5, Hs4, Hs3, Hs2, Hs1.
    - by rewrite Hn5, Hn4, Hn3, Hn2, Hn1.
    - intros a Hne Ha. rewrite Hf5 by done. rewrite Hc4. by apply lookup_insert_ne. }
  apply wp_bind. destruct l as [|y l]; cbn [hd_of].
  - apply wp_ret, Hlast; done.
  - destruct Hseg4 as [Hy Hseg4]. eapply wp_chan_update; [exact Hy|]. intros s5 Hc5 Hl5 Hs5 Hn5.
    apply Hlast; rewrite ?Hc5; try done.
    + apply lookup_insert_ne. intros E. apply Hx. rewrite <- E. left.
    + apply (seg_relink_next (tb_chans s4) l None (Some (at_ x)) None y); [done|by split].
    + intros a Ha. apply lookup_insert_ne. intros <-. apply Ha. left.
Qed.

(** A cell with the memory of a new call linked in front. *)
Lemma cell_add p st l x s st' s' :
  cell p st l s -> channel_free st l (num x) ->
  at_ x = Pos.of_succ_nat (tb_mallocs s) -> sir_at x = Pos.of_succ_nat (S (tb_mallocs s)) ->
  tb_lps s' !! p = Some st' -> same_cell st st' -> channels st' = Some (at_ x) ->
  length (channel_state st') = length (channel_state st) ->
  (forall i, 0 <= i -> busy_bit st' i = (num x =? i) || busy_bit st i) ->
  seg (tb_chans s') None (x :: l) None ->
  (forall a, is_Some (tb_chans s' !! a) -> a = at_ x \/ is_Some (tb_chans s !! a)) ->
  (forall a, is_Some (tb_sirs s' !! a) <-> a = sir_at x \/ is_Some (tb_sirs s !! a)) ->
  tb_mallocs s' = S (S (tb_mallocs s)) ->
  cell p st' (x :: l) s'.
Proof.
  intros C [Hx Hfree] Hat Hsir Hp Hsame Hhd Hlen Hbits Hseg Hchans Hsirs Hm.
  assert (channels_per_cell st' = channels_per_cell st) as Hcpc by (rewrite Hsame; done).
  assert (forall a, is_Some (tb_chans s !! a) \/ is_Some (tb_sirs s !! a) ->
    a <> at_ x /\ a <> sir_at x) as Hnew.
  { intros a Ha%(cell_fresh _ _ _ _ C). rewrite Hat, Hsir. split; intros ->; lia. }
  split; try done; rewrite ?Hcpc, ?Hlen.
  - cbn. constructor; [|apply C]. intros (y & Ey & Hy)%list_elem_of_fmap.
    destruct (seg_lookup _ _ _ _ y (cell_seg _ _ _ _ C) Hy) as (? & ? & Hc).
    destruct (Hnew (at_ y)) as [Hne _]; [left; by eexists|congruence].
  - cbn. constructor; [|apply C]. intros (y & Ey & Hy)%list_elem_of_fmap.
    destruct (Hnew (sir_at y)) as [_ Hne]; [right; by apply (cell_listed _ _ _ _ C)|congruence].
  - intros y [->|Hy]%elem_of_cons; apply Hsirs; [by left|right]. by apply (cell_listed _ _ _ _ C).
  - apply C.
  - cbn. constructor; [done|apply C].
  - intros y [->|Hy]%elem_of_cons; [done|]. by apply (cell_range _ _ _ _ C).
  - intros i Hi. rewrite Hbits, orb_true_iff, Z.eqb_eq, (cell_bits _ _ _ _ C i Hi) by lia.
    cbn. rewrite elem_of_cons. split; intros [|]; auto.
  - intros a Ha. rewrite Hm.
    assert (a = at_ x \/ a = sir_at x \/ is_Some (tb_chans s !! a) \/ is_Some (tb_sirs s !! a)) as Hc.
    { destruct Ha as [Ha|Ha]; [apply Hchans in Ha|apply Hsirs in Ha]; tauto. }
    destruct Hc as [->|[->|Ha']]; [rewrite Hat; lia|rewrite Hsir; lia|].
    apply (cell_fresh _ _ _ _ C) in Ha'. lia.
Qed.

(** [allocation] when a channel is free. *)
Lemma run_allocation p st l s i0 :
  cell p st l s -> channel_free st l i0 ->
  malloc_fails (tb_mallocs s) = false -> malloc_fails (S (tb_mallocs s)) = false ->
  exists i x st' s', allocation (Some p) s = Ret (i, s') /\
    channel_free st l i /\ (forall j, 0 <= j < i -> j ∈ num <$> l) /\
    num x = i /\ cell p st' (x :: l) s' /\ same_cell st st' /\
    (forall j, 0 <= j -> busy_bit st' j = (i =? j) || busy_bit st j) /\
    others_kept p l s s' /\ tb_mallocs s' = S (S (tb_mallocs s)).
Proof.
  intros C Hi0 Hm1 Hm2.
  destruct (wp_run _ _ _ (wp_free_index p st l s (Z.to_nat (channels_per_cell st)) 0 C
    ltac:(done) ltac:(pose proof (cell_words _ _ _ _ C); lia)))
    as (i & s0 & Hindex & -> & [[_ Hall]|(Hi & Hfree & Hleast)]).
  { destruct Hi0 as [Hr Hno]. destruct Hno. by apply Hall. }
  set (x := new_node i (tb_mallocs s)).
  destruct (cell_word _ _ _ _ i C) as [w Hw]; [apply Hfree|].
  set (st1 := set_channel_state (<[Z.to_nat (i / BITS) :=
    SET_CHANNEL_BIT w (i mod BITS)]> (channel_state st)) st).
  set (st' := set_channels (Some (at_ x)) st1).
  assert (forall j, 0 <= j -> busy_bit st' j = (i =? j) || busy_bit st j) as Hbits.
  { intros j Hj. apply (busy_bit_change SET_CHANNEL_BIT orb st); try done.
    intros. by apply check_set. }
  assert (at_ x ∉ at_ <$> l) as Hnew.
  { intros (y & Ey & Hy)%list_elem_of_fmap.
    destruct (seg_lookup _ _ _ _ y (cell_seg _ _ _ _ C) Hy) as (? & ? & Hc).
    assert (Pos.to_nat (at_ y) <= tb_mallocs s)%nat by (apply (cell_fresh _ _ _ _ C); left; by eexists).
    rewrite <- Ey in *. cbn in *. lia. }
  assert (wp (allocation (Some p)) (fun r s' => r = i /\ cell p st' (x :: l) s' /\
    others_kept p l s s' /\ tb_mallocs s' = S (S (tb_mallocs s))) s) as Hwp.
  { apply wp_bind. eapply wp_tb_load; [apply C|]. apply wp_bind. unfold wp at 1. rewrite Hindex.
    apply wp_bind. rewrite (proj2 (Z.eqb_neq i (-1))) by lia.
    apply wp_bind. eapply wp_change_channel; [exact C|apply Hfree|].
    intros w' Hw'. assert (w' = w) as -> by congruence. fold st1.
    apply wp_bind. apply (wp_add_call p st1 l i _ x); try done; try apply C; [cbn; apply lookup_insert_eq|].
    change (tb_mallocs (set_tb_heap (<[p:=st1]> (tb_heap s)) s)) with (tb_mallocs s). fold x st'.
    intros s1 Hseg1 Hl1 Hs1 Hn1 Hf1. cbn in Hl1, Hs1, Hn1, Hf1. rewrite insert_insert_eq in Hl1.
    assert (cell p st' (x :: l) s1) as C1.
    { eapply cell_add; [exact C|exact Hfree|done|done|rewrite Hl1; apply lookup_insert_eq|done|done
        |apply length_insert|exact Hbits|exact Hseg1| |intros a; rewrite Hs1, lookup_insert_is_Some'; split; (intros [Ea|Ha]; [left; by rewrite ?Ea|by right])|exact Hn1].
      intros a Ha. destruct (decide (a = at_ x)); [by left|right].
      destruct (decide (a ∈ at_ <$> l)) as [Hin|Hout]; [|by rewrite <- Hf1].
      apply list_elem_of_fmap in Hin as (y & -> & Hy).
      destruct (seg_lookup _ _ _ _ y (cell_seg _ _ _ _ C) Hy) as (? & ? & ->). by eexists. }
    destruct Hseg1 as [Hx1 Hseg1]. apply wp_bind. eapply wp_tb_load; [exact Hx1|].
    apply wp_bind, wp_ret. apply wp_bind. cbn [prev node_at]. eapply wp_mono.
    { eapply wp_interference; [|exact Hseg1|].
      - pose proof (seg_size _ _ _ _ C1). cbn in *. lia.
      - intros y Hy. apply (cell_listed _ _ _ _ C1). by right. }
    intros summ s2 Hcalm2. cbn beta in Hcalm2. eapply wp_choose_power.
    { rewrite (calm_chans _ _ Hcalm2). exact Hx1. }
    { apply (calm_sirs _ _ Hcalm2), (cell_listed _ _ _ _ C1). left. }
    intros s3 Hcalm3. assert (calm s1 s3) as D3 by by etransitivity.
    apply wp_bind. eapply wp_fading_recheck; [by eapply cell_calm|]. intros s4 Hcalm4.
    assert (calm s1 s4) as D4 by by etransitivity. apply wp_ret. split; [done|].
    split; [by eapply cell_calm|]. split; [|by rewrite (calm_mallocs _ _ D4)].
    eapply others_calm; [|exact D4]. split.
    - intros q Hq. by rewrite Hl1, lookup_insert_ne.
    - intros a Ha Hal. apply Hf1; [|done]. intros ->. cbn in Ha. lia. }
  apply wp_run in Hwp as (r & s' & Hrun & -> & C' & H1).
  exists i, x, st', s'. by do 6 (split; [done|]).
Qed.


(** A call that starts when every channel is busy aborts the program. *)
Theorem allocation_full p st l s :
  cell p st l s -> (forall i, 0 <= i < channels_per_cell st -> i ∈ num <$> l) ->
  allocation (Some p) s = Fault Aborted.
Proof.
  intros C Hall.
  destruct (wp_run _ _ _ (wp_free_index p st l s (Z.to_nat (channels_per_cell st)) 0 C
    ltac:(done) ltac:(pose proof (cell_words _ _ _ _ C); lia)))
    as (i & s0 & Hindex & -> & [[-> _]|(_ & [Hr Hno] & _)]).
  - assert (load (A := lp_state_type) (Some p) s = Ret (st, s)) as Hload.
    { unfold load, bind, get. cbn. by rewrite (cell_lp _ _ _ _ C). }
    unfold allocation. rewrite (bind_run _ _ _ _ _ Hload). by rewrite (bind_run _ _ _ _ _ Hindex).
  - destruct Hno. by apply Hall.
Qed.
End calls.
