(* ===== verification/CalQueue.v ===== *)
(** * The calendar queue ([testbed/src/calqueue.c])

    An array of buckets, each a chain of events in order of priority; bucket
    widths are doubles.  A chain belongs to one bucket, so it is the list of
    its nodes; a bucket whose chain was freed holds a dangling pointer, and
    one that was never written holds nothing that can be read.  The calendar
    is the part of the array [calq] that starts at [calendar].

    [calqueue_deq], [calqueue_put], [resize] and [new_width] call each other;
    [resize] does nothing while [resize_enabled] is false, which bounds the
    nesting: [resize] takes the number of resizes that may be nested. *)
From Stdlib Require Import SpecFloat.
From S2P Require Import Prelude Doubles Numerical.
Local Open Scope prog_scope.

Definition CALQSPACE : Z := 65536.
Definition MAXNBUCKETS : Z := 32768.

Section calqueue.
Context `{L : Libc} {P : Type}.

(** ** Data of calqueue.h *)
Record calqueue_node := { priority : double; payload : P }.

Inductive bucket := Chain (l : list calqueue_node) | Dangling.

Record calqueue := {
  calq : gmap Z bucket;
  calendar : Z;
  firstsub : Z; nbuckets : Z; qsize : Z; lastbucket : Z;
  resize_enabled : bool;
  top_threshold : double; bot_threshold : double; lastprio : double;
  buckettop : double; cwidth : double;
}.

(** A queue and the number of allocations made so far. *)
Record qstate := { cq : calqueue; q_mallocs : nat }.
Abbreviation M := (M qstate).

Definition set_calq (x : gmap Z bucket) (q : calqueue) : calqueue :=
  {| calq := x; calendar := calendar q; firstsub := firstsub q; nbuckets := nbuckets q;
     qsize := qsize q; lastbucket := lastbucket q; resize_enabled := resize_enabled q;
     top_threshold := top_threshold q; bot_threshold := bot_threshold q; lastprio := lastprio q;
     buckettop := buckettop q; cwidth := cwidth q |}.
Definition set_qsize (x : Z) (q : calqueue) : calqueue :=
  {| calq := calq q; calendar := calendar q; firstsub := firstsub q; nbuckets := nbuckets q;
     qsize := x; lastbucket := lastbucket q; resize_enabled := resize_enabled q;
     top_threshold := top_threshold q; bot_threshold := bot_threshold q; lastprio := lastprio q;
     buckettop := buckettop q; cwidth := cwidth q |}.
(** The place dequeueing goes on from. *)
Definition set_position (b : Z) (p t : double) (q : calqueue) : calqueue :=
  {| calq := calq q; calendar := calendar q; firstsub := firstsub q; nbuckets := nbuckets q;
     qsize := qsize q; lastbucket := b; resize_enabled := resize_enabled q;
     top_threshold := top_threshold q; bot_threshold := bot_threshold q; lastprio := p;
     buckettop := t; cwidth := cwidth q |}.
Definition set_resize_enabled (b : bool) (q : calqueue) : calqueue :=
  {| calq := calq q; calendar := calendar q; firstsub := firstsub q; nbuckets := nbuckets q;
     qsize := qsize q; lastbucket := lastbucket q; resize_enabled := b;
     top_threshold := top_threshold q; bot_threshold := bot_threshold q; lastprio := lastprio q;
     buckettop := buckettop q; cwidth := cwidth q |}.

Definition queue : M calqueue := s <- get ;; ret (cq s).
Definition change (f : calqueue -> calqueue) : M unit :=
  modify (fun s => {| cq := f (cq s); q_mallocs := q_mallocs s |}).

(** ** Conversions *)
Definition to_int (x : double) : M Z :=
  match trunc x with
  | Some z => if decide (in_i32 z) then ret z else crash BadConversion
  | None => crash BadConversion
  end.
Definition to_long (x : double) : M Z :=
  match trunc x with
  | Some z => if decide (in_i64 z) then ret z else crash BadConversion
  | None => crash BadConversion
  end.
Definition half (x : Z) : double := ddiv (of_Z x) (of_Z 2).

(** ** Buckets *)

(* calq[k] *)
Definition read_calq (k : Z) : M (list calqueue_node) :=
  q <- queue ;;
  match calq q !! k with
  | Some (Chain l) => ret l
  | Some Dangling => crash UseAfterFree
  | None => crash (OutOfBounds k)
  end.
Definition write_calq (k : Z) (b : bucket) : M unit :=
  if (0 <=? k) && (k <? CALQSPACE) then change (fun q => set_calq (<[k := b]> (calq q)) q)
  else crash (OutOfBounds k).

(* q->calendar[i] *)
Definition read_bucket (i : Z) : M (list calqueue_node) := q <- queue ;; read_calq (calendar q + i).
Definition write_bucket (i : Z) (l : list calqueue_node) : M unit :=
  q <- queue ;; write_calq (calendar q + i) (Chain l).

Fixpoint clear_buckets (n : nat) (i : Z) : M unit :=
  match n with
  | O => ret tt
  | S n => write_bucket i [] ;;; clear_buckets n (i + 1)
  end.

Definition localinit (qbase nbucks : Z) (bwidth startprio : double) : M unit :=
  change (fun q =>
    {| calq := calq q; calendar := qbase; firstsub := qbase; nbuckets := nbucks;
       qsize := 0; lastbucket := lastbucket q; resize_enabled := resize_enabled q;
       top_threshold := top_threshold q; bot_threshold := bot_threshold q; lastprio := lastprio q;
       buckettop := buckettop q; cwidth := bwidth |}) ;;;
  clear_buckets (Z.to_nat nbucks) 0 ;;;
  n <- to_long (ddiv startprio bwidth) ;;
  change (set_position (Z.rem n nbucks) startprio
    (dadd (dmul (of_Z (n + 1)) bwidth) (dmul (ddiv (of_Z 1) (of_Z 2)) bwidth))) ;;;
  h <- to_int (half nbucks) ;;
  change (fun q =>
    {| calq := calq q; calendar := calendar q; firstsub := firstsub q; nbuckets := nbuckets q;
       qsize := qsize q; lastbucket := lastbucket q; resize_enabled := resize_enabled q;
       top_threshold := of_Z (2 * nbucks); bot_threshold := of_Z (h - 2); lastprio := lastprio q;
       buckettop := buckettop q; cwidth := cwidth q |}).

(** ** Taking an event out *)
Definition ready (l : list calqueue_node) (top : double) : bool :=
  match l with x :: _ => dlt (priority x) top | [] => false end.

(* the for loop; [None] when it breaks off for a direct search *)
Fixpoint scan (fuel : nat) (i : Z) : M (option Z) :=
  match fuel with
  | O => crash OutOfFuel
  | S fuel =>
      q <- queue ;;
      l <- read_bucket i ;;
      if ready l (buckettop q) then ret (Some i) else
      let i := if i + 1 =? nbuckets q then 0 else i + 1 in
      change (fun q => set_position (lastbucket q) (lastprio q) (dadd (buckettop q) (cwidth q)) q) ;;;
      if i =? lastbucket q then ret None else scan fuel i
  end.

Fixpoint direct_search (n : nat) (i temp2 : Z) (lowest : double) : M Z :=
  match n with
  | O => ret temp2
  | S n =>
      l <- read_bucket i ;;
      match l with
      | x :: _ =>
          if (temp2 =? -1) || dlt (priority x) lowest
          then direct_search n (i + 1) i (priority x)
          else direct_search n (i + 1) temp2 lowest
      | [] => direct_search n (i + 1) temp2 lowest
      end
  end.

Definition LLONG_MAX : double := of_Z (2 ^ 63 - 1).

(* the code at the label calendar_process *)
Definition calendar_process (resize : Z -> M unit) (i : Z) : M (option calqueue_node) :=
  l <- read_bucket i ;;
  match l with
  | [] => crash NullDeref
  | e :: rest =>
      change (fun q => set_qsize (i32 (qsize q - 1)) (set_position i (priority e) (buckettop q) q)) ;;;
      write_bucket i rest ;;;
      q <- queue ;;
      (if dlt (of_Z (qsize q)) (bot_threshold q)
       then h <- to_int (half (nbuckets q)) ;; resize h else ret tt) ;;;
      ret (Some e)
  end.

Definition deq_with (resize : Z -> M unit) : M (option calqueue_node) :=
  q <- queue ;;
  if qsize q =? 0 then ret None else
  found <- scan (Z.to_nat (nbuckets q)) (lastbucket q) ;;
  match found with
  | Some i => calendar_process resize i
  | None =>
      i <- direct_search (Z.to_nat (nbuckets q)) 0 (-1) LLONG_MAX ;;
      calendar_process resize i
  end.

(** ** Putting an event in *)

(* after the nodes whose priority is not greater *)
Fixpoint place_after (x : calqueue_node) (l : list calqueue_node) : list calqueue_node :=
  match l with
  | z :: l' => if dle (priority z) (priority x) then z :: place_after x l' else x :: l
  | [] => [x]
  end.
Definition place (x : calqueue_node) (l : list calqueue_node) : list calqueue_node :=
  match l with
  | y :: l' => if dlt (priority x) (priority y) then x :: l else y :: place_after x l'
  | [] => [x]
  end.

(* the result of malloc is not tested *)
Definition malloc_node : M unit :=
  s <- get ;;
  put {| cq := cq s; q_mallocs := S (q_mallocs s) |} ;;;
  if malloc_fails (q_mallocs s) then crash NullDeref else ret tt.

Definition put_with (resize : Z -> M unit) (prio : double) (x : P) : M unit :=
  malloc_node ;;;
  q <- queue ;;
  i <- to_int (ddiv prio (cwidth q)) ;;
  let i := Z.rem i (nbuckets q) in
  l <- read_bucket i ;;
  write_bucket i (place {| priority := prio; payload := x |} l) ;;;
  change (fun q => set_qsize (i32 (qsize q + 1)) q) ;;;
  q <- queue ;;
  if dlt (top_threshold q) (of_Z (qsize q)) && (nbuckets q <? MAXNBUCKETS)
  then resize (2 * nbuckets q) else ret tt.

(** ** Resizing *)
Section width.
Variable resize : Z -> M unit.

(* temp[i] = calqueue_deq(q), whose priority is then read *)
Definition take_node : M calqueue_node :=
  o <- deq_with resize ;;
  match o with Some e => ret e | None => crash NullDeref end.

(* the rest of the samples after [prev], and the sum of the gaps *)
Fixpoint take_samples (n : nat) (prev : calqueue_node) (average : double)
    : M (list calqueue_node * double) :=
  match n with
  | O => ret ([], average)
  | S n =>
      e <- take_node ;;
      r <- take_samples n e (dadd average (dsub (priority e) (priority prev))) ;;
      ret (e :: r.1, r.2)
  end.

(* put back, summing the gaps below [bound]; [j] of them *)
Fixpoint put_back (temp : list calqueue_node) (prev : calqueue_node) (bound newaverage : double)
    (j : Z) : M (double * Z) :=
  match temp with
  | [] => ret (newaverage, j)
  | e :: temp =>
      let gap := dsub (priority e) (priority prev) in
      let small := dlt gap bound in
      put_with resize (priority e) (payload e) ;;;
      put_back temp e bound (if small then dadd newaverage gap else newaverage)
        (if small then j + 1 else j)
  end.

Definition new_width : M double :=
  q <- queue ;;
  if qsize q <? 2 then ret (of_Z 1) else
  tenth <- to_int (ddiv (of_Z (qsize q)) (of_Z 10)) ;;
  let nsamples := Z.min 25 (if qsize q <=? 5 then qsize q else 5 + tenth) in
  change (set_resize_enabled false) ;;;
  first <- take_node ;;
  r <- take_samples (Z.to_nat (nsamples - 1)) first (of_Z 0) ;;
  let average := ddiv r.2 (of_Z (nsamples - 1)) in
  put_with resize (priority first) (payload first) ;;;
  w <- put_back r.1 first (dmul average (of_Z 2)) (of_Z 0) 0 ;;
  change (set_position (lastbucket q) (lastprio q) (buckettop q)) ;;;
  change (set_resize_enabled true) ;;;
  ret (dmul (ddiv w.1 (of_Z w.2)) (of_Z 3)).

(* one old bucket: every event is put into the new calendar and its node freed *)
Fixpoint move_chain (l : list calqueue_node) : M unit :=
  match l with
  | [] => ret tt
  | x :: l => put_with resize (priority x) (payload x) ;;; move_chain l
  end.

(* the old buckets from number [n - 1] down to 0; the array goes on pointing to
   the first node of a chain, which is freed as soon as it has been put again *)
Definition leave_bucket (k : Z) (l : list calqueue_node) : M unit :=
  match l with [] => ret tt | _ :: _ => write_calq k Dangling end.

Fixpoint move_buckets (n : nat) (oldcalendar : Z) : M unit :=
  match n with
  | O => ret tt
  | S n =>
      l <- read_calq (oldcalendar + Z.of_nat n) ;;
      leave_bucket (oldcalendar + Z.of_nat n) l ;;;
      move_chain l ;;;
      move_buckets n oldcalendar
  end.

Definition do_resize (newsize : Z) : M unit :=
  bwidth <- new_width ;;
  q <- queue ;;
  (if firstsub q =? 0 then localinit (CALQSPACE - newsize) newsize bwidth (lastprio q)
   else localinit 0 newsize bwidth (lastprio q)) ;;;
  move_buckets (Z.to_nat (nbuckets q)) (calendar q).
End width.

Fixpoint resize (depth : nat) (newsize : Z) : M unit :=
  q <- queue ;;
  if negb (resize_enabled q) then ret tt else
  match depth with
  | O => crash OutOfFuel
  | S depth => do_resize (resize depth) newsize
  end.

(** A resize never runs inside another one: see CalOps.v. *)
Definition calqueue_deq : M (option calqueue_node) := deq_with (resize 1).
Definition calqueue_put : double -> P -> M unit := put_with (resize 1).

(** ** The interface *)
Definition calqueue_init : M unit :=
  localinit 0 2 (of_Z 1) (of_Z 0) ;;; change (set_resize_enabled true).

Definition calqueue_get : M (option P) :=
  node <- calqueue_deq ;;
  match node with Some e => ret (Some (payload e)) | None => ret None end.

Definition calqueue_empty : M bool := q <- queue ;; ret (qsize q =? 0).
End calqueue.
Arguments calqueue P : clear implicits.
Arguments calqueue_node P : clear implicits.
Arguments bucket P : clear implicits.
Arguments qstate P : clear implicits.
