(* ===== verification/CalBag.v ===== *)
(** * The calendar queue as a bag

    [qinv] is what a calendar keeps between operations.  The lemmas describe
    the two halves of each operation: taking out or placing one event, and
    the resize that may follow. *)
From Stdlib Require Import SpecFloat Sorted.
From S2P Require Import Prelude Doubles Numerical CalQueue.
Local Open Scope prog_scope.

Section bag.
Context `{L : Libc} {P : Type}.
Implicit Types (q : calqueue P) (s : qstate P) (e x : calqueue_node P) (l : list (calqueue_node P)).

(** ** What a queue holds *)
Definition chain_at q (i : Z) : list (calqueue_node P) :=
  match calq q !! (calendar q + i) with Some (Chain l) => l | _ => [] end.
Definition contents q : list (calqueue_node P) := concat (chain_at q <$> seqZ 0 (nbuckets q)).

(** The bucket number of a priority, if it can be computed. *)
Definition virtual_bucket (w p : double) : option Z :=
  match trunc (ddiv p w) with Some z => if decide (in_i32 z) then Some z else None | None => None end.
Definition bucket_of q (p : double) : option Z :=
  (fun z => Z.rem z (nbuckets q)) <$> virtual_bucket (cwidth q) p.

Definition by_priority x e : Prop := dle (priority x) (priority e) = true.

(** The sizes a calendar takes. *)
Definition legal_size (n : Z) : Prop := exists k, 1 <= k <= 15 /\ n = 2 ^ k.

Record qinv q : Prop := {
  qi_size : legal_size (nbuckets q);
  qi_first : firstsub q = calendar q;
  qi_place : calendar q = 0 \/ calendar q = CALQSPACE - nbuckets q;
  qi_chains i : 0 <= i < nbuckets q -> calq q !! (calendar q + i) = Some (Chain (chain_at q i));
  qi_count : qsize q = Z.of_nat (length (contents q)) /\ qsize q < 2 ^ 31;
  qi_last : 0 <= lastbucket q < nbuckets q;
  qi_lastprio : nonneg (lastprio q) = true;
  qi_top : top_threshold q = of_Z (2 * nbuckets q);
  qi_bot : bot_threshold q = of_Z (nbuckets q / 2 - 2);
  qi_width : above_zero (cwidth q) = true;
  qi_bucket i x : 0 <= i < nbuckets q -> x ∈ chain_at q i ->
    bucket_of q (priority x) = Some i /\ nonneg (priority x) = true;
  qi_sorted i : 0 <= i < nbuckets q -> StronglySorted by_priority (chain_at q i);
}.

(** Between operations a calendar that can grow is not overfull. *)
Definition roomy q : Prop := nbuckets q < MAXNBUCKETS -> qsize q <= 2 * nbuckets q.

Lemma legal_bounds n : legal_size n -> 2 <= n <= MAXNBUCKETS.
Proof.
  intros (k & Hk & ->). unfold MAXNBUCKETS. split.
  - change 2 with (2 ^ 1) at 1. apply Z.pow_le_mono_r; lia.
  - change 32768 with (2 ^ 15). apply Z.pow_le_mono_r; lia.
Qed.

Lemma legal_enum n : legal_size n -> n ∈ (Z.pow 2 <$> seqZ 1 15).
Proof. intros (k & Hk & ->). apply list_elem_of_fmap_2, elem_of_seqZ. lia. Qed.

(** Halving, in doubles, is exact. *)
Lemma half_legal n : legal_size n -> trunc (half n) = Some (n / 2) /\ in_i32 (n / 2).
Proof.
  intros Hn. pose proof (legal_bounds n Hn) as Hb. unfold MAXNBUCKETS in Hb. split.
  - apply legal_enum in Hn. clear Hb. revert n Hn. apply Forall_forall. by repeat constructor.
  - assert (0 <= n / 2) by (apply Z.div_pos; lia).
    assert (n / 2 <= n) by (apply Z.div_le_upper_bound; lia). unfold in_i32. lia.
Qed.

Lemma legal_double n : legal_size n -> n < MAXNBUCKETS -> legal_size (2 * n).
Proof.
  intros (k & Hk & ->) Hlt. exists (k + 1). rewrite Z.pow_add_r by lia. split; [|lia].
  assert (k <> 15) by (intros ->; unfold MAXNBUCKETS in Hlt; lia). lia.
Qed.

Lemma legal_half n : legal_size n -> 4 <= n -> legal_size (n / 2).
Proof.
  intros (k & Hk & ->) H4. exists (k - 1).
  assert (k <> 1) by (intros ->; lia). split; [lia|].
  replace k with (k - 1 + 1) at 1 by lia. rewrite Z.pow_add_r, Z.div_mul by lia. done.
Qed.

(** ** Contents, bucket by bucket *)
Lemma concat_at {A} (f g : Z -> list A) a n i :
  0 <= i - a < n -> (forall j, j <> i -> f j = g j) ->
  exists l1 l2 : list A, concat (f <$> seqZ a n) = l1 ++ f i ++ l2 /\ concat (g <$> seqZ a n) = l1 ++ g i ++ l2.
Proof.
  intros Hi Hfg. replace n with ((i - a) + (1 + (n - (i - a) - 1))) by lia.
  rewrite !seqZ_app by lia. rewrite !fmap_app, !concat_app. replace (a + (i - a)) with i by lia.
  assert (forall u m, (u + m <= i \/ i < u) -> f <$> seqZ u m = g <$> seqZ u m) as Heq.
  { intros u m Hum. apply list_fmap_ext. intros k j Hj. apply Hfg.
    apply lookup_seqZ in Hj. lia. }
  exists (concat (g <$> seqZ a (i - a))), (concat (g <$> seqZ (i + 1) (n - (i - a) - 1))).
  change (seqZ i 1) with [i]. cbn [fmap list_fmap concat].
  rewrite !app_nil_r, !Heq by lia. done.
Qed.

Lemma elem_of_contents q x : x ∈ contents q <-> exists i, 0 <= i < nbuckets q /\ x ∈ chain_at q i.
Proof.
  unfold contents. rewrite list_elem_of_In, in_concat. split.
  - intros (l & Hl%list_elem_of_In & Hx%list_elem_of_In).
    apply list_elem_of_fmap in Hl as (i & -> & Hi%elem_of_seqZ). exists i. split; [lia|done].
  - intros (i & Hi & Hx). exists (chain_at q i). rewrite <- !list_elem_of_In. split; [|done].
    apply list_elem_of_fmap_2, elem_of_seqZ. lia.
Qed.

(** Replacing one chain. *)
Definition set_chain (i : Z) l q : calqueue P := set_calq (<[calendar q + i := Chain l]> (calq q)) q.

Lemma chain_set_chain i l q j : chain_at (set_chain i l q) j = if decide (j = i) then l else chain_at q j.
Proof.
  unfold chain_at, set_chain. cbn. rewrite lookup_insert. case_decide; case_decide; try lia; done.
Qed.

Lemma contents_set_chain i l q :
  0 <= i < nbuckets q ->
  exists l1 l2, contents q = l1 ++ chain_at q i ++ l2 /\ contents (set_chain i l q) = l1 ++ l ++ l2.
Proof.
  intros Hi. destruct (concat_at (chain_at q) (chain_at (set_chain i l q)) 0 (nbuckets q) i)
    as (l1 & l2 & E1 & E2).
  - lia.
  - intros j Hj. rewrite chain_set_chain. by rewrite decide_False.
  - exists l1, l2. rewrite chain_set_chain, decide_True in E2 by done. by split.
Qed.

(** ** Placing an event in a chain *)
Lemma place_after_perm x l : place_after x l ≡ₚ x :: l.
Proof.
  induction l as [|z l IH]; cbn; [done|]. case_match; [|done].
  rewrite IH. apply Permutation_swap.
Qed.

Lemma place_perm x l : place x l ≡ₚ x :: l.
Proof.
  destruct l as [|y l]; cbn; [done|]. case_match; [done|].
  rewrite place_after_perm. apply Permutation_swap.
Qed.

Lemma nonneg_number p : nonneg p = true -> number p = true.
Proof. by destruct p. Qed.

Lemma place_after_sorted x l :
  number (priority x) = true -> (forall e, e ∈ l -> number (priority e) = true) ->
  StronglySorted by_priority l -> StronglySorted by_priority (place_after x l).
Proof.
  intros Hx. induction l as [|z l IH]; cbn; intros Hn Hs; [by repeat constructor|].
  apply StronglySorted_inv in Hs as [Hs Hz]. case_match eqn:E.
  - constructor; [apply IH; [|done]; intros; apply Hn; by right|].
    rewrite Forall_forall in Hz |- *. intros e. rewrite place_after_perm, elem_of_cons.
    intros [->|He]; [exact E|by apply Hz].
  - assert (by_priority x z) as Hxz.
    { apply dlt_le. destruct (dlt (priority x) (priority z)) eqn:Hd; [done|].
      apply dle_total in Hd; [congruence| |done]. apply Hn. left. }
    constructor; [by constructor|]. constructor; [done|].
    rewrite Forall_forall in Hz |- *. intros e He. eapply dle_trans; [exact Hxz|by apply Hz].
Qed.

Lemma place_sorted x l :
  number (priority x) = true -> (forall e, e ∈ l -> number (priority e) = true) ->
  StronglySorted by_priority l -> StronglySorted by_priority (place x l).
Proof.
  intros Hx Hn Hs. destruct l as [|y l]; cbn; [by repeat constructor|].
  assert (number (priority y) = true) by (apply Hn; left).
  pose proof (StronglySorted_inv Hs) as [Hl Hy]. case_match eqn:E.
  - constructor; [done|]. constructor; [by apply dlt_le|].
    rewrite Forall_forall in Hy |- *. intros e He. eapply dle_trans; [by apply dlt_le|by apply Hy].
  - constructor.
    + apply place_after_sorted; [done| |done]. intros e He. apply Hn. by right.
    + rewrite Forall_forall in Hy |- *. intros e. rewrite place_after_perm, elem_of_cons.
      intros [->|He]; [|by apply Hy]. by apply dle_total.
Qed.

(** ** The state parts an operation leaves alone *)
Record same_calendar q q' : Prop := {
  sc_calendar : calendar q' = calendar q;
  sc_first : firstsub q' = firstsub q;
  sc_nbuckets : nbuckets q' = nbuckets q;
  sc_enabled : resize_enabled q' = resize_enabled q;
  sc_top : top_threshold q' = top_threshold q;
  sc_bot : bot_threshold q' = bot_threshold q;
  sc_width : cwidth q' = cwidth q;
}.

#[export] Instance same_calendar_preorder : PreOrder same_calendar.
Proof.
  split; [done|]. intros q1 q2 q3 [] []. split; congruence.
Qed.

Lemma bucket_of_same q q' p : same_calendar q q' -> bucket_of q' p = bucket_of q p.
Proof. intros S. unfold bucket_of. by rewrite (sc_width _ _ S), (sc_nbuckets _ _ S). Qed.

(** One chain replaced by another, the count changed with it. *)
Lemma qinv_replace q q' i l :
  qinv q -> 0 <= i < nbuckets q -> same_calendar q q' ->
  calq q' = <[calendar q + i := Chain l]> (calq q) ->
  qsize q' = qsize q + (Z.of_nat (length l) - Z.of_nat (length (chain_at q i))) -> qsize q' < 2 ^ 31 ->
  0 <= lastbucket q' < nbuckets q -> nonneg (lastprio q') = true ->
  (forall x, x ∈ l -> bucket_of q (priority x) = Some i /\ nonneg (priority x) = true) ->
  StronglySorted by_priority l -> qinv q'.
Proof.
  intros I Hi S Hc Hn Hlt Hlast Hlp Hl Hsort.
  pose proof (sc_nbuckets _ _ S) as En. pose proof (sc_calendar _ _ S) as Ec.
  assert (forall j, chain_at q' j = if decide (j = i) then l else chain_at q j) as Hch.
  { intros j. rewrite <- chain_set_chain. unfold chain_at, set_chain. cbn. by rewrite Hc, Ec. }
  assert (contents q' = contents (set_chain i l q)) as Econt.
  { unfold contents. cbn. rewrite En. f_equal. apply list_fmap_ext. intros _ j _.
    by rewrite Hch, chain_set_chain. }
  split; rewrite ?En, ?Ec, ?(sc_first _ _ S), ?(sc_top _ _ S), ?(sc_bot _ _ S), ?(sc_width _ _ S);
    try apply I; try done.
  - intros j Hj. rewrite Hc, Hch, lookup_insert. case_decide; case_decide; try lia; [done|].
    by apply (qi_chains _ I).
  - split; [|done]. destruct (contents_set_chain i l q Hi) as (l1 & l2 & E1 & E2).
    pose proof (qi_count _ I) as [Hcount _]. rewrite Hn, Hcount, Econt, E1, E2, !length_app. lia.
  - intros j x Hj. rewrite Hch, (bucket_of_same q q') by done. case_decide; [subst; apply Hl|].
    by apply (qi_bucket _ I).
  - intros j Hj. rewrite Hch. case_decide; [done|]. by apply (qi_sorted _ I).
Qed.

(** Only the place where dequeueing goes on differs. *)
Lemma qinv_position q b p t :
  qinv q -> 0 <= b < nbuckets q -> nonneg p = true -> qinv (set_position b p t q).
Proof. intros I Hb Hp. split; try apply I; done. Qed.

Lemma contents_position b p t q : contents (set_position b p t q) = contents q.
Proof. done. Qed.

(** ** Reading and writing buckets *)
Lemma run_queue s : queue s = Ret (cq s, s).
Proof. done. Qed.

Lemma run_read_bucket s i :
  qinv (cq s) -> 0 <= i < nbuckets (cq s) -> read_bucket i s = Ret (chain_at (cq s) i, s).
Proof.
  intros I Hi. unfold read_bucket, read_calq. rewrite (bind_run _ _ _ _ _ (run_queue s)).
  rewrite (bind_run _ _ _ _ _ (run_queue s)). by rewrite (qi_chains _ I i Hi).
Qed.

Definition with_queue q s : qstate P := {| cq := q; q_mallocs := q_mallocs s |}.

Lemma calendar_in_space q i : qinv q -> 0 <= i < nbuckets q -> 0 <= calendar q + i < CALQSPACE.
Proof.
  intros I Hi. pose proof (legal_bounds _ (qi_size _ I)). pose proof (qi_place _ I).
  unfold CALQSPACE, MAXNBUCKETS in *. lia.
Qed.

Lemma run_write_bucket s q i l :
  qinv q -> calendar (cq s) = calendar q -> 0 <= i < nbuckets q ->
  write_bucket i l s = Ret (tt, with_queue (set_chain i l (cq s)) s).
Proof.
  intros I Hc Hi. unfold write_bucket. rewrite (bind_run _ _ _ _ _ (run_queue s)). unfold write_calq.
  pose proof (calendar_in_space q i I Hi) as Hspace. rewrite <- Hc in Hspace.
  by rewrite (proj2 (Z.leb_le _ _)), (proj2 (Z.ltb_lt _ _)) by lia.
Qed.

(** ** Putting *)
Definition inserted (i : Z) x q : calqueue P :=
  set_qsize (i32 (qsize q + 1)) (set_chain i (place x (chain_at q i)) q).
Definition grows q : bool := (2 * nbuckets q <? qsize q) && (nbuckets q <? MAXNBUCKETS).

Lemma same_inserted i x q : same_calendar q (inserted i x q).
Proof. done. Qed.

Lemma qsize_inserted i x q :
  qinv q -> qsize q + 1 < 2 ^ 31 -> qsize (inserted i x q) = qsize q + 1.
Proof. intros I Hlt. cbn. pose proof (qi_count _ I). apply i32_small. unfold in_i32. lia. Qed.

Lemma bucket_of_range q p i : qinv q -> nonneg p = true -> bucket_of q p = Some i -> 0 <= i < nbuckets q.
Proof.
  intros I Hp. unfold bucket_of, virtual_bucket.
  pose proof (legal_bounds _ (qi_size _ I)).
  destruct (trunc (ddiv p (cwidth q))) as [z|] eqn:E; cbn; [|done].
  case_decide; cbn; [|done]. intros [= <-].
  pose proof (trunc_div _ _ _ Hp (qi_width _ I) E). by apply Z.rem_bound_pos; lia.
Qed.

Lemma qinv_inserted q i x :
  qinv q -> qsize q + 1 < 2 ^ 31 -> nonneg (priority x) = true -> bucket_of q (priority x) = Some i ->
  qinv (inserted i x q) /\ contents (inserted i x q) ≡ₚ x :: contents q.
Proof.
  intros I Hlt Hx Hb. pose proof (bucket_of_range q _ i I Hx Hb) as Hi. split.
  - eapply (qinv_replace q _ i (place x (chain_at q i))); try done; try apply I.
    + rewrite qsize_inserted by done. rewrite place_perm. cbn. lia.
    + by rewrite qsize_inserted.
    + intros y. rewrite place_perm, elem_of_cons. intros [->|Hy]; [done|]. by apply (qi_bucket _ I).
    + apply place_sorted; [by apply nonneg_number| |by apply (qi_sorted _ I)].
      intros e He. apply nonneg_number. by apply (qi_bucket _ I i e Hi).
  - destruct (contents_set_chain i (place x (chain_at q i)) q Hi) as (l1 & l2 & E1 & E2).
    change (contents (inserted i x q)) with (contents (set_chain i (place x (chain_at q i)) q)).
    rewrite E1, E2, place_perm. cbn. symmetry; apply Permutation_middle.
Qed.

Lemma run_to_int d z : trunc d = Some z -> in_i32 z -> forall s, to_int d s = Ret (z, s).
Proof. intros Hx Hz s. unfold to_int. rewrite Hx. by rewrite decide_True. Qed.

Lemma run_to_index q p i s :
  bucket_of q p = Some i ->
  exists z, to_int (ddiv p (cwidth q)) s = Ret (z, s) /\ Z.rem z (nbuckets q) = i.
Proof.
  unfold bucket_of, virtual_bucket.
  destruct (trunc (ddiv p (cwidth q))) as [z|] eqn:E; cbn; [|done].
  case_decide; cbn; [|done]. intros [= <-]. exists z. split; [by apply run_to_int|done].
Qed.

Lemma grows_test q :
  qinv q -> top_threshold q = of_Z (2 * nbuckets q) ->
  dlt (top_threshold q) (of_Z (qsize q)) && (nbuckets q <? MAXNBUCKETS) = grows q.
Proof.
  intros I ->. unfold grows. f_equal. pose proof (legal_bounds _ (qi_size _ I)).
  pose proof (qi_count _ I). unfold MAXNBUCKETS in *. apply dlt_of_Z; lia.
Qed.

Section put.
Hypothesis Hmem : forall n, malloc_fails n = false.

Lemma run_put_with (R : Z -> M (qstate P) unit) s p (v : P) i :
  qinv (cq s) -> qsize (cq s) + 1 < 2 ^ 31 -> nonneg p = true -> bucket_of (cq s) p = Some i ->
  let s1 := {| cq := inserted i {| priority := p; payload := v |} (cq s); q_mallocs := S (q_mallocs s) |} in
  put_with R p v s = if grows (cq s1) then R (2 * nbuckets (cq s)) s1 else Ret (tt, s1).
Proof.
  intros I Hlt Hp Hb s1. set (x := {| priority := p; payload := v |}) in *.
  pose proof (bucket_of_range _ p i I Hp Hb) as Hi.
  destruct (qinv_inserted (cq s) i x I Hlt Hp Hb) as [I1 _].
  set (s0 := {| cq := cq s; q_mallocs := S (q_mallocs s) |}).
  assert (malloc_node s = Ret (tt, s0)) as Hm by (unfold malloc_node, bind, get, put; by rewrite Hmem).
  unfold put_with. rewrite (bind_run _ _ _ _ _ Hm), (bind_run _ _ _ _ _ (run_queue s0)).
  destruct (run_to_index (cq s) p i s0 Hb) as (z & Hz & Ez).
  rewrite (bind_run _ _ _ _ _ Hz). cbn zeta. change (nbuckets (cq s0)) with (nbuckets (cq s)). rewrite Ez.
  rewrite (bind_run _ _ _ _ _ (run_read_bucket s0 i I Hi)).
  rewrite (bind_run _ _ _ _ _ (run_write_bucket s0 (cq s) i _ I eq_refl Hi)).
  rewrite (bind_run (change _) _ _ tt s1) by done.
  rewrite (bind_run _ _ _ _ _ (run_queue s1)).
  rewrite (grows_test (cq s1) I1) by apply I1. by destruct (grows (cq s1)).
Qed.
End put.

(** ** Taking *)
Lemma run_scan fuel : forall i s,
  qinv (cq s) -> 0 <= i < nbuckets (cq s) ->
  ((lastbucket (cq s) - i - 1) mod nbuckets (cq s) < Z.of_nat fuel) ->
  exists r t, scan fuel i s = Ret (r, with_queue (set_position (lastbucket (cq s)) (lastprio (cq s)) t (cq s)) s) /\
    (forall j, r = Some j -> 0 <= j < nbuckets (cq s) /\ chain_at (cq s) j <> []).
Proof.
  induction fuel as [|fuel IH]; intros i s I Hi Hf.
  { pose proof (Z.mod_pos_bound (lastbucket (cq s) - i - 1) (nbuckets (cq s)) ltac:(lia)). lia. }
  cbn [scan]. rewrite (bind_run _ _ _ _ _ (run_queue s)).
  rewrite (bind_run _ _ _ _ _ (run_read_bucket s i I Hi)).
  destruct (ready (chain_at (cq s) i) (buckettop (cq s))) eqn:Er.
  - exists (Some i), (buckettop (cq s)). split; [by destruct s as [[] ?]|].
    intros j [= <-]. split; [done|]. by destruct (chain_at (cq s) i).
  - set (i' := if i + 1 =? nbuckets (cq s) then 0 else i + 1).
    set (s1 := with_queue (set_position (lastbucket (cq s)) (lastprio (cq s))
      (dadd (buckettop (cq s)) (cwidth (cq s))) (cq s)) s).
    rewrite (bind_run (change _) _ _ tt s1) by done.
    assert (i' = (i + 1) mod nbuckets (cq s) /\ 0 <= i' < nbuckets (cq s)) as [Ei' Hi'].
    { unfold i'. destruct (Z.eqb_spec (i + 1) (nbuckets (cq s))) as [->|].
      - rewrite Z_mod_same_full. lia.
      - rewrite Z.mod_small; lia. }
    destruct (Z.eqb_spec i' (lastbucket (cq s))) as [El|Hne].
    + eexists None, _. split; [done|]. done.
    + destruct (IH i' s1) as (r & t & Hrun & Hr).
      * apply qinv_position; [done|apply I..].
      * exact Hi'.
      * change (lastbucket (cq s1)) with (lastbucket (cq s)). change (nbuckets (cq s1)) with (nbuckets (cq s)).
        pose proof (qi_last _ I) as Hl. set (n := nbuckets (cq s)) in *. set (b := lastbucket (cq s)) in *.
        assert ((b - i - 1) mod n <> 0) as Hnz.
        { intros E. apply Hne. rewrite Ei'. apply Z.mod_divide in E as [k Hk]; [|lia].
          replace (i + 1) with (b + (- k) * n) by lia. rewrite Z_mod_plus_full. by apply Z.mod_small. }
        assert ((b - i' - 1) mod n = (b - i - 1) mod n - 1) as ->; [|lia].
        pose proof (Z.mod_pos_bound (b - i - 1) n ltac:(lia)).
        replace ((b - i' - 1) mod n) with ((b - i - 2) mod n).
        { rewrite <- (Z.mod_small ((b - i - 1) mod n - 1) n) by lia.
          rewrite Zminus_mod_idemp_l. f_equal. lia. }
        rewrite Ei'. replace (b - (i + 1) mod n - 1) with (b - 1 - (i + 1) mod n) by lia.
        rewrite Zminus_mod_idemp_r. f_equal. lia.
      * exists r, t. split; [exact Hrun|exact Hr].
Qed.

(** The direct search goes through all buckets and keeps the first least
    head: when something is found it is not after any head seen. *)
Definition head_of q (i : Z) : option (calqueue_node P) := head (chain_at q i).

Lemma run_direct_search n : forall i t low s,
  qinv (cq s) -> 0 <= i -> i + Z.of_nat n = nbuckets (cq s) ->
  (t = -1 \/ 0 <= t < i /\ exists e, head_of (cq s) t = Some e /\ priority e = low) ->
  exists r, direct_search n i t low s = Ret (r, s) /\
    ((r = -1 /\ t = -1 /\ forall j, i <= j < nbuckets (cq s) -> chain_at (cq s) j = []) \/
     (0 <= r < nbuckets (cq s) /\ exists e, head_of (cq s) r = Some e /\
        (t <> -1 -> dle (priority e) low = true) /\
        forall j e', i <= j < nbuckets (cq s) -> head_of (cq s) j = Some e' ->
          dle (priority e) (priority e') = true)).
Proof.
  induction n as [|n IH]; intros i t low s I Hi Hn Ht; cbn [direct_search].
  { exists t. split; [done|]. destruct Ht as [->|(Ht & e & He & <-)]; [left|right].
    - split; [done|]. split; [done|]. intros. lia.
    - split; [lia|]. exists e. split; [done|]. split; [|intros; lia]. intros _. apply dle_refl, nonneg_number.
      apply (qi_bucket _ I t e); [lia|]. unfold head_of in He. destruct (chain_at (cq s) t); [done|].
      injection He as ->. left. }
  rewrite (bind_run _ _ _ _ _ (run_read_bucket s i I ltac:(lia))).
  assert (forall j, i <= j < nbuckets (cq s) -> j = i \/ i + 1 <= j < nbuckets (cq s)) as Hcase by lia.
  destruct (chain_at (cq s) i) as [|x l] eqn:Ec.
  - destruct (IH (i + 1) t low s I ltac:(lia) ltac:(lia)) as (r & Hrun & Hr).
    { destruct Ht as [?|[? ?]]; [by left|right; split; [lia|done]]. }
    exists r. split; [exact Hrun|]. destruct Hr as [(-> & -> & Hall)|(Hr & e & He & Hlow & Hall)]; [left|right].
    + split; [done|]. split; [done|]. intros j [->|Hj]%Hcase; [done|by apply Hall].
    + split; [done|]. exists e. split; [done|]. split; [done|].
      intros j e' [->|Hj]%Hcase; [unfold head_of; by rewrite Ec|by apply Hall].
  - assert (number (priority x) = true) as Hx.
    { apply nonneg_number. apply (qi_bucket _ I i x); [lia|]. rewrite Ec. left. }
    assert (head_of (cq s) i = Some x) as Hhead by (unfold head_of; by rewrite Ec).
    destruct ((t =? -1) || dlt (priority x) low) eqn:Et.
    + destruct (IH (i + 1) i (priority x) s I ltac:(lia) ltac:(lia)) as (r & Hrun & Hr).
      { right. split; [lia|]. by exists x. }
      exists r. split; [exact Hrun|]. right. destruct Hr as [(_ & E & _)|(Hr & e & He & Hlow & Hall)]; [lia|].
      split; [done|]. exists e. split; [done|]. specialize (Hlow ltac:(lia)). split.
      * intros Hne. apply orb_true_iff in Et as [Et|Et]; [apply Z.eqb_eq in Et; lia|].
        eapply dle_trans; [exact Hlow|by apply dlt_le].
      * intros j e' [->|Hj]%Hcase; [|by apply Hall]. rewrite Hhead. by intros [= <-].
    + apply orb_false_iff in Et as [Et1%Z.eqb_neq Et2].
      destruct (IH (i + 1) t low s I ltac:(lia) ltac:(lia)) as (r & Hrun & Hr).
      { destruct Ht as [?|[? ?]]; [by left|right; split; [lia|done]]. }
      exists r. split; [exact Hrun|]. right. destruct Hr as [(_ & E & _)|(Hr & e & He & Hlow & Hall)]; [lia|].
      split; [done|]. exists e. split; [done|]. split; [done|].
      intros j e' [->|Hj]%Hcase; [|by apply Hall]. rewrite Hhead. intros [= <-].
      destruct Ht as [?|(Ht & y & Hy & Elow)]; [lia|]. eapply dle_trans; [by apply Hlow|].
      apply dle_total; [|done|done]. rewrite <- Elow. apply nonneg_number.
      apply (qi_bucket _ I t y); [lia|]. unfold head_of in Hy.
      destruct (chain_at (cq s) t); [done|]. injection Hy as ->. left.
Qed.

Definition removed (i : Z) e l (t : double) q : calqueue P :=
  set_chain i l (set_qsize (i32 (qsize q - 1)) (set_position i (priority e) t q)).
Definition shrinks q : bool := qsize q <? nbuckets q / 2 - 2.

Lemma qinv_removed q i e l t :
  qinv q -> 0 <= i < nbuckets q -> chain_at q i = e :: l ->
  qinv (removed i e l t q) /\ contents q ≡ₚ e :: contents (removed i e l t q) /\
  qsize (removed i e l t q) = qsize q - 1.
Proof.
  intros I Hi Hc. pose proof (qi_count _ I) as [Hn Hlt].
  destruct (contents_set_chain i l q Hi) as (l1 & l2 & E1 & E2). rewrite Hc in E1.
  assert (contents q ≡ₚ e :: contents (removed i e l t q)) as Hperm.
  { change (contents (removed i e l t q)) with (contents (set_chain i l q)).
    rewrite E1, E2. cbn. symmetry. apply Permutation_middle. }
  assert (qsize (removed i e l t q) = qsize q - 1) as Hsize.
  { apply i32_small. unfold in_i32. rewrite Hn, E1, length_app in *. cbn in *. lia. }
  split; [|by split]. pose proof (qi_sorted _ I i Hi) as Hs. rewrite Hc in Hs.
  eapply (qinv_replace q _ i l); try done.
  - rewrite Hsize, Hc. cbn. lia.
  - lia.
  - cbn. apply (qi_bucket _ I i e Hi). rewrite Hc. left.
  - intros x Hx. apply (qi_bucket _ I i x Hi). rewrite Hc. by right.
  - by apply StronglySorted_inv in Hs as [Hs _].
Qed.

Lemma shrinks_test q :
  qinv q -> dlt (of_Z (qsize q)) (bot_threshold q) = shrinks q.
Proof.
  intros I. rewrite (qi_bot _ I). unfold shrinks. pose proof (legal_bounds _ (qi_size _ I)).
  pose proof (qi_count _ I). destruct (half_legal _ (qi_size _ I)) as [_ Hh]. unfold in_i32, MAXNBUCKETS in *.
  apply dlt_of_Z; lia.
Qed.

Lemma run_calendar_process (R : Z -> M (qstate P) unit) s i e l :
  qinv (cq s) -> 0 <= i < nbuckets (cq s) -> chain_at (cq s) i = e :: l ->
  let s1 := with_queue (removed i e l (buckettop (cq s)) (cq s)) s in
  calendar_process R i s =
    if shrinks (cq s1) then bind (R (nbuckets (cq s) / 2)) (fun _ => ret (Some e)) s1
    else Ret (Some e, s1).
Proof.
  intros I Hi Hc s1. destruct (qinv_removed _ i e l (buckettop (cq s)) I Hi Hc) as (I1 & _).
  unfold calendar_process. rewrite (bind_run _ _ _ _ _ (run_read_bucket s i I Hi)), Hc.
  set (s0 := with_queue (set_qsize (i32 (qsize (cq s) - 1))
    (set_position i (priority e) (buckettop (cq s)) (cq s))) s).
  rewrite (bind_run (change _) _ _ tt s0) by done.
  rewrite (bind_run _ _ _ _ _ (run_write_bucket s0 (cq s) i l I eq_refl Hi)).
  change (with_queue (set_chain i l (cq s0)) s0) with s1.
  rewrite (bind_run _ _ _ _ _ (run_queue s1)), (shrinks_test (cq s1) I1).
  change (cq s1) with (removed i e l (buckettop (cq s)) (cq s)).
  destruct (shrinks _); [|done]. destruct (half_legal _ (qi_size _ I)) as [Hh Hr].
  unfold bind at 1. unfold bind at 1.
  change (nbuckets (removed i e l (buckettop (cq s)) (cq s))) with (nbuckets (cq s)).
  by rewrite (run_to_int _ _ Hh Hr).
Qed.

(** Dequeueing, up to the resize: the event taken is the head of a chain. *)
Lemma run_deq_with (R : Z -> M (qstate P) unit) s :
  qinv (cq s) -> contents (cq s) <> [] ->
  exists i e l t,
    0 <= i < nbuckets (cq s) /\ chain_at (cq s) i = e :: l /\
    let s1 := with_queue (removed i e l t (cq s)) s in
    deq_with R s =
      if shrinks (cq s1) then bind (R (nbuckets (cq s) / 2)) (fun _ => ret (Some e)) s1
      else Ret (Some e, s1).
Proof.
  intros I Hne. pose proof (qi_count _ I) as [Hn _]. pose proof (qi_last _ I) as Hl.
  unfold deq_with. rewrite (bind_run _ _ _ _ _ (run_queue s)).
  rewrite (proj2 (Z.eqb_neq _ _)).
  2: { rewrite Hn. destruct (contents (cq s)); [done|cbn; lia]. }
  destruct (run_scan (Z.to_nat (nbuckets (cq s))) (lastbucket (cq s)) s I Hl) as (r & t & Hrun & Hr).
  { rewrite Z2Nat.id by lia. apply Z.mod_pos_bound. lia. }
  rewrite (bind_run _ _ _ _ _ Hrun). set (s0 := with_queue _ s).
  assert (qinv (cq s0)) as I0 by (apply qinv_position; [done|done|apply I]).
  assert (forall i, chain_at (cq s0) i = chain_at (cq s) i) as Hch by done.
  destruct r as [i|].
  - destruct (Hr i eq_refl) as [Hi Hnil]. destruct (chain_at (cq s) i) as [|e l] eqn:Ec; [done|].
    exists i, e, l, t. split; [done|]. split; [done|]. apply (run_calendar_process R s0 i e l I0 Hi).
    by rewrite Hch.
  - destruct (run_direct_search (Z.to_nat (nbuckets (cq s))) 0 (-1) LLONG_MAX s0 I0) as (i & Hd & Hi).
    + done.
    + change (nbuckets (cq s0)) with (nbuckets (cq s)). lia.
    + by left.
    + rewrite (bind_run _ _ _ _ _ Hd). destruct Hi as [(_ & _ & Hall)|(Hi & e & He & _)].
      * exfalso. apply Hne. destruct (contents (cq s)) as [|x l] eqn:E; [done|].
        assert (x ∈ contents (cq s)) as (j & Hj & Hx)%elem_of_contents by (rewrite E; left).
        rewrite <- Hch, Hall in Hx by done. by apply not_elem_of_nil in Hx.
      * unfold head_of in He. rewrite Hch in He. destruct (chain_at (cq s) i) as [|e' l] eqn:Ec; [done|].
        injection He as ->. exists i, e, l, t. split; [done|]. split; [done|].
        apply (run_calendar_process R s0 i e l I0 Hi). by rewrite Hch.
Qed.

(** ** While resizing is off *)
Section off.
Hypothesis Hmem : forall n, malloc_fails n = false.
Variable R : Z -> M (qstate P) unit.
Hypothesis Roff : forall n s, resize_enabled (cq s) = false -> R n s = Ret (tt, s).

(** What such operations keep. *)
Record kept s s' : Prop := {
  k_inv : qinv (cq s');
  k_same : same_calendar (cq s) (cq s');
}.

Lemma run_put_off s p (v : P) i :
  qinv (cq s) -> resize_enabled (cq s) = false -> qsize (cq s) + 1 < 2 ^ 31 ->
  nonneg p = true -> bucket_of (cq s) p = Some i ->
  exists s', put_with R p v s = Ret (tt, s') /\ kept s s' /\ qsize (cq s') = qsize (cq s) + 1 /\
    contents (cq s') ≡ₚ {| priority := p; payload := v |} :: contents (cq s).
Proof.
  intros I Hoff Hlt Hp Hb. pose proof (run_put_with Hmem R s p v i I Hlt Hp Hb) as Hrun. cbn zeta in Hrun.
  destruct (qinv_inserted (cq s) i {| priority := p; payload := v |} I Hlt Hp Hb) as [I1 Hc].
  exists {| cq := inserted i {| priority := p; payload := v |} (cq s); q_mallocs := S (q_mallocs s) |}.
  split; [|split; [|split; [|exact Hc]]].
  - rewrite Hrun. case_match; [|done]. by rewrite Roff.
  - by split.
  - by apply qsize_inserted.
Qed.

Lemma run_take_off s :
  qinv (cq s) -> resize_enabled (cq s) = false -> contents (cq s) <> [] ->
  exists e s', take_node R s = Ret (e, s') /\ kept s s' /\ qsize (cq s') = qsize (cq s) - 1 /\
    contents (cq s) ≡ₚ e :: contents (cq s').
Proof.
  intros I Hoff Hne. destruct (run_deq_with R s I Hne) as (i & e & l & t & Hi & Hc & Hrun).
  cbn zeta in Hrun. destruct (qinv_removed _ i e l t I Hi Hc) as (I1 & Hperm & Hsize).
  exists e, (with_queue (removed i e l t (cq s)) s). split; [|split; [by split|by split]].
  assert (deq_with R s = Ret (Some e, with_queue (removed i e l t (cq s)) s)) as Hdeq.
  { rewrite Hrun. case_match; [|done]. unfold bind. by rewrite Roff. }
  unfold take_node. by rewrite (bind_run _ _ _ _ _ Hdeq).
Qed.
End off.
End bag.
