(* ===== verification/CalResize.v ===== *)
(** * Resizing the calendar, and the operations as a whole

    [new_width] only reads the calendar: it takes events out and puts them
    back.  The resize that follows builds a new calendar, whose bucket width
    is the result; when that width can be used for every event, no event is
    lost. *)
From Stdlib Require Import SpecFloat Sorted.
From S2P Require Import Prelude Doubles Numerical CalQueue CalBag.
Local Open Scope prog_scope.

Section resize.
Context `{L : Libc} {P : Type}.
Implicit Types (q : calqueue P) (s : qstate P) (e x : calqueue_node P) (l : list (calqueue_node P)).
Hypothesis Hmem : forall n, malloc_fails n = false.

Section width.
Variable R : Z -> M (qstate P) unit.
Hypothesis Roff : forall n s, resize_enabled (cq s) = false -> R n s = Ret (tt, s).

Lemma kept_trans s1 s2 s3 : kept s1 s2 -> kept s2 s3 -> kept s1 s3.
Proof. intros [_ S1] [I S2]. split; [done|by etransitivity]. Qed.

Lemma kept_off s s' : kept s s' -> resize_enabled (cq s) = false -> resize_enabled (cq s') = false.
Proof. intros [_ S] H. by rewrite (sc_enabled _ _ S). Qed.

Lemma run_take_samples n : forall prev avg s,
  qinv (cq s) -> resize_enabled (cq s) = false -> (n <= length (contents (cq s)))%nat ->
  exists r s', take_samples R n prev avg s = Ret (r, s') /\ kept s s' /\
    contents (cq s) ≡ₚ r.1 ++ contents (cq s') /\ qsize (cq s') = qsize (cq s) - Z.of_nat n /\
    length r.1 = n.
Proof.
  induction n as [|n IH]; intros prev avg s I Hoff Hn; cbn [take_samples].
  { eexists ([], avg), s. split; [done|]. split; [by split|]. split; [done|]. split; [lia|done]. }
  destruct (run_take_off R Roff s I Hoff) as (e & s1 & Hrun & K1 & Hs1 & Hp1).
  { intros E. rewrite E in Hn. cbn in Hn. lia. }
  rewrite (bind_run _ _ _ _ _ Hrun).
  destruct (IH e (dadd avg (dsub (priority e) (priority prev))) s1) as (r & s2 & Hrun2 & K2 & Hp2 & Hs2 & Hlen).
  { apply K1. } { by eapply kept_off. } { rewrite Hp1 in Hn. cbn in Hn. lia. }
  rewrite (bind_run _ _ _ _ _ Hrun2). eexists (e :: r.1, r.2), s2. cbn. split; [done|].
  split; [by eapply kept_trans|]. split; [by rewrite Hp1, Hp2|]. split; [lia|by rewrite Hlen].
Qed.

Definition placeable q x : Prop := nonneg (priority x) = true /\ is_Some (bucket_of q (priority x)).

Lemma placeable_same q q' x : same_calendar q q' -> placeable q x -> placeable q' x.
Proof. intros S [H1 H2]. split; [done|]. by rewrite (bucket_of_same q q'). Qed.

Lemma contents_placeable q x : qinv q -> x ∈ contents q -> placeable q x.
Proof.
  intros I (i & Hi & Hx)%elem_of_contents. destruct (qi_bucket _ I i x Hi Hx) as [Hb Hn].
  split; [done|]. by eexists.
Qed.

Lemma run_put_placeable s x :
  qinv (cq s) -> resize_enabled (cq s) = false -> qsize (cq s) + 1 < 2 ^ 31 -> placeable (cq s) x ->
  exists s', put_with R (priority x) (payload x) s = Ret (tt, s') /\ kept s s' /\
    qsize (cq s') = qsize (cq s) + 1 /\ contents (cq s') ≡ₚ x :: contents (cq s).
Proof.
  intros I Hoff Hlt [Hn [i Hb]].
  destruct (run_put_off Hmem R Roff s (priority x) (payload x) i I Hoff Hlt Hn Hb) as (s' & H1 & H2 & H3 & H4).
  exists s'. by destruct x.
Qed.

Lemma run_put_back temp : forall prev bound na j s,
  qinv (cq s) -> resize_enabled (cq s) = false -> qsize (cq s) + Z.of_nat (length temp) < 2 ^ 31 ->
  (forall e, e ∈ temp -> placeable (cq s) e) ->
  exists w s', put_back R temp prev bound na j s = Ret (w, s') /\ kept s s' /\
    contents (cq s') ≡ₚ temp ++ contents (cq s) /\ qsize (cq s') = qsize (cq s) + Z.of_nat (length temp).
Proof.
  induction temp as [|e temp IH]; intros prev bound na j s I Hoff Hlt Hpl; cbn [put_back].
  { eexists _, s. split; [done|]. split; [by split|]. split; [done|cbn; lia]. }
  cbn [length] in Hlt.
  destruct (run_put_placeable s e I Hoff) as (s1 & Hrun & K1 & Hs1 & Hp1); [lia|apply Hpl; left|].
  cbn zeta. rewrite (bind_run _ _ _ _ _ Hrun).
  destruct (IH e bound (if dlt (dsub (priority e) (priority prev)) bound
      then dadd na (dsub (priority e) (priority prev)) else na)
    (if dlt (dsub (priority e) (priority prev)) bound then j + 1 else j) s1)
    as (w & s2 & Hrun2 & K2 & Hp2 & Hs2).
  { apply K1. } { by eapply kept_off. } { lia. }
  { intros y Hy. apply (placeable_same (cq s)); [apply K1|]. apply Hpl. by right. }
  exists w, s2. split; [exact Hrun2|]. split; [by eapply kept_trans|].
  split; [rewrite Hp2, Hp1; symmetry; apply Permutation_middle|cbn [length]; lia].
Qed.

(** [new_width] leaves the calendar as it was, up to the order of equal
    events. *)
Lemma run_new_width s :
  qinv (cq s) -> resize_enabled (cq s) = true ->
  exists w s', new_width R s = Ret (w, s') /\ qinv (cq s') /\ same_calendar (cq s) (cq s') /\
    contents (cq s') ≡ₚ contents (cq s) /\ qsize (cq s') = qsize (cq s) /\
    lastprio (cq s') = lastprio (cq s).
Proof.
  intros I Hon. pose proof (qi_count _ I) as [Hn Hlt].
  unfold new_width. rewrite (bind_run _ _ _ _ _ (run_queue s)).
  destruct (Z.ltb_spec (qsize (cq s)) 2); [by eexists _, s|].
  destruct (trunc_div10 (qsize (cq s)) ltac:(lia)) as (z & Hz & Hzr).
  rewrite (bind_run _ _ _ _ _ (run_to_int _ _ Hz ltac:(unfold in_i32; lia) s)).
  set (nsamples := Z.min 25 (if qsize (cq s) <=? 5 then qsize (cq s) else 5 + z)).
  assert (2 <= nsamples <= qsize (cq s)) as Hns.
  { unfold nsamples. destruct (Z.leb_spec (qsize (cq s)) 5); [lia|].
    split; [lia|]. destruct (Z.le_gt_cases 25 (qsize (cq s))); [lia|].
    assert (qsize (cq s) ∈ seqZ 6 19) as Hin by (apply elem_of_seqZ; lia).
    assert (5 + z <= qsize (cq s)); [|lia].
    assert (forall a, a ∈ seqZ 6 19 -> (if trunc (ddiv (of_Z a) (of_Z 10)) is Some z then 5 + z <=? a else false) = true) as Hall.
    { apply Forall_forall. by repeat constructor. }
    specialize (Hall _ Hin). rewrite Hz in Hall. by apply Z.leb_le. }
  cbn zeta. set (s0 := with_queue (set_resize_enabled false (cq s)) s).
  rewrite (bind_run (change _) _ _ tt s0) by done.
  assert (qinv (cq s0)) as I0 by (split; apply I).
  assert (contents (cq s0) = contents (cq s)) as Ec by done.
  destruct (run_take_off R Roff s0 I0 eq_refl) as (first & s1 & Hrun1 & K1 & Hs1 & Hp1).
  { rewrite Ec. intros E. rewrite E in Hn. cbn in Hn. lia. }
  rewrite (bind_run _ _ _ _ _ Hrun1). change (qsize (cq s0)) with (qsize (cq s)) in Hs1.
  destruct (run_take_samples (Z.to_nat (nsamples - 1)) first (of_Z 0) s1)
    as (r & s2 & Hrun2 & K2 & Hp2 & Hs2 & Hlen).
  { apply K1. } { by eapply kept_off. } { rewrite Ec in Hp1. rewrite Hp1 in Hn. cbn in Hn. lia. }
  rewrite (bind_run _ _ _ _ _ Hrun2).
  assert (kept s0 s2) as K02 by by eapply kept_trans.
  assert (contents (cq s) ≡ₚ first :: r.1 ++ contents (cq s2)) as Hall by (by rewrite <- Ec, Hp1, Hp2).
  assert (forall x, x ∈ first :: r.1 -> placeable (cq s2) x) as Hpl.
  { intros x Hx. apply (placeable_same (cq s0)); [apply K02|]. apply contents_placeable; [done|].
    rewrite Ec, Hall, app_comm_cons. apply elem_of_app. by left. }
  destruct (run_put_placeable s2 first) as (s3 & Hrun3 & K3 & Hs3 & Hp3).
  { apply K02. } { by eapply kept_off. } { lia. } { apply Hpl. left. }
  rewrite (bind_run _ _ _ _ _ Hrun3).
  destruct (run_put_back r.1 first (dmul (ddiv r.2 (of_Z (nsamples - 1))) (of_Z 2)) (of_Z 0) 0 s3)
    as (w & s4 & Hrun4 & K4 & Hp4 & Hs4).
  { apply K3. } { eapply kept_off; [eapply kept_trans; [exact K02|exact K3]|done]. } { lia. }
  { intros x Hx. apply (placeable_same (cq s2)); [apply K3|]. apply Hpl. by right. }
  rewrite (bind_run _ _ _ _ _ Hrun4).
  assert (kept s0 s4) as [I4 S4] by (eapply kept_trans; [exact K02|by eapply kept_trans]).
  eexists _, _. split; [reflexivity|]. cbn.
  split; [|split; [|split; [|split]]].
  - pose proof (qinv_position (cq s4) (lastbucket (cq s)) (lastprio (cq s)) (buckettop (cq s)) I4) as I5.
    rewrite (sc_nbuckets _ _ S4) in I5. specialize (I5 (qi_last _ I) (qi_lastprio _ I)).
    split; apply I5.
  - destruct S4. by split.
  - change (contents (set_resize_enabled true (set_position (lastbucket (cq s)) (lastprio (cq s))
      (buckettop (cq s)) (cq s4)))) with (contents (cq s4)).
    rewrite Hp4, Hp3, Hall. symmetry. apply Permutation_middle.
  - lia.
  - done.
Qed.
End width.

(** ** A new calendar *)
Definition outside q (k : Z) : Prop := ~ (calendar q <= k < calendar q + nbuckets q).

Lemma run_clear_buckets n : forall i s,
  0 <= calendar (cq s) + i -> calendar (cq s) + i + Z.of_nat n <= CALQSPACE ->
  exists m, clear_buckets n i s = Ret (tt, with_queue (set_calq m (cq s)) s) /\
    forall k, m !! k = if decide (calendar (cq s) + i <= k < calendar (cq s) + i + Z.of_nat n)
                       then Some (Chain []) else calq (cq s) !! k.
Proof.
  induction n as [|n IH]; intros i s Hlo Hhi; cbn [clear_buckets].
  { exists (calq (cq s)). split; [by destruct s as [[] ?]|]. intros k. rewrite decide_False; [done|lia]. }
  set (s1 := with_queue (set_chain i [] (cq s)) s).
  assert (write_bucket i [] s = Ret (tt, s1)) as Hw.
  { unfold write_bucket. rewrite (bind_run _ _ _ _ _ (run_queue s)). unfold write_calq.
    by rewrite (proj2 (Z.leb_le _ _)), (proj2 (Z.ltb_lt _ _)) by lia. }
  rewrite (bind_run _ _ _ _ _ Hw).
  destruct (IH (i + 1) s1) as (m & Hrun & Hm).
  { change (calendar (cq s1)) with (calendar (cq s)). lia. }
  { change (calendar (cq s1)) with (calendar (cq s)). lia. }
  exists m. split; [exact Hrun|]. intros k. rewrite Hm.
  change (calendar (cq s1)) with (calendar (cq s)). cbn [calq cq s1 with_queue set_chain set_calq].
  rewrite lookup_insert. repeat case_decide; try lia; done.
Qed.

(** A time from which dequeueing can start. *)
Definition start_fits (w p : double) : Prop :=
  exists n, trunc (ddiv p w) = Some n /\ in_i64 n.

#[export] Instance start_fits_dec w p : Decision (start_fits w p).
Proof.
  unfold start_fits. destruct (trunc (ddiv p w)) as [n|].
  - destruct (decide (in_i64 n)); [left; eauto|right]. by intros (? & [= <-] & ?).
  - right. by intros (? & ? & _).
Defined.

Lemma localinit_spec s base nb w p :
  legal_size nb -> base = 0 \/ base = CALQSPACE - nb -> above_zero w = true -> nonneg p = true ->
  match localinit base nb w p s with
  | Ret (_, s') =>
      start_fits w p /\ qinv (cq s') /\ contents (cq s') = [] /\ qsize (cq s') = 0 /\ nbuckets (cq s') = nb /\
      calendar (cq s') = base /\ cwidth (cq s') = w /\ resize_enabled (cq s') = resize_enabled (cq s) /\
      (forall k, outside (cq s') k -> calq (cq s') !! k = calq (cq s) !! k)
  | Fault f => f = BadConversion /\ ~ start_fits w p
  end.
Proof.
  intros Hnb Hbase Hw Hp. pose proof (legal_bounds nb Hnb) as Hb.
  unfold localinit. match goal with |- context [bind (change ?f)] => set (s0 := with_queue (f (cq s)) s) end.
  rewrite (bind_run (change _) _ _ tt s0) by done.
  destruct (run_clear_buckets (Z.to_nat nb) 0 s0) as (m & Hclear & Hm).
  { cbn. unfold CALQSPACE, MAXNBUCKETS in *. lia. }
  { cbn. unfold CALQSPACE, MAXNBUCKETS in *. lia. }
  rewrite (bind_run _ _ _ _ _ Hclear). set (s1 := with_queue (set_calq m (cq s0)) s0) in *.
  unfold to_long at 1. destruct (decide (start_fits w p)) as [Hfit|Hno].
  2: { unfold bind at 1. destruct (trunc (ddiv p w)) as [n|] eqn:E; [|done].
    rewrite decide_False; [done|]. intros Hn. apply Hno. by exists n. }
  pose proof Hfit as (n & En & Hn). rewrite En. rewrite decide_True by done.
  rewrite (bind_run (ret n) _ s1 n s1) by done.
  set (t := dadd (dmul (of_Z (n + 1)) w) (dmul (ddiv (of_Z 1) (of_Z 2)) w)).
  set (s2 := with_queue (set_position (Z.rem n nb) p t (cq s1)) s1).
  rewrite (bind_run (change _) _ _ tt s2) by done.
  destruct (half_legal nb Hnb) as [Hh Hhr].
  rewrite (bind_run _ _ _ _ _ (run_to_int _ _ Hh Hhr s2)).
  unfold change, modify. cbn [cq].
  pose proof (trunc_div _ _ _ Hp Hw En) as Hpos.
  assert (forall i, 0 <= i < nb -> m !! (base + i) = Some (Chain (P := P) [])) as Hnil.
  { intros i Hi. rewrite Hm. change (calendar (cq s0)) with base. rewrite decide_True; [done|lia]. }
  match goal with |- context [qinv ?q] => set (q' := q) end.
  assert (forall i, 0 <= i < nb -> chain_at q' i = []) as Hch.
  { intros i Hi. unfold chain_at. cbn. by rewrite Hnil. }
  assert (contents q' = []) as Hc.
  { unfold contents. change (nbuckets q') with nb. apply concat_nil_Forall, Forall_fmap, Forall_forall.
    intros i Hi%elem_of_seqZ. apply Hch. lia. }
  split; [done|]. split; [|split; [done|]; split; [done|]; split; [done|]; split; [done|]; split; [done|]; split; [done|]].
  - split; try done.
    + intros i Hi. rewrite Hch by done. by apply Hnil.
    + rewrite Hc. done.
    + cbn. apply Z.rem_bound_pos; lia.
    + intros i x Hi. rewrite Hch by done. by intros ?%not_elem_of_nil.
    + intros i Hi. rewrite Hch by done. constructor.
  - intros k Hk. unfold outside in Hk. cbn in Hk |- *. rewrite Hm. rewrite decide_False; [done|]. cbn. lia.
Qed.

(** ** Moving the events *)
Lemma qinv_outside q k b : qinv q -> outside q k -> qinv (set_calq (<[k := b]> (calq q)) q) /\
  contents (set_calq (<[k := b]> (calq q)) q) = contents q.
Proof.
  intros I Hk. set (q' := set_calq _ q).
  assert (forall i, 0 <= i < nbuckets q -> calq q' !! (calendar q + i) = calq q !! (calendar q + i)) as Hl.
  { intros i Hi. apply lookup_insert_ne. unfold outside in Hk. lia. }
  assert (forall i, 0 <= i < nbuckets q -> chain_at q' i = chain_at q i) as Hc.
  { intros i Hi. unfold chain_at. change (calendar q') with (calendar q). by rewrite Hl. }
  assert (contents q' = contents q) as Ec.
  { unfold contents. f_equal. apply list_fmap_ext. intros j i Hi. apply Hc. apply lookup_seqZ in Hi.
    change (nbuckets q') with (nbuckets q) in Hi. lia. }
  split; [|done]. split; try apply I.
  - intros i Hi. change (calendar q') with (calendar q). rewrite Hl, Hc by done. by apply (qi_chains _ I).
  - rewrite Ec. apply I.
  - intros i x Hi. rewrite Hc by done. by apply (qi_bucket _ I).
  - intros i Hi. rewrite Hc by done. by apply (qi_sorted _ I).
Qed.

(** Room for [n] events without growing. *)
Definition holds (n : Z) q : Prop := n < 2 ^ 31 /\ (nbuckets q < MAXNBUCKETS -> n <= 2 * nbuckets q).

Lemma holds_same n q q' : same_calendar q q' -> holds n q -> holds n q'.
Proof. intros S. unfold holds. by rewrite (sc_nbuckets _ _ S). Qed.

(** What a move adds to a calendar: [l], if each of its events has a bucket. *)
Record moved l s s' : Prop := {
  mv_kept : kept s s';
  mv_contents : contents (cq s') ≡ₚ l ++ contents (cq s);
  mv_outside k : outside (cq s) k -> calq (cq s') !! k = calq (cq s) !! k;
}.

Lemma moved_qsize l s s' :
  qinv (cq s) -> moved l s s' -> qsize (cq s') = qsize (cq s) + Z.of_nat (length l).
Proof.
  intros I [[I' _] Hp _]. pose proof (qi_count _ I). pose proof (qi_count _ I') as [-> _].
  rewrite Hp, length_app. lia.
Qed.

Lemma outside_same q q' k : same_calendar q q' -> outside q k -> outside q' k.
Proof. intros S. unfold outside. by rewrite (sc_calendar _ _ S), (sc_nbuckets _ _ S). Qed.

Lemma moved_trans l1 l2 s1 s2 s3 : moved l1 s1 s2 -> moved l2 s2 s3 -> moved (l1 ++ l2) s1 s3.
Proof.
  intros [K1 P1 O1] [K2 P2 O2]. split.
  - by eapply kept_trans.
  - rewrite P2, P1, !app_assoc. f_equiv. apply Permutation_app_comm.
  - intros k Hk. rewrite O2; [by apply O1|]. eapply outside_same; [apply K1|done].
Qed.

Lemma run_put_nowhere (R : Z -> M (qstate P) unit) s p (v : P) :
  bucket_of (cq s) p = None -> put_with R p v s = Fault BadConversion.
Proof.
  unfold bucket_of, virtual_bucket, put_with, malloc_node, to_int, bind, get, put, queue. intros Hb.
  rewrite Hmem. cbn. destruct (trunc (ddiv p (cwidth (cq s)))) as [z|]; [|done]. by case_decide.
Qed.

Lemma run_put_moved (R : Z -> M (qstate P) unit) s x :
  qinv (cq s) -> holds (qsize (cq s) + 1) (cq s) -> placeable (cq s) x ->
  exists s', put_with R (priority x) (payload x) s = Ret (tt, s') /\ moved [x] s s'.
Proof.
  intros I [Hlt Hroom] [Hn [i Hb]].
  pose proof (run_put_with Hmem R s (priority x) (payload x) i I Hlt Hn Hb) as Hrun. cbn zeta in Hrun.
  replace {| priority := priority x; payload := payload x |} with x in Hrun by by destruct x.
  destruct (qinv_inserted (cq s) i x I Hlt Hn Hb) as [I1 Hc].
  pose proof (bucket_of_range _ _ i I Hn Hb) as Hi.
  eexists. split.
  - rewrite Hrun. unfold grows. cbn [cq]. rewrite qsize_inserted by done.
    change (nbuckets (inserted i x (cq s))) with (nbuckets (cq s)).
    destruct (Z.ltb_spec (nbuckets (cq s)) MAXNBUCKETS).
    + rewrite (proj2 (Z.ltb_ge _ _)); [reflexivity|lia].
    + by rewrite andb_false_r.
  - split; [by split|exact Hc|]. intros k Hk. cbn. apply lookup_insert_ne. unfold outside in Hk. lia.
Qed.

(** A run that adds the events of [l], or cannot convert one of their times. *)
Definition moves l s (r : outcome (unit * qstate P)) : Prop :=
  match r with
  | Ret (_, s') => Forall (placeable (cq s)) l /\ moved l s s'
  | Fault f => f = BadConversion /\ ~ Forall (placeable (cq s)) l
  end.

Lemma run_move_chain (R : Z -> M (qstate P) unit) l : forall s,
  qinv (cq s) -> holds (qsize (cq s) + Z.of_nat (length l)) (cq s) ->
  Forall (fun x => nonneg (priority x) = true) l -> moves l s (move_chain R l s).
Proof.
  induction l as [|x l IH]; intros s I Hroom Hn; cbn [move_chain length] in *.
  { split; [done|]. split; [by split|done|done]. }
  apply Forall_cons in Hn as [Hx Hn]. destruct (bucket_of (cq s) (priority x)) as [i|] eqn:Hb.
  2: { unfold bind. rewrite run_put_nowhere by done. split; [done|].
    intros [[_ Hp] _]%Forall_cons. rewrite Hb in Hp. by destruct Hp. }
  assert (placeable (cq s) x) as Hp by (split; [done|by exists i]).
  assert (holds (qsize (cq s) + 1) (cq s)) as H1 by (destruct Hroom; split; lia).
  destruct (run_put_moved R s x I H1 Hp) as (s1 & Hrun & Mv). rewrite (bind_run _ _ _ _ _ Hrun).
  pose proof (mv_kept _ _ _ Mv) as [I1 S1].
  assert (holds (qsize (cq s1) + Z.of_nat (length l)) (cq s1)) as H2.
  { eapply holds_same; [exact S1|]. rewrite (moved_qsize _ _ _ I Mv). cbn [length]. destruct Hroom; split; lia. }
  specialize (IH s1 I1 H2 Hn). unfold moves in *. destruct (move_chain R l s1) as [[[] s2]|f].
  - destruct IH as [Hl Mv2]. split; [|by apply (moved_trans [x] l s s1 s2)].
    constructor; [done|]. eapply Forall_impl; [exact Hl|]. intros y [Hy1 Hy2]. split; [done|].
    by rewrite <- (bucket_of_same (cq s) (cq s1)).
  - destruct IH as [-> Hl]. split; [done|]. intros [_ Hl']%Forall_cons. apply Hl.
    eapply Forall_impl; [exact Hl'|]. intros y. by apply placeable_same.
Qed.

(** Moving whole buckets; the places they leave are not looked at again. *)
Definition fills l s (r : outcome (unit * qstate P)) : Prop :=
  match r with
  | Ret (_, s') => Forall (placeable (cq s)) l /\ kept s s' /\ contents (cq s') ≡ₚ l ++ contents (cq s)
  | Fault f => f = BadConversion /\ ~ Forall (placeable (cq s)) l
  end.

Lemma fills_app l1 l2 s s1 r :
  Forall (placeable (cq s)) l1 -> kept s s1 -> contents (cq s1) ≡ₚ l1 ++ contents (cq s) ->
  fills l2 s1 r -> fills (l2 ++ l1) s r.
Proof.
  intros H1 K1 P1. destruct K1 as [I1 S1]. destruct r as [[[] s2]|f]; cbn.
  - intros (H2 & K2 & P2). split; [|split].
    + apply Forall_app. split; [|done]. eapply Forall_impl; [exact H2|]. intros y [Hy1 Hy2]. split; [done|].
      by rewrite <- (bucket_of_same (cq s) (cq s1)).
    + by eapply kept_trans.
    + by rewrite P2, P1, app_assoc.
  - intros [-> H2]. split; [done|]. intros [H3 _]%Forall_app. apply H2.
    eapply Forall_impl; [exact H3|]. intros y. by apply placeable_same.
Qed.

Lemma run_write_calq k b s :
  0 <= k < CALQSPACE -> write_calq k b s = Ret (tt, with_queue (set_calq (<[k := b]> (calq (cq s))) (cq s)) s).
Proof. intros Hk. unfold write_calq. by rewrite (proj2 (Z.leb_le _ _)), (proj2 (Z.ltb_lt _ _)) by lia. Qed.

Lemma run_leave_bucket k l s :
  qinv (cq s) -> outside (cq s) k -> 0 <= k < CALQSPACE ->
  exists s', leave_bucket k l s = Ret (tt, s') /\ qinv (cq s') /\ same_calendar (cq s) (cq s') /\
    contents (cq s') = contents (cq s) /\ qsize (cq s') = qsize (cq s) /\
    (forall j, j <> k -> calq (cq s') !! j = calq (cq s) !! j).
Proof.
  intros I Hout Hk. destruct l; cbn; [by exists s|].
  rewrite run_write_calq by done. destruct (qinv_outside (cq s) k Dangling I Hout) as [I1 E1].
  eexists. split; [done|]. split; [exact I1|]. split; [done|]. split; [exact E1|]. split; [done|].
  intros j Hj. cbn. by apply lookup_insert_ne.
Qed.

Lemma run_move_buckets (R : Z -> M (qstate P) unit) base (f : Z -> list (calqueue_node P)) n : forall s,
  qinv (cq s) -> 0 <= base -> base + Z.of_nat n <= CALQSPACE ->
  (forall j, 0 <= j < Z.of_nat n -> outside (cq s) (base + j) /\ calq (cq s) !! (base + j) = Some (Chain (f j))) ->
  holds (qsize (cq s) + Z.of_nat (length (concat (f <$> seqZ 0 (Z.of_nat n))))) (cq s) ->
  Forall (fun x => nonneg (priority x) = true) (concat (f <$> seqZ 0 (Z.of_nat n))) ->
  fills (concat (f <$> seqZ 0 (Z.of_nat n))) s (move_buckets R n base s).
Proof.
  induction n as [|n IH]; intros s I Hlo Hhi Hold Hroom Hn; cbn [move_buckets].
  { split; [done|]. split; [by split|done]. }
  replace (concat (f <$> seqZ 0 (Z.of_nat (S n)))) with (concat (f <$> seqZ 0 (Z.of_nat n)) ++ f (Z.of_nat n)) in *.
  2: { rewrite seqZ_S, fmap_app, concat_app. cbn. by rewrite app_nil_r. }
  set (l := concat (f <$> seqZ 0 (Z.of_nat n))) in *. rewrite length_app in Hroom.
  apply Forall_app in Hn as [Hn1 Hn2]. destruct (Hold (Z.of_nat n) ltac:(lia)) as [Hout Hl].
  assert (read_calq (base + Z.of_nat n) s = Ret (f (Z.of_nat n), s)) as Hread.
  { unfold read_calq. rewrite (bind_run _ _ _ _ _ (run_queue s)). by rewrite Hl. }
  rewrite (bind_run _ _ _ _ _ Hread).
  destruct (run_leave_bucket (base + Z.of_nat n) (f (Z.of_nat n)) s I Hout ltac:(lia)) as (s1 & Hleave & I1 & S1 & E1 & Q1 & O1).
  rewrite (bind_run _ _ _ _ _ Hleave).
  assert (holds (qsize (cq s1) + Z.of_nat (length (f (Z.of_nat n)))) (cq s1)) as Hroom1.
  { eapply holds_same; [exact S1|]. rewrite Q1. destruct Hroom; split; lia. }
  pose proof (run_move_chain R (f (Z.of_nat n)) s1 I1 Hroom1 Hn2) as Hch. unfold moves in Hch.
  assert (forall r, fills (l ++ f (Z.of_nat n)) s1 r -> fills (l ++ f (Z.of_nat n)) s r) as Hback.
  { intros r Hr. apply (fills_app [] _ s s1) in Hr; [by rewrite app_nil_r in Hr|done|done|by rewrite E1]. }
  apply Hback. clear Hback. destruct (move_chain R (f (Z.of_nat n)) s1) as [[[] s2]|e] eqn:Em.
  2: { unfold bind. rewrite Em. destruct Hch as [-> Hno]. split; [done|]. by intros [_ ?]%Forall_app. }
  rewrite (bind_run _ _ _ _ _ Em). destruct Hch as [Hpl Mv].
  pose proof (moved_qsize _ _ _ I1 Mv) as Hq. destruct Mv as [[I2 S2] P2 O2].
  apply (fills_app _ _ _ s2); [done|by split|done|].
  apply IH; try done; try lia.
  - intros j Hj. destruct (Hold j ltac:(lia)) as [Ho Hj']. assert (outside (cq s1) (base + j)) by by eapply outside_same.
    split; [by eapply (outside_same (cq s1))|]. rewrite O2, O1 by (done || lia). done.
  - eapply (holds_same _ (cq s1)); [exact S2|]. eapply (holds_same _ (cq s)); [exact S1|].
    rewrite Hq, Q1. destruct Hroom; split; lia.
Qed.

(** ** The resize *)

(** A width with which every event, and the time to go on from, has a place. *)
Definition usable (w : double) q : Prop :=
  start_fits w (lastprio q) /\ Forall (fun x => is_Some (virtual_bucket w (priority x))) (contents q).

#[export] Instance usable_dec w q : Decision (usable w q) := _.

Lemma usable_same w q q' : contents q' ≡ₚ contents q -> lastprio q' = lastprio q -> usable w q' -> usable w q.
Proof. intros Hp Hl [H1 H2]. split; [by rewrite <- Hl|]. by rewrite <- Hp. Qed.

Lemma placeable_usable w q q' :
  cwidth q' = w -> Forall (fun x => nonneg (priority x) = true) (contents q) ->
  Forall (placeable q') (contents q) <-> Forall (fun x => is_Some (virtual_bucket w (priority x))) (contents q).
Proof.
  intros <- Hn. rewrite !Forall_forall in *. unfold placeable, bucket_of. split; intros H x Hx; specialize (H x Hx).
  - destruct H as [_ H]. by rewrite fmap_is_Some in H.
  - split; [by apply Hn|]. by rewrite fmap_is_Some.
Qed.

Lemma contents_nonneg q : qinv q -> Forall (fun x => nonneg (priority x) = true) (contents q).
Proof.
  intros I. apply Forall_forall. intros x (i & Hi & Hx)%elem_of_contents. by apply (qi_bucket _ I i).
Qed.

Lemma new_base_outside q nb i :
  qinv q -> legal_size nb -> (nb = 2 * nbuckets q \/ 2 * nb = nbuckets q) -> 0 <= i < nbuckets q ->
  let base := if firstsub q =? 0 then CALQSPACE - nb else 0 in
  ~ (base <= calendar q + i < base + nb).
Proof.
  intros I Hnb Hrel Hi base. pose proof (legal_bounds _ Hnb). pose proof (legal_bounds _ (qi_size _ I)).
  pose proof (qi_place _ I). unfold base. rewrite (qi_first _ I). unfold CALQSPACE, MAXNBUCKETS in *.
  destruct (Z.eqb_spec (calendar q) 0); lia.
Qed.

(** What a resize does, by the width it computes. *)
Definition resizes (w : double) (nb : Z) s (r : outcome (unit * qstate P)) : Prop :=
  match r with
  | Ret (_, s') =>
      usable w (cq s) /\ qinv (cq s') /\ contents (cq s') ≡ₚ contents (cq s) /\
      nbuckets (cq s') = nb /\ cwidth (cq s') = w /\ resize_enabled (cq s') = true
  | Fault f => f = BadConversion /\ ~ usable w (cq s)
  end.

Lemma run_do_resize (R : Z -> M (qstate P) unit) nb s w s1 :
  (forall n s, resize_enabled (cq s) = false -> R n s = Ret (tt, s)) ->
  qinv (cq s) -> resize_enabled (cq s) = true -> legal_size nb ->
  (nb = 2 * nbuckets (cq s) \/ 2 * nb = nbuckets (cq s)) -> (nb < MAXNBUCKETS -> qsize (cq s) <= 2 * nb) ->
  new_width R s = Ret (w, s1) -> above_zero w = true -> resizes w nb s (do_resize R nb s).
Proof.
  intros Roff I Hon Hnb Hrel Hroom Hw Hpos.
  destruct (run_new_width R Roff s I Hon) as (w' & s1' & Hw' & I1 & S1 & P1 & Q1 & L1).
  rewrite Hw in Hw'. injection Hw' as <- <-.
  unfold do_resize. rewrite (bind_run _ _ _ _ _ Hw), (bind_run _ _ _ _ _ (run_queue s1)).
  set (base := if firstsub (cq s1) =? 0 then CALQSPACE - nb else 0).
  replace (if firstsub (cq s1) =? 0 then localinit (P := P) (CALQSPACE - nb) nb w (lastprio (cq s1))
    else localinit 0 nb w (lastprio (cq s1))) with (localinit (P := P) base nb w (lastprio (cq s1)))
    by (unfold base; by destruct (firstsub (cq s1) =? 0)).
  assert (nb = 2 * nbuckets (cq s1) \/ 2 * nb = nbuckets (cq s1)) as Hrel1 by by rewrite (sc_nbuckets _ _ S1).
  pose proof (fun i => new_base_outside (cq s1) nb i I1 Hnb Hrel1) as Hout. fold base in Hout. cbn zeta in Hout.
  pose proof (localinit_spec s1 base nb w (lastprio (cq s1)) Hnb) as Hinit.
  assert (base = 0 \/ base = CALQSPACE - nb) as Hbase by (unfold base; destruct (firstsub (cq s1) =? 0); auto).
  specialize (Hinit Hbase Hpos (qi_lastprio _ I1)).
  destruct (localinit base nb w (lastprio (cq s1)) s1) as [[[] s2]|f] eqn:El.
  2: { unfold bind. rewrite El. destruct Hinit as [-> Hno]. split; [done|]. intros [H _]. apply Hno. by rewrite L1. }
  rewrite (bind_run _ _ _ _ _ El). destruct Hinit as (Hfit & I2 & C2 & Q2 & N2 & B2 & W2 & E2 & O2).
  pose proof (legal_bounds _ (qi_size _ I1)) as Hb1. pose proof (qi_count _ I1) as [Hc1 Hlt1].
  pose proof (run_move_buckets R (calendar (cq s1)) (chain_at (cq s1)) (Z.to_nat (nbuckets (cq s1))) s2 I2) as Hmv.
  rewrite Z2Nat.id in Hmv by lia. change (concat (chain_at (cq s1) <$> seqZ 0 (nbuckets (cq s1)))) with (contents (cq s1)) in Hmv.
  pose proof (qi_place _ I1) as Hpl1.
  lapply Hmv; [clear Hmv; intros Hmv|unfold CALQSPACE, MAXNBUCKETS in *; lia].
  lapply Hmv; [clear Hmv; intros Hmv|unfold CALQSPACE, MAXNBUCKETS in *; lia].
  lapply Hmv; [clear Hmv; intros Hmv|].
  2: { intros j Hj. specialize (Hout j Hj). split; [unfold outside; rewrite B2, N2; lia|].
    rewrite O2 by (unfold outside; rewrite B2, N2; lia). by apply (qi_chains _ I1). }
  lapply Hmv; [clear Hmv; intros Hmv|split; rewrite ?N2, Q2; lia].
  specialize (Hmv (contents_nonneg _ I1)).
  pose proof (placeable_usable w (cq s1) (cq s2) W2 (contents_nonneg _ I1)) as Hiff.
  destruct (move_buckets R _ _ s2) as [[[] s3]|f]; cbn in Hmv |- *.
  - destruct Hmv as (Hall & [I3 S3] & P3). split.
    + apply (usable_same w _ (cq s1)); [done|done|]. split; [done|by apply Hiff].
    + split; [done|]. split; [by rewrite P3, C2, app_nil_r|]. rewrite (sc_nbuckets _ _ S3), (sc_width _ _ S3), (sc_enabled _ _ S3).
      split; [done|]. split; [done|]. by rewrite E2, (sc_enabled _ _ S1).
  - destruct Hmv as [-> Hno]. split; [done|]. intros Hu. apply Hno, Hiff.
    destruct Hu as [_ Hu]. by rewrite P1.
Qed.
End resize.
