(* ===== verification/CalOps.v ===== *)
(** * The operations of the calendar queue

    A resize may compute a bucket width that is no width at all.  Whatever it
    is, the operations end, and the width of the calendar they leave tells
    what happened: when it is positive, no event was lost. *)
From Stdlib Require Import SpecFloat Sorted.
From S2P Require Import Prelude Doubles Numerical CalQueue CalBag CalResize.
Local Open Scope prog_scope.

Section operations.
Context `{L : Libc} {P : Type}.
Implicit Types (q : calqueue P) (s : qstate P) (e x : calqueue_node P) (l : list (calqueue_node P)).
Hypothesis Hmem : forall n, malloc_fails n = false.

(** ** Moving events with any width *)

(** How an operation of the queue can fail. *)
Definition queue_fault (f : fault) : Prop :=
  match f with BadConversion | OutOfBounds _ | UseAfterFree => True | _ => False end.

(** [k] events can be put without a resize. *)
Definition quiet (k : Z) q : Prop :=
  nbuckets q < MAXNBUCKETS ->
  0 <= qsize q /\ qsize q + k < 2 ^ 31 /\
  forall j, qsize q < j <= qsize q + k -> dlt (top_threshold q) (of_Z j) = false.

(** The places a bucket number, positive or not, cannot lead to. *)
Definition far q (k : Z) : Prop := ~ (calendar q - nbuckets q < k < calendar q + nbuckets q).

(** What putting [n] events leaves alone. *)
Record settled (n : Z) q q' : Prop := {
  sd_same : same_calendar q q';
  sd_size : nbuckets q < MAXNBUCKETS -> qsize q' = qsize q + n;
  sd_far k : far q k -> calq q' !! k = calq q !! k;
}.

Lemma settled_refl q : settled 0 q q.
Proof. split; [done|lia|done]. Qed.

Lemma settled_trans n1 n2 q1 q2 q3 : settled n1 q1 q2 -> settled n2 q2 q3 -> settled (n1 + n2) q1 q3.
Proof.
  intros [S1 H1 F1] [S2 H2 F2]. rewrite (sc_nbuckets _ _ S1) in H2. split; [by etransitivity|lia|].
  intros k Hk. rewrite F2; [by apply F1|]. unfold far. by rewrite (sc_calendar _ _ S1), (sc_nbuckets _ _ S1).
Qed.

Lemma quiet_settled n k q q' : settled n q q' -> 0 <= n -> quiet (n + k) q -> quiet k q'.
Proof.
  intros [S H _] Hn Hq. unfold quiet. rewrite (sc_nbuckets _ _ S), (sc_top _ _ S). intros Hlt.
  destruct (Hq Hlt) as (? & ? & Hf). specialize (H Hlt). split; [lia|]. split; [lia|]. intros j Hj. apply Hf. lia.
Qed.

Lemma quiet_less k k' q : quiet k q -> k' <= k -> quiet k' q.
Proof. intros Hq Hk Hlt. destruct (Hq Hlt) as (? & ? & Hf). split; [done|]. split; [lia|]. intros j Hj. apply Hf. lia. Qed.

Lemma wpf_to_int d s : wpf queue_fault (to_int d) (fun z s' => s' = s) s.
Proof. unfold wpf, to_int. destruct (trunc d); [|done]. by case_decide. Qed.

Lemma wpf_read_calq k s : wpf queue_fault (read_calq k) (fun l s' => s' = s) s.
Proof.
  unfold wpf, read_calq. rewrite (bind_run _ _ _ _ _ (run_queue s)). by destruct (calq (cq s) !! k) as [[]|].
Qed.

Lemma wpf_write_calq k b s :
  wpf queue_fault (write_calq k b)
    (fun _ s' => s' = with_queue (set_calq (<[k := b]> (calq (cq s))) (cq s)) s) s.
Proof. unfold wpf, write_calq. by destruct ((0 <=? k) && (k <? CALQSPACE)). Qed.

Lemma wpf_put (R : Z -> M (qstate P) unit) p (v : P) s :
  0 < nbuckets (cq s) -> quiet 1 (cq s) ->
  wpf queue_fault (put_with R p v) (fun _ s' => settled 1 (cq s) (cq s')) s.
Proof.
  intros Hnb Hq.
  set (s0 := {| cq := cq s; q_mallocs := S (q_mallocs s) |}).
  assert (malloc_node s = Ret (tt, s0)) as Hm by (unfold malloc_node, bind, get, put; by rewrite Hmem).
  unfold put_with, wpf. rewrite (bind_run _ _ _ _ _ Hm), (bind_run _ _ _ _ _ (run_queue s0)).
  change (wpf queue_fault ?m ?Q s0) with (wpf queue_fault m Q s0).
  eapply wpf_seq; [apply wpf_to_int|]. cbn zeta. intros z ? ->. change (nbuckets (cq s0)) with (nbuckets (cq s)).
  pose proof (Z.rem_bound_abs z (nbuckets (cq s)) ltac:(lia)) as Hz. set (i := Z.rem z _) in *.
  unfold read_bucket. eapply wpf_seq; [apply wpf_bind, wpf_read_calq|]. intros l ? ->.
  unfold write_bucket. eapply wpf_seq; [apply wpf_bind, wpf_write_calq|]. intros [] ? ->.
  set (m := <[_ := _]> _). unfold wpf.
  set (s1 := with_queue (set_qsize (i32 (qsize (cq s) + 1)) (set_calq m (cq s))) s0).
  assert (settled 1 (cq s) (cq s1)) as Hset.
  { split; [done| |].
    - intros Hlt. destruct (Hq Hlt) as (? & ? & _). apply i32_small. unfold in_i32. lia.
    - intros k Hk. cbn. unfold m. apply lookup_insert_ne. unfold far in Hk. cbn. lia. }
  rewrite (bind_run (change _) _ _ tt s1) by done.
  rewrite (bind_run _ _ _ _ _ (run_queue s1)).
  change (top_threshold (cq s1)) with (top_threshold (cq s)). change (nbuckets (cq s1)) with (nbuckets (cq s)).
  destruct (Z.ltb_spec (nbuckets (cq s)) MAXNBUCKETS) as [Hlt|]; [|by rewrite andb_false_r].
  destruct (Hq Hlt) as (? & ? & Hf). rewrite (sd_size _ _ _ Hset Hlt), Hf by lia. done.
Qed.

Lemma wpf_move_chain (R : Z -> M (qstate P) unit) l : forall s,
  0 < nbuckets (cq s) -> quiet (Z.of_nat (length l)) (cq s) ->
  wpf queue_fault (move_chain R l) (fun _ s' => settled (Z.of_nat (length l)) (cq s) (cq s')) s.
Proof.
  induction l as [|x l IH]; intros s Hnb Hq; cbn [move_chain]; [apply settled_refl|].
  replace (Z.of_nat (length (x :: l))) with (1 + Z.of_nat (length l)) in * by (cbn [length]; lia).
  eapply wpf_seq; [apply wpf_put; [done|]|].
  { eapply quiet_less; [exact Hq|lia]. }
  intros [] s1 H1. eapply wpf_mono; [apply IH|].
  - by rewrite (sc_nbuckets _ _ (sd_same _ _ _ H1)).
  - by eapply quiet_settled.
  - intros [] s2 H2. by eapply settled_trans.
Qed.

Lemma wpf_leave_bucket k l s :
  wpf queue_fault (leave_bucket k l) (fun _ s' => same_calendar (cq s) (cq s') /\
    qsize (cq s') = qsize (cq s) /\ forall j, j <> k -> calq (cq s') !! j = calq (cq s) !! j) s.
Proof.
  destruct l; [done|]. eapply wpf_mono; [apply wpf_write_calq|]. intros [] ? ->.
  split; [done|]. split; [done|]. intros j Hj. cbn. by apply lookup_insert_ne.
Qed.

(** Into the largest calendar: no resize can follow. *)
Lemma wpf_move_buckets_max (R : Z -> M (qstate P) unit) base n : forall s,
  nbuckets (cq s) = MAXNBUCKETS ->
  wpf queue_fault (move_buckets R n base) (fun _ s' => same_calendar (cq s) (cq s')) s.
Proof.
  induction n as [|n IH]; intros s Hnb; cbn [move_buckets]; [done|].
  eapply wpf_seq; [apply wpf_read_calq|]. intros l ? ->.
  eapply wpf_seq; [apply wpf_leave_bucket|]. intros [] s1 (S1 & _).
  assert (nbuckets (cq s1) = MAXNBUCKETS) as N1 by by rewrite (sc_nbuckets _ _ S1).
  eapply wpf_seq; [apply wpf_move_chain|].
  { rewrite N1. done. } { intros Hlt. rewrite N1 in Hlt. lia. }
  intros [] s2 [S2 _ _]. eapply wpf_mono; [apply IH; by rewrite (sc_nbuckets _ _ S2)|].
  intros [] s3 S3. by do 2 (etransitivity; [eassumption|]).
Qed.

Lemma wpf_move_buckets (R : Z -> M (qstate P) unit) base (f : Z -> list (calqueue_node P)) n : forall s,
  0 < nbuckets (cq s) -> quiet (Z.of_nat (length (concat (f <$> seqZ 0 (Z.of_nat n))))) (cq s) ->
  (forall j, 0 <= j < Z.of_nat n -> far (cq s) (base + j) /\ calq (cq s) !! (base + j) = Some (Chain (f j))) ->
  wpf queue_fault (move_buckets R n base) (fun _ s' => same_calendar (cq s) (cq s')) s.
Proof.
  induction n as [|n IH]; intros s Hnb Hq Hold; cbn [move_buckets]; [done|].
  replace (concat (f <$> seqZ 0 (Z.of_nat (S n)))) with (concat (f <$> seqZ 0 (Z.of_nat n)) ++ f (Z.of_nat n)) in *.
  2: { rewrite seqZ_S, fmap_app, concat_app. cbn. by rewrite app_nil_r. }
  set (l := concat (f <$> seqZ 0 (Z.of_nat n))) in *. rewrite length_app, Nat2Z.inj_add, Z.add_comm in Hq.
  destruct (Hold (Z.of_nat n) ltac:(lia)) as [Hout Hl].
  assert (read_calq (base + Z.of_nat n) s = Ret (f (Z.of_nat n), s)) as Hread.
  { unfold read_calq. rewrite (bind_run _ _ _ _ _ (run_queue s)). by rewrite Hl. }
  unfold wpf. rewrite (bind_run _ _ _ _ _ Hread).
  eapply (wpf_seq queue_fault (leave_bucket _ _)); [apply wpf_leave_bucket|]. intros [] s1 (S1 & Q1 & O1).
  assert (0 < nbuckets (cq s1)) as Hnb1 by by rewrite (sc_nbuckets _ _ S1).
  assert (quiet (Z.of_nat (length (f (Z.of_nat n))) + Z.of_nat (length l)) (cq s1)) as Hq1.
  { unfold quiet in *. by rewrite (sc_nbuckets _ _ S1), (sc_top _ _ S1), Q1. }
  eapply wpf_seq; [apply wpf_move_chain; [done|eapply quiet_less; [exact Hq1|lia]]|].
  intros [] s2 H2. pose proof (sd_same _ _ _ H2) as S2.
  eapply wpf_mono; [apply IH|intros [] s3 S3; by do 2 (etransitivity; [eassumption|])].
  - by rewrite (sc_nbuckets _ _ S2).
  - eapply quiet_settled; [exact H2|lia|done].
  - intros j Hj. destruct (Hold j ltac:(lia)) as [Ho Hj'].
    assert (far (cq s1) (base + j)) as Ho1 by (unfold far; by rewrite (sc_calendar _ _ S1), (sc_nbuckets _ _ S1)).
    split; [unfold far; by rewrite (sc_calendar _ _ S2), (sc_nbuckets _ _ S2)|].
    rewrite (sd_far _ _ _ H2) by done. by rewrite O1 by lia.
Qed.

(** ** A resize, whatever the width *)
Lemma wpf_localinit base nb w p s :
  legal_size nb -> base = 0 \/ base = CALQSPACE - nb ->
  wpf queue_fault (localinit base nb w p) (fun _ s' =>
    nbuckets (cq s') = nb /\ calendar (cq s') = base /\ cwidth (cq s') = w /\ qsize (cq s') = 0 /\
    top_threshold (cq s') = of_Z (2 * nb) /\
    (forall k, ~ (base <= k < base + nb) -> calq (cq s') !! k = calq (cq s) !! k)) s.
Proof.
  intros Hnb Hbase. pose proof (legal_bounds nb Hnb) as Hb.
  unfold localinit, wpf. match goal with |- context [bind (change ?f)] => set (s0 := with_queue (f (cq s)) s) end.
  rewrite (bind_run (change _) _ _ tt s0) by done.
  destruct (run_clear_buckets (Z.to_nat nb) 0 s0) as (m & Hclear & Hm).
  { cbn. unfold CALQSPACE, MAXNBUCKETS in *. lia. }
  { cbn. unfold CALQSPACE, MAXNBUCKETS in *. lia. }
  rewrite (bind_run _ _ _ _ _ Hclear). set (s1 := with_queue (set_calq m (cq s0)) s0) in *.
  eapply (wpf_seq queue_fault (to_long _) _ (fun n s' => s' = s1)).
  { unfold wpf, to_long. destruct (trunc _); [|done]. by case_decide. }
  intros n ? ->. eapply (wpf_seq queue_fault (change _) _ (fun _ s' => exists q, s' = with_queue q s1 /\
      calq q = m /\ nbuckets q = nb /\ calendar q = base /\ cwidth q = w /\ qsize q = 0)).
  { eexists. split; [reflexivity|]. done. }
  intros [] ? (q2 & -> & Em & En & Ec & Ew & Es).
  eapply wpf_seq; [apply wpf_to_int|]. intros h ? ->.
  cbn. split; [done|]. split; [done|]. split; [done|]. split; [done|]. split; [done|].
  intros k Hk. rewrite Em, Hm, decide_False; [done|]. cbn. lia.
Qed.

Lemma quiet_empty nb q :
  nbuckets q = nb -> legal_size nb -> top_threshold q = of_Z (2 * nb) -> qsize q = 0 ->
  forall n, 0 <= n < 2 ^ 31 -> (nb < MAXNBUCKETS -> n <= 2 * nb) -> quiet n q.
Proof.
  intros En Hnb Et Es n Hn Hroom. unfold quiet. rewrite En, Et, Es. intros Hlt. specialize (Hroom Hlt).
  split; [lia|]. split; [lia|]. intros j Hj.
  pose proof (legal_bounds nb Hnb). unfold MAXNBUCKETS in *.
  rewrite dlt_of_Z by lia. apply Z.ltb_ge. lia.
Qed.

Lemma new_base_far q nb i :
  qinv q -> legal_size nb -> nb < MAXNBUCKETS -> (nb = 2 * nbuckets q \/ 2 * nb = nbuckets q) -> 0 <= i < nbuckets q ->
  let base := if firstsub q =? 0 then CALQSPACE - nb else 0 in
  ~ (base - nb < calendar q + i < base + nb).
Proof.
  intros I Hnb Hlt Hrel Hi base. pose proof (legal_bounds _ (legal_double _ Hnb Hlt)). pose proof (legal_bounds _ (qi_size _ I)).
  pose proof (qi_place _ I). unfold base. rewrite (qi_first _ I). unfold CALQSPACE, MAXNBUCKETS in *.
  destruct (Z.eqb_spec (calendar q) 0); lia.
Qed.

Lemma wpf_do_resize (R : Z -> M (qstate P) unit) nb s :
  (forall n s, resize_enabled (cq s) = false -> R n s = Ret (tt, s)) ->
  qinv (cq s) -> resize_enabled (cq s) = true -> legal_size nb ->
  (nb = 2 * nbuckets (cq s) \/ 2 * nb = nbuckets (cq s)) -> (nb < MAXNBUCKETS -> qsize (cq s) <= 2 * nb) ->
  exists w s1, new_width R s = Ret (w, s1) /\
    wpf queue_fault (do_resize R nb) (fun _ s' => cwidth (cq s') = w) s.
Proof.
  intros Roff I Hon Hnb Hrel Hroom.
  destruct (run_new_width Hmem R Roff s I Hon) as (w & s1 & Hw & I1 & S1 & P1 & Q1 & L1).
  exists w, s1. split; [done|]. unfold do_resize, wpf.
  rewrite (bind_run _ _ _ _ _ Hw), (bind_run _ _ _ _ _ (run_queue s1)).
  set (base := if firstsub (cq s1) =? 0 then CALQSPACE - nb else 0).
  replace (if firstsub (cq s1) =? 0 then localinit (P := P) (CALQSPACE - nb) nb w (lastprio (cq s1))
    else localinit 0 nb w (lastprio (cq s1))) with (localinit (P := P) base nb w (lastprio (cq s1)))
    by (unfold base; by destruct (firstsub (cq s1) =? 0)).
  assert (nb = 2 * nbuckets (cq s1) \/ 2 * nb = nbuckets (cq s1)) as Hrel1 by by rewrite (sc_nbuckets _ _ S1).
  assert (base = 0 \/ base = CALQSPACE - nb) as Hbase by (unfold base; destruct (firstsub (cq s1) =? 0); auto).
  pose proof (legal_bounds _ (qi_size _ I1)) as Hb1. pose proof (legal_bounds _ Hnb) as Hb.
  pose proof (qi_count _ I1) as [Hc1 Hlt1].
  eapply (wpf_seq queue_fault (localinit base nb w (lastprio (cq s1)))); [by apply wpf_localinit|].
  intros [] s2 (N2 & B2 & W2 & Q2 & T2 & O2).
  eapply (wpf_mono _ _ (fun _ s' => same_calendar (cq s2) (cq s'))); [|intros [] s3 S3; by rewrite (sc_width _ _ S3)].
  destruct (Z.eq_dec nb MAXNBUCKETS) as [Hmax|Hne]; [apply wpf_move_buckets_max; lia|].
  pose proof (fun i => new_base_far (cq s1) nb i I1 Hnb ltac:(lia) Hrel1) as Hout. fold base in Hout. cbn zeta in Hout.
  apply (wpf_move_buckets R _ (chain_at (cq s1))); rewrite ?Z2Nat.id by lia.
  - rewrite N2. lia.
  - change (concat (chain_at (cq s1) <$> seqZ 0 (nbuckets (cq s1)))) with (contents (cq s1)).
    apply (quiet_empty nb); try done; lia.
  - intros j Hj. specialize (Hout j Hj).
    split; [unfold far; by rewrite B2, N2|]. rewrite O2 by lia. by apply (qi_chains _ I1).
Qed.

(** ** The interface *)

(** A calendar between operations. *)
Record steady s : Prop := {
  st_inv : qinv (cq s);
  st_roomy : roomy (cq s);
  st_enabled : resize_enabled (cq s) = true;
}.

(** A resize would compute a width that every event can be placed with. *)
Definition fitting_width s : Prop :=
  exists w s1, new_width (resize 0) s = Ret (w, s1) /\ above_zero w = true /\ usable w (cq s).

Lemma resize_off depth n s : resize_enabled (cq s) = false -> resize depth n s = Ret (tt, s).
Proof. intros H. destruct depth; cbn [resize]; by rewrite (bind_run _ _ _ _ _ (run_queue s)), H. Qed.

Lemma resize_on depth n s :
  resize_enabled (cq s) = true -> resize (S depth) n s = do_resize (resize depth) n s.
Proof. intros H. cbn [resize]. by rewrite (bind_run _ _ _ _ _ (run_queue s)), H. Qed.

(** [resize] from a calendar about to be doubled or halved. *)
Lemma wpf_resize nb s :
  qinv (cq s) -> resize_enabled (cq s) = true -> legal_size nb ->
  (nb = 2 * nbuckets (cq s) \/ 2 * nb = nbuckets (cq s)) -> (nb < MAXNBUCKETS -> qsize (cq s) <= 2 * nb) ->
  wpf (fun f => queue_fault f /\ ~ fitting_width s) (resize 1 nb) (fun _ s' =>
    (above_zero (cwidth (cq s')) = true -> steady s' /\ contents (cq s') ≡ₚ contents (cq s)) /\
    (fitting_width s -> above_zero (cwidth (cq s')) = true)) s.
Proof.
  intros I Hon Hnb Hrel Hroom. unfold wpf. rewrite (resize_on 0 nb s Hon).
  destruct (wpf_do_resize (resize 0) nb s (resize_off 0) I Hon Hnb Hrel Hroom) as (w & s1 & Hw & Hany).
  pose proof (run_do_resize Hmem (resize 0) nb s w s1 (resize_off 0) I Hon Hnb Hrel Hroom Hw) as Hgood.
  unfold wpf in Hany. destruct (do_resize (resize 0) nb s) as [[[] s2]|f].
  - rewrite Hany. split.
    + intros Hpos. destruct (Hgood Hpos) as (_ & I2 & P2 & N2 & _ & E2). split; [|done].
      split; [done| |done]. intros Hlt. pose proof (qi_count _ I2) as [-> _]. rewrite P2, N2 in *.
      pose proof (qi_count _ I) as [<- _]. by apply Hroom.
    + intros (w' & s1' & Hw' & Hpos & _). rewrite Hw in Hw'. by injection Hw' as <- <-.
  - split; [done|]. intros (w' & s1' & Hw' & Hpos & Hu). rewrite Hw in Hw'. injection Hw' as <- <-.
    by apply (Hgood Hpos).
Qed.

Lemma grown_size q : qinv q -> nbuckets q < MAXNBUCKETS -> legal_size (2 * nbuckets q).
Proof. intros I. apply legal_double, I. Qed.

Lemma shrunk_size q :
  qinv q -> shrinks q = true ->
  legal_size (nbuckets q / 2) /\ 2 * (nbuckets q / 2) = nbuckets q /\ qsize q <= 2 * (nbuckets q / 2).
Proof.
  intros I Hs. unfold shrinks in Hs. apply Z.ltb_lt in Hs. pose proof (qi_count _ I) as [Hn _].
  assert (4 <= nbuckets q) as H4 by (pose proof (Z.mul_div_le (nbuckets q) 2 ltac:(lia)); lia).
  split; [by apply legal_half; [apply I|]|]. destruct (qi_size _ I) as (k & Hk & Ek).
  assert (nbuckets q = 2 ^ (k - 1) * 2) as E.
  { rewrite Ek. replace k with ((k - 1) + 1) at 1 by lia. by rewrite (Z.pow_add_r 2 (k - 1) 1) by lia. }
  assert (nbuckets q / 2 = 2 ^ (k - 1)) as Eh by (by rewrite E, Z.div_mul). rewrite Eh in *. lia.
Qed.

(** Putting an event: it fails only when the priority or, for a resize, the
    new width cannot be converted. *)
Definition after_put (p : double) (v : P) (i : Z) s : qstate P :=
  {| cq := inserted i {| priority := p; payload := v |} (cq s); q_mallocs := S (q_mallocs s) |}.

Definition put_fits (p : double) (v : P) s : Prop :=
  exists i, bucket_of (cq s) p = Some i /\
    (grows (cq (after_put p v i s)) = true -> fitting_width (after_put p v i s)).

Lemma wpf_calqueue_put p (v : P) s :
  steady s -> qsize (cq s) + 1 < 2 ^ 31 -> nonneg p = true ->
  wpf (fun f => queue_fault f /\ ~ put_fits p v s) (calqueue_put p v)
    (fun _ s' =>
      (above_zero (cwidth (cq s')) = true ->
       steady s' /\ contents (cq s') ≡ₚ {| priority := p; payload := v |} :: contents (cq s)) /\
      (put_fits p v s -> above_zero (cwidth (cq s')) = true)) s.
Proof.
  intros [I Hroom Hon] Hlt Hp. unfold wpf, calqueue_put, put_fits. destruct (bucket_of (cq s) p) as [i|] eqn:Hb.
  2: { rewrite run_put_nowhere by done. split; [done|]. by intros (i & [=] & _). }
  rewrite (run_put_with Hmem (resize 1) s p v i I Hlt Hp Hb). fold (after_put p v i s).
  destruct (qinv_inserted (cq s) i {| priority := p; payload := v |} I Hlt Hp Hb) as [I1 P1].
  pose proof (qsize_inserted i {| priority := p; payload := v |} _ I Hlt) as Hsize.
  destruct (grows (cq (after_put p v i s))) eqn:Hg.
  - pose proof Hg as Hg'. unfold grows in Hg'. apply andb_true_iff in Hg' as [Hg1%Z.ltb_lt Hg2%Z.ltb_lt].
    change (nbuckets (cq (after_put p v i s))) with (nbuckets (cq s)) in *.
    pose proof (wpf_resize (2 * nbuckets (cq s)) (after_put p v i s) I1 Hon (grown_size _ I Hg2)) as Hr.
    specialize (Hr ltac:(by left)). lapply Hr; [clear Hr; intros Hr|].
    2: { cbn [cq after_put]. rewrite Hsize. specialize (Hroom Hg2). pose proof (legal_bounds _ (qi_size _ I)). lia. }
    unfold wpf in Hr. destruct (resize 1 _ _) as [[[] s2]|f].
    + destruct Hr as [Hr1 Hr2]. split.
      * intros Hpos. destruct (Hr1 Hpos) as [H1 H2]. split; [done|]. by rewrite H2.
      * intros (j & [= <-] & Hfit). apply Hr2, Hfit, Hg.
    + destruct Hr as [H1 H2]. split; [done|]. intros (j & [= <-] & Hfit). apply H2, Hfit, Hg.
  - split; [|intros _; apply I1]. intros _. split; [|done]. split; [done| |done]. intros Hnb. unfold grows in Hg.
    apply andb_false_iff in Hg as [Hg%Z.ltb_ge|Hg%Z.ltb_ge]; [done|]. lia.
Qed.

(** The event got is the first of its bucket. *)
Definition first_of_bucket e q : Prop :=
  exists i, 0 <= i < nbuckets q /\ e ∈ chain_at q i /\ forall x, x ∈ chain_at q i -> by_priority e x.

Lemma head_first q i e l : qinv q -> 0 <= i < nbuckets q -> chain_at q i = e :: l -> first_of_bucket e q.
Proof.
  intros I Hi Hc. exists i. rewrite Hc. split; [done|]. split; [left|].
  pose proof (qi_sorted _ I i Hi) as Hs. rewrite Hc in Hs. apply StronglySorted_inv in Hs as [_ Hs].
  rewrite Forall_forall in Hs. intros x [->|Hx]%elem_of_cons; [|by apply Hs].
  apply dle_refl, nonneg_number. apply (qi_bucket _ I i e Hi). rewrite Hc. left.
Qed.

Definition get_fits s1 : Prop := shrinks (cq s1) = true -> fitting_width s1.

Lemma wpf_calqueue_deq s :
  steady s -> contents (cq s) <> [] ->
  exists e s1, first_of_bucket e (cq s) /\ contents (cq s) ≡ₚ e :: contents (cq s1) /\
  (nbuckets (cq s1) = nbuckets (cq s) /\ qsize (cq s1) = qsize (cq s) - 1) /\
  wpf (fun f => queue_fault f /\ ~ get_fits s1) calqueue_deq
    (fun o s' => o = Some e /\
      (above_zero (cwidth (cq s')) = true -> steady s' /\ contents (cq s') ≡ₚ contents (cq s1)) /\
      (get_fits s1 -> above_zero (cwidth (cq s')) = true)) s.
Proof.
  intros [I Hroom Hon] Hne.
  destruct (run_deq_with (resize 1) s I Hne) as (i & e & l & t & Hi & Hc & Hrun). cbn zeta in Hrun.
  destruct (qinv_removed _ i e l t I Hi Hc) as (I1 & P1 & Q1). set (s1 := with_queue _ s) in *.
  exists e, s1. split; [by eapply head_first|]. split; [done|]. split; [done|].
  unfold wpf, calqueue_deq, get_fits. rewrite Hrun. change (cq s1) with (removed i e l t (cq s)).
  destruct (shrinks (removed i e l t (cq s))) eqn:Hs.
  - destruct (shrunk_size _ I1 Hs) as (Hnb & Hhalf & Hq).
    change (nbuckets (removed i e l t (cq s))) with (nbuckets (cq s)) in *.
    pose proof (wpf_resize (nbuckets (cq s) / 2) s1 I1 Hon Hnb (or_intror Hhalf) (fun _ => Hq)) as Hr.
    unfold wpf in Hr. unfold bind. destruct (resize 1 _ s1) as [[[] s2]|f]; cbn.
    + split; [done|]. split; [apply Hr|]. intros Hfit. by apply Hr, Hfit.
    + destruct Hr as [H1 H2]. split; [done|]. intros Hfit. by apply H2, Hfit.
  - split; [done|]. split; [|intros _; apply I1]. intros _. split; [|done]. split; [done| |done].
    intros Hlt. specialize (Hroom Hlt). change (qsize (removed i e l t (cq s)) <= 2 * nbuckets (cq s)). lia.
Qed.

Lemma run_get_empty s : qinv (cq s) -> contents (cq s) = [] -> calqueue_get s = Ret (None, s).
Proof.
  intros I E. pose proof (qi_count _ I) as [Hn _]. rewrite E in Hn.
  unfold calqueue_get, calqueue_deq, deq_with, bind, queue, get, ret. cbn. by rewrite Hn.
Qed.

Lemma run_calqueue_init s : exists s', calqueue_init s = Ret (tt, s') /\ steady s' /\ contents (cq s') = [].
Proof.
  pose proof (localinit_spec s 0 2 (of_Z 1) (of_Z 0)) as Hl.
  assert (legal_size 2) as H2 by by exists 1. specialize (Hl H2 (or_introl eq_refl) eq_refl eq_refl).
  unfold calqueue_init, bind. destruct (localinit 0 2 (of_Z 1) (of_Z 0) s) as [[[] s1]|f].
  - destruct Hl as (_ & I1 & C1 & Q1 & N1 & _). eexists. split; [done|]. split; [|done].
    split; [|intros _; cbn; lia|done]. split; apply I1.
  - destruct Hl as [_ []]. exists 0. by vm_compute.
Qed.

(** ** What the queue promises *)

(** C37: putting an event at a time that is not negative returns, and the
    calendar then holds that event besides those it held, with every invariant
    ([steady]): the chains sorted, each event in the bucket of its time, the
    count right, room left.  It is so whenever the time, and if the calendar
    is doubled every time with the new width, has a bucket number ([put_fits]). *)
Theorem calqueue_put_bag p (v : P) s :
  steady s -> qsize (cq s) + 1 < 2 ^ 31 -> nonneg p = true -> put_fits p v s ->
  exists s', calqueue_put p v s = Ret (tt, s') /\ steady s' /\
    contents (cq s') ≡ₚ {| priority := p; payload := v |} :: contents (cq s).
Proof.
  intros Hs Hlt Hp Hfit. pose proof (wpf_calqueue_put p v s Hs Hlt Hp) as H. unfold wpf in H.
  destruct (calqueue_put p v s) as [[[] s']|f]; [|by destruct H as [_ []]].
  destruct H as [H1 H2]. exists s'. split; [done|]. by apply H1, H2.
Qed.

(** C38: getting from a calendar that holds events returns the payload of one of
    them, of the least time in its bucket, and the calendar then holds exactly
    the others, with every invariant; if, when the calendar is halved, every
    event can be placed with the new width. *)
Theorem calqueue_get_bag s :
  steady s -> contents (cq s) <> [] ->
  exists e s1, first_of_bucket e (cq s) /\ contents (cq s) ≡ₚ e :: contents (cq s1) /\
    (nbuckets (cq s1) = nbuckets (cq s) /\ qsize (cq s1) = qsize (cq s) - 1) /\
    (get_fits s1 -> exists s', calqueue_get s = Ret (Some (payload e), s') /\ steady s' /\
                      contents (cq s') ≡ₚ contents (cq s1)).
Proof.
  intros Hs Hne. destruct (wpf_calqueue_deq s Hs Hne) as (e & s1 & Hf & Hp & Hn & H).
  exists e, s1. split; [done|]. split; [done|]. split; [done|]. intros Hfit. unfold calqueue_get, bind. unfold wpf in H.
  destruct (calqueue_deq s) as [[o s']|f]; [|by destruct H as [_ []]].
  destruct H as (-> & H1 & H2). exists s'. split; [done|]. by apply H1, H2.
Qed.


(** A new calendar is in good order and empty. *)
Theorem calqueue_init_empty s :
  wp calqueue_init (fun _ s' => steady s' /\ contents (cq s') = [] /\ calqueue_get s' = Ret (None, s')) s.
Proof.
  destruct (run_calqueue_init s) as (s' & Hrun & Hs & Hc). unfold wpf, wp. rewrite Hrun.
  split; [done|]. split; [done|]. apply run_get_empty; [apply Hs|done].
Qed.

(** The direct search finds a least event of the whole calendar. *)
Theorem direct_search_least s :
  steady s -> contents (cq s) <> [] ->
  exists i e, direct_search (Z.to_nat (nbuckets (cq s))) 0 (-1) LLONG_MAX s = Ret (i, s) /\
    head_of (cq s) i = Some e /\ forall x, x ∈ contents (cq s) -> by_priority e x.
Proof.
  intros [I _ _] Hne. pose proof (legal_bounds _ (qi_size _ I)) as Hb.
  destruct (run_direct_search (Z.to_nat (nbuckets (cq s))) 0 (-1) LLONG_MAX s I) as (i & Hd & Hi);
    [done|lia|by left|].
  destruct Hi as [(_ & _ & Hall)|(Hi & e & He & _ & Hall)].
  - exfalso. apply Hne. destruct (contents (cq s)) as [|x l] eqn:E; [done|].
    assert (x ∈ contents (cq s)) as (j & Hj & Hx)%elem_of_contents by (rewrite E; left).
    rewrite Hall in Hx by done. by apply not_elem_of_nil in Hx.
  - exists i, e. split; [done|]. split; [done|]. intros x (j & Hj & Hx)%elem_of_contents.
    destruct (chain_at (cq s) j) as [|y l] eqn:Ec; [by apply not_elem_of_nil in Hx|].
    eapply dle_trans; [apply (Hall j y Hj); unfold head_of; by rewrite Ec|].
    destruct (head_first _ j y l I Hj Ec) as (k & Hk & Hyk & Hall').
    assert (k = j) as ->.
    { destruct (qi_bucket _ I k y Hk Hyk) as [Hb1 _]. destruct (qi_bucket _ I j y Hj) as [Hb2 _].
      - rewrite Ec. left.
      - congruence. }
    apply Hall'. by rewrite Ec.
Qed.
End operations.
