(* ===== verification/CalOrder.v ===== *)
(** * Runs of the calendar queue

    What the queue does on concrete events, whatever was in the memory it is
    made in.  Times are in tenths; the payload of an event is its time. *)
From Stdlib Require Import SpecFloat.
From S2P Require Import Prelude Doubles Numerical CalQueue CalBag CalResize CalOps.
Local Open Scope prog_scope.

(** A C library whose malloc never fails. *)
#[local] Instance ample (rnd : nat -> Z) (lg : double -> double) (pw : double -> double -> double) : Libc :=
  {| random := rnd; dlog := lg; dpow := pw; malloc_fails _ := false |}.

(** Memory just allocated for a queue. *)
Definition raw (q : calqueue Z) : qstate Z := {| cq := set_calq ∅ q; q_mallocs := 0 |}.

Definition tenths (x : Z) : double := ddiv (of_Z x) (of_Z 10).

Section runs.
Context (rnd : nat -> Z) (lg : double -> double) (pw : double -> double -> double).
#[local] Existing Instance ample.
Local Abbreviation L := (ample rnd lg pw).

Definition put_at (x : Z) : M (qstate Z) unit := calqueue_put (L := L) (tenths x) x.
Definition next_event : M (qstate Z) (option Z) := calqueue_get (L := L).
Fixpoint put_all (l : list Z) : M (qstate Z) unit :=
  match l with [] => ret tt | x :: l => put_at x ;;; put_all l end.
Fixpoint get_all (n : nat) : M (qstate Z) (list (option Z)) :=
  match n with O => ret [] | S n => o <- next_event ;; l <- get_all n ;; ret (o :: l) end.

(** What a run on a new queue ends with. *)
Definition run_new {A} (q : calqueue Z) (m : M (qstate Z) A) : outcome A :=
  match (calqueue_init ;;; m) (raw q) with Ret (a, _) => Ret a | Fault f => Fault f end.

(** Six events, which make the calendar grow, come out in order. *)
Example events_in_order q :
  run_new q (put_all [52; 11; 30; 47; 20; 11] ;;; get_all 7) =
    Ret [Some 11; Some 11; Some 20; Some 30; Some 47; Some 52; None].
Proof. vm_compute. reflexivity. Qed.


(** The width a resize computes can be no width.  Five events at one time give
    0/0, with which no bucket number can be computed; after a direct search
    the sampled events can come out of order, and the width is then negative:
    events are put in front of the calendar, in memory nothing was written
    to. *)
Theorem resize_bad_width q :
  run_new q (put_all [10; 10; 10; 10; 10]) = Fault BadConversion /\
  run_new q (put_at 30 ;;; next_event ;;; put_all [37; 42; 43; 44; 45]) = Fault (OutOfBounds 65529).
Proof. split; vm_compute; reflexivity. Qed.
End runs.
