(* ===== verification/CalMem.v ===== *)
(** * Memory use of the calendar queue

    The number of allocations an operation has made never goes down, whatever
    the operation does. *)
From Stdlib Require Import SpecFloat.
From S2P Require Import Prelude Doubles Numerical CalQueue.
Local Open Scope prog_scope.

Section mem.
Context `{L : Libc} {P : Type}.

Definition allocates {A} (m : M (qstate P) A) : Prop :=
  forall s a s', m s = Ret (a, s') -> (q_mallocs s <= q_mallocs s')%nat.

Lemma allocates_bind {A B} (m : M (qstate P) A) (k : A -> M (qstate P) B) :
  allocates m -> (forall a, allocates (k a)) -> allocates (bind m k).
Proof.
  intros Hm Hk s b s'. unfold bind. destruct (m s) as [[a s1]|f] eqn:E; [|done].
  intros H. etransitivity; [by eapply Hm|by eapply Hk].
Qed.
Lemma allocates_ret {A} (a : A) : allocates (ret a).
Proof. by intros s b s' [= _ <-]. Qed.
Lemma allocates_crash {A} f : allocates (A := A) (crash f).
Proof. by intros s b s'. Qed.
Lemma allocates_queue : allocates queue.
Proof. by intros s b s' [= _ <-]. Qed.
Lemma allocates_change f : allocates (change (P := P) f).
Proof. by intros s b s' [= _ <-]. Qed.
Lemma allocates_malloc : allocates malloc_node.
Proof.
  intros s b s'. unfold malloc_node, bind, get, put. destruct (malloc_fails _); [done|].
  intros [= _ <-]. cbn. lia.
Qed.
End mem.

Create HintDb memory.
#[export] Hint Resolve allocates_ret allocates_crash allocates_queue allocates_change
  allocates_malloc : memory.

(** Goes through a body whose parts are known. *)
Ltac allocates :=
  repeat first
    [ progress intros
    | match goal with |- allocates (bind _ _) => apply allocates_bind end
    | solve [auto with memory]
    | match goal with |- context [match ?x with _ => _ end] => destruct x end ].

Section operations.
Context `{L : Libc} {P : Type}.

Lemma allocates_to_int x : allocates (P := P) (to_int x).
Proof. unfold to_int. allocates. Qed.
Lemma allocates_to_long x : allocates (P := P) (to_long x).
Proof. unfold to_long. allocates. Qed.
Lemma allocates_read_calq k : allocates (P := P) (read_calq k).
Proof. unfold read_calq. allocates. Qed.
Lemma allocates_write_calq k (b : bucket P) : allocates (write_calq k b).
Proof. unfold write_calq. allocates. Qed.
#[local] Hint Resolve allocates_to_int allocates_to_long allocates_read_calq allocates_write_calq : memory.

Lemma allocates_read_bucket i : allocates (P := P) (read_bucket i).
Proof. unfold read_bucket. allocates. Qed.
Lemma allocates_write_bucket i (l : list (calqueue_node P)) : allocates (write_bucket i l).
Proof. unfold write_bucket. allocates. Qed.
#[local] Hint Resolve allocates_read_bucket allocates_write_bucket : memory.

Lemma allocates_clear_buckets n : forall i, allocates (P := P) (clear_buckets n i).
Proof. induction n as [|n IH]; cbn [clear_buckets]; allocates. Qed.
Lemma allocates_scan fuel : forall i, allocates (P := P) (scan fuel i).
Proof. induction fuel as [|fuel IH]; cbn [scan]; allocates. Qed.
Lemma allocates_direct_search n : forall i t low, allocates (P := P) (direct_search n i t low).
Proof. induction n as [|n IH]; cbn [direct_search]; allocates. Qed.
#[local] Hint Resolve allocates_clear_buckets allocates_scan allocates_direct_search : memory.

Lemma allocates_localinit base n w p : allocates (P := P) (localinit base n w p).
Proof. unfold localinit. allocates. Qed.
#[local] Hint Resolve allocates_localinit : memory.

Section width.
Variable R : Z -> M (qstate P) unit.
Hypothesis HR : forall n, allocates (R n).
#[local] Hint Resolve HR : memory.

Lemma allocates_deq_with : allocates (deq_with R).
Proof. unfold deq_with, calendar_process. allocates. Qed.
Lemma allocates_put_with p (v : P) : allocates (put_with R p v).
Proof. unfold put_with. allocates. Qed.
#[local] Hint Resolve allocates_deq_with allocates_put_with : memory.

Lemma allocates_take_node : allocates (take_node R).
Proof. unfold take_node. allocates. Qed.
#[local] Hint Resolve allocates_take_node : memory.

Lemma allocates_take_samples n : forall prev avg, allocates (take_samples R n prev avg).
Proof. induction n as [|n IH]; cbn [take_samples]; allocates. Qed.
Lemma allocates_put_back temp : forall prev bound na j, allocates (put_back R temp prev bound na j).
Proof. induction temp as [|e temp IH]; cbn [put_back]; allocates. Qed.
Lemma allocates_move_chain l : allocates (move_chain R l).
Proof. induction l as [|x l IH]; cbn [move_chain]; allocates. Qed.
#[local] Hint Resolve allocates_take_samples allocates_put_back allocates_move_chain : memory.

Lemma allocates_move_buckets n base : allocates (move_buckets R n base).
Proof. induction n as [|n IH]; cbn [move_buckets]; unfold leave_bucket; allocates. Qed.
#[local] Hint Resolve allocates_move_buckets : memory.

Lemma allocates_do_resize n : allocates (do_resize R n).
Proof. unfold do_resize, new_width. allocates. Qed.
End width.

Lemma allocates_resize depth : forall n, allocates (P := P) (resize depth n).
Proof.
  induction depth as [|depth IH]; intros n; cbn [resize]; allocates. by apply allocates_do_resize.
Qed.

Lemma allocates_calqueue_put p (v : P) : allocates (calqueue_put p v).
Proof. apply allocates_put_with, allocates_resize. Qed.
Lemma allocates_calqueue_get : allocates (P := P) calqueue_get.
Proof. unfold calqueue_get. allocates. apply allocates_deq_with, allocates_resize. Qed.
Lemma allocates_calqueue_init : allocates (P := P) calqueue_init.
Proof. unfold calqueue_init. allocates. Qed.
End operations.

(** ** The first event

    A queue that was just initialised is not resized by its first put and get. *)
Section first.
Context `{L : Libc} {P : Type}.
Hypothesis Hmem : forall n, malloc_fails n = false.

(** [l] is the chain of the bucket dequeueing starts from. *)
Record fresh_queue (l : list (calqueue_node P)) (n : nat) (s : qstate P) : Prop := {
  nb_calendar : calendar (cq s) = 0;
  nb_chain : calq (cq s) !! 0 = Some (Chain l);
  nb_size : nbuckets (cq s) = 2 /\ qsize (cq s) = Z.of_nat (length l);
  nb_place : lastbucket (cq s) = 0 /\ cwidth (cq s) = of_Z 1;
  nb_top : dlt (of_Z 0) (buckettop (cq s)) = true;
  nb_thresholds : top_threshold (cq s) = of_Z 4 /\ bot_threshold (cq s) = of_Z (-1);
  nb_mallocs : q_mallocs s = n;
}.

Lemma fresh_queue_init s : exists s', calqueue_init s = Ret (tt, s') /\ fresh_queue [] (q_mallocs s) s'.
Proof.
  destruct s as [q n]. eexists. split.
  - unfold calqueue_init, localinit, bind, change, modify. cbn.
    unfold write_bucket, write_calq, change, modify, bind, queue, get, ret. cbn. reflexivity.
  - split; cbn; try done. by rewrite lookup_insert_ne, lookup_insert_eq.
Qed.

Lemma fresh_queue_read l n s : fresh_queue l n s -> read_bucket 0 s = Ret (l, s).
Proof.
  intros B. unfold read_bucket, read_calq, queue, bind, get, ret.
  rewrite (nb_calendar _ _ _ B). change (0 + 0) with 0. by rewrite (nb_chain _ _ _ B).
Qed.

Lemma fresh_queue_write l l' n s :
  fresh_queue l n s -> exists s', write_bucket 0 l' s = Ret (tt, s') /\
    fresh_queue l' n {| cq := set_qsize (Z.of_nat (length l')) (cq s'); q_mallocs := q_mallocs s' |} /\
    qsize (cq s') = qsize (cq s).
Proof.
  intros B. unfold write_bucket, write_calq, change, modify, queue, bind, get, ret.
  rewrite (nb_calendar _ _ _ B). cbn. eexists. split; [done|]. split; [|done].
  destruct B. split; cbn; try done; [by rewrite lookup_insert_eq|tauto].
Qed.

Lemma fresh_queue_put R v n s :
  fresh_queue [] n s -> exists s', put_with R (of_Z 0) v s = Ret (tt, s') /\
    fresh_queue [{| priority := of_Z 0; payload := v |}] (S n) s'.
Proof.
  intros B. unfold put_with. set (s0 := {| cq := cq s; q_mallocs := S n |}).
  assert (malloc_node s = Ret (tt, s0)) as Hm.
  { unfold malloc_node, bind, get, put. rewrite Hmem. by rewrite (nb_mallocs _ _ _ B). }
  assert (fresh_queue [] (S n) s0) as B0 by (destruct B; by split).
  rewrite (bind_run _ _ _ _ _ Hm), (bind_run queue _ s0 (cq s0) s0) by done.
  destruct (nb_place _ _ _ B0) as [_ ->], (nb_size _ _ _ B0) as [En Eq].
  rewrite (bind_run (to_int _) _ _ 0 s0) by done. rewrite En. cbn [Z.rem Z.quotrem fst snd].
  change (Z.rem 0 2) with 0. rewrite (bind_run _ _ _ _ _ (fresh_queue_read _ _ _ B0)).
  destruct (fresh_queue_write [] [{| priority := of_Z 0; payload := v |}] (S n) s0 B0) as (s1 & Hw & B1 & Eq1).
  cbn [place]. rewrite (bind_run _ _ _ _ _ Hw). rewrite Eq in Eq1.
  set (s2 := {| cq := set_qsize 1 (cq s1); q_mallocs := q_mallocs s1 |}).
  rewrite (bind_run (change _) _ s1 tt s2) by (unfold change, modify; by rewrite Eq1).
  rewrite (bind_run queue _ s2 (cq s2) s2) by done.
  destruct (nb_thresholds _ _ _ B1) as [Et _]. change (top_threshold (cq s2) = of_Z 4) in Et. rewrite Et.
  change (dlt (of_Z 4) (of_Z (qsize (cq s2)))) with false. exists s2. split; [done|]. exact B1.
Qed.

Lemma fresh_queue_get R v n s :
  fresh_queue [{| priority := of_Z 0; payload := v |}] n s ->
  exists s', deq_with R s = Ret (Some {| priority := of_Z 0; payload := v |}, s') /\ q_mallocs s' = n.
Proof.
  intros B. unfold deq_with. rewrite (bind_run queue _ s (cq s) s) by done.
  destruct (nb_place _ _ _ B) as [El _], (nb_size _ _ _ B) as [En Eq]. rewrite Eq, En, El.
  change (Z.of_nat _ =? 0) with false. change (Z.to_nat 2) with 2%nat. cbn [scan].
  rewrite (bind_run (bind queue _) _ s (Some 0) s).
  2: { rewrite (bind_run queue _ s (cq s) s) by done. rewrite (bind_run _ _ _ _ _ (fresh_queue_read _ _ _ B)).
    unfold ready. cbn [priority]. by rewrite (nb_top _ _ _ B). }
  unfold calendar_process. rewrite (bind_run _ _ _ _ _ (fresh_queue_read _ _ _ B)).
  set (s1 := {| cq := set_qsize 0 (set_position 0 (of_Z 0) (buckettop (cq s)) (cq s)); q_mallocs := n |}).
  rewrite (bind_run (change _) _ s tt s1) by (unfold change, modify; by rewrite Eq, (nb_mallocs _ _ _ B)).
  set (s2 := {| cq := set_calq (<[0 := Chain []]> (calq (cq s1))) (cq s1); q_mallocs := n |}).
  rewrite (bind_run (write_bucket 0 []) _ s1 tt s2).
  2: { unfold write_bucket. rewrite (bind_run queue _ s1 (cq s1) s1) by done.
    change (calendar (cq s1)) with (calendar (cq s)). by rewrite (nb_calendar _ _ _ B). }
  rewrite (bind_run queue _ s2 (cq s2) s2) by done.
  destruct (nb_thresholds _ _ _ B) as [_ Eb]. change (bot_threshold (cq s2)) with (bot_threshold (cq s)).
  rewrite Eb. change (dlt (of_Z (qsize (cq s2))) (of_Z (-1))) with false. by exists s2.
Qed.
End first.
