(* ===== verification/Model.v ===== *)
(** * The event handler of the cell model ([testbed/src/model.c])

    One cell, the events waiting for it in its calendar queue, and the
    handler.  Events are heap objects that the queue holds pointers to.  The
    queue's operations are a record, so that what the handler needs of the
    queue can be stated ([QueueLaws]) apart from how the queue works. *)
From Stdlib Require Import SpecFloat.
From S2P Require Import Prelude Doubles Numerical Channel CalQueue.
Local Open Scope prog_scope.

(** ** Constants of model.h *)
Definition COMPLETE_CALLS : Z := 15000.
Definition TA : double := ddiv (of_Z 16) (of_Z 100).
Definition TA_DURATION : double := of_Z 60.
Definition CHANNELS_PER_CELL : Z := 1000.
Definition TA_CHANGE : double := of_Z 150.
Definition INIT : Z := 0.
Definition START_CALL : Z := 20.
Definition END_CALL : Z := 21.

Record msg_t := {
  sender : Z; receiver : Z;
  type : Z;
  timestamp : double;
  msg_channel : Z;
}.

(** ** State *)
Record sim := { s_tb : tb; s_cal : calqueue loc; s_events : gmap loc msg_t }.

Definition set_mallocs (n : nat) (t : tb) : tb :=
  {| tb_rng := tb_rng t; tb_lps := tb_lps t; tb_chans := tb_chans t; tb_sirs := tb_sirs t; tb_mallocs := n |}.

(** Computations on the parts; all memory is of one heap. *)
Definition on_tb {A} (m : M tb A) : M sim A := fun s =>
  match m (s_tb s) with
  | Ret (a, t) => Ret (a, {| s_tb := t; s_cal := s_cal s; s_events := s_events s |})
  | Fault f => Fault f
  end.
Definition cal_of (s : sim) : qstate loc := {| cq := s_cal s; q_mallocs := tb_mallocs (s_tb s) |}.
Definition on_cal {A} (m : M (qstate loc) A) : M sim A := fun s =>
  match m (cal_of s) with
  | Ret (a, q) => Ret (a, {| s_tb := set_mallocs (q_mallocs q) (s_tb s); s_cal := cq q; s_events := s_events s |})
  | Fault f => Fault f
  end.
Definition set_events (h : gmap loc msg_t) (s : sim) : sim :=
  {| s_tb := s_tb s; s_cal := s_cal s; s_events := h |}.

Record queue_ops := {
  q_put : double -> loc -> M (qstate loc) unit;
  q_get : M (qstate loc) (option loc);
}.

(** What the words of a new bitmap hold. *)
Class JunkWords := { junk_word : Z -> Z }.

(** ** Fields the handler writes *)
Definition set_counters (counter arriving complete blocked : Z) (p : lp_state_type) : lp_state_type :=
  {| channel_counter := counter; arriving_calls := arriving;
     complete_calls := complete; blocked_on_setup := blocked;
     blocked_on_handoff := blocked_on_handoff p; leaving_handoffs := leaving_handoffs p;
     arriving_handoffs := arriving_handoffs p; cont_no_sir_aim := cont_no_sir_aim p;
     executed_events := executed_events p; lvt := lvt p; ta := ta p; ref_ta := ref_ta p;
     ta_duration := ta_duration p; ta_change := ta_change p;
     channels_per_cell := channels_per_cell p; channel_state := channel_state p; channels := channels p;
     dummy := dummy p; dummy_flag := dummy_flag p |}.
Definition set_clock (executed : Z) (now t : double) (p : lp_state_type) : lp_state_type :=
  {| channel_counter := channel_counter p; arriving_calls := arriving_calls p;
     complete_calls := complete_calls p; blocked_on_setup := blocked_on_setup p;
     blocked_on_handoff := blocked_on_handoff p; leaving_handoffs := leaving_handoffs p;
     arriving_handoffs := arriving_handoffs p; cont_no_sir_aim := cont_no_sir_aim p;
     executed_events := executed; lvt := now; ta := t; ref_ta := ref_ta p;
     ta_duration := ta_duration p; ta_change := ta_change p;
     channels_per_cell := channels_per_cell p; channel_state := channel_state p; channels := channels p;
     dummy := dummy p; dummy_flag := dummy_flag p |}.

Definition count_arriving (p : lp_state_type) : lp_state_type :=
  set_counters (channel_counter p) (u32 (arriving_calls p + 1)) (complete_calls p) (blocked_on_setup p) p.
Definition count_blocked (p : lp_state_type) : lp_state_type :=
  set_counters (channel_counter p) (arriving_calls p) (complete_calls p) (u32 (blocked_on_setup p + 1)) p.
Definition count_started (p : lp_state_type) : lp_state_type :=
  set_counters (u32 (channel_counter p - 1)) (arriving_calls p) (complete_calls p) (blocked_on_setup p) p.
Definition count_ended (p : lp_state_type) : lp_state_type :=
  set_counters (u32 (channel_counter p + 1)) (arriving_calls p) (u32 (complete_calls p + 1)) (blocked_on_setup p) p.

(* the record after bzero, and after the assignments of the INIT event *)
Definition zero_state : lp_state_type :=
  {| channel_counter := 0; arriving_calls := 0; complete_calls := 0; blocked_on_setup := 0;
     blocked_on_handoff := 0; leaving_handoffs := 0; arriving_handoffs := 0; cont_no_sir_aim := 0;
     executed_events := 0; lvt := of_Z 0; ta := of_Z 0; ref_ta := of_Z 0; ta_duration := of_Z 0;
     ta_change := of_Z 0; channels_per_cell := 0; channel_state := []; channels := None;
     dummy := 0; dummy_flag := false |}.
Definition init_fields (p : lp_state_type) : lp_state_type :=
  {| channel_counter := CHANNELS_PER_CELL; arriving_calls := arriving_calls p;
     complete_calls := complete_calls p; blocked_on_setup := blocked_on_setup p;
     blocked_on_handoff := blocked_on_handoff p; leaving_handoffs := leaving_handoffs p;
     arriving_handoffs := arriving_handoffs p; cont_no_sir_aim := cont_no_sir_aim p;
     executed_events := executed_events p; lvt := lvt p; ta := TA; ref_ta := TA;
     ta_duration := TA_DURATION; ta_change := TA_CHANGE;
     channels_per_cell := CHANNELS_PER_CELL; channel_state := channel_state p; channels := channels p;
     dummy := dummy p; dummy_flag := dummy_flag p |}.

(** ** Operations *)
Section model.
Context `{L : Libc} `{J : Junk} `{W : JunkWords}.

Definition load_event (p : loc) : M sim msg_t :=
  s <- get ;; match s_events s !! p with Some m => ret m | None => crash UseAfterFree end.
Definition free_event (p : loc) : M sim unit :=
  s <- get ;;
  match s_events s !! p with
  | Some _ => put (set_events (delete p (s_events s)) s)
  | None => crash UseAfterFree
  end.

(* the fields are written through the result of malloc, which is not tested *)
Definition malloc_event (m : msg_t) : M sim loc :=
  s <- get ;;
  let n := tb_mallocs (s_tb s) in
  let s' := {| s_tb := set_mallocs (S n) (s_tb s); s_cal := s_cal s; s_events := s_events s |} in
  if malloc_fails n then crash NullDeref
  else put (set_events (<[Pos.of_succ_nat n := m]> (s_events s')) s') ;;; ret (Pos.of_succ_nat n).

Definition pack_event (cell type_ : Z) (stamp : double) (ch : Z) : M sim loc :=
  malloc_event {| sender := cell; receiver := cell; type := type_; timestamp := stamp; msg_channel := ch |}.

(* the bitmap: twice the words needed, of which the needed ones are cleared *)
Definition malloc_words (p : option loc) : M tb unit :=
  s <- get ;;
  put (set_mallocs (S (tb_mallocs s)) s) ;;;
  if malloc_fails (tb_mallocs s) then crash NullDeref
  else update p (set_channel_state (junk_word <$> seqZ 0 (2 * (CHANNELS_PER_CELL / BITS + 1)))).
Definition clear_word (p : option loc) (i : Z) : M tb unit :=
  st <- load p ;;
  if (0 <=? i) && (i <? Z.of_nat (length (channel_state st)))
  then update p (fun st => set_channel_state (<[Z.to_nat i := 0]> (channel_state st)) st)
  else crash (OutOfBounds i).
Fixpoint clear_words (n : nat) (p : option loc) (i : Z) : M tb unit :=
  match n with
  | O => ret tt
  | S n => clear_word p i ;;; clear_words n p (i + 1)
  end.

(** A pointer as the [long long] that [ProcessEvent] returns. *)
Definition as_long (p : option loc) : Z := match p with Some a => Zpos a | None => 0 end.
Definition as_pointer (z : Z) : option loc := match z with Zpos a => Some a | _ => None end.

Section handler.
Variable O : queue_ops.

Definition schedule (me type_ : Z) (stamp : double) (ch : M sim Z) : M sim unit :=
  c <- ch ;;
  e <- pack_event me type_ stamp c ;;
  on_cal (q_put O stamp e).

Definition init_state : M tb (option loc) :=
  p <- malloc zero_state ;;
  match p with None => crash (Exited EXIT_FAILURE) | Some _ =>
  update p init_fields ;;;
  malloc_words p ;;;
  st <- load (A := lp_state_type) p ;;
  clear_words (Z.to_nat (channel_counter st / BITS + 1)) p 0 ;;;
  ret p
  end.

Definition init_cell (me : Z) : M sim Z :=
  p <- on_tb init_state ;;
  r <- on_tb Random ;;
  schedule me START_CALL (dmul (of_Z 20) r) (ret (-1)) ;;;
  ret (as_long p).

Definition take_channel (me : Z) (now : double) (state : option loc) : M sim unit :=
  on_tb (update state count_started) ;;;
  st <- on_tb (load (A := lp_state_type) state) ;;
  x <- on_tb (Expent (ta_duration st)) ;;
  schedule me END_CALL (dadd now x) (on_tb (allocation state)).

Definition next_call (me : Z) (now : double) (state : option loc) : M sim unit :=
  st <- on_tb (load (A := lp_state_type) state) ;;
  match recompute_ta (ref_ta st) now with
  | None => crash BadConversion
  | Some t =>
      on_tb (update state (fun st => set_clock (executed_events st) (lvt st) t st)) ;;;
      x <- on_tb (Expent t) ;;
      schedule me START_CALL (dadd now x) (ret (-1))
  end.

Definition start_call (me : Z) (now : double) (state : option loc) : M sim Z :=
  on_tb (update state count_arriving) ;;;
  st <- on_tb (load (A := lp_state_type) state) ;;
  (if channel_counter st =? 0 then on_tb (update state count_blocked)
   else take_channel me now state) ;;;
  next_call me now state ;;;
  ret 0.

Definition end_call (ch : Z) (state : option loc) : M sim Z :=
  on_tb (update state count_ended) ;;;
  on_tb (deallocation state ch) ;;;
  st <- on_tb (load (A := lp_state_type) state) ;;
  ret (if complete_calls st =? COMPLETE_CALLS then 1 else 0).

Definition ProcessEvent (msg : loc) (state : option loc) : M sim Z :=
  m <- load_event msg ;;
  match state with
  | Some _ => on_tb (update state (fun st => set_clock (u32 (executed_events st + 1)) (timestamp m) (ta st) st))
  | None => ret tt
  end ;;;
  if type m =? INIT then init_cell (receiver m)
  else if type m =? START_CALL then start_call (receiver m) (timestamp m) state
  else if type m =? END_CALL then end_call (msg_channel m) state
  else crash Aborted.
End handler.
End model.
