(* ===== verification/Promise.v ===== *)
(** * What the event handler needs of its queue

    [QueueLaws] is the interface between the handler of Model.v and the
    calendar queue: a bag of events, ordered in some way, that loses nothing
    as long as its operations return.  The calendar queue keeps the promise
    while its bucket width stays positive: [watched] stops when it does not. *)
From Stdlib Require Import SpecFloat.
From S2P Require Import Prelude Doubles Numerical Channel Cell CalQueue CalBag CalResize CalOps CalMem Model.
Local Open Scope prog_scope.

Class QueueLaws (O : queue_ops) : Prop := {
  put_law p v s :
    steady s -> qsize (cq s) + 1 < 2 ^ 31 -> nonneg p = true ->
    wpf queue_fault (q_put O p v) (fun _ s' =>
      steady s' /\ contents (cq s') ≡ₚ {| priority := p; payload := v |} :: contents (cq s) /\
      (q_mallocs s <= q_mallocs s')%nat) s;
  get_law s :
    steady s -> contents (cq s) <> [] ->
    wpf queue_fault (q_get O) (fun o s' => exists e, o = Some (payload e) /\
      steady s' /\ contents (cq s) ≡ₚ e :: contents (cq s') /\ (q_mallocs s <= q_mallocs s')%nat) s;
  (* the first event, put at time 0 and taken out again, costs one allocation *)
  first_law v n s s1 s2 :
    calqueue_init s = Ret (tt, s1) ->
    q_put O (of_Z 0) v {| cq := cq s1; q_mallocs := n |} = Ret (tt, s2) ->
    q_mallocs s2 = S n /\
    forall o s3, q_get O s2 = Ret (o, s3) -> q_mallocs s3 = q_mallocs s2;
}.

Section watched.
Context `{L : Libc}.

Definition calendar_queue : queue_ops := {| q_put := calqueue_put; q_get := calqueue_get |}.

Definition check_width : M (qstate loc) unit :=
  q <- queue ;; if above_zero (cwidth q) then ret tt else crash BadConversion.
Definition watched : queue_ops := {|
  q_put p v := calqueue_put p v ;;; check_width;
  q_get := o <- calqueue_get ;; check_width ;;; ret o;
|}.

Lemma wpf_check_width (Q : unit -> qstate loc -> Prop) s :
  (above_zero (cwidth (cq s)) = true -> Q tt s) -> wpf queue_fault check_width Q s.
Proof.
  intros HQ. unfold wpf, check_width. rewrite (bind_run _ _ _ _ _ (run_queue s)).
  destruct (above_zero (cwidth (cq s))); [by apply HQ|done].
Qed.

Lemma check_width_then {A} (a : A) s r : (check_width ;;; ret a) s = Ret r -> r = (a, s).
Proof.
  intros H. unfold bind in H at 1. unfold check_width in H. rewrite (bind_run _ _ _ _ _ (run_queue s)) in H.
  destruct (above_zero (cwidth (cq s))); [by injection H as <-|done].
Qed.

#[export] Instance watched_laws : (forall n, malloc_fails n = false) -> QueueLaws watched.
Proof.
  intros Hmem. split.
  - intros p v s Hs Hlt Hp. pose proof (wpf_calqueue_put Hmem p v s Hs Hlt Hp) as H. cbn [q_put watched].
    pose proof (allocates_calqueue_put p v s) as Ha. apply wpf_bind. unfold wpf at 1. unfold wpf in H.
    destruct (calqueue_put p v s) as [[[] s']|f]; [|apply H]. apply wpf_check_width. intros Hw.
    destruct (proj1 H Hw) as [H1 H2]. split; [done|]. split; [done|]. by apply (Ha tt).
  - intros s Hs Hne. destruct (wpf_calqueue_deq Hmem s Hs Hne) as (e & s1 & _ & Hp & _ & H). cbn [q_get watched].
    pose proof (allocates_calqueue_get (P := loc) s) as Ha. unfold calqueue_get in *.
    apply wpf_bind, wpf_bind. unfold wpf at 1. unfold wpf in H. unfold bind in Ha.
    destruct (calqueue_deq s) as [[o s']|f]; [|apply H]. destruct H as (-> & H & _).
    unfold wpf at 1. cbn [ret]. apply wpf_bind, wpf_check_width. intros Hw. cbn.
    destruct (H Hw) as [Hs' Hc]. exists e. split; [done|]. split; [done|]. rewrite Hc. split; [done|]. by eapply Ha.
  - intros v n s s1 s2 Hinit. cbn [q_put q_get watched].
    destruct (fresh_queue_init s) as (x1 & Hx & B1). rewrite Hinit in Hx. injection Hx as <-.
    assert (fresh_queue [] n {| cq := cq s1; q_mallocs := n |}) as B0 by (destruct B1; by split).
    destruct (fresh_queue_put Hmem (resize 1) v _ _ B0) as (x2 & Hput & B2). unfold calqueue_put.
    rewrite (bind_run _ _ _ _ _ Hput). intros H2.
    assert (s2 = x2) as ->.
    { unfold check_width in H2. rewrite (bind_run _ _ _ _ _ (run_queue x2)) in H2.
      destruct (above_zero (cwidth (cq x2))); [by injection H2 as <-|done]. }
    split; [apply B2|]. intros o s3.
    destruct (fresh_queue_get (resize 1) v _ _ B2) as (x3 & Hget & Hn).
    assert (calqueue_get x2 = Ret (Some v, x3)) as Hg.
    { unfold calqueue_get, calqueue_deq. by rewrite (bind_run _ _ _ _ _ Hget). }
    rewrite (bind_run _ _ _ _ _ Hg). intros [= _ ->]%check_width_then. by rewrite Hn, (nb_mallocs _ _ _ B2).
Qed.
End watched.

(** A computation that returns whatever another one returns. *)
Section refines.
Context {S : Type}.

Definition refines {A} (m1 m2 : M S A) : Prop := forall s r, m1 s = Ret r -> m2 s = Ret r.

#[export] Instance refines_preorder {A} : PreOrder (refines (A := A)).
Proof. split; [by intros m s r|]. intros m1 m2 m3 H1 H2 s r H. by apply H2, H1. Qed.

Lemma refines_bind {A B} (m1 m2 : M S A) (k1 k2 : A -> M S B) :
  refines m1 m2 -> (forall a, refines (k1 a) (k2 a)) -> refines (bind m1 k1) (bind m2 k2).
Proof.
  intros Hm Hk s r. unfold bind. destruct (m1 s) as [[a s1]|f] eqn:E; [|done].
  rewrite (Hm _ _ E). apply Hk.
Qed.

Lemma refines_refl {A} (m : M S A) : refines m m.
Proof. reflexivity. Qed.
End refines.

Section handler.
Context `{L : Libc} `{J : Junk} `{W : JunkWords}.

Lemma refines_on_cal {A} (m1 m2 : M (qstate loc) A) : refines m1 m2 -> refines (on_cal m1) (on_cal m2).
Proof.
  intros Hm s r. unfold on_cal. destruct (m1 (cal_of s)) as [[a q]|f] eqn:E; [|done]. by rewrite (Hm _ _ E).
Qed.

(** A queue whose operations return whatever another's do. *)
Record queue_refines (O1 O2 : queue_ops) : Prop := {
  qr_put p v : refines (q_put O1 p v) (q_put O2 p v);
  qr_get : refines (q_get O1) (q_get O2);
}.

Lemma watched_refines : queue_refines watched calendar_queue.
Proof.
  assert (forall s r, check_width s = Ret r -> r = (tt, s)) as Hc.
  { intros s r. unfold check_width. rewrite (bind_run _ _ _ _ _ (run_queue s)).
    destruct (above_zero _); [|done]. by intros [= <-]. }
  split.
  - intros p v s r. cbn. unfold bind. destruct (calqueue_put p v s) as [[[] s']|f]; [|done].
    by intros ->%Hc.
  - intros s r. cbn. unfold bind at 1. destruct (calqueue_get s) as [[o s']|f]; [|done].
    unfold bind. destruct (check_width s') as [[[] s'']|f] eqn:E; [|done].
    apply Hc in E as [= ->]. done.
Qed.

Section process.
Context (O1 O2 : queue_ops).
Hypothesis HO : queue_refines O1 O2.

Lemma refines_schedule me ty stamp ch : refines (schedule O1 me ty stamp ch) (schedule O2 me ty stamp ch).
Proof.
  apply refines_bind; [apply refines_refl|]. intros c. apply refines_bind; [apply refines_refl|].
  intros e. apply refines_on_cal, HO.
Qed.

Lemma refines_next_call me now st : refines (next_call O1 me now st) (next_call O2 me now st).
Proof.
  apply refines_bind; [apply refines_refl|]. intros p. destruct (recompute_ta (ref_ta p) now); [|apply refines_refl].
  do 2 (apply refines_bind; [apply refines_refl|intros ?]). apply refines_schedule.
Qed.

Lemma refines_process msg st : refines (ProcessEvent O1 msg st) (ProcessEvent O2 msg st).
Proof.
  apply refines_bind; [apply refines_refl|]. intros m. apply refines_bind; [apply refines_refl|]. intros _.
  destruct (type m =? INIT); [|destruct (type m =? START_CALL); [|apply refines_refl]].
  - do 2 (apply refines_bind; [apply refines_refl|intros ?]).
    apply refines_bind; [apply refines_schedule|intros ?]. apply refines_refl.
  - do 2 (apply refines_bind; [apply refines_refl|intros ?]). apply refines_bind.
    + destruct (_ =? 0); [apply refines_refl|]. do 3 (apply refines_bind; [apply refines_refl|intros ?]).
      apply refines_schedule.
    + intros _. apply refines_bind; [apply refines_next_call|]. intros _. apply refines_refl.
Qed.
End process.
End handler.
