(* ===== verification/Simulation.v ===== *)
(** * What the event handler keeps

    A cell in operation has as many free channels as it has no call for, one
    call to come, and for each call in progress one event that ends it.  Every
    event is in the queue once, at its time, and nothing else is allocated for
    events: what is processed finds the state it expects. *)
From Stdlib Require Import SpecFloat.
From S2P Require Import Prelude Doubles Numerical Channel Cell Calls CalQueue CalBag CalOps Model Promise.
Local Open Scope prog_scope.

Implicit Types (l : list node) (s : sim) (t : tb) (st : lp_state_type).

(** ** Computations on a part of the state *)
Definition with_tb t s : sim := {| s_tb := t; s_cal := s_cal s; s_events := s_events s |}.

Lemma wpf_on_tb {A} F (m : M tb A) (Q : A -> sim -> Prop) s :
  wp m (fun a t => Q a (with_tb t s)) (s_tb s) -> wpf F (on_tb m) Q s.
Proof. unfold wp, wpf, on_tb. by destruct (m (s_tb s)) as [[a t]|f]. Qed.

Lemma wpf_on_tb_run {A} F (m : M tb A) (Q : A -> sim -> Prop) s a t :
  m (s_tb s) = Ret (a, t) -> Q a (with_tb t s) -> wpf F (on_tb m) Q s.
Proof. intros Hm HQ. unfold wpf, on_tb. by rewrite Hm. Qed.

Lemma wpf_ret {S A} F (a : A) (Q : A -> S -> Prop) (s : S) : Q a s -> wpf F (ret a) Q s.
Proof. done. Qed.

(** ** The counters of a cell *)

(** The counters are values of their type. *)
Record counters_typed st : Prop := {
  ty_free : in_u32 (channel_counter st);
  ty_arriving : in_u32 (arriving_calls st);
  ty_complete : in_u32 (complete_calls st);
  ty_blocked : in_u32 (blocked_on_setup st);
  ty_executed : in_u32 (executed_events st);
}.

(**
    [k] calls have come that are neither blocked nor in progress yet. *)
Record phone (k : Z) (p : loc) st l t : Prop := {
  ph_cell : cell p st l t;
  ph_size : channels_per_cell st = CHANNELS_PER_CELL;
  ph_free : channel_counter st = CHANNELS_PER_CELL - Z.of_nat (length l);
  ph_calls : arriving_calls st = u32 (blocked_on_setup st + complete_calls st + Z.of_nat (length l) + k);
  ph_ref : ref_ta st = TA;
  ph_duration : ta_duration st = TA_DURATION;
  ph_typed : counters_typed st;
}.

Lemma cell_mallocs p st l t n :
  cell p st l t -> (tb_mallocs t <= n)%nat -> cell p st l (set_mallocs n t).
Proof. intros C Hn. destruct C. split; try done. intros a Ha. etransitivity; [by apply cell_fresh|done]. Qed.

Lemma phone_mallocs k p st l t n :
  phone k p st l t -> (tb_mallocs t <= n)%nat -> phone k p st l (set_mallocs n t).
Proof. intros [C] Hn. split; try done. by apply cell_mallocs. Qed.

Lemma phone_rng k p st l t r : phone k p st l t -> phone k p st l (set_rng r t).
Proof. intros [C]. split; try done. eapply cell_calm; [apply calm_rng|done]. Qed.

(** A change of fields that channel allocation does not look at. *)
Definition set_lp (p : loc) st t : tb := set_tb_heap (<[p := st]> (tb_heap t)) t.

Lemma cell_fields p st st' l t :
  cell p st l t -> channels_per_cell st' = channels_per_cell st -> channel_state st' = channel_state st ->
  channels st' = channels st -> cell p st' l (set_lp p st' t).
Proof.
  intros C Hn Hw Hc. destruct C. split; rewrite ?Hn, ?Hw, ?Hc; try done.
  - apply lookup_insert_eq.
  - intros i Hi. unfold busy_bit. rewrite Hw. by apply cell_bits.
Qed.

Lemma wp_set_lp p st l t f (Q : unit -> tb -> Prop) :
  cell p st l t -> Q tt (set_lp p (f st) t) -> wp (update (A := lp_state_type) (Some p) f) Q t.
Proof. intros C HQ. eapply wp_tb_update; [apply C|]. exact HQ. Qed.

Lemma cell_length p st l t : cell p st l t -> Z.of_nat (length l) <= channels_per_cell st.
Proof.
  intros C. pose proof (cell_words _ _ _ _ C) as Hw.
  assert (num <$> l ⊆+ seqZ 0 (channels_per_cell st)) as Hsub%submseteq_length.
  { apply NoDup_submseteq; [apply C|]. intros i (x & -> & Hx)%list_elem_of_fmap.
    apply elem_of_seqZ. pose proof (cell_range _ _ _ _ C x Hx). lia. }
  rewrite length_fmap, length_seqZ in Hsub. lia.
Qed.

(** Fewer calls than channels: a channel is free. *)
Lemma some_channel_free p st l t :
  cell p st l t -> Z.of_nat (length l) < channels_per_cell st -> exists i, channel_free st l i.
Proof.
  intros C Hlt. destruct (decide (Forall (fun i => i ∈ num <$> l) (seqZ 0 (channels_per_cell st)))) as [Hall|Hno].
  - exfalso. rewrite Forall_forall in Hall.
    assert (seqZ 0 (channels_per_cell st) ⊆+ num <$> l) as Hsub%submseteq_length.
    { apply NoDup_submseteq; [apply NoDup_seqZ|done]. }
    rewrite length_fmap, length_seqZ in Hsub. lia.
  - apply not_Forall_Exists in Hno; [|apply _]. apply Exists_exists in Hno as (i & Hi%elem_of_seqZ & Hno).
    exists i. split; [lia|done].
Qed.

(** ** The events *)
Definition pending s : list loc := payload <$> contents (s_cal s).
Definition kind (m : msg_t) : Z * Z := (type m, msg_channel m).
Definition kind_of s (a : loc) : option (Z * Z) := kind <$> s_events s !! a.

(** The kinds of the events that wait while the calls [l] are in progress. *)
Definition due l : list (Z * Z) := (START_CALL, -1) :: ((fun x => (END_CALL, num x)) <$> l).

(** The events allocated are those held and those in the queue, which are of
    the kinds [ks]. *)
Record events (id : Z) (held : list loc) (ks : list (Z * Z)) s : Prop := {
  ev_steady : steady (cal_of s);
  ev_kinds : kind_of s <$> pending s ≡ₚ Some <$> ks;
  ev_time e : e ∈ contents (s_cal s) ->
    exists m, s_events s !! payload e = Some m /\ receiver m = id /\ (type m <> INIT -> timestamp m = priority e);
  ev_nodup : NoDup (held ++ pending s);
  ev_all a : is_Some (s_events s !! a) <-> a ∈ held ++ pending s;
  ev_fresh a : is_Some (s_events s !! a) -> (Pos.to_nat a <= tb_mallocs (s_tb s))%nat;
}.

Lemma events_perm id held ks ks' s : ks ≡ₚ ks' -> events id held ks s -> events id held ks' s.
Proof. intros Hp []. split; try done. by rewrite <- Hp. Qed.

Lemma events_tb id held ks s t :
  events id held ks s -> (tb_mallocs (s_tb s) <= tb_mallocs t)%nat -> events id held ks (with_tb t s).
Proof.
  intros [Hs ? ? ? ? Hf] Hn. split; try done.
  - destruct Hs. by split.
  - intros a Ha. etransitivity; [by apply Hf|done].
Qed.

Lemma events_count id held ks s : events id held ks s -> qsize (s_cal s) = Z.of_nat (length ks).
Proof.
  intros E. pose proof (ev_kinds _ _ _ _ E) as Hk%Permutation_length.
  unfold pending in Hk. rewrite !length_fmap in Hk. rewrite <- Hk.
  apply (qi_count _ (st_inv _ (ev_steady _ _ _ _ E))).
Qed.

Section simulation.
Context `{L : Libc} `{J : Junk} `{W : JunkWords}.
Context (O : queue_ops) `{!QueueLaws O} `{!LogLaws L}.
Hypothesis Hmem : forall n, malloc_fails n = false.

(** What is known of the events already there. *)
Definition kept_events s s' : Prop := forall a m, s_events s !! a = Some m -> s_events s' !! a = Some m.

#[export] Instance kept_events_preorder : PreOrder kept_events.
Proof. split; [by intros s a m|]. intros s1 s2 s3 H1 H2 a m Hm. by apply H2, H1. Qed.

(** ** Scheduling an event *)

(** A new event in memory. *)
Definition new_loc s : loc := Pos.of_succ_nat (tb_mallocs (s_tb s)).
Definition with_event m s : sim :=
  {| s_tb := set_mallocs (S (tb_mallocs (s_tb s))) (s_tb s); s_cal := s_cal s;
     s_events := <[new_loc s := m]> (s_events s) |}.

Lemma run_malloc_event m s : malloc_event m s = Ret (new_loc s, with_event m s).
Proof. unfold malloc_event, bind, get, put. cbn. by rewrite Hmem. Qed.

(** Putting it in the queue. *)
Lemma wpf_put_event id m stamp held ks s (Q : unit -> sim -> Prop) :
  events id held ks s -> Z.of_nat (length ks) + 1 < 2 ^ 31 -> nonneg stamp = true ->
  receiver m = id -> (type m <> INIT -> timestamp m = stamp) ->
  (forall n s', (tb_mallocs (s_tb s) <= n)%nat -> s_tb s' = set_mallocs n (s_tb s) ->
     events id held (kind m :: ks) s' -> kept_events s s' ->
     q_put O stamp (new_loc s) (cal_of (with_event m s)) = Ret (tt, cal_of s') -> Q tt s') ->
  wpf queue_fault (on_cal (q_put O stamp (new_loc s))) Q (with_event m s).
Proof.
  intros E Hlen Hst Hid Htime HQ. set (a := new_loc s). set (s2 := with_event m s).
  assert (s_events s !! a = None) as Hnew.
  { apply eq_None_not_Some. intros Ha%(ev_fresh _ _ _ _ E). unfold a, new_loc in Ha. lia. }
  pose proof (put_law (O := O) stamp a (cal_of s2)) as Hput.
  specialize (Hput ltac:(destruct (ev_steady _ _ _ _ E); by split)).
  specialize (Hput ltac:(cbn; pose proof (events_count _ _ _ _ E) as Hc; cbn in Hc; lia) Hst).
  unfold wpf, on_cal in *. destruct (q_put O stamp a (cal_of s2)) as [[[] q]|f] eqn:Eput; [|exact Hput].
  destruct Hput as (Hq & Hc & Hm). cbn [cal_of cq q_mallocs s2 with_event s_tb s_cal tb_mallocs set_mallocs] in Hc, Hm.
  set (s' := {| s_tb := _; s_cal := cq q; s_events := _ |}).
  assert (pending s' ≡ₚ a :: pending s) as Hpend by (unfold pending; cbn [s_cal s']; by rewrite Hc).
  assert (kept_events s s') as Hkeep.
  { intros b k Hb. cbn. rewrite lookup_insert_ne; [done|]. intros Eb. fold a in Eb. congruence. }
  apply (HQ (q_mallocs q) s'); [lia|done| |done|].
  2: { etransitivity; [exact Eput|]. by destruct q. }
  split.
  - destruct Hq. by split.
  - rewrite Hpend. cbn [fmap list_fmap]. apply Permutation_cons.
    + unfold kind_of. cbn. by rewrite lookup_insert_eq.
    + rewrite <- (ev_kinds _ _ _ _ E). cut (kind_of s' <$> pending s = kind_of s <$> pending s); [by intros ->|].
      apply list_fmap_ext. intros _ b Hb%list_elem_of_lookup_2.
      assert (is_Some (s_events s !! b)) as [k Hk].
      { apply (ev_all _ _ _ _ E). apply elem_of_app. by right. }
      unfold kind_of. rewrite (Hkeep _ _ Hk). cbn. by rewrite Hk.
  - intros e. cbn [s_cal s']. rewrite Hc, elem_of_cons. intros [->|He].
    + exists m. cbn. by rewrite lookup_insert_eq.
    + destruct (ev_time _ _ _ _ E e He) as (k & Hk & ? & ?). exists k. split; [by apply Hkeep|done].
  - rewrite Hpend, <- Permutation_middle. apply NoDup_cons. split; [|apply E].
    intros Ha%(ev_all _ _ _ _ E). rewrite Hnew in Ha. by destruct Ha.
  - intros b. rewrite Hpend, <- Permutation_middle, elem_of_cons. cbn.
    rewrite lookup_insert_is_Some'. rewrite (ev_all _ _ _ _ E b). split; intros [|]; auto.
  - intros b. cbn. rewrite lookup_insert_is_Some'. intros [<-|Hb]; [unfold new_loc; lia|].
    apply (ev_fresh _ _ _ _ E) in Hb. lia.
Qed.

Lemma wpf_schedule id ty stamp ch held ks s (P : Z -> tb -> Prop) (Q : unit -> sim -> Prop) :
  events id held ks s -> Z.of_nat (length ks) + 1 < 2 ^ 31 -> nonneg stamp = true ->
  wpf queue_fault ch (fun c s1 => exists t, s1 = with_tb t s /\ P c t /\ (tb_mallocs (s_tb s) <= tb_mallocs t)%nat) s ->
  (forall c t n s', P c t -> (tb_mallocs t <= n)%nat -> s_tb s' = set_mallocs n t ->
     events id held ((ty, c) :: ks) s' -> kept_events s s' -> Q tt s') ->
  wpf queue_fault (schedule O id ty stamp ch) Q s.
Proof.
  intros E Hlen Hst Hch HQ. eapply wpf_seq; [exact Hch|]. intros c s1 (t & -> & HP & Hn).
  pose proof (events_tb id held ks s t E Hn) as E1.
  unfold wpf, pack_event. rewrite (bind_run _ _ _ _ _ (run_malloc_event _ _)).
  apply (wpf_put_event id _ stamp held ks); [exact E1|done|done|done|done|].
  intros n s' Hn' Et E' Hk _. by apply (HQ c t n s').
Qed.

(** ** The next call *)
Lemma recompute_ta_pos now mean : recompute_ta TA now = Some mean -> finite_pos mean = true.
Proof.
  unfold recompute_ta. destruct (trunc now) as [z|]; [|done]. case_decide; [|done].
  intros Hm. injection Hm as <-. repeat match goal with |- context [if ?b then _ else _] => destruct b end; vm_compute; reflexivity.
Qed.

Lemma wp_Expent_nonneg mean t (Q : double -> tb -> Prop) :
  finite_pos mean = true -> (forall x r, nonneg x = true -> Q x (set_rng r t)) -> wp (Expent mean) Q t.
Proof.
  intros Hm HQ. destruct (Expent_nonneg mean t ltac:(apply _) Hm) as (x & r & Hrun & Hx).
  unfold wp. rewrite Hrun. by apply HQ.
Qed.

Lemma wpf_next_call id now p st l held ks s (Q : unit -> sim -> Prop) :
  phone 0 p st l (s_tb s) -> events id held ks s -> Z.of_nat (length ks) + 1 < 2 ^ 31 -> nonneg now = true ->
  (forall st' s', phone 0 p st' l (s_tb s') -> events id held ((START_CALL, -1) :: ks) s' -> kept_events s s' ->
     Q tt s') ->
  wpf queue_fault (next_call O id now (Some p)) Q s.
Proof.
  intros Ph E Hlen Hnow HQ. pose proof (ph_cell _ _ _ _ _ Ph) as C.
  apply wpf_bind, wpf_on_tb. eapply wp_tb_load; [apply C|]. rewrite (ph_ref _ _ _ _ _ Ph).
  destruct (recompute_ta TA now) as [mean|] eqn:Et; [|done]. pose proof (recompute_ta_pos _ _ Et) as Hmean.
  set (st' := set_clock (executed_events st) (lvt st) mean st).
  apply wpf_bind, wpf_on_tb. eapply wp_set_lp; [exact C|]. fold st'.
  assert (phone 0 p st' l (set_lp p st' (s_tb s))) as Ph1.
  { destruct Ph as [? ? ? ? ? ? []]. split; try done. by eapply cell_fields. }
  apply wpf_bind, wpf_on_tb, wp_Expent_nonneg; [done|]. intros x r Hx.
  set (t := set_rng r (set_lp p st' (s_tb s))).
  apply (wpf_schedule _ _ _ _ held ks _ (fun c t' => c = -1 /\ t' = t)).
  - by apply (events_tb _ _ _ s).
  - done.
  - by apply dadd_nonneg.
  - exists t. split; [done|]. split; [done|]. done.
  - intros c t' n s' [-> ->] Hn Et' E' Hk. apply (HQ st'); [|done|done].
    rewrite Et'. apply phone_mallocs; [|done]. by apply phone_rng.
Qed.

(** ** A call comes *)
Lemma u32_succ a b : u32 (u32 a + b) = u32 (a + b).
Proof. unfold u32, wrapU. apply Zplus_mod_idemp_l. Qed.

Lemma wpf_take_channel id now p st l held ks s (Q : unit -> sim -> Prop) :
  phone 1 p st l (s_tb s) -> channel_counter st <> 0 ->
  events id held ks s -> Z.of_nat (length ks) + 1 < 2 ^ 31 -> nonneg now = true ->
  (forall st' x s', phone 0 p st' (x :: l) (s_tb s') ->
     events id held ((END_CALL, num x) :: ks) s' -> kept_events s s' -> Q tt s') ->
  wpf queue_fault (take_channel O id now (Some p)) Q s.
Proof.
  intros Ph Hfree E Hlen Hnow HQ. pose proof (ph_cell _ _ _ _ _ Ph) as C.
  pose proof (cell_length _ _ _ _ C) as Hl. rewrite (ph_size _ _ _ _ _ Ph) in Hl.
  rewrite (ph_free _ _ _ _ _ Ph) in Hfree. unfold CHANNELS_PER_CELL in *.
  set (st1 := count_started st). apply wpf_bind, wpf_on_tb. eapply wp_set_lp; [exact C|]. fold st1.
  assert (cell p st1 l (set_lp p st1 (s_tb s))) as C1 by by eapply cell_fields.
  apply wpf_bind, wpf_on_tb. eapply wp_tb_load; [apply C1|].
  change (ta_duration st1) with (ta_duration st). rewrite (ph_duration _ _ _ _ _ Ph).
  apply wpf_bind, wpf_on_tb, wp_Expent_nonneg; [done|]. intros d r Hd.
  set (t := set_rng r (set_lp p st1 (s_tb s))). assert (cell p st1 l t) as C2 by (eapply cell_calm; [apply calm_rng|done]).
  destruct (some_channel_free _ _ _ _ C2) as [i0 Hi0].
  { change (channels_per_cell st1) with (channels_per_cell st). rewrite (ph_size _ _ _ _ _ Ph). unfold CHANNELS_PER_CELL. lia. }
  destruct (run_allocation p st1 l t i0 C2 Hi0 (Hmem _) (Hmem _))
    as (i & x & st' & t' & Hrun & _ & _ & Hx & C' & Hsame & _ & _ & Hm).
  apply (wpf_schedule _ _ _ _ held ks _ (fun c t2 => c = num x /\ t2 = t')).
  - by apply (events_tb _ _ _ s).
  - done.
  - by apply dadd_nonneg.
  - eapply wpf_on_tb_run; [exact Hrun|]. exists t'. split; [done|]. split; [by rewrite Hx|]. rewrite Hm. cbn. lia.
  - intros c t2 n s' [-> ->] Hn Et' E' Hk. apply (HQ st' x); [|done|done].
    rewrite Et'. apply phone_mallocs; [|done]. unfold same_cell in Hsame.
    assert (channel_counter st1 = CHANNELS_PER_CELL - Z.of_nat (length (x :: l))) as Hc.
    { cbn [st1 count_started set_counters channel_counter length]. rewrite (ph_free _ _ _ _ _ Ph).
      unfold CHANNELS_PER_CELL. rewrite u32_small by (unfold in_u32; lia). lia. }
    split; [done|rewrite Hsame; apply Ph|rewrite Hsame; exact Hc| |rewrite Hsame; apply Ph|rewrite Hsame; apply Ph|].
    + rewrite Hsame. cbn. rewrite (ph_calls _ _ _ _ _ Ph). f_equal. lia.
    + rewrite Hsame. destruct (ph_typed _ _ _ _ _ Ph). split; try done. apply u32_range.
Qed.

Lemma wpf_start_call id now p st l held ks s (Q : Z -> sim -> Prop) :
  phone 0 p st l (s_tb s) -> events id held ks s -> Z.of_nat (length ks) + 2 < 2 ^ 31 -> nonneg now = true ->
  (forall st' l' ks' s', phone 0 p st' l' (s_tb s') -> events id held ks' s' -> kept_events s s' ->
     (l' = l /\ ks' = (START_CALL, -1) :: ks \/
      exists x, l' = x :: l /\ ks' = (START_CALL, -1) :: (END_CALL, num x) :: ks) -> Q 0 s') ->
  wpf queue_fault (start_call O id now (Some p)) Q s.
Proof.
  intros Ph E Hlen Hnow HQ. pose proof (ph_cell _ _ _ _ _ Ph) as C.
  set (st1 := count_arriving st). apply wpf_bind, wpf_on_tb. eapply wp_set_lp; [exact C|]. fold st1.
  assert (phone 1 p st1 l (set_lp p st1 (s_tb s))) as Ph1.
  { destruct Ph as [? ? ? Hcalls ? ? []]. split; try done; [by eapply cell_fields| |].
    - cbn. rewrite Hcalls, u32_succ. f_equal. lia.
    - split; try done. apply u32_range. }
  set (s1 := with_tb (set_lp p st1 (s_tb s)) s). assert (events id held ks s1) as E1 by by apply events_tb.
  apply wpf_bind, wpf_on_tb. eapply wp_tb_load; [apply Ph1|].
  destruct (Z.eqb_spec (channel_counter st1) 0) as [Hfull|Hfree].
  - set (st2 := count_blocked st1). apply wpf_bind, wpf_on_tb. eapply wp_set_lp; [apply Ph1|]. fold st2.
    apply wpf_bind, (wpf_next_call _ _ _ st2 l held ks).
    + destruct Ph1 as [? ? ? Hcalls ? ? []]. split; try done; [by eapply cell_fields| |by split; try apply u32_range].
      cbn in *. rewrite Hcalls.
      replace (u32 (blocked_on_setup st + 1) + complete_calls st + Z.of_nat (length l) + 0)
        with (u32 (blocked_on_setup st + 1) + (complete_calls st + Z.of_nat (length l))) by lia.
      rewrite u32_succ. f_equal. lia.
    + by apply (events_tb _ _ _ s1).
    + lia.
    + done.
    + intros st' s' Ph' E' Hk. eapply HQ; [done|exact E'|exact Hk|by left].
  - eapply wpf_bind, (wpf_take_channel _ _ _ _ _ held ks s1); [exact Ph1|done|done|lia|done|].
    intros st2 x s2 Ph2 E2 Hk2. eapply wpf_bind, wpf_next_call; [exact Ph2|exact E2|cbn [length]; lia|done|].
    intros st3 s3 Ph3 E3 Hk3. eapply HQ; [exact Ph3|exact E3| |right; by exists x].
    intros b m Hb. by apply Hk3, Hk2.
Qed.

(** ** A call ends *)
Lemma wpf_end_call id ch p st l held ks s (Q : Z -> sim -> Prop) :
  phone 0 p st l (s_tb s) -> ch ∈ num <$> l -> events id held ks s ->
  (forall st' l1 x l2 s', l = l1 ++ x :: l2 -> num x = ch -> phone 0 p st' (l1 ++ l2) (s_tb s') ->
     events id held ks s' -> s_events s' = s_events s -> complete_calls st' = u32 (complete_calls st + 1) ->
     Q (if complete_calls st' =? COMPLETE_CALLS then 1 else 0) s') ->
  wpf queue_fault (end_call ch (Some p)) Q s.
Proof.
  intros Ph Hch E HQ. pose proof (ph_cell _ _ _ _ _ Ph) as C.
  pose proof (cell_length _ _ _ _ C) as Hl. rewrite (ph_size _ _ _ _ _ Ph) in Hl. unfold CHANNELS_PER_CELL in Hl.
  set (st1 := count_ended st). apply wpf_bind, wpf_on_tb. eapply wp_set_lp; [exact C|]. fold st1.
  assert (cell p st1 l (set_lp p st1 (s_tb s))) as C1 by by eapply cell_fields.
  destruct (run_deallocation p st1 l (set_lp p st1 (s_tb s)) ch C1 Hch)
    as (l1 & x & l2 & st' & t' & -> & Hx & Hrun & C' & Hsame & _ & _ & _ & _ & Hm).
  apply wpf_bind. eapply wpf_on_tb_run; [exact Hrun|].
  apply wpf_bind, wpf_on_tb. eapply wp_tb_load; [apply C'|].
  apply (HQ st' l1 x l2); [done|done| | |done|by rewrite Hsame].
  - unfold same_cell in Hsame. rewrite length_app in *. cbn [length] in *.
    assert (channel_counter st1 = CHANNELS_PER_CELL - Z.of_nat (length (l1 ++ l2))) as Hc.
    { cbn [st1 count_ended set_counters channel_counter]. rewrite (ph_free _ _ _ _ _ Ph).
      unfold CHANNELS_PER_CELL. rewrite !length_app. cbn [length]. rewrite u32_small by (unfold in_u32; lia). lia. }
    split; [exact C'|rewrite Hsame; apply Ph|rewrite Hsame; exact Hc| |rewrite Hsame; apply Ph|rewrite Hsame; apply Ph|].
    2: { rewrite Hsame. destruct (ph_typed _ _ _ _ _ Ph). split; try done; apply u32_range. }
    rewrite Hsame. cbn. rewrite (ph_calls _ _ _ _ _ Ph), !length_app. cbn [length].
    replace (blocked_on_setup st + u32 (complete_calls st + 1) + Z.of_nat (length l1 + length l2) + 0)
      with (u32 (complete_calls st + 1) + (blocked_on_setup st + Z.of_nat (length l1 + length l2))) by lia.
    rewrite u32_succ. f_equal. lia.
  - apply (events_tb _ _ _ s t'); [done|]. by rewrite Hm.
Qed.

(** ** The handler *)
Lemma phone_clock k p st l t n now mean :
  in_u32 n -> phone k p st l t -> phone k p (set_clock n now mean st) l (set_lp p (set_clock n now mean st) t).
Proof. intros Hn [? ? ? ? ? ? []]. split; try done. by eapply cell_fields. Qed.

Lemma due_end l ch ks :
  (END_CALL, ch) :: ks ≡ₚ due l -> ch ∈ num <$> l /\
  forall l1 x l2, l = l1 ++ x :: l2 -> num x = ch -> ks ≡ₚ due (l1 ++ l2).
Proof.
  intros Hk. split.
  - assert ((END_CALL, ch) ∈ due l) as Hin by (rewrite <- Hk; left). unfold due in Hin.
    apply elem_of_cons in Hin as [[=]|(x & [= Hx] & Hin)%list_elem_of_fmap]. subst ch. by apply list_elem_of_fmap_2.
  - intros l1 x l2 -> Hx. apply (Permutation_cons_inv (a := (END_CALL, ch))). rewrite Hk. unfold due.
    rewrite Permutation_swap. apply Permutation_skip. by rewrite fmap_middle, Hx.
Qed.

Lemma due_start l ks : (START_CALL, -1) :: ks ≡ₚ due l -> ks ≡ₚ (fun x => (END_CALL, num x)) <$> l.
Proof. intros Hk. by apply (Permutation_cons_inv (a := (START_CALL, -1))). Qed.

Lemma due_length l ks e : e :: ks ≡ₚ due l -> length ks = length l.
Proof. intros Hk%Permutation_length. unfold due in Hk. cbn [length] in Hk. rewrite length_fmap in Hk. lia. Qed.

Lemma wpf_process a m p st l ks s (Q : Z -> sim -> Prop) :
  phone 0 p st l (s_tb s) -> events (receiver m) [a] ks s -> s_events s !! a = Some m ->
  nonneg (timestamp m) = true -> kind m :: ks ≡ₚ due l ->
  (forall r st' l' s', phone 0 p st' l' (s_tb s') -> events (receiver m) [a] (due l') s' -> s_events s' !! a = Some m ->
     (r <> 0 -> type m = END_CALL /\ complete_calls st' = COMPLETE_CALLS) -> Q r s') ->
  wpf queue_fault (ProcessEvent O a (Some p)) Q s.
Proof.
  intros Ph E Ha Hnow Hk HQ. unfold ProcessEvent.
  assert (load_event a s = Ret (m, s)) as Hload by (unfold load_event, bind, get; by rewrite Ha).
  unfold wpf. rewrite (bind_run _ _ _ _ _ Hload).
  apply (wpf_bind queue_fault (on_tb _)), wpf_on_tb. eapply wp_set_lp; [apply Ph|].
  set (st1 := set_clock _ _ _ st). set (s1 := with_tb (set_lp p st1 (s_tb s)) s).
  assert (phone 0 p st1 l (s_tb s1)) as Ph1 by (by apply phone_clock; [apply u32_range|]).
  assert (events (receiver m) [a] ks s1) as E1 by by apply (events_tb _ _ _ s).
  pose proof (cell_length _ _ _ _ (ph_cell _ _ _ _ _ Ph)) as Hlen. rewrite (ph_size _ _ _ _ _ Ph) in Hlen.
  rewrite <- (due_length _ _ _ Hk) in Hlen. unfold CHANNELS_PER_CELL in Hlen.
  assert (kind m ∈ due l) as [E2|(x & E2 & Hx)%list_elem_of_fmap]%elem_of_cons by (rewrite <- Hk; left).
  - unfold kind in E2. injection E2 as Ht Hc. rewrite Ht. cbn [Z.eqb INIT START_CALL].
    apply (wpf_start_call _ _ _ st1 l [a] ks s1); [done|done|lia|done|].
    unfold kind in Hk. rewrite Ht, Hc in Hk. apply due_start in Hk.
    intros st' l' ks' s' Ph' E' Hkept Hnew. apply (HQ 0 st' l'); [done| |by apply Hkept|done].
    eapply events_perm; [|exact E']. destruct Hnew as [[-> ->]|(y & -> & ->)]; unfold due; cbn [fmap list_fmap]; by rewrite Hk.
  - unfold kind in E2. injection E2 as Ht Hc. unfold kind in Hk. rewrite Ht in Hk |- *. cbn [Z.eqb INIT START_CALL END_CALL].
    destruct (due_end _ _ _ Hk) as [Hin Hrest].
    apply (wpf_end_call (receiver m) _ _ st1 l [a] ks s1); [done|done|done|].
    intros st' l1 y l2 s' El Hy Ph' E' Hev Hcc. apply (HQ _ st' (l1 ++ l2)); [done| |by rewrite Hev|].
    + eapply events_perm; [|exact E']. by eapply Hrest.
    + destruct (Z.eqb_spec (complete_calls st') COMPLETE_CALLS); [done|lia].
Qed.

(** ** The first event *)
Lemma wp_clear_words p n : forall i st t (Q : unit -> tb -> Prop),
  tb_lps t !! p = Some st -> (i + n <= length (channel_state st))%nat ->
  (forall ws, length ws = length (channel_state st) ->
     (forall k, (i <= k < i + n)%nat -> ws !! k = Some 0) -> (forall k, (k < i)%nat -> ws !! k = channel_state st !! k) ->
     Q tt (set_lp p (set_channel_state ws st) t)) ->
  wp (clear_words n (Some p) (Z.of_nat i)) Q t.
Proof.
  induction n as [|n IH]; intros i st t Q Hp Hlen HQ; cbn [clear_words].
  { apply wp_ret. specialize (HQ (channel_state st) eq_refl ltac:(lia) ltac:(done)).
    replace (set_lp p (set_channel_state (channel_state st) st) t) with t in HQ; [done|].
    unfold set_lp. destruct st, t. cbn in *. by rewrite insert_id. }
  apply wp_bind. unfold clear_word. apply wp_bind. eapply wp_tb_load; [exact Hp|].
  rewrite (proj2 (Z.leb_le _ _)), (proj2 (Z.ltb_lt _ _)) by lia. cbn [andb]. rewrite Nat2Z.id.
  eapply wp_tb_update; [exact Hp|]. set (st1 := set_channel_state _ st).
  replace (Z.of_nat i + 1) with (Z.of_nat (S i)) by lia.
  assert (length (channel_state st1) = length (channel_state st)) as Hl by apply length_insert.
  apply (IH (S i) st1); [apply lookup_insert_eq|lia|]. intros ws Hws Hnew Hold.
  specialize (HQ ws ltac:(lia)). unfold set_lp, set_tb_heap, tb_heap in *. cbn in *. rewrite insert_insert_eq in *.
  apply HQ.
  - intros k Hk. destruct (decide (k = i)) as [->|]; [|apply Hnew; lia].
    rewrite Hold by lia. apply list_lookup_insert_eq. lia.
  - intros k Hk. rewrite Hold by lia. by apply list_lookup_insert_ne; lia.
Qed.

(** No heap object has an address that malloc has not given out. *)
Definition all_fresh t : Prop :=
  forall a, is_Some (tb_chans t !! a) \/ is_Some (tb_sirs t !! a) -> (Pos.to_nat a <= tb_mallocs t)%nat.

Lemma wp_init_state t (Q : option loc -> tb -> Prop) :
  all_fresh t ->
  (forall p st t', p = Pos.of_succ_nat (tb_mallocs t) -> phone 0 p st [] t' ->
     (tb_mallocs t <= tb_mallocs t')%nat -> Q (Some p) t') ->
  wp init_state Q t.
Proof.
  intros Hf HQ. apply wp_bind, wp_tb_malloc; [apply Hmem|]. cbn zeta.
  set (p := Pos.of_succ_nat (tb_mallocs t)). set (t1 := set_tb_heap _ _).
  apply wp_bind. eapply wp_tb_update; [apply lookup_insert_eq|]. set (t2 := set_tb_heap _ _).
  set (ws := junk_word <$> seqZ 0 (2 * (CHANNELS_PER_CELL / BITS + 1))).
  assert (length ws = 64%nat) as Hws by (unfold ws; by rewrite length_fmap, length_seqZ).
  set (st := set_channel_state ws (init_fields zero_state)).
  set (t3 := set_lp p st (set_mallocs (S (tb_mallocs t2)) t2)).
  apply wp_bind. assert (wp (malloc_words (Some p)) (fun _ t' => t' = t3) t2) as Hmw.
  { unfold malloc_words. apply wp_bind, wp_get, wp_bind, wp_put. rewrite Hmem.
    eapply wp_tb_update; [apply lookup_insert_eq|done]. }
  eapply wp_mono; [exact Hmw|]. intros [] ? ->.
  assert (tb_lps t3 !! p = Some st) as Hp3 by apply lookup_insert_eq.
  apply wp_bind. eapply wp_tb_load; [exact Hp3|]. change (Z.to_nat (channel_counter st / BITS + 1)) with 32%nat.
  apply wp_bind. apply (wp_clear_words p 32 0 st t3); [exact Hp3|change (channel_state st) with ws; lia|].
  intros ws' Hlen Hnew _. apply wp_ret. apply (HQ p (set_channel_state ws' st)); [done| |cbn; lia].
  change (channel_state st) with ws in Hlen. split; [|done..]. split; try done; try (by constructor).
  - apply lookup_insert_eq.
  - by intros x []%not_elem_of_nil.
  - cbn. rewrite Hlen, Hws. done.
  - by intros x []%not_elem_of_nil.
  - intros i Hi. cbn in Hi. unfold CHANNELS_PER_CELL in Hi. split; [|by intros []%not_elem_of_nil].
    unfold busy_bit. cbn [channel_state set_channel_state]. assert (0 <= i / BITS < 32) as Hw.
    { unfold BITS. split; [apply Z.div_pos; lia|apply Z.div_lt_upper_bound; lia]. }
    rewrite Hnew by lia. unfold CHECK_CHANNEL_BIT. by rewrite Z.land_0_l.
  - intros a Ha. cbn in Ha |- *. etransitivity; [by apply Hf|]. lia.
Qed.

Lemma wpf_process_init a m s (Q : Z -> sim -> Prop) :
  events (receiver m) [a] [] s -> s_events s !! a = Some m -> type m = INIT -> all_fresh (s_tb s) ->
  (forall p st s', p = new_loc s -> phone 0 p st [] (s_tb s') -> events (receiver m) [a] (due []) s' ->
     s_events s' !! a = Some m -> Q (Zpos p) s') ->
  wpf queue_fault (ProcessEvent O a None) Q s.
Proof.
  intros E Ha Ht Hf HQ. unfold ProcessEvent.
  assert (load_event a s = Ret (m, s)) as Hload by (unfold load_event, bind, get; by rewrite Ha).
  unfold wpf. rewrite (bind_run _ _ _ _ _ Hload), (bind_run (ret tt) _ s tt s) by done. rewrite Ht. cbn [Z.eqb INIT].
  apply (wpf_bind queue_fault (on_tb init_state)), wpf_on_tb, wp_init_state; [done|]. intros p st t Hp Ph Hn.
  destruct (Random_unit t) as (r & g & Hr & Hpos & _).
  apply wpf_bind. eapply wpf_on_tb_run; [exact Hr|].
  apply wpf_bind, (wpf_schedule _ _ _ _ [a] [] _ (fun c t' => c = -1 /\ t' = set_rng g t)).
  - by apply (events_tb _ _ _ s).
  - done.
  - apply dmul_nonneg_r; [done|]. by destruct r as [| [] | | []].
  - exists (set_rng g t). by split.
  - intros c t' n s' [-> ->] Hn' Et' E' Hk. apply (HQ p st); [done| |done|by apply Hk].
    rewrite Et'. apply phone_mallocs; [|done]. by apply phone_rng.
Qed.
End simulation.
