(* ===== verification/Ult.v ===== *)
(** * Local storage of the user-level threads ([testbed/src/ult.c])

    The testbed's own fibers keep their local storage in one array of the
    process, whose indices are handed out once and never taken back.
    [FlsOps] and [FlsLaws] are what the driver program needs of fiber local
    storage. *)
From S2P Require Import Prelude.
Local Open Scope prog_scope.

(** ** The interface (testbed/fiber.h) *)
Class FlsOps (F : Type) := {
  FlsAlloc : M F Z;
  FlsGetValue : Z -> M F Z;
  FlsSetValue : Z -> Z -> M F unit;
}.

(** What was stored under the indices in use is unchanged. *)
Definition same_storage {F : Type} (has : F -> Z -> Prop) (val : F -> Z -> Z) (s s' : F) : Prop :=
  forall j, has s j -> has s' j /\ val s' j = val s j.

(** An index that was handed out holds the value last set, if it is a value
    that can be stored ([fls_fits]); [fls_ok n]: the next [n] allocations do
    what they should.  A failed allocation gives a negative number. *)
Class FlsLaws (F : Type) `{FlsOps F} := {
  fls_ok : nat -> F -> Prop;
  fls_has : F -> Z -> Prop;
  fls_val : F -> Z -> Z;
  fls_fits : Z -> Prop;
  fls_alloc_law n s :
    fls_ok (S n) s -> exists i s', FlsAlloc s = Ret (i, s') /\ fls_ok n s' /\
      (- 2 ^ 31 <= i < 0 \/ 0 <= i < 2 ^ 31 /\ fls_has s' i /\ ~ fls_has s i) /\
      same_storage fls_has fls_val s s';
  fls_get_law n s i :
    fls_ok n s -> fls_has s i -> exists s', FlsGetValue i s = Ret (fls_val s i, s') /\ fls_ok n s' /\
      same_storage fls_has fls_val s s';
  fls_set_law n s i v :
    fls_ok n s -> fls_has s i -> fls_fits v ->
    exists s', FlsSetValue i v s = Ret (tt, s') /\ fls_ok n s' /\
      forall j, fls_has s j -> fls_has s' j /\ fls_val s' j = if decide (j = i) then v else fls_val s j;
  fls_fits_null : fls_fits 0;
}.

(** ** The array *)
Definition MAX_FLS : Z := 4096.

Record ult_storage := { fls : list Z; fls_idx : Z }.
Definition storage0 : ult_storage := {| fls := replicate (Z.to_nat MAX_FLS) 0; fls_idx := 0 |}.

(* __sync_fetch_and_add *)
Definition fls_alloc : M ult_storage Z :=
  s <- get ;;
  put {| fls := fls s; fls_idx := i64 (fls_idx s + 1) |} ;;;
  ret (if MAX_FLS <=? fls_idx s then -1 else fls_idx s).

Definition fls_get (idx : Z) : M ult_storage Z :=
  s <- get ;;
  match (if 0 <=? idx then fls s !! Z.to_nat idx else None) with
  | Some v => ret v
  | None => crash (OutOfBounds idx)
  end.

Definition fls_free (idx : Z) : M ult_storage bool := ret true.

Definition fls_set (idx value : Z) : M ult_storage unit :=
  s <- get ;;
  if (0 <=? idx) && (idx <? MAX_FLS)
  then put {| fls := <[Z.to_nat idx := value]> (fls s); fls_idx := fls_idx s |}
  else crash (OutOfBounds idx).

#[export] Instance ult_fls : FlsOps ult_storage := {|
  FlsAlloc := fls_alloc; FlsGetValue := fls_get; FlsSetValue := fls_set;
|}.

(** ** It keeps the promise

    until the counter has been incremented 2^63 times. *)
Definition storage_ok (n : nat) (s : ult_storage) : Prop :=
  length (fls s) = Z.to_nat MAX_FLS /\ 0 <= fls_idx s /\ fls_idx s + Z.of_nat n < 2 ^ 63.
Definition storage_has (s : ult_storage) (i : Z) : Prop := 0 <= i < fls_idx s /\ i < MAX_FLS.
Definition storage_val (s : ult_storage) (i : Z) : Z := default 0 (fls s !! Z.to_nat i).

Lemma fls_alloc_run n s :
  storage_ok (S n) s -> exists s', fls_alloc s = Ret (if MAX_FLS <=? fls_idx s then -1 else fls_idx s, s') /\
    storage_ok n s' /\ fls s' = fls s /\ fls_idx s' = fls_idx s + 1.
Proof.
  intros (Hl & H0 & Hn).
  assert (i64 (fls_idx s + 1) = fls_idx s + 1) as E by (apply i64_small; unfold in_i64; lia).
  exists {| fls := fls s; fls_idx := i64 (fls_idx s + 1) |}. split; [done|]. unfold storage_ok.
  cbn [fls fls_idx]. rewrite E. split; [|done]. lia.
Qed.

Lemma fls_get_run n s i :
  storage_ok n s -> storage_has s i -> fls_get i s = Ret (storage_val s i, s).
Proof.
  intros [Hl _] [[H0 _] Hi]. unfold fls_get, storage_val, bind, get.
  rewrite (proj2 (Z.leb_le 0 i)) by done.
  destruct (fls s !! Z.to_nat i) as [v|] eqn:E; [done|]. apply lookup_ge_None in E. lia.
Qed.

Lemma fls_set_run n s i v :
  storage_ok n s -> storage_has s i ->
  exists s', fls_set i v s = Ret (tt, s') /\ storage_ok n s' /\ fls_idx s' = fls_idx s /\
    forall j, storage_has s j -> storage_val s' j = if decide (j = i) then v else storage_val s j.
Proof.
  intros [Hl Hn] [[H0 Hlt] Hi]. eexists. split.
  { unfold fls_set, bind, get. rewrite (proj2 (Z.leb_le 0 i)), (proj2 (Z.ltb_lt i _)) by done. reflexivity. }
  split; [|split; [done|]].
  - split; [cbn; by rewrite length_insert|done].
  - intros j [[Hj _] Hj']. unfold storage_val. cbn. case_decide as Hd.
    + subst j. by rewrite list_lookup_insert_eq by lia.
    + rewrite list_lookup_insert_ne; [done|]. intros E. apply Hd. lia.
Qed.

#[export] Program Instance ult_fls_laws : FlsLaws ult_storage := {|
  fls_ok := storage_ok; fls_has := storage_has; fls_val := storage_val; fls_fits _ := True;
|}.
Next Obligation.
  intros n s Hs. destruct (fls_alloc_run n s Hs) as (s' & Hrun & Hs' & Ef & En). destruct Hs as (Hl & H0 & _).
  eexists _, s'. split; [exact Hrun|]. split; [done|]. split.
  - destruct (Z.leb_spec MAX_FLS (fls_idx s)) as [|Hlt]; [left; lia|right].
    unfold storage_has. rewrite En. unfold MAX_FLS in *. lia.
  - intros j Hj. unfold storage_has, storage_val in *. rewrite Ef, En. split; [lia|done].
Qed.
Next Obligation. intros n s i Hs Hi. exists s. split; [by apply (fls_get_run n)|by split]. Qed.
Next Obligation.
  intros n s i v Hs Hi _. destruct (fls_set_run n s i v Hs Hi) as (s' & Hrun & Hs' & En & Hv).
  exists s'. split; [exact Hrun|]. split; [done|]. intros j Hj. split; [|by apply Hv].
  unfold storage_has in *. by rewrite En.
Qed.
Next Obligation. done. Qed.
