(* ===== verification/Jmp.v ===== *)
(** * Saving and restoring a CPU ([testbed/src/jmp.S], [testbed/src/jmp.h])

    The two assembly functions as lists of instructions, run by an interpreter
    of the x86-64 instructions they use: the sixteen general registers, the
    status flags, the state of FXSAVE, and memory as quadwords.  A jump
    restores what the matching [set_jmp] saved, whatever stack it is made
    from ([jmp_roundtrip]). *)
From S2P Require Import Prelude.
Local Open Scope prog_scope.

(** ** The processor *)
Inductive reg :=
  | RAX | RDX | RCX | RBX | RSP | RBP | RSI | RDI
  | R8 | R9 | R10 | R11 | R12 | R13 | R14 | R15.

Definition reg_no (r : reg) : nat :=
  match r with
  | RAX => 0 | RDX => 1 | RCX => 2 | RBX => 3 | RSP => 4 | RBP => 5 | RSI => 6 | RDI => 7
  | R8 => 8 | R9 => 9 | R10 => 10 | R11 => 11 | R12 => 12 | R13 => 13 | R14 => 14 | R15 => 15
  end.

Record rflags := { CF : bool; PF : bool; AF : bool; ZF : bool; SF : bool; OF : bool }.

(** [fx]: the 64 quadwords FXSAVE writes.  [mapped]: the addresses that may
    be accessed; the functions make only aligned accesses to quadwords, so
    that two accesses are to the same bytes or to different ones. *)
Record cpu := {
  gpr : reg -> Z; eflags : rflags; fx : list Z; rip : Z;
  mapped : Z -> bool; mem : Z -> Z;
}.

(** What the processor does not document: AF after XOR. *)
Class Undefined := { xor_AF : Z -> bool }.

Definition set_gpr (r : reg) (v : Z) (g : reg -> Z) : reg -> Z :=
  fun q => if Nat.eqb (reg_no q) (reg_no r) then v else g q.
Definition set_mem (a v : Z) (m : Z -> Z) : Z -> Z := fun b => if b =? a then v else m b.
Fixpoint set_words (a : Z) (ws : list Z) (m : Z -> Z) : Z -> Z :=
  match ws with [] => m | w :: ws => set_words (a + 8) ws (set_mem a w m) end.
Definition get_words (a : Z) (n : nat) (m : Z -> Z) : list Z :=
  (fun k : nat => m (a + 8 * Z.of_nat k)) <$> seq 0 n.

Definition with_gpr (r : reg) (v : Z) (s : cpu) : cpu :=
  {| gpr := set_gpr r v (gpr s); eflags := eflags s; fx := fx s; rip := rip s;
     mapped := mapped s; mem := mem s |}.
Definition with_flags (f : rflags) (s : cpu) : cpu :=
  {| gpr := gpr s; eflags := f; fx := fx s; rip := rip s; mapped := mapped s; mem := mem s |}.
Definition with_fx (x : list Z) (s : cpu) : cpu :=
  {| gpr := gpr s; eflags := eflags s; fx := x; rip := rip s; mapped := mapped s; mem := mem s |}.
Definition with_rip (a : Z) (s : cpu) : cpu :=
  {| gpr := gpr s; eflags := eflags s; fx := fx s; rip := a; mapped := mapped s; mem := mem s |}.
Definition with_mem (m : Z -> Z) (s : cpu) : cpu :=
  {| gpr := gpr s; eflags := eflags s; fx := fx s; rip := rip s; mapped := mapped s; mem := m |}.

(** *** Memory *)
Definition accessible (a : Z) (s : cpu) : bool := (a mod 8 =? 0) && mapped s a.

Definition load (a : Z) : M cpu Z :=
  s <- get ;; if accessible a s then ret (mem s a) else crash (BadPointer a).
Definition store (a v : Z) : M cpu unit :=
  s <- get ;;
  if accessible a s then put (with_mem (set_mem a v (mem s)) s) else crash (BadPointer a).

(** *** Flags *)
Definition parity (x : Z) : bool := negb (foldr (fun k b => xorb (Z.testbit x k) b) false (seqZ 0 8)).
Definition add_flags (w a b : Z) : rflags :=
  let r := wrapU w (a + b) in
  let neg x := 2 ^ (w - 1) <=? x in
  {| CF := 2 ^ w <=? a + b; PF := parity r; AF := 16 <=? a mod 16 + b mod 16;
     ZF := r =? 0; SF := neg r; OF := eqb (neg a) (neg b) && negb (eqb (neg r) (neg a)) |}.
Definition xor_flags `{Undefined} (r : Z) : rflags :=
  {| CF := false; PF := parity r; AF := xor_AF r; ZF := r =? 0; SF := 2 ^ 63 <=? r; OF := false |}.

(** The two low bytes of a register. *)
Definition low (x : Z) : Z := x mod 256.
Definition high (x : Z) : Z := (x / 256) mod 256.
Definition set_low (v x : Z) : Z := x - low x + v.
Definition set_high (v x : Z) : Z := x - 256 * high x + 256 * v.

(** LAHF: bit 7 SF, 6 ZF, 4 AF, 2 PF, 1 set, 0 CF. *)
Definition flags_byte (f : rflags) : Z :=
  128 * Z.b2z (SF f) + 64 * Z.b2z (ZF f) + 16 * Z.b2z (AF f) + 4 * Z.b2z (PF f) + 2 + Z.b2z (CF f).
Definition byte_flags (o : bool) (b : Z) : rflags :=
  {| CF := Z.testbit b 0; PF := Z.testbit b 2; AF := Z.testbit b 4;
     ZF := Z.testbit b 6; SF := Z.testbit b 7; OF := o |}.

(** ** The instructions *)
Inductive instr :=
  | PUSHQ (r : reg)
  | POPQ (r : reg)
  | MOVQ (src dst : reg)
  | LOADQ (d : Z) (b dst : reg)      (* movq d(b), dst *)
  | STOREQ (src : reg) (d : Z) (b : reg)  (* movq src, d(b) *)
  | ADDQ_MEM (i d : Z) (b : reg)
  | ADDQ (i : Z) (dst : reg)
  | XORQ (src dst : reg)
  | ADDB_AL (i : Z)
  | LAHF
  | SAHF
  | SETO_AL
  | FXSAVE (d : Z) (b : reg)
  | FXRSTOR (d : Z) (b : reg)
  | RET.

Section exec.
Context `{Ud : Undefined}.

Definition reg_ (r : reg) : M cpu Z := s <- get ;; ret (gpr s r).
Definition set_reg_ (r : reg) (v : Z) : M cpu unit := modify (with_gpr r v).
Definition address (d : Z) (b : reg) : M cpu Z := x <- reg_ b ;; ret (u64 (x + d)).

Definition push (v : Z) : M cpu unit :=
  a <- address (-8) RSP ;; store a v ;;; set_reg_ RSP a.
Definition pop : M cpu Z :=
  a <- reg_ RSP ;; v <- load a ;; set_reg_ RSP (u64 (a + 8)) ;;; ret v.

(* FXSAVE and FXRSTOR fault on memory that is not aligned to 16 bytes *)
Definition fx_area (a : Z) : M cpu unit :=
  s <- get ;;
  assert_or ((a mod 16 =? 0) && forallb (fun k => accessible (a + 8 * k) s) (seqZ 0 64)) (BadPointer a).

Definition exec1 (i : instr) : M cpu unit :=
  match i with
  | PUSHQ r => v <- reg_ r ;; push v
  | POPQ r => v <- pop ;; set_reg_ r v
  | MOVQ src dst => v <- reg_ src ;; set_reg_ dst v
  | LOADQ d b dst => a <- address d b ;; v <- load a ;; set_reg_ dst v
  | STOREQ src d b => a <- address d b ;; v <- reg_ src ;; store a v
  | ADDQ_MEM i d b =>
      a <- address d b ;; v <- load a ;; store a (u64 (v + i)) ;;; modify (with_flags (add_flags 64 v i))
  | ADDQ i dst =>
      v <- reg_ dst ;; set_reg_ dst (u64 (v + i)) ;;; modify (with_flags (add_flags 64 v i))
  | XORQ src dst =>
      v <- reg_ src ;; w <- reg_ dst ;;
      set_reg_ dst (Z.lxor v w) ;;; modify (with_flags (xor_flags (Z.lxor v w)))
  | ADDB_AL i =>
      v <- reg_ RAX ;;
      set_reg_ RAX (set_low (wrapU 8 (low v + i)) v) ;;; modify (with_flags (add_flags 8 (low v) i))
  | LAHF => v <- reg_ RAX ;; s <- get ;; set_reg_ RAX (set_high (flags_byte (eflags s)) v)
  | SAHF => v <- reg_ RAX ;; s <- get ;; put (with_flags (byte_flags (OF (eflags s)) (high v)) s)
  | SETO_AL => v <- reg_ RAX ;; s <- get ;; set_reg_ RAX (set_low (Z.b2z (OF (eflags s))) v)
  | FXSAVE d b =>
      a <- address d b ;; fx_area a ;;; s <- get ;; put (with_mem (set_words a (fx s) (mem s)) s)
  | FXRSTOR d b =>
      a <- address d b ;; fx_area a ;;; s <- get ;; put (with_fx (get_words a 64 (mem s)) s)
  | RET => a <- pop ;; modify (with_rip a)
  end.

Fixpoint exec (code : list instr) : M cpu unit :=
  match code with
  | [] => ret tt
  | i :: code => exec1 i ;;; exec code
  end.
End exec.

(** ** The two functions (jmp.S) *)
Definition _set_jmp : list instr := [
  PUSHQ RAX;
  PUSHQ R11;
  LAHF;
  SETO_AL;
  PUSHQ RAX;
  MOVQ RDI RAX;
  LOADQ 16 RSP R11;
  STOREQ R11 0 RAX;
  STOREQ RDX 8 RAX;
  STOREQ RCX 16 RAX;
  STOREQ RBX 24 RAX;
  STOREQ RSP 32 RAX;
  ADDQ_MEM 16 32 RAX;
  STOREQ RBP 40 RAX;
  STOREQ RSI 48 RAX;
  LOADQ 32 RSP R11;
  STOREQ R11 56 RAX;
  STOREQ R8 64 RAX;
  STOREQ R9 72 RAX;
  STOREQ R10 80 RAX;
  LOADQ 8 RSP R11;
  STOREQ R11 88 RAX;
  STOREQ R12 96 RAX;
  STOREQ R13 104 RAX;
  STOREQ R14 112 RAX;
  STOREQ R15 120 RAX;
  LOADQ 0 RSP RDX;
  STOREQ RDX 136 RAX;
  LOADQ 24 RSP R11;
  STOREQ R11 128 RAX;
  FXSAVE 144 RAX;
  ADDQ 24 RSP;
  XORQ RAX RAX;
  RET
].

Definition _long_jmp : list instr := [
  MOVQ RDI RAX;
  LOADQ 128 RAX R10;
  LOADQ 32 RAX R11;
  STOREQ R10 8 R11;
  STOREQ RSI 0 R11;
  LOADQ 8 RAX RDX;
  LOADQ 16 RAX RCX;
  LOADQ 24 RAX RBX;
  LOADQ 32 RAX RSP;
  LOADQ 40 RAX RBP;
  LOADQ 48 RAX RSI;
  LOADQ 64 RAX R8;
  LOADQ 72 RAX R9;
  LOADQ 80 RAX R10;
  LOADQ 88 RAX R11;
  LOADQ 96 RAX R12;
  LOADQ 104 RAX R13;
  LOADQ 112 RAX R14;
  LOADQ 136 RAX RAX;
  ADDB_AL 127;
  SAHF;
  MOVQ RDI RAX;
  LOADQ 56 RAX RDI;
  LOADQ 120 RAX R15;
  FXRSTOR 144 RAX;
  LOADQ 32 RAX RSP;
  POPQ RAX;
  RET
].

(** ** The structure and the macros (jmp.h) *)
Record exec_context_t := {
  rax : Z; rdx : Z; rcx : Z; rbx : Z; rsp : Z; rbp : Z; rsi : Z; rdi : Z;
  r8 : Z; r9 : Z; r10 : Z; r11 : Z; r12 : Z; r13 : Z; r14 : Z; r15 : Z;
  rip_ : Z; flags : Z; others : list Z;
}.

Definition context_at (env : Z) (m : Z -> Z) : exec_context_t :=
  {| rax := m env; rdx := m (env + 8); rcx := m (env + 16); rbx := m (env + 24);
     rsp := m (env + 32); rbp := m (env + 40); rsi := m (env + 48); rdi := m (env + 56);
     r8 := m (env + 64); r9 := m (env + 72); r10 := m (env + 80); r11 := m (env + 88);
     r12 := m (env + 96); r13 := m (env + 104); r14 := m (env + 112); r15 := m (env + 120);
     rip_ := m (env + 128); flags := m (env + 136); others := get_words (env + 144) 64 m |}.

Section macros.
Context `{Ud : Undefined}.

(** CALL pushes the address [back] of the next instruction. *)
Definition call (f : list instr) (back : Z) : M cpu unit := push back ;;; exec f.

(** What follows the call in [set_jmp]; a jump comes back here. *)
Definition set_jmp_rest : M cpu Z := exec1 (ADDQ 8 RSP) ;;; v <- reg_ RAX ;; ret (i32 v).

Definition set_jmp (env back : Z) : M cpu Z :=
  exec1 (PUSHQ RDI) ;;; set_reg_ RDI env ;;; call _set_jmp back ;;; set_jmp_rest.

Definition long_jmp (env val back : Z) : M cpu unit :=
  set_reg_ RDI env ;;; set_reg_ RSI val ;;; call _long_jmp back.
End macros.

(** ** Running the instructions *)
Lemma set_mem_eq a b v m : a = b -> set_mem a v m b = v.
Proof. intros ->. unfold set_mem. by rewrite Z.eqb_refl. Qed.
Lemma set_mem_ne a b v m : a <> b -> set_mem a v m b = m b.
Proof. intros H. unfold set_mem. by rewrite (proj2 (Z.eqb_neq b a)) by congruence. Qed.

Lemma set_words_out ws : forall a m b,
  b < a \/ a + 8 * Z.of_nat (length ws) <= b -> set_words a ws m b = m b.
Proof.
  induction ws as [|w ws IH]; intros a m b Hb; cbn [set_words length] in *; [done|].
  rewrite IH by lia. apply set_mem_ne. lia.
Qed.

Lemma set_words_in ws : forall a m k w,
  ws !! k = Some w -> set_words a ws m (a + 8 * Z.of_nat k) = w.
Proof.
  induction ws as [|w0 ws IH]; intros a m k w Hk; cbn [set_words]; [done|].
  destruct k as [|k]; cbn in Hk.
  - injection Hk as ->. rewrite set_words_out by lia. apply set_mem_eq. lia.
  - replace (a + 8 * Z.of_nat (S k)) with (a + 8 + 8 * Z.of_nat k) by lia. by apply IH.
Qed.

Lemma get_set_words a ws m : get_words a (length ws) (set_words a ws m) = ws.
Proof.
  apply list_eq. intros k. unfold get_words. rewrite list_lookup_fmap.
  destruct (ws !! k) as [w|] eqn:E.
  - rewrite lookup_seq_lt by (by eapply lookup_lt_Some). cbn. by rewrite (set_words_in _ _ _ _ _ E).
  - by rewrite lookup_seq_ge by (by eapply lookup_ge_None).
Qed.

Lemma wp_load_word a Q s : accessible a s = true -> Q (mem s a) s -> wp (load a) Q s.
Proof. intros H HQ. unfold load. apply wp_bind, wp_get. by rewrite H. Qed.

Lemma wp_store_word a v Q s :
  accessible a s = true -> Q tt (with_mem (set_mem a v (mem s)) s) -> wp (store a v) Q s.
Proof. intros H HQ. unfold store. apply wp_bind, wp_get. by rewrite H. Qed.

Lemma wp_fx_area a Q s :
  a mod 16 = 0 -> (forall k, 0 <= k < 64 -> mapped s (a + 8 * k) = true) -> Q tt s -> wp (fx_area a) Q s.
Proof.
  intros Ha Hm HQ. unfold fx_area. apply wp_bind, wp_get, wp_assert; [|done].
  rewrite Ha, Z.eqb_refl. apply forallb_forall. intros k Hk%list_elem_of_In%elem_of_seqZ.
  unfold accessible. rewrite (Hm k) by lia. rewrite andb_true_r. apply Z.eqb_eq.
  Z.to_euclidean_division_equations. lia.
Qed.

(** Flags survive LAHF, SETO, ADDB and SAHF. *)
Lemma flags_roundtrip f x :
  let y := set_low (Z.b2z (OF f)) (set_high (flags_byte f) x) in
  byte_flags (OF (add_flags 8 (low y) 127)) (high (set_low (wrapU 8 (low y + 127)) y)) = f.
Proof.
  cbn zeta. set (b := flags_byte f). assert (0 <= b < 256) as Hb.
  { subst b. unfold flags_byte. destruct f as [[] [] [] [] [] []]; cbn; lia. }
  assert (forall v z, 0 <= v < 256 -> low (set_low v z) = v /\ high (set_low v z) = high z) as Hlow.
  { intros v z Hv. unfold low, high, set_low, low. Z.to_euclidean_division_equations. lia. }
  assert (high (set_high b x) = b) as Hhigh.
  { unfold high, set_high, high. Z.to_euclidean_division_equations. lia. }
  assert (0 <= Z.b2z (OF f) < 256) as Ho by (destruct (OF f); cbn; lia).
  destruct (Hlow (Z.b2z (OF f)) (set_high b x) Ho) as [-> E].
  rewrite (proj2 (Hlow (wrapU 8 (Z.b2z (OF f) + 127)) _ (wrapU_range 8 _ ltac:(lia)))), E, Hhigh.
  subst b. by destruct f as [[] [] [] [] [] []].
Qed.

(** ** What set_jmp saves *)

(** A context that can be written and read; room for the five words
    [set_jmp] pushes. *)
Record env_ok (env : Z) (s : cpu) : Prop := {
  env_aligned : env mod 16 = 0;
  env_range : 0 < env /\ env + 656 <= 2 ^ 64;
  env_mapped k : 0 <= k < 82 -> mapped s (env + 8 * k) = true;
}.
Record stack_ok (S : Z) (n : Z) (s : cpu) : Prop := {
  stack_aligned : S mod 8 = 0;
  stack_range : 8 * n <= S < 2 ^ 64;
  stack_mapped k : 0 < k <= n -> mapped s (S - 8 * k) = true;
}.
Definition apart (S n env : Z) : Prop := S <= env \/ env + 656 <= S - 8 * n.

Lemma env_word env s d : env_ok env s -> 0 <= d < 656 -> d mod 8 = 0 -> accessible (env + d) s = true.
Proof.
  intros [Ha _ Hm] Hd Hd8. unfold accessible. apply andb_true_intro. split.
  - apply Z.eqb_eq. Z.to_euclidean_division_equations. lia.
  - replace d with (8 * (d / 8)) by (Z.to_euclidean_division_equations; lia). apply Hm.
    Z.to_euclidean_division_equations. lia.
Qed.

Lemma stack_word S n s d : stack_ok S n s -> 0 < d <= 8 * n -> d mod 8 = 0 -> accessible (S - d) s = true.
Proof.
  intros [Ha _ Hm] Hd Hd8. unfold accessible. apply andb_true_intro. split.
  - apply Z.eqb_eq. Z.to_euclidean_division_equations. lia.
  - replace d with (8 * (d / 8)) by (Z.to_euclidean_division_equations; lia). apply Hm.
    Z.to_euclidean_division_equations. lia.
Qed.

Lemma stack_at S n s s' a :
  stack_ok S n s -> mapped s' = mapped s -> S - 8 * n <= a < S -> (S - a) mod 8 = 0 -> accessible a s' = true.
Proof.
  intros Hs E Ha Hd. unfold accessible. rewrite E. replace a with (S - (S - a)) by lia.
  apply (stack_word S n); [done|lia|done].
Qed.

Lemma env_at env s s' a :
  env_ok env s -> mapped s' = mapped s -> env <= a < env + 656 -> (a - env) mod 8 = 0 -> accessible a s' = true.
Proof.
  intros He E Ha Hd. unfold accessible. rewrite E. replace a with (env + (a - env)) by lia.
  apply env_word; [done|lia|done].
Qed.

Definition saved_flags (s : cpu) : Z :=
  set_low (Z.b2z (OF (eflags s))) (set_high (flags_byte (eflags s)) (gpr s RAX)).

(** The context of a CPU [s] whose macro pushed RDI at the address [S - 8]. *)
Definition saved (s : cpu) (back : Z) : exec_context_t :=
  let g := gpr s in
  {| rax := g RAX; rdx := g RDX; rcx := g RCX; rbx := g RBX; rsp := g RSP - 24; rbp := g RBP;
     rsi := g RSI; rdi := g RDI; r8 := g R8; r9 := g R9; r10 := g R10; r11 := g R11;
     r12 := g R12; r13 := g R13; r14 := g R14; r15 := g R15; rip_ := back;
     flags := saved_flags s; others := fx s |}.

Definition saved_reg (r : reg) (c : exec_context_t) : Z :=
  match r with
  | RAX => rax c | RDX => rdx c | RCX => rcx c | RBX => rbx c | RSP => rsp c | RBP => rbp c
  | RSI => rsi c | RDI => rdi c | R8 => r8 c | R9 => r9 c | R10 => r10 c | R11 => r11 c
  | R12 => r12 c | R13 => r13 c | R14 => r14 c | R15 => r15 c
  end.

Lemma get_words_ext a n m m' :
  (forall b, a <= b < a + 8 * Z.of_nat n -> m' b = m b) -> get_words a n m' = get_words a n m.
Proof.
  intros H. unfold get_words. apply list_fmap_ext. intros i k [-> Hk]%lookup_seq. apply H. lia.
Qed.

Section run.
Context `{Ud : Undefined}.

Lemma wp_exec_cons i code Q s :
  wp (exec1 i) (fun _ s' => wp (exec code) Q s') s -> wp (exec (i :: code)) Q s.
Proof. apply wp_bind. Qed.

Lemma wp_exec_nil Q s : Q tt s -> wp (exec []) Q s.
Proof. done. Qed.

(** Addresses without wrap-around. *)
Ltac small := rewrite !u64_small by (unfold in_u64; lia).
Ltac regs := cbn [gpr mem eflags fx rip mapped with_gpr with_mem with_flags with_rip with_fx
  set_gpr reg_no Nat.eqb].
(** A word of the context, or one below [S]. *)
Ltac word S env :=
  first [ eapply (stack_at S); [eassumption|reflexivity|lia|Z.to_euclidean_division_equations; lia]
        | eapply (env_at env); [eassumption|reflexivity|lia|Z.to_euclidean_division_equations; lia] ].
Ltac fx_ok env := first
  [ match goal with He : env_ok env _ |- _ => pose proof (env_aligned _ _ He) end;
    Z.to_euclidean_division_equations; lia
  | intros k Hk; cbn [mapped]; replace (env + 144 + 8 * k) with (env + 8 * (18 + k)) by lia;
    match goal with He : env_ok env _ |- _ => apply (env_mapped _ _ He); lia end ].
Ltac lookup := repeat first [rewrite set_mem_eq by lia | rewrite set_mem_ne by lia
  | rewrite set_words_out by lia].
Ltac instr1 S env :=
  first [apply wp_exec_cons | apply wp_exec_nil];
  unfold exec1, push, pop, address, reg_, set_reg_;
  repeat (first [wp_step | apply wp_fx_area; [fx_ok env|fx_ok env|] | apply wp_load_word; [word S env|] | apply wp_store_word; [word S env|]];
          cbn beta iota; regs; try small; lookup);
  unfold with_gpr, with_mem, with_flags; regs.

Lemma wp_call_set_jmp env back s S Q :
  env_ok env s -> gpr s RDI = env -> gpr s RSP = S - 8 -> stack_ok S 5 s -> apart S 5 env ->
  length (fx s) = 64%nat ->
  (forall s1,
     gpr s1 RAX = 0 -> gpr s1 RSP = S - 8 -> rip s1 = back -> fx s1 = fx s -> mapped s1 = mapped s ->
     (forall r, r ∉ [RAX; RDX; R11] -> gpr s1 r = gpr s r) ->
     (forall a, (a < env \/ env + 656 <= a) -> (a < S - 40 \/ S - 8 <= a) -> mem s1 a = mem s a) ->
     context_at env (mem s1) =
       saved (with_gpr RSP S (with_gpr RDI (mem s (S - 8)) s)) back ->
     Q tt s1) ->
  wp (call _set_jmp back) Q s.
Proof.
  intros He Hdi Hsp Hs Ha Hfx HQ. pose proof (env_range _ _ He). pose proof (stack_range _ _ _ Hs).
  unfold apart in Ha.
  destruct s as [g f x ip mp m]. cbn [gpr mem eflags fx rip mapped] in *.
  unfold call, push, address, reg_, set_reg_. wp_auto. regs. rewrite Hsp. small. apply wp_store_word; [word S env|].
  wp_auto. regs. unfold _set_jmp.
  do 6 instr1 S env. rewrite !Hdi. do 28 instr1 S env.
  instr1 S env. apply HQ.
  all: try done; cbn [gpr mem]; regs; try lia.
  - apply Z.lxor_nilpotent.
  - intros r Hr. destruct r; regs; try done; try lia; set_solver.
  - intros a He1 Hs1. by lookup.
  - unfold context_at, saved, saved_flags. cbn [gpr eflags fx with_gpr]. regs.
    f_equal; try (rewrite ?Z.add_0_r; lookup; lia || (f_equal; lia) || done).
    rewrite <- Hfx at 1. apply get_set_words.
Qed.

(** [long_jmp] loads the context and pops the value and the return address
    it wrote below the stack that was left. *)
Lemma wp_call_long_jmp env val back s S T Q :
  env_ok env s -> gpr s RDI = env -> gpr s RSI = val ->
  gpr s RSP = T -> stack_ok T 1 s -> apart T 1 env ->
  rsp (context_at env (mem s)) = S - 24 -> stack_ok S 3 s -> apart S 3 env ->
  (forall s2 c, c = context_at env (mem s) ->
     gpr s2 RAX = val -> gpr s2 RSP = S - 8 -> rip s2 = rip_ c -> fx s2 = others c ->
     (forall r, r ∉ [RAX; RSP] -> gpr s2 r = saved_reg r c) ->
     eflags s2 = byte_flags (OF (add_flags 8 (low (flags c)) 127))
       (high (set_low (wrapU 8 (low (flags c) + 127)) (flags c))) ->
     mapped s2 = mapped s ->
     (forall a, a ∉ [T - 8; S - 24; S - 16] -> mem s2 a = mem s a) ->
     Q tt s2) ->
  wp (call _long_jmp back) Q s.
Proof.
  intros He Hdi Hsi Hsp HT HaT Hc HS HaS HQ. pose proof (env_range _ _ He).
  pose proof (stack_range _ _ _ HT). pose proof (stack_range _ _ _ HS). unfold apart in *.
  destruct s as [g f x ip mp m]. cbn [gpr mem eflags fx rip mapped rsp context_at] in *.
  unfold call, push, address, reg_, set_reg_. wp_auto. regs. rewrite Hsp. small. apply wp_store_word; [word T env|].
  wp_auto. regs. unfold _long_jmp.
  instr1 T env. rewrite Hdi. do 21 instr1 S env. rewrite Hdi. do 7 instr1 S env. apply (HQ _ _ eq_refl).
  all: try done; cbn [gpr mem eflags fx]; regs; try lia.
  - cbn [context_at others]. apply get_words_ext. intros b Hb. by lookup.
  - intros r Hr. destruct r; cbn [saved_reg context_at rdx rcx rbx rbp rsi rdi r8 r9 r10 r11 r12 r13 r14 r15];
      regs; try done; set_solver.
  - intros a Hout. rewrite !not_elem_of_cons in Hout. by lookup.
Qed.

(** [set_jmp] returns 0; it writes the context and nothing but the five words
    below its caller's stack, and keeps every register its caller may rely
    on. *)
Lemma set_jmp_run env back s :
  env_ok env s -> stack_ok (gpr s RSP) 5 s -> apart (gpr s RSP) 5 env -> length (fx s) = 64%nat ->
  exists s1, set_jmp env back s = Ret (0, s1) /\
    gpr s1 RSP = gpr s RSP /\ rip s1 = back /\ fx s1 = fx s /\ mapped s1 = mapped s /\
    (forall r, r ∉ [RAX; RDX; R11; RDI; RSP] -> gpr s1 r = gpr s r) /\
    (forall a, (a < env \/ env + 656 <= a) -> (a < gpr s RSP - 40 \/ gpr s RSP <= a) -> mem s1 a = mem s a) /\
    context_at env (mem s1) = saved s back.
Proof.
  intros He Hs Ha Hfx. pose proof (env_range _ _ He). pose proof (stack_range _ _ _ Hs).
  set (S := gpr s RSP) in *.
  assert (wp (set_jmp env back) (fun v s1 => v = 0 /\ gpr s1 RSP = S /\ rip s1 = back /\ fx s1 = fx s /\
    mapped s1 = mapped s /\ (forall r, r ∉ [RAX; RDX; R11; RDI; RSP] -> gpr s1 r = gpr s r) /\
    (forall a, (a < env \/ env + 656 <= a) -> (a < S - 40 \/ S <= a) -> mem s1 a = mem s a) /\
    context_at env (mem s1) = saved s back) s) as Hwp.
  2: { apply wp_run in Hwp as (v & s1 & Hrun & -> & Hpost). by exists s1. }
  unfold set_jmp, exec1, push, address, reg_, set_reg_. wp_auto. fold S. small. apply wp_store_word; [word S env|].
  wp_auto. apply (wp_call_set_jmp env _ _ S); try done.
  - by destruct He.
  - by destruct Hs.
  - intros s1 Hax Hsp Hip Hx Hmp Hg Hm Hc. unfold set_jmp_rest, exec1, reg_, set_reg_. wp_auto. regs.
    rewrite Hax, Hsp. small. split; [done|]. split; [lia|]. do 3 (split; [done|]).
    split; [|split].
    + intros r Hr. rewrite !not_elem_of_cons in Hr. destruct r; regs; try tauto;
        (rewrite Hg by set_solver); by regs.
    + intros a H1 H2. rewrite Hm by lia. regs. lookup. done.
    + rewrite Hc. unfold saved, saved_flags. regs. f_equal. apply set_mem_eq. lia.
Qed.

(** C33: the round trip: [set_jmp] returns 0 and saves the CPU; any later
    [long_jmp] to the context, from any stack, puts back every register but
    RAX, the status flags and the FX state, on the old stack, at the return
    of [set_jmp], whose value is now the low half of the one passed. *)
Theorem jmp_roundtrip env back s :
  env_ok env s -> stack_ok (gpr s RSP) 5 s -> apart (gpr s RSP) 5 env -> length (fx s) = 64%nat ->
  exists s1, set_jmp env back s = Ret (0, s1) /\
    forall s' val back', context_at env (mem s') = context_at env (mem s1) -> env_ok env s' ->
      stack_ok (gpr s RSP) 3 s' -> stack_ok (gpr s' RSP) 1 s' -> apart (gpr s' RSP) 1 env ->
      exists s2 s3, long_jmp env val back' s' = Ret (tt, s2) /\ rip s2 = back /\
        eflags s2 = eflags s /\ fx s2 = fx s /\
        set_jmp_rest s2 = Ret (i32 (gpr s2 RAX), s3) /\ gpr s2 RAX = val /\
        (forall r, r <> RAX -> gpr s3 r = gpr s r) /\ fx s3 = fx s /\
        (forall a, a ∉ [gpr s RSP - 24; gpr s RSP - 16; gpr s' RSP - 8] -> mem s3 a = mem s' a).
Proof.
  intros He Hs Ha Hfx. destruct (set_jmp_run env back s He Hs Ha Hfx) as (s1 & Hrun & _ & _ & _ & _ & _ & _ & Hc).
  exists s1. split; [done|]. intros s' val back' Hc' He' Hs' HT HaT. rewrite Hc in Hc'.
  pose proof (stack_range _ _ _ Hs).
  assert (wp (long_jmp env val back') (fun _ s2 => rip s2 = back /\ eflags s2 = eflags s /\ fx s2 = fx s /\
    gpr s2 RAX = val /\ gpr s2 RSP = gpr s RSP - 8 /\ (forall r, r ∉ [RAX; RSP] -> gpr s2 r = gpr s r) /\
    (forall a, a ∉ [gpr s RSP - 24; gpr s RSP - 16; gpr s' RSP - 8] -> mem s2 a = mem s' a)) s') as Hwp.
  { unfold long_jmp, set_reg_. wp_auto.
    apply (wp_call_long_jmp env val _ _ (gpr s RSP) (gpr s' RSP)); try done.
    - by destruct He'.
    - by destruct HT.
    - regs. by rewrite Hc'.
    - by destruct Hs'.
    - unfold apart in *. lia.
    - intros s2 c -> Hax Hsp Hip Hx Hg Hf Hmp Hm. cbn [mem with_gpr] in *. rewrite Hc' in *.
      split; [done|]. split; [by rewrite Hf; apply flags_roundtrip|]. do 3 (split; [done|]). split.
      + intros r Hr. rewrite (Hg r Hr). destruct r; try done; set_solver.
      + intros a Hout. apply Hm. set_solver. }
  apply wp_run in Hwp as ([] & s2 & Hjmp & Hip & Hf & Hx & Hax & Hsp & Hg & Hm).
  exists s2. eexists. do 4 (split; [done|]). split; [reflexivity|]. split; [done|]. split; [|by split].
  intros r Hr. regs. destruct r; regs; try done; try (apply Hg; set_solver).
  rewrite Hsp. small. lia.
Qed.
End run.
