(* ===== verification/UltSwitch.v ===== *)
(** * Switching between user-level threads ([testbed/src/ult.c], [ult.h])

    The threads of the program share the records [ult_t].  [micro] is the next
    step of a thread inside [ult_convert], [ult_creat] or [ult_switch_to]:
    each access to a record that other threads can reach is a step of its own.
    [set_jmp] returns twice: what it saves is the place in the code where the
    context goes on, with the locals on its stack ([point]), and RAX, which
    [context_switch] passes back as the value the second return has.
    [Jmp.v] has the registers. *)
From S2P Require Import Prelude.

(** ** The stack of a fiber ([get_ult_stack]) *)
Definition STACK_SIZE : Z := 4096 * 2.

Section stack.
Local Open Scope prog_scope.
(** The page size and the default size of the system; whether memory is left. *)
Context (getpagesize SIGSTKSZ : Z) (posix_memalign_fails : bool).
(** What the uninitialised variable [stack] holds. *)
Context (stack : Z).

(** The bytes of a new block; a write past its end faults. *)
Definition bzero (block size : Z) : M unit unit := assert_or (size <=? block) (OutOfBounds block).

(* the result of posix_memalign is not tested *)
Definition get_ult_stack (size : Z) : M unit unit :=
  let size := if size <=? 0 then SIGSTKSZ else size in
  let reminder := size mod getpagesize in
  let size := if negb (reminder =? 0) then u64 (size + (getpagesize - reminder)) else size in
  if posix_memalign_fails then assert_or (size =? 0) (BadPointer stack) else bzero STACK_SIZE size.
End stack.

(** ** Places in the code *)
Section ult.
Context {U : Type}.
Implicit Types (u : U).

(** [User u]: the code of a fiber, about to do [u].  Elsewhere the first
    argument is where the call returns to: user code, or the place a signal
    interrupted. *)
Inductive pc :=
  | User u
  (* ult_convert *)
  | CvAlloc (k : pc)
  | CvLock (k : pc) (ctx : positive)
  | CvSave (k : pc) (ctx : positive)
  | CvCurrent (k : pc) (ctx : positive)
  (* ult_creat, context_create, context_switch_create *)
  | CrAlloc (k : pc) (start : U)
  | CrRaise (k : pc) (new : positive) (start : U)
  | CrLock (k : pc) (new : positive)
  | CrSave (k : pc) (new : positive)
  | CrUnlock (k : pc) (new : positive)
  | CrJump (old : option positive) (new : positive)
  (* context_create_boot, on the new stack *)
  | BtLock (start : U)
  | BtSave (start : U)
  | BtUnlock (start : U)
  | BtJump (old : option positive)
  (* ult_switch_to *)
  | SwTry (k : pc) (from to : option positive)
  | SwSet (k : pc) (from : option positive) (to : positive)
  | SwSave (k : pc) (from : option positive) (to : positive)
  | SwUnlock (k : pc) (from : option positive) (to : positive)
  | SwJump (from : option positive) (to : positive)
  (* NULL or a context never saved was used *)
  | Crashed.

(** Where a context was saved: the call of [set_jmp] and the locals. *)
Inductive point :=
  | AtConvert (k : pc) (ctx : positive)
  | AtTrampoline
  | AtCreate (k : pc) (new : positive)
  | AtBoot (start : U)
  | AtSwitch (k : pc) (from : option positive) (to : positive).

(** [ult_t]; the context is saved ([set_jmp] has filled it) or not. *)
Record ult_t := { running : bool; context : option (point * Z); id : Z }.

Definition set_running (b : bool) (x : ult_t) : ult_t :=
  {| running := b; context := context x; id := id x |}.
Definition set_context (c : point * Z) (x : ult_t) : ult_t :=
  {| running := running x; context := Some c; id := id x |}.

(** The thread-local variables, the place in the code and the pointer the
    last call returned. *)
Record thread := {
  current : option positive;
  context_creat : option positive;
  context_creat_func : option U;
  at_ : pc;
  result : option positive;
}.
Definition goto (x : pc) (t : thread) : thread :=
  {| current := current t; context_creat := context_creat t;
     context_creat_func := context_creat_func t; at_ := x; result := result t |}.
Definition returning (r : option positive) (t : thread) : thread :=
  {| current := current t; context_creat := context_creat t;
     context_creat_func := context_creat_func t; at_ := at_ t; result := r |}.

(** What the threads share.  [handles]: the fibers a caller may name, which
    are those some call has returned or, being past the creation of the
    fiber, will return. *)
Record shared := {
  ults : gmap positive ult_t;
  ult_id : Z;
  next_block : positive;
  handles : gset positive;
}.
Definition with_ults (h : gmap positive ult_t) (s : shared) : shared :=
  {| ults := h; ult_id := ult_id s; next_block := next_block s; handles := handles s |}.
Definition with_handle (i : positive) (s : shared) : shared :=
  {| ults := ults s; ult_id := ult_id s; next_block := next_block s; handles := {[i]} ∪ handles s |}.

(** *** The lock *)

(* ult_trylock: did the flag change hands? *)
Definition ult_trylock (ctx : positive) (s : shared) : option (bool * shared) :=
  match ults s !! ctx with
  | Some x => Some (negb (running x), with_ults (<[ctx := set_running true x]> (ults s)) s)
  | None => None
  end.
Definition ult_unlock (ctx : positive) (s : shared) : option shared :=
  match ults s !! ctx with
  | Some x => Some (with_ults (<[ctx := set_running false x]> (ults s)) s)
  | None => None
  end.

(** *** The two returns of set_jmp *)

(* the second return: [v] is its value *)
Definition landing (v : Z) (p : point) (t : thread) : pc :=
  let again := i32 v =? 0 in
  match p with
  | AtConvert k ctx => CvCurrent k ctx
  | AtTrampoline =>
      (* 0 would return from a signal handler that is gone *)
      match context_creat_func t with
      | Some start => if again then Crashed else BtLock start
      | None => Crashed
      end
  | AtCreate k new => if again then CrUnlock k new else k
  | AtBoot start => if again then BtUnlock start else User start
  | AtSwitch k from to => if again then SwUnlock k from to else k
  end.

(* ult_creat returns the fiber it created *)
Definition landed (v : Z) (p : point) (t : thread) : option positive :=
  match p with
  | AtCreate _ new => if i32 v =? 0 then result t else Some new
  | _ => result t
  end.

(* long_jmp(ctx->context, v), v = None for ctx->context->rax *)
Definition long_jmp (ctx : positive) (v : option Z) (t : thread) (s : shared) : thread * shared :=
  (if ults s !! ctx is Some {| context := Some (p, rax) |}
   then returning (landed (default rax v) p t) (goto (landing (default rax v) p t) t)
   else goto Crashed t, s).

(* set_jmp(ctx->context): the first return goes on at [x] *)
Definition set_jmp (ctx : option positive) (p : point) (rax : Z) (x : pc) (t : thread) (s : shared)
    : thread * shared :=
  match ctx with
  | Some i =>
      if ults s !! i is Some f
      then (goto x t, with_ults (<[i := set_context (p, rax) f]> (ults s)) s)
      else (goto Crashed t, s)
  | None => (goto Crashed t, s)
  end.

(** An access through a pointer that may be NULL. *)
Definition accessing (ctx : option positive) (f : positive -> option (thread * shared))
    (t : thread) (s : shared) : thread * shared :=
  default (goto Crashed t, s) (i ← ctx; f i).

(* ult_lock: stay while the flag is set *)
Definition ult_lock (ctx : option positive) (x : pc) (t : thread) (s : shared) : thread * shared :=
  accessing ctx (fun i => '(got, s') ← ult_trylock i s; Some (if got : bool then goto x t else t, s')) t s.
Definition unlocking (ctx : option positive) (x : pc) (t : thread) (s : shared) : thread * shared :=
  accessing ctx (fun i => s' ← ult_unlock i s; Some (goto x t, s')) t s.

(* malloc, bzero, __sync_fetch_and_add(&ult_id, 1) *)
Definition new_ult (x : positive -> pc) (t : thread) (s : shared) : thread * shared :=
  let i := next_block s in
  (goto (x i) t,
   {| ults := <[i := {| running := false; context := None; id := ult_id s |}]> (ults s);
      ult_id := i32 (ult_id s + 1); next_block := Pos.succ i; handles := handles s |}).

(** *** The functions, a step at a time

    [rax] is what RAX holds at a [set_jmp]. *)
Definition ult_convert (rax : Z) (t : thread) (s : shared) : option (thread * shared) :=
  match at_ t with
  | CvAlloc k => Some (new_ult (CvLock k) t s)
  | CvLock k ctx => Some (ult_lock (Some ctx) (CvSave k ctx) t s)
  | CvSave k ctx => Some (set_jmp (Some ctx) (AtConvert k ctx) rax (CvCurrent k ctx) t s)
  | CvCurrent k ctx =>
      Some ({| current := Some ctx; context_creat := context_creat t;
               context_creat_func := context_creat_func t; at_ := k; result := Some ctx |}, with_handle ctx s)
  | _ => None
  end.

Definition ult_creat (t : thread) (s : shared) : option (thread * shared) :=
  match at_ t with
  | CrAlloc k start => Some (new_ult (fun i => CrRaise k i start) t s)
  | _ => None
  end.

(* the signal raised runs context_create_trampoline on the new stack, which
   saves its context and returns *)
Definition context_create (rax : Z) (t : thread) (s : shared) : option (thread * shared) :=
  match at_ t with
  | CrRaise k new start =>
      let t := {| current := current t; context_creat := Some new;
                  context_creat_func := Some start; at_ := at_ t; result := result t |} in
      Some (set_jmp (Some new) AtTrampoline rax (CrLock k new) t s)
  | CrLock k new => Some (ult_lock (Some new) (CrSave k new) t s)
  | CrSave k new =>
      Some (set_jmp (current t) (AtCreate k new) rax (CrUnlock k new) t (with_handle new s))
  | CrUnlock k new => Some (unlocking (current t) (CrJump (current t) new) t s)
  | CrJump _ new => Some (long_jmp new (Some 1) t s)
  | _ => None
  end.

Definition context_create_boot (rax : Z) (t : thread) (s : shared) : option (thread * shared) :=
  match at_ t with
  | BtLock start => Some (ult_lock (current t) (BtSave start) t s)
  | BtSave start => Some (set_jmp (context_creat t) (AtBoot start) rax (BtUnlock start) t s)
  | BtUnlock start => Some (unlocking (context_creat t) (BtJump (context_creat t)) t s)
  | BtJump _ => Some (accessing (current t) (fun i => Some (long_jmp i None t s)) t s)
  | _ => None
  end.

Definition ult_switch_to (rax : Z) (t : thread) (s : shared) : option (thread * shared) :=
  match at_ t with
  | SwTry k from None => Some (goto k t, s)
  | SwTry k from (Some to) =>
      Some (accessing (Some to) (fun i => '(got, s') ← ult_trylock i s;
              Some (goto (if got : bool then SwSet k from to else k) t, s')) t s)
  | SwSet k from to =>
      Some ({| current := Some to; context_creat := context_creat t;
               context_creat_func := context_creat_func t; at_ := SwSave k from to; result := result t |}, s)
  | SwSave k from to => Some (set_jmp from (AtSwitch k from to) rax (SwUnlock k from to) t s)
  | SwUnlock k from to => Some (unlocking from (SwJump from to) t s)
  | SwJump _ to => Some (long_jmp to None t s)
  | _ => None
  end.

Definition micro (rax : Z) (t : thread) (s : shared) : option (thread * shared) :=
  match at_ t with
  | User _ | Crashed => None
  | CvAlloc _ | CvLock _ _ | CvSave _ _ | CvCurrent _ _ => ult_convert rax t s
  | CrAlloc _ _ => ult_creat t s
  | CrRaise _ _ _ | CrLock _ _ | CrSave _ _ | CrUnlock _ _ | CrJump _ _ => context_create rax t s
  | BtLock _ | BtSave _ | BtUnlock _ | BtJump _ => context_create_boot rax t s
  | SwTry _ _ _ | SwSet _ _ _ | SwSave _ _ _ | SwUnlock _ _ _ | SwJump _ _ => ult_switch_to rax t s
  end.

(** ** The threads together

    [rax_ok]: the values RAX may have at a [set_jmp], which depend on the
    compiled code.  [alarm]: where SIGALRM may be delivered; its handler
    switches ([schedule] of main.c). *)
Record system := { threads : gmap Z thread; mem : shared }.

Section steps.
Context (rax_ok : Z -> Prop) (alarm : pc -> Prop).

Definition on (p : Z) (t : thread) (c : system) : system :=
  {| threads := <[p := t]> (threads c); mem := mem c |}.

Inductive step : system -> Z -> system -> Prop :=
  | s_code c p t u u' :
      threads c !! p = Some t -> at_ t = User u -> step c p (on p (goto (User u') t) c)
  | s_convert c p t u :
      (* once, by a thread that is not a fiber *)
      threads c !! p = Some t -> at_ t = User u -> current t = None ->
      step c p (on p (goto (CvAlloc (User u)) t) c)
  | s_create c p t u start :
      (* "to be called after ult_convert" *)
      threads c !! p = Some t -> at_ t = User u -> is_Some (current t) ->
      step c p (on p (goto (CrAlloc (User u) start) t) c)
  | s_switch c p t k to :
      threads c !! p = Some t -> (exists u, k = User u) \/ alarm k -> at_ t = k -> is_Some (current t) ->
      (forall i, to = Some i -> i ∈ handles (mem c)) ->
      step c p (on p (goto (SwTry k (current t) to) t) c)
  | s_micro c p t rax t' s' :
      threads c !! p = Some t -> rax_ok rax -> micro rax t (mem c) = Some (t', s') ->
      step c p {| threads := <[p := t']> (threads c); mem := s' |}.

(** Threads that are no fibers yet. *)
Record newborn (c : system) : Prop := {
  nb_threads p t : threads c !! p = Some t -> current t = None /\ exists u, at_ t = User u;
  nb_mem : mem c = {| ults := ∅; ult_id := 0; next_block := 1; handles := ∅ |};
}.

Inductive reachable : system -> Prop :=
  | r_start c : newborn c -> reachable c
  | r_step c p c' : reachable c -> step c p c' -> reachable c'.
End steps.

(** ** Executing runs *)

(** A call that nothing interrupts, in at most [n] steps. *)
Fixpoint solo (rax : Z) (n : nat) (t : thread) (s : shared) : option (thread * shared) :=
  match at_ t, n with
  | User _, _ => Some (t, s)
  | _, O => None
  | _, S n => if micro rax t s is Some (t', s') then solo rax n t' s' else None
  end.

Inductive event :=
  | ECode (u : U)
  | EConvert
  | ECreate (start : U)
  | ESwitch (to : option positive)
  | EStep (rax : Z).

(** The steps of [step], executable; [raxb] and [alarmb] are its bounds. *)
Section perform.
Context (raxb : Z -> bool) (alarmb : pc -> bool).

Definition may_switch (k : pc) : bool := match k with User _ => true | _ => alarmb k end.

Definition perform (p : Z) (e : event) (c : system) : option system :=
  match threads c !! p with
  | None => None
  | Some t =>
      match e, at_ t, current t with
      | ECode u, User _, _ => Some (on p (goto (User u) t) c)
      | EConvert, User u, None => Some (on p (goto (CvAlloc (User u)) t) c)
      | ECreate start, User u, Some _ => Some (on p (goto (CrAlloc (User u) start) t) c)
      | ESwitch to, k, Some _ =>
          if may_switch k && (if to is Some i then bool_decide (i ∈ handles (mem c)) else true)
          then Some (on p (goto (SwTry k (current t) to) t) c) else None
      | EStep rax, _, _ =>
          if raxb rax then
            if micro rax t (mem c) is Some (t', s')
            then Some {| threads := <[p := t']> (threads c); mem := s' |} else None
          else None
      | _, _, _ => None
      end
  end.

Fixpoint performs (es : list (Z * event)) (c : system) : option system :=
  match es with
  | [] => Some c
  | (p, e) :: es => c' ← perform p e c; performs es c'
  end.

Lemma may_switch_spec k : may_switch k = true -> (exists u, k = User u) \/ alarmb k = true.
Proof. destruct k; cbn; eauto. Qed.

Lemma perform_step p e c c' :
  perform p e c = Some c' -> step (fun r => raxb r = true) (fun k => alarmb k = true) c p c'.
Proof.
  unfold perform. destruct (threads c !! p) as [t|] eqn:Ht; [|done]. destruct e as [u| |start|to|rax].
  - destruct (at_ t) eqn:Hk; try done. intros [= <-]. by eapply s_code.
  - destruct (at_ t) eqn:Hk; try done. destruct (current t) eqn:Hc; try done. intros [= <-]. by eapply s_convert.
  - destruct (at_ t) eqn:Hk; try done. destruct (current t) eqn:Hc; try done. intros [= <-].
    by eapply s_create.
  - destruct (current t) eqn:Hc; [|by destruct (at_ t)].
    assert (forall o : option system, (if may_switch (at_ t) &&
        (if to is Some i then bool_decide (i ∈ handles (mem c)) else true)
      then Some (on p (goto (SwTry (at_ t) (Some p0) to) t) c) else None) = o -> o = Some c' ->
      step (fun r => raxb r = true) (fun k => alarmb k = true) c p c') as H.
    { intros o <-. destruct (may_switch (at_ t)) eqn:Hm; [|done]. destruct to as [i|]; cbn [andb].
      - case_bool_decide; [|done]. intros [= <-]. rewrite <- Hc.
        apply s_switch; [done|by apply may_switch_spec|done|by rewrite Hc|by intros ? [= <-]].
      - intros [= <-]. rewrite <- Hc. apply s_switch; [done|by apply may_switch_spec|done|by rewrite Hc|done]. }
    destruct (at_ t); by apply H.
  - destruct (raxb rax) eqn:Hr; [|by destruct (at_ t)].
    destruct (micro rax t (mem c)) as [[t' s']|] eqn:Hm; [|by destruct (at_ t)].
    intros H. assert (c' = {| threads := <[p := t']> (threads c); mem := s' |}) as -> by (destruct (at_ t); by simplify_eq).
    by eapply s_micro.
Qed.

Lemma performs_reachable es : forall c c',
  reachable (fun r => raxb r = true) (fun k => alarmb k = true) c -> performs es c = Some c' ->
  reachable (fun r => raxb r = true) (fun k => alarmb k = true) c'.
Proof.
  induction es as [|[p e] es IH]; intros c c' Hr H; cbn in H; [by simplify_eq|].
  destruct (perform p e c) as [c1|] eqn:E; [|done]. cbn in H. apply (IH c1); [|done].
  eapply r_step; [done|by apply (perform_step p e)].
Qed.
End perform.
End ult.
Arguments pc U : clear implicits.
Arguments point U : clear implicits.
Arguments ult_t U : clear implicits.
Arguments thread U : clear implicits.
Arguments shared U : clear implicits.
Arguments system U : clear implicits.
Arguments event U : clear implicits.
