(* ===== verification/UltInv.v ===== *)
(** * Who holds a user-level thread

    The invariant of UltSwitch.v's steps.  [claims]: the fibers a thread runs
    on, is creating or is switching to; [code]: the fibers whose next user
    code is on the thread's side, the others having it in their saved
    context.  It holds as long as RAX is never zero (in its low half) at a
    [set_jmp] and SIGALRM hits only user code; UltWitness.v shows what happens
    otherwise. *)
From S2P Require Import Prelude UltSwitch.

Section inv.
Context {U : Type}.
Implicit Types (u : U) (t : thread U) (x : ult_t U) (h : gmap positive (ult_t U)) (s : shared U) (c : system U).

(** ** Ownership *)
Definition claims t : list positive :=
  match at_ t with
  | User _ | CvAlloc _ | CrAlloc _ _ | SwTry _ _ _ | BtJump _ => option_list (current t)
  | CvLock _ i | CvSave _ i | CvCurrent _ i => [i]
  | CrRaise _ i _ | CrLock _ i | CrSave _ i | CrUnlock _ i => option_list (current t) ++ [i]
  | CrJump _ i => [i]
  | BtLock _ => option_list (context_creat t)
  | BtSave _ | BtUnlock _ => option_list (current t) ++ option_list (context_creat t)
  | SwSet _ from to | SwSave _ from to | SwUnlock _ from to => option_list from ++ [to]
  | SwJump _ to => [to]
  | Crashed => []
  end.

(** Those it has not locked yet. *)
Definition spare t : list positive :=
  match at_ t with
  | CvLock _ i | CrRaise _ i _ | CrLock _ i => [i]
  | _ => []
  end.

(** The user code a context goes on with, unless it comes back with 0. *)
Definition point_code (q : point U) : option U :=
  match q with
  | AtSwitch (User u) _ _ | AtCreate (User u) _ | AtBoot u => Some u
  | _ => None
  end.
Definition saved_code x : option U :=
  match context x with
  | Some (q, rax) => if i32 rax =? 0 then None else point_code q
  | None => None
  end.

Definition saved h (i : positive) u : Prop := exists x, h !! i = Some x /\ saved_code x = Some u.
Definition resumable h (i : positive) : Prop := exists u, saved h i u.
Definition born h (i : positive) : Prop :=
  exists x rax, h !! i = Some x /\ context x = Some (AtTrampoline, rax).
Definition user (k : pc U) : Prop := exists u, k = User u.

(** What a thread's place in the code says of its variables. *)
Definition pc_ok t h (hs : gset positive) : Prop :=
  match at_ t with
  | User _ => True
  | CvAlloc k | CvLock k _ | CvSave k _ | CvCurrent k _ => user k /\ current t = None
  | CrAlloc k _ | CrRaise k _ _ => user k /\ is_Some (current t)
  | CrLock k i | CrSave k i =>
      user k /\ is_Some (current t) /\ context_creat t = Some i /\ is_Some (context_creat_func t) /\ born h i
  | CrUnlock k i =>
      user k /\ (exists o, current t = Some o /\ resumable h o) /\
      context_creat t = Some i /\ is_Some (context_creat_func t) /\ born h i
  | CrJump _ i =>
      (exists o, current t = Some o /\ o <> i) /\
      context_creat t = Some i /\ is_Some (context_creat_func t) /\ born h i
  | BtLock _ => exists i o, context_creat t = Some i /\ current t = Some o /\ o <> i
  | BtSave _ => exists i o, context_creat t = Some i /\ current t = Some o /\ resumable h o
  | BtUnlock _ =>
      exists i o, context_creat t = Some i /\ current t = Some o /\ resumable h o /\ resumable h i
  | BtJump _ => exists o, current t = Some o /\ resumable h o
  | SwTry k from to => user k /\ from = current t /\ is_Some from /\ (forall i, to = Some i -> i ∈ hs)
  | SwSet k from to => user k /\ from = current t /\ is_Some from /\ resumable h to /\ to ∈ hs
  | SwSave k from to => user k /\ is_Some from /\ current t = Some to /\ resumable h to
  | SwUnlock k from to =>
      user k /\ (exists o, from = Some o /\ resumable h o) /\ current t = Some to /\ resumable h to
  | SwJump _ to => current t = Some to /\ resumable h to
  | Crashed => False
  end.

Record uinv c : Prop := {
  ui_pc p t : threads c !! p = Some t -> pc_ok t (ults (mem c)) (handles (mem c));
  ui_nodup p t : threads c !! p = Some t -> NoDup (claims t);
  ui_excl p q t t' i : threads c !! p = Some t -> threads c !! q = Some t' ->
    i ∈ claims t -> i ∈ claims t' -> p = q;
  ui_dom p t i : threads c !! p = Some t -> i ∈ claims t -> is_Some (ults (mem c) !! i);
  ui_lock i x : ults (mem c) !! i = Some x ->
    running x = true <-> (exists p t, threads c !! p = Some t /\ i ∈ claims t /\ i ∉ spare t);
  ui_free i x : ults (mem c) !! i = Some x ->
    (forall p t, threads c !! p = Some t -> i ∉ claims t) -> is_Some (saved_code x);
  ui_handle i : i ∈ handles (mem c) -> is_Some (ults (mem c) !! i);
  ui_spare p t i : threads c !! p = Some t -> i ∈ spare t -> i ∉ handles (mem c);
  ui_current p t i : threads c !! p = Some t -> current t = Some i -> i ∈ handles (mem c);
  ui_block i : is_Some (ults (mem c) !! i) -> (i < next_block (mem c))%positive;
}.

(** ** Code *)

(** The user code on the thread's side, by fiber. *)
Definition code t : list (positive * U) :=
  let next (o : option positive) (k : pc U) :=
    match o, k with Some i, User u => [(i, u)] | _, _ => [] end in
  match at_ t with
  | User u => next (current t) (User u)
  | CvLock k i | CvSave k i | CvCurrent k i => next (Some i) k
  | CrAlloc k _ => next (current t) k
  | CrRaise k i start => next (current t) k ++ [(i, start)]
  | CrLock k i | CrSave k i => next (current t) k ++ option_list (pair i <$> context_creat_func t)
  | CrUnlock _ i | CrJump _ i => option_list (pair i <$> context_creat_func t)
  | BtLock start | BtSave start => next (context_creat t) (User start)
  | SwTry k from _ | SwSet k from _ | SwSave k from _ => next from k
  | CvAlloc _ | BtUnlock _ | BtJump _ | SwUnlock _ _ _ | SwJump _ _ | Crashed => []
  end.

(** Fiber [i] goes on with [u]. *)
Definition continuation c (i : positive) u : Prop :=
  (exists p t, threads c !! p = Some t /\ (i, u) ∈ code t) \/
  ((forall p t, threads c !! p = Some t -> (i ∉ (code t).*1)) /\ saved (ults (mem c)) i u).

(** ** A step of one thread *)
Record okstep t t' s s' : Prop := {
  ok_pc : pc_ok t' (ults s') (handles s');
  ok_nodup : NoDup (claims t');
  ok_take i : i ∈ claims t' -> i ∈ claims t \/
    (exists x, ults s !! i = Some x /\ running x = false /\ i ∈ handles s) \/ ults s !! i = None;
  ok_dom i : is_Some (ults s !! i) -> is_Some (ults s' !! i);
  ok_owned i : i ∈ claims t' ->
    exists x, ults s' !! i = Some x /\ (running x = true <-> i ∉ spare t');
  ok_released i : i ∈ claims t -> i ∉ claims t' ->
    exists x, ults s' !! i = Some x /\ running x = false /\ is_Some (saved_code x);
  ok_other i : i ∉ claims t -> i ∉ claims t' -> ults s' !! i = ults s !! i;
  ok_handles i : i ∈ handles s -> i ∈ handles s';
  ok_handle i : i ∈ handles s' -> i ∈ handles s \/ (i ∈ claims t' /\ i ∉ spare t');
  ok_spare i : i ∈ spare t' -> (i ∉ handles s') /\ i ∈ claims t';
  ok_current i : current t' = Some i -> i ∈ handles s';
  ok_block i : is_Some (ults s' !! i) -> (i < next_block s')%positive;
}.

(** The code on the thread's side moves to a context and back, unchanged. *)
Record okcode t t' s s' : Prop := {
  oc_keep i u : (i, u) ∈ code t ->
    (i, u) ∈ code t' \/ ((i ∉ (code t').*1) /\ saved (ults s') i u);
  oc_load i u : i ∉ (code t).*1 -> i ∈ claims t \/ i ∈ claims t' -> saved (ults s) i u ->
    (i, u) ∈ code t' \/ ((i ∉ (code t').*1) /\ saved (ults s') i u);
}.

(** *** The invariant from the steps *)
Lemma thread_cases (ts : gmap Z (thread U)) p q t t' :
  <[p := t']> ts !! q = Some t -> (q = p /\ t = t') \/ (q <> p /\ ts !! q = Some t).
Proof. rewrite lookup_insert. case_decide; intros; simplify_eq; auto. Qed.

Lemma resumable_frame h h' i : h' !! i = h !! i -> resumable h i -> resumable h' i.
Proof. unfold resumable, saved. by intros ->. Qed.
Lemma born_frame h h' i : h' !! i = h !! i -> born h i -> born h' i.
Proof. unfold born. by intros ->. Qed.

Lemma upc_ok_frame t h h' hs hs' :
  pc_ok t h hs -> (forall i, i ∈ claims t -> h' !! i = h !! i) -> (forall i, i ∈ hs -> i ∈ hs') ->
  pc_ok t h' hs'.
Proof.
  intros Hok Hh Hs. unfold pc_ok, claims in *.
  destruct (at_ t); repeat match goal with H : _ /\ _ |- _ => destruct H | H : ex _ |- _ => destruct H end;
    repeat match goal with |- _ /\ _ => split | |- exists _, _ => eexists end; try eassumption; eauto;
    first [eapply resumable_frame; [|eassumption]|eapply born_frame; [|eassumption]];
    apply Hh; repeat match goal with H : _ = Some _ |- _ => rewrite H end; set_solver.
Qed.

Lemma spare_claims t i : i ∈ spare t -> i ∈ claims t.
Proof. unfold spare, claims. destruct (at_ t); set_solver. Qed.

(** What the other threads claim, a step leaves. *)
Lemma others_apart c p q t t' t0 s' i :
  uinv c -> threads c !! p = Some t -> okstep t t' (mem c) s' ->
  threads c !! q = Some t0 -> q <> p -> i ∈ claims t0 -> (i ∉ claims t) /\ (i ∉ claims t').
Proof.
  intros I Ht O Hq Hne Hi. assert (i ∉ claims t) as Hno by (intros H; apply Hne; by eapply (ui_excl _ I)).
  split; [done|]. intros Hi'. destruct (ok_take _ _ _ _ O i Hi') as [|[(x & Hx & Hr & Hh)|Hn]]; [done| |].
  - assert (i ∉ spare t0) as Hs by (intros Hs; by eapply (ui_spare _ I)).
    assert (running x = true) by (apply (ui_lock _ I i x Hx); eauto). congruence.
  - destruct (ui_dom _ I q t0 i Hq Hi). congruence.
Qed.

Lemma lock_okstep c p t t' s' i x :
  uinv c -> threads c !! p = Some t -> okstep t t' (mem c) s' -> ults s' !! i = Some x ->
  running x = true <-> (exists q t0, <[p := t']> (threads c) !! q = Some t0 /\ i ∈ claims t0 /\ i ∉ spare t0).
Proof.
  intros I Ht O Hx. destruct (decide (i ∈ claims t')) as [Hin|Hout].
  { destruct (ok_owned _ _ _ _ O i Hin) as (y & Hy & Hr). assert (y = x) as -> by congruence. rewrite Hr. split.
    - intros Hs. exists p, t'. by rewrite lookup_insert_eq.
    - intros (q & t0 & [[-> ->]|[Hq H0]]%thread_cases & Hi & Hs); [done|].
      destruct (others_apart c p q t t' t0 s' i I Ht O H0 Hq Hi). done. }
  assert (forall q t0, q <> p -> threads c !! q = Some t0 -> i ∈ claims t0 -> i ∉ claims t) as Hsep.
  { intros q t0 Hq H0 Hi. by destruct (others_apart c p q t t' t0 s' i I Ht O H0 Hq Hi). }
  destruct (decide (i ∈ claims t)) as [Hin'|Hout'].
  - destruct (ok_released _ _ _ _ O i Hin' Hout) as (y & Hy & Hr & _). assert (y = x) as -> by congruence.
    split; [congruence|]. intros (q & t0 & [[-> ->]|[Hq H0]]%thread_cases & Hi & Hs); [done|].
    by destruct (Hsep q t0 Hq H0 Hi).
  - rewrite (ok_other _ _ _ _ O i Hout' Hout) in Hx. rewrite (ui_lock _ I i x Hx).
    split; intros (q & t0 & H0 & Hi & Hs).
    + destruct (decide (q = p)) as [->|Hq]; [|exists q, t0; by rewrite lookup_insert_ne].
      assert (t0 = t) as -> by congruence. done.
    + destruct (thread_cases _ _ _ _ _ H0) as [[-> ->]|[Hq H1]]; [done|]. by exists q, t0.
Qed.

Lemma uinv_okstep c p t t' s' :
  uinv c -> threads c !! p = Some t -> okstep t t' (mem c) s' ->
  uinv {| threads := <[p := t']> (threads c); mem := s' |}.
Proof.
  intros I Ht O. pose proof (others_apart c p) as Hsep.
  assert (forall q t0 i, threads c !! q = Some t0 -> q <> p -> i ∈ claims t0 -> ults s' !! i = ults (mem c) !! i) as Hkeep.
  { intros q t0 i H0 Hq Hi. destruct (Hsep q t t' t0 s' i I Ht O H0 Hq Hi). by apply (ok_other _ _ _ _ O). }
  split; cbn [threads mem].
  - intros q t0 [[-> ->]|[Hq H0]]%thread_cases; [apply O|].
    eapply upc_ok_frame; [by apply (ui_pc _ I q)|intros i Hi; by apply (Hkeep q t0)|apply O].
  - intros q t0 [[-> ->]|[Hq H0]]%thread_cases; [apply O|by apply (ui_nodup _ I q)].
  - intros q1 q2 t1 t2 i [[-> ->]|[Hq1 H1]]%thread_cases [[-> ->]|[Hq2 H2]]%thread_cases Hi1 Hi2; [done| | |].
    + by destruct (Hsep q2 t t' t2 s' i I Ht O H2 Hq2 Hi2).
    + by destruct (Hsep q1 t t' t1 s' i I Ht O H1 Hq1 Hi1).
    + by eapply (ui_excl _ I).
  - intros q t0 i [[-> ->]|[Hq H0]]%thread_cases Hi.
    + destruct (ok_owned _ _ _ _ O i Hi) as (x & -> & _). by eexists.
    + apply (ok_dom _ _ _ _ O). by eapply (ui_dom _ I).
  - intros i x. by eapply lock_okstep.
  - intros i x Hx Hno. assert (i ∉ claims t') as Hout by (apply (Hno p); by apply lookup_insert_eq).
    destruct (decide (i ∈ claims t)) as [Hin|Hout'].
    { destruct (ok_released _ _ _ _ O i Hin Hout) as (y & Hy & _ & Hs). congruence. }
    rewrite (ok_other _ _ _ _ O i Hout' Hout) in Hx. apply (ui_free _ I i x Hx).
    intros q t0 H0. destruct (decide (q = p)) as [->|Hq]; [congruence|]. apply (Hno q). by rewrite lookup_insert_ne.
  - intros i [Hi|[Hi _]]%(ok_handle _ _ _ _ O); [by apply (ok_dom _ _ _ _ O), (ui_handle _ I)|].
    destruct (ok_owned _ _ _ _ O i Hi) as (x & -> & _). by eexists.
  - intros q t0 i [[-> ->]|[Hq H0]]%thread_cases Hi; [by apply (ok_spare _ _ _ _ O)|].
    intros [Hh|[Hc _]]%(ok_handle _ _ _ _ O); [by eapply (ui_spare _ I)|].
    by destruct (Hsep q t t' t0 s' i I Ht O H0 Hq (spare_claims _ _ Hi)).
  - intros q t0 i [[-> ->]|[Hq H0]]%thread_cases Hc; [by apply (ok_current _ _ _ _ O)|].
    apply (ok_handles _ _ _ _ O). by eapply (ui_current _ I).
  - apply O.
Qed.

(** *** Continuations from the steps *)
Lemma code_claims t h hs i : pc_ok t h hs -> i ∈ (code t).*1 -> i ∈ claims t.
Proof.
  unfold pc_ok, code, claims. intros Hok.
  destruct (at_ t); repeat match goal with H : _ /\ _ |- _ => destruct H | H : ex _ |- _ => destruct H
    | H : is_Some _ |- _ => destruct H | H : user _ |- _ => destruct H end; subst;
    repeat match goal with H : _ = Some _ |- _ => rewrite H end; cbn; try set_solver;
    destruct (current t); cbn; set_solver.
Qed.

Lemma continuation_okstep c p t t' s' i u :
  uinv c -> threads c !! p = Some t -> okstep t t' (mem c) s' -> okcode t t' (mem c) s' ->
  continuation c i u -> continuation {| threads := <[p := t']> (threads c); mem := s' |} i u.
Proof.
  intros I Ht O C. assert (forall t0, t0 = t' -> <[p := t']> (threads c) !! p = Some t0) as Hp
    by (intros t0 ->; by apply lookup_insert_eq).
  assert (forall q t0, threads c !! q = Some t0 -> i ∈ (code t0).*1 -> i ∈ claims t0) as Hcl
    by (intros q t0 H0; by apply code_claims with (1 := ui_pc _ I q t0 H0)).
  intros [(q & t0 & H0 & Hi)|[Hno Hs]].
  - destruct (decide (q = p)) as [->|Hq]; [|left; exists q, t0; cbn; by rewrite lookup_insert_ne].
    assert (t0 = t) as -> by congruence. destruct (oc_keep _ _ _ _ C i u Hi) as [Hi'|[Hn Hs]].
    + left. exists p, t'. split; [by apply Hp|done].
    + right. split; [|done]. cbn. intros q t0 [[-> ->]|[Hq H1]]%thread_cases; [done|]. intros Hin. apply Hq.
      apply (ui_excl _ I q p t0 t i H1 Ht); [by apply Hcl with q|].
      apply Hcl with p; [done|]. apply list_elem_of_fmap. by exists (i, u).
  - assert (forall q t0, q <> p -> threads c !! q = Some t0 -> i ∉ (code t0).*1) as Hno' by (intros; by eapply Hno).
    assert ((i, u) ∈ code t' \/ ((i ∉ (code t').*1) /\ saved (ults s') i u)) as [Hi'|[Hn Hs']].
    { destruct (decide (i ∈ claims t \/ i ∈ claims t')) as [Hc|Hc].
      - destruct (oc_load _ _ _ _ C i u (Hno p t Ht) Hc Hs); [by left|by right].
      - right. split; [intros Hi'; apply Hc; right; eapply code_claims; [apply O|done]|].
        unfold saved. rewrite (ok_other _ _ _ _ O i) by tauto. done. }
    + left. exists p, t'. split; [by apply Hp|done].
    + right. split; [|done]. cbn. intros q t0 [[-> ->]|[Hq H1]]%thread_cases; [done|by eapply Hno'].
Qed.

(** *** What a thread knows of the fibers it claims *)
Record local t s : Prop := {
  lo_pc : pc_ok t (ults s) (handles s);
  lo_nodup : NoDup (claims t);
  lo_own i : i ∈ claims t -> exists x, ults s !! i = Some x /\ (running x = true <-> i ∉ spare t);
  lo_free i : i ∈ handles s -> exists x, ults s !! i = Some x /\
    (running x = false -> (i ∉ claims t) /\ is_Some (saved_code x));
  lo_spare i : i ∈ spare t -> i ∉ handles s;
  lo_current i : current t = Some i -> i ∈ handles s;
  lo_block i : is_Some (ults s !! i) -> (i < next_block s)%positive;
}.

Lemma uinv_local c p t : uinv c -> threads c !! p = Some t -> local t (mem c).
Proof.
  intros I Ht. assert (forall i, i ∈ claims t -> exists x, ults (mem c) !! i = Some x /\
    (running x = true <-> i ∉ spare t)) as Hown.
  { intros i Hi. destruct (ui_dom _ I p t i Ht Hi) as [x Hx]. exists x. split; [done|].
    rewrite (ui_lock _ I i x Hx). split; [|by eauto]. intros (q & t0 & H0 & Hi0 & Hs).
    assert (q = p) as -> by (by eapply (ui_excl _ I)). congruence. }
  split; [by eapply (ui_pc _ I)|by eapply (ui_nodup _ I)|done| |exact (fun i => ui_spare _ I p t i Ht)|exact (fun i => ui_current _ I p t i Ht)|apply I].
  intros i Hi. destruct (ui_handle _ I i Hi) as [x Hx]. exists x. split; [done|]. intros Hr.
  assert (forall q t0, threads c !! q = Some t0 -> i ∉ claims t0) as Hno.
  { intros q t0 H0 Hc. assert (running x = true); [|congruence]. apply (ui_lock _ I i x Hx).
    exists q, t0. do 2 (split; [done|]). intros Hs. by eapply (ui_spare _ I). }
  split; [by eapply Hno|]. by eapply (ui_free _ I).
Qed.

(** *** The shapes of steps *)

(** The handles grow by a fiber the thread has locked. *)
Definition grows t' s s' : Prop :=
  handles s' = handles s \/
  exists j, handles s' = {[j]} ∪ handles s /\ j ∈ claims t' /\ (j ∉ spare t').

Record fits t' s s' : Prop := {
  fi_pc : pc_ok t' (ults s') (handles s');
  fi_nodup : NoDup (claims t');
  fi_grows : grows t' s s';
  fi_spare j : j ∈ spare t' -> j ∉ handles s';
  fi_current j : current t' = Some j -> j ∈ handles s';
}.

(** The records stay, or one of them changes: one the thread claims, a free
    one it takes, or a new one. *)
Lemma uok_keep t t' s s' :
  local t s -> fits t' s s' -> ults s' = ults s -> next_block s' = next_block s ->
  (forall j, j ∈ claims t' <-> j ∈ claims t) -> (forall j, j ∈ spare t' <-> j ∈ spare t) ->
  okstep t t' s s'.
Proof.
  intros L F Eh Eb Hc Hs. split.
  - apply F.
  - apply F.
  - intros i Hi. left. by apply Hc.
  - by rewrite Eh.
  - intros i Hi%Hc. destruct (lo_own _ _ L i Hi) as (x & Hx & Hr). exists x. by rewrite Eh, Hs.
  - intros i Hi Hi'. rewrite Hc in Hi'. done.
  - by rewrite Eh.
  - intros i Hi. destruct (fi_grows _ _ _ F) as [->|(j & -> & _)]; set_solver.
  - intros i Hi. destruct (fi_grows _ _ _ F) as [E|(j & E & Hj)]; rewrite E in Hi; [by left|set_solver].
  - intros i Hi. split; [by apply (fi_spare _ _ _ F)|by apply spare_claims].
  - apply F.
  - rewrite Eh, Eb. apply L.
Qed.

Lemma uok_update t t' s s' i x' :
  local t s -> fits t' s s' -> ults s' = <[i := x']> (ults s) ->
  (i ∈ claims t \/ (exists x, ults s !! i = Some x /\ running x = false /\ i ∈ handles s) \/ ults s !! i = None) ->
  (is_Some (ults s !! i) /\ next_block s' = next_block s \/ i = next_block s /\ next_block s' = Pos.succ i) ->
  (forall j, j <> i -> (j ∈ claims t' <-> j ∈ claims t) /\ (j ∈ spare t' <-> j ∈ spare t)) ->
  (i ∈ claims t' /\ (running x' = true <-> (i ∉ spare t')) \/
   (i ∉ claims t') /\ i ∈ claims t /\ running x' = false /\ is_Some (saved_code x')) ->
  okstep t t' s s'.
Proof.
  intros L F Eh Hi Hb Hj Hx. split.
  - apply F.
  - apply F.
  - intros j Hc. destruct (decide (j = i)) as [->|Hne]; [done|]. left. by apply Hj.
  - intros j Hd. rewrite Eh. apply lookup_insert_is_Some'. by right.
  - intros j Hc. rewrite Eh. destruct (decide (j = i)) as [->|Hne].
    + exists x'. rewrite lookup_insert_eq. destruct Hx as [[_ Hr]|[Hx _]]; done.
    + rewrite lookup_insert_ne by done. destruct (Hj j Hne) as [Hjc Hjs].
      destruct (lo_own _ _ L j) as (y & Hy & Hr); [by apply Hjc|]. exists y. by rewrite Hjs.
  - intros j Hc Hc'. rewrite Eh. destruct (decide (j = i)) as [->|Hne].
    + exists x'. rewrite lookup_insert_eq. destruct Hx as [[Hx _]|[_ [_ Hx]]]; done.
    + destruct (Hj j Hne) as [Hjc _]. by apply Hjc in Hc.
  - intros j Hc Hc'. rewrite Eh, lookup_insert_ne; [done|]. intros <-. destruct Hx as [[Hx _]|[_ [Hx _]]]; done.
  - intros j Hh. destruct (fi_grows _ _ _ F) as [->|(k & -> & _)]; set_solver.
  - intros j Hh. destruct (fi_grows _ _ _ F) as [E|(k & E & Hk)]; rewrite E in Hh; [by left|set_solver].
  - intros j Hs. split; [by apply (fi_spare _ _ _ F)|by apply spare_claims].
  - apply F.
  - intros j. rewrite Eh, lookup_insert_is_Some'. intros Hd.
    assert (j <> i -> (j < next_block s)%positive) as Hlt by (intros; destruct Hd; [congruence|by apply L]).
    destruct Hb as [[Hd' ->]|[-> ->]].
    + destruct (decide (j = i)) as [->|]; [by apply L|by apply Hlt].
    + destruct (decide (j = next_block s)) as [->|]; [lia|]. specialize (Hlt ltac:(done)). lia.
Qed.
End inv.
