(* ===== verification/UltSteps.v ===== *)
(** * The steps of user-level threads keep their ownership

    Each access of [micro] (UltSwitch.v) is one of the shapes of UltInv.v,
    and leaves the code of every fiber as it was. *)
From S2P Require Import Prelude UltSwitch UltInv.

Section steps.
Context {U : Type}.
Implicit Types (u : U) (t : thread U) (x : ult_t U) (h : gmap positive (ult_t U)) (s : shared U) (c : system U).

Lemma set_running_id x : running x = true -> set_running true x = x.
Proof. destruct x as [r q n]. cbn. by intros ->. Qed.

Lemma saved_insert_ne h i j x u : i <> j -> saved (<[i := x]> h) j u <-> saved h j u.
Proof. intros. unfold saved. by rewrite lookup_insert_ne. Qed.
Lemma saved_insert_eq h i x u : saved (<[i := x]> h) i u <-> saved_code x = Some u.
Proof. unfold saved. rewrite lookup_insert_eq. naive_solver. Qed.

Lemma resumable_insert h i j x :
  (i = j -> is_Some (saved_code x)) -> (i <> j -> resumable h j) -> resumable (<[i := x]> h) j.
Proof.
  intros He Hn. destruct (decide (i = j)) as [->|Hne].
  - destruct (He eq_refl) as [u Hu]. exists u. by apply saved_insert_eq.
  - destruct (Hn Hne) as [u Hu]. exists u. by apply saved_insert_ne.
Qed.

Lemma born_insert h i j x :
  (i = j -> exists rax, context x = Some (AtTrampoline, rax)) -> (i <> j -> born h j) -> born (<[i := x]> h) j.
Proof.
  unfold born. intros He Hn. destruct (decide (i = j)) as [->|Hne].
  - destruct (He eq_refl) as [r Hr]. exists x, r. by rewrite lookup_insert_eq.
  - rewrite lookup_insert_ne by done. by apply Hn.
Qed.

(** What the call returns at which a context goes on. *)
Definition resumed x t : option positive :=
  match context x with Some (AtCreate _ new, _) => Some new | _ => result t end.

(** Where a context that can be gone on with comes back. *)
Lemma landing_resumes x u t :
  saved_code x = Some u -> exists q rax, context x = Some (q, rax) /\ landing rax q t = User u /\
    landed rax q t = resumed x t.
Proof.
  unfold saved_code, resumed. destruct (context x) as [[q rax]|]; [|done]. destruct (i32 rax =? 0) eqn:E; [done|].
  intros H. exists q, rax. split; [done|]. unfold landing, landed. rewrite E.
  destruct q as [| |k| |k]; cbn in H; try done; try (destruct k; by simplify_eq); by simplify_eq.
Qed.

Lemma long_jmp_resumes i x u t s :
  ults s !! i = Some x -> saved_code x = Some u ->
  long_jmp i None t s = (returning (resumed x t) (goto (User u) t), s).
Proof.
  intros Hx Hc. destruct (landing_resumes x u t Hc) as (q & rax & Hq & El & Er).
  unfold long_jmp. rewrite Hx, <- Er. destruct x as [r ctx n]. cbn in Hq. rewrite Hq. cbn. by rewrite El.
Qed.

Lemma long_jmp_boots i start t s :
  born (ults s) i -> context_creat_func t = Some start ->
  long_jmp i (Some 1) t s = (goto (BtLock start) t, s).
Proof.
  intros (x & rax & Hx & Hc) Hf. unfold long_jmp. rewrite Hx. destruct x as [r ctx n]. cbn in Hc. rewrite Hc.
  cbn. by rewrite Hf.
Qed.

(** Saving a context at user code makes it one to go on with. *)
Lemma saved_set_context q rax x u :
  i32 rax <> 0 -> point_code q = Some u -> saved_code (set_context (q, rax) x) = Some u.
Proof. intros Hr Hq. unfold saved_code. cbn. by rewrite (proj2 (Z.eqb_neq _ _) Hr). Qed.
Lemma saved_set_running b x : saved_code (set_running b x) = saved_code x.
Proof. done. Qed.

(** A record the thread claims is there. *)
Lemma local_lookup t s i : local t s -> i ∈ claims t -> exists x, ults s !! i = Some x /\ (running x = true <-> (i ∉ spare t)).
Proof. intros L. by apply lo_own. Qed.

Ltac facts :=
  repeat match goal with
  | H : _ /\ _ |- _ => destruct H
  | H : ex _ |- _ => destruct H
  | H : is_Some _ |- _ => destruct H
  | H : user _ |- _ => destruct H
  end; subst; cbn in *.

(** The steps on a record that is there. *)
Lemma ult_lock_run i x y t s :
  ults s !! i = Some x -> ult_lock (Some i) y t s =
    (if running x then t else goto y t, with_ults (<[i := set_running true x]> (ults s)) s).
Proof. intros Hx. unfold ult_lock, accessing, ult_trylock. cbn. rewrite Hx. cbn. by destruct (running x). Qed.
Lemma unlocking_run i x y t s :
  ults s !! i = Some x ->
  unlocking (Some i) y t s = (goto y t, with_ults (<[i := set_running false x]> (ults s)) s).
Proof. intros Hx. unfold unlocking, accessing, ult_unlock. cbn. by rewrite Hx. Qed.
Lemma save_run i x q rax y t s :
  ults s !! i = Some x ->
  set_jmp (Some i) q rax y t s = (goto y t, with_ults (<[i := set_context (q, rax) x]> (ults s)) s).
Proof. intros Hx. unfold set_jmp. cbn. by rewrite Hx. Qed.

Lemma spare_free t s i :
  local t s -> i ∈ spare t -> exists x, ults s !! i = Some x /\ running x = false.
Proof.
  intros L Hi. destruct (lo_own _ _ L i (spare_claims _ _ Hi)) as (x & Hx & Hr). exists x. split; [done|].
  destruct (running x); [|done]. destruct (proj1 Hr eq_refl). done.
Qed.
Lemma owned_running t s i :
  local t s -> i ∈ claims t -> i ∉ spare t -> exists x, ults s !! i = Some x /\ running x = true.
Proof. intros L Hi Hs. destruct (lo_own _ _ L i Hi) as (x & Hx & Hr). exists x. split; [done|by apply Hr]. Qed.

Lemma fresh_block t s : local t s -> ults s !! next_block s = None.
Proof. intros L. apply eq_None_not_Some. intros Hd%(lo_block _ _ L). lia. Qed.
Lemma fresh_handle t s : local t s -> next_block s ∉ handles s.
Proof. intros L Hh. destruct (lo_free _ _ L _ Hh) as (y & Hy & _). by rewrite (fresh_block t s L) in Hy. Qed.

#[local] Arguments ult_lock : simpl never.
#[local] Arguments unlocking : simpl never.
#[local] Arguments set_jmp : simpl never.
#[local] Arguments long_jmp : simpl never.
#[local] Arguments new_ult : simpl never.

(** *** Becoming a fiber *)
Lemma convert_ok rax k t s t' s' :
  local t s ->
  (at_ t = CvAlloc k \/ exists i, at_ t = CvLock k i \/ at_ t = CvSave k i \/ at_ t = CvCurrent k i) ->
  micro rax t s = Some (t', s') -> okstep t t' s s' /\ okcode t t' s s'.
Proof.
  intros L Hat Hm. destruct t as [cu cc cf a re]. pose proof (lo_pc _ _ L) as Hok. pose proof (lo_nodup _ _ L) as Hnd.
  unfold pc_ok in Hok. cbn in *.
  destruct Hat as [->|[i [->|[->| ->]]]]; cbn in *; facts; apply (inj Some) in Hm.
  - pose proof (fresh_block _ _ L) as Hnew. pose proof (fresh_handle _ _ L) as Hnh.
    unfold new_ult in Hm. simplify_eq. split.
    + eapply (uok_update _ _ _ _ (next_block s)); [done| |reflexivity|right; by right|by right| |]; cbn.
      * split; cbn; [split; [by eexists|done]|repeat constructor; set_solver|by left|set_solver|done].
      * set_solver.
      * left. set_solver.
    + split; cbn; [set_solver|]. intros j u _ [?|?] Hs; [set_solver|].
      assert (j = next_block s) as -> by set_solver. destruct Hs as (y & Hy & _). congruence.
  - destruct (spare_free _ _ i L) as (y & Hy & Hn); [set_solver|]. rewrite (ult_lock_run i y), Hn in Hm by done. simplify_eq.
    split.
    + eapply (uok_update _ _ _ _ i); [done| |reflexivity|left; set_solver|left; by rewrite Hy| |]; cbn.
      * split; cbn; [split; [by eexists|done]|done|by left|set_solver|done].
      * set_solver.
      * left. set_solver.
    + split; cbn; set_solver.
  - destruct (owned_running _ _ i L) as (y & Hy & Hn); [set_solver|set_solver|].
    rewrite (save_run i y) in Hm by done. simplify_eq. split.
    + eapply (uok_update _ _ _ _ i); [done| |reflexivity|left; set_solver|left; by rewrite Hy| |]; cbn.
      * split; cbn; [split; [by eexists|done]|done|by left|set_solver|done].
      * set_solver.
      * left. rewrite Hn. set_solver.
    + split; cbn; set_solver.
  - simplify_eq. split.
    + apply uok_keep; cbn; [done| |done|done|set_solver|set_solver].
      split; cbn; [done|done|right; exists i; set_solver|set_solver|set_solver].
    + split; cbn; set_solver.
Qed.

(** *** Creating a fiber *)
Ltac start_case L Hm :=
  let Hok := fresh "Hok" in let Hnd := fresh "Hnd" in
  match type of L with local ?t _ => destruct t as [cu cc cf a re] end;
  pose proof (lo_pc _ _ L) as Hok; pose proof (lo_nodup _ _ L) as Hnd;
  unfold pc_ok in Hok; cbn in *; subst; cbn in *; facts; apply (inj Some) in Hm.

Lemma create_alloc_ok rax k start t s t' s' :
  local t s -> at_ t = CrAlloc k start -> micro rax t s = Some (t', s') ->
  okstep t t' s s' /\ okcode t t' s s'.
Proof.
  intros L Hat Hm. start_case L Hm.
  pose proof (fresh_block _ _ L) as Hnew. pose proof (fresh_handle _ _ L) as Hnh.
  pose proof (lo_current _ _ L _ eq_refl) as Hcur. unfold new_ult in Hm. simplify_eq. split.
  - eapply (uok_update _ _ _ _ (next_block s)); [done| |reflexivity|right; by right|by right| |]; cbn.
    + split; cbn; [split; by eexists|repeat constructor; set_solver|by left|set_solver|set_solver].
    + set_solver.
    + left. set_solver.
  - split; cbn; [set_solver|]. intros j u Hj Hc Hs.
    assert (j = next_block s) as -> by set_solver. destruct Hs as (y & Hy & _). congruence.
Qed.

Lemma create_raise_ok rax k i start t s t' s' :
  local t s -> at_ t = CrRaise k i start -> micro rax t s = Some (t', s') ->
  okstep t t' s s' /\ okcode t t' s s'.
Proof.
  intros L Hat Hm. start_case L Hm. destruct (spare_free _ _ i L) as (y & Hy & Hn); [set_solver|].
  rewrite (save_run i y) in Hm by done. simplify_eq. split.
  - eapply (uok_update _ _ _ _ i); [done| |reflexivity|left; set_solver|left; by rewrite Hy| |]; cbn.
    + split; cbn; [|done|by left|apply (lo_spare _ _ L)|apply (lo_current _ _ L)].
      unfold pc_ok; cbn. split; [by eexists|]. split; [by eexists|]. do 2 (split; [done|]).
      exists (set_context (AtTrampoline, rax) y), rax. by rewrite lookup_insert_eq.
    + set_solver.
    + left. rewrite Hn. set_solver.
  - split; cbn; set_solver.
Qed.

Lemma create_lock_ok rax k i t s t' s' :
  local t s -> at_ t = CrLock k i -> micro rax t s = Some (t', s') ->
  okstep t t' s s' /\ okcode t t' s s'.
Proof.
  intros L Hat Hm. start_case L Hm. destruct (spare_free _ _ i L) as (y & Hy & Hn); [set_solver|].
  rewrite (ult_lock_run i y), Hn in Hm by done. simplify_eq. split.
  - eapply (uok_update _ _ _ _ i); [done| |reflexivity|left; set_solver|left; by rewrite Hy| |]; cbn.
    + split; cbn; [|done|by left|set_solver|apply (lo_current _ _ L)].
      unfold pc_ok; cbn. do 2 (split; [by eexists|]). split; [done|]. split; [by eexists|].
      assert (born (ults s) i) as Hb by done. apply born_insert; [|done]. intros _. destruct Hb as (z & r & Hz & Hc).
      exists r. cbn. congruence.
    + set_solver.
    + left. set_solver.
  - split; cbn; set_solver.
Qed.

Lemma create_save_ok rax k i t s t' s' :
  i32 rax <> 0 -> local t s -> at_ t = CrSave k i -> micro rax t s = Some (t', s') ->
  okstep t t' s s' /\ okcode t t' s s'.
Proof.
  intros Hr L Hat Hm. start_case L Hm.
  match type of L with local {| at_ := CrSave (User ?v) _ |} _ => rename v into u end.
  apply NoDup_cons in Hnd as Hne. destruct Hne as [Hne _].
  match type of L with local {| current := Some ?v |} _ => rename v into o end.
  destruct (owned_running _ _ o L) as (y & Hy & Hn); [set_solver|set_solver|].
  rewrite (save_run o y) in Hm by done. simplify_eq.
  pose proof (saved_set_context (AtCreate (User u) i) rax y u Hr eq_refl) as Hs.
  split.
  - eapply (uok_update _ _ _ _ o); [done| |reflexivity|left; set_solver|left; by rewrite Hy| |]; cbn.
    + split; cbn; [|done|right; exists i; set_solver|set_solver|].
      * split; [by eexists|]. split; [exists o; split; [done|]; apply resumable_insert; [by eexists|done]|].
        do 2 (split; [done|]). by apply born_insert; [set_solver|].
      * intros j [= <-]. apply elem_of_union_r. by apply (lo_current _ _ L).
    + set_solver.
    + left. rewrite Hn. set_solver.
  - split; cbn.
    + intros j v [[= -> ->]|Hj]%elem_of_cons; [right|left; set_solver].
      split; [set_solver|by apply saved_insert_eq].
    + set_solver.
Qed.

(** A record is released with the code it goes on with. *)
Lemma resumable_code h i x : resumable h i -> h !! i = Some x -> is_Some (saved_code x).
Proof. intros (u & y & Hy & Hc) Hx. exists u. congruence. Qed.

Lemma create_unlock_ok rax k i t s t' s' :
  local t s -> at_ t = CrUnlock k i -> micro rax t s = Some (t', s') ->
  okstep t t' s s' /\ okcode t t' s s'.
Proof.
  intros L Hat Hm. start_case L Hm.
  match type of L with local {| current := Some ?v |} _ => rename v into o end.
  apply NoDup_cons in Hnd as Hne. destruct Hne as [Hne _].
  destruct (owned_running _ _ o L) as (y & Hy & Hn); [set_solver|set_solver|].
  rewrite (unlocking_run o y) in Hm by done. simplify_eq.
  assert (resumable (ults s) o) as Hres by done. split.
  - eapply (uok_update _ _ _ _ o); [done| |reflexivity|left; set_solver|left; by rewrite Hy| |]; cbn.
    + split; cbn; [|repeat constructor; set_solver|by left|set_solver|apply (lo_current _ _ L)].
      split; [exists o; split; [done|set_solver]|]. do 2 (split; [done|]). by apply born_insert; [set_solver|].
    + set_solver.
    + right. rewrite saved_set_running. split; [set_solver|]. split; [set_solver|]. split; [done|].
      by eapply resumable_code.
  - split; cbn; [set_solver|]. intros j u Hj Hc Hs. right. split; [done|].
    destruct (decide (o = j)) as [->|]; [|by apply saved_insert_ne]. apply saved_insert_eq.
    destruct Hs as (z & Hz & Hz'). rewrite saved_set_running. congruence.
Qed.

Lemma create_jump_ok rax o i t s t' s' :
  local t s -> at_ t = CrJump o i -> micro rax t s = Some (t', s') ->
  okstep t t' s s' /\ okcode t t' s s'.
Proof.
  intros L Hat Hm. start_case L Hm.
  rewrite (long_jmp_boots i _) in Hm by done. simplify_eq. split.
  - apply uok_keep; [done| |done|done|set_solver|set_solver].
    split; cbn; [|done|by left|set_solver|apply (lo_current _ _ L)]. eexists i, _. done.
  - split; cbn; [set_solver|]. intros j v Hj Hc Hs. by right.
Qed.

(** *** The first steps of a fiber *)
Lemma boot_lock_ok rax start t s t' s' :
  local t s -> at_ t = BtLock start -> micro rax t s = Some (t', s') ->
  okstep t t' s s' /\ okcode t t' s s'.
Proof.
  intros L Hat Hm. start_case L Hm.
  match type of L with local {| current := Some ?v; context_creat := Some ?w |} _ => rename v into o, w into i end.
  destruct (lo_free _ _ L o (lo_current _ _ L _ eq_refl)) as (y & Hy & Hfree).
  rewrite (ult_lock_run o y) in Hm by done. destruct (running y) eqn:Hn; simplify_eq.
  - split.
    + apply uok_keep; [done| |cbn; by rewrite set_running_id, insert_id|done|done|done].
      split; cbn; [|done|by left|set_solver|apply (lo_current _ _ L)]. by exists i, o.
    + split; cbn; [set_solver|]. intros j v Hj Hc Hs. right. split; [done|]. by rewrite set_running_id, insert_id.
  - destruct (Hfree eq_refl) as [Hout Hcode]. split.
    + eapply (uok_update _ _ _ _ o); [done| |reflexivity| |left; by rewrite Hy| |]; cbn.
      * split; cbn; [|repeat constructor; set_solver|by left|set_solver|apply (lo_current _ _ L)].
        exists i, o. do 2 (split; [done|]). by apply resumable_insert.
      * right. left. exists y. split; [done|]. split; [done|]. by apply (lo_current _ _ L).
      * set_solver.
      * left. set_solver.
    + split; cbn; [set_solver|]. intros j v Hj Hc Hs. right. split; [done|].
      destruct (decide (o = j)) as [->|]; [|by apply saved_insert_ne]. apply saved_insert_eq.
      destruct Hs as (z & Hz & Hz'). rewrite saved_set_running. congruence.
Qed.

Lemma boot_save_ok rax start t s t' s' :
  i32 rax <> 0 -> local t s -> at_ t = BtSave start -> micro rax t s = Some (t', s') ->
  okstep t t' s s' /\ okcode t t' s s'.
Proof.
  intros Hr L Hat Hm. start_case L Hm.
  match type of L with local {| current := Some ?v; context_creat := Some ?w |} _ => rename v into o, w into i end.
  apply NoDup_cons in Hnd as Hne. destruct Hne as [Hne _].
  destruct (owned_running _ _ i L) as (y & Hy & Hn); [set_solver|set_solver|].
  rewrite (save_run i y) in Hm by done. simplify_eq.
  assert (resumable (ults s) o) as Hres by done.
  pose proof (saved_set_context (AtBoot start) rax y start Hr eq_refl) as Hs. split.
  - eapply (uok_update _ _ _ _ i); [done| |reflexivity|left; set_solver|left; by rewrite Hy| |]; cbn.
    + split; cbn; [|done|by left|set_solver|apply (lo_current _ _ L)].
      exists i, o. do 2 (split; [done|]). split; apply resumable_insert; try done; by eexists.
    + set_solver.
    + left. rewrite Hn. set_solver.
  - split; cbn.
    + intros j v [= -> ->]%list_elem_of_singleton. right. split; [set_solver|by apply saved_insert_eq].
    + intros j v Hj Hc Hsv. right. split; [set_solver|]. apply saved_insert_ne; [set_solver|done].
Qed.

Lemma boot_unlock_ok rax start t s t' s' :
  local t s -> at_ t = BtUnlock start -> micro rax t s = Some (t', s') ->
  okstep t t' s s' /\ okcode t t' s s'.
Proof.
  intros L Hat Hm. start_case L Hm.
  match type of L with local {| current := Some ?v; context_creat := Some ?w |} _ => rename v into o, w into i end.
  apply NoDup_cons in Hnd as Hne. destruct Hne as [Hne _].
  destruct (owned_running _ _ i L) as (y & Hy & Hn); [set_solver|set_solver|].
  rewrite (unlocking_run i y) in Hm by done. simplify_eq.
  assert (resumable (ults s) o) as Hres by done. assert (resumable (ults s) i) as Hresi by done. split.
  - eapply (uok_update _ _ _ _ i); [done| |reflexivity|left; set_solver|left; by rewrite Hy| |]; cbn.
    + split; cbn; [|repeat constructor; set_solver|by left|set_solver|apply (lo_current _ _ L)].
      exists o. split; [done|]. apply resumable_insert; [set_solver|done].
    + set_solver.
    + right. rewrite saved_set_running. split; [set_solver|]. split; [set_solver|]. split; [done|].
      by eapply resumable_code.
  - split; cbn; [set_solver|]. intros j u Hj Hc Hs. right. split; [done|].
    destruct (decide (i = j)) as [->|]; [|by apply saved_insert_ne]. apply saved_insert_eq.
    destruct Hs as (z & Hz & Hz'). rewrite saved_set_running. congruence.
Qed.

(** A jump to a context that goes on in user code. *)
Lemma resume_ok i t s t' s' :
  local t s -> current t = Some i -> claims t = [i] -> spare t = [] -> code t = [] -> resumable (ults s) i ->
  long_jmp i None t s = (t', s') -> okstep t t' s s' /\ okcode t t' s s'.
Proof.
  intros L Hcur Hcl Hsp Hco [u Hu] Hm. destruct Hu as (x & Hx & Hxu).
  rewrite (long_jmp_resumes i x u) in Hm by done. simplify_eq. split.
  - apply uok_keep; [done| |done|done| |].
    + split; unfold claims, pc_ok, spare; cbn; [done| |by left|set_solver|].
      * rewrite Hcur. repeat constructor. set_solver.
      * intros j Hj. apply (lo_current _ _ L). cbn in Hj. done.
    + rewrite Hcl. unfold claims; cbn. by rewrite Hcur.
    + by rewrite Hsp.
  - split; [rewrite Hco; set_solver|]. intros j v Hj Hc Hs. left. unfold code; cbn. rewrite Hcur.
    assert (j = i) as -> by (unfold claims in Hc at 2; cbn in Hc; rewrite Hcur, Hcl in Hc; set_solver).
    destruct Hs as (y & Hy & Hyv). assert (u = v) as -> by congruence. set_solver.
Qed.

Lemma boot_jump_ok rax o t s t' s' :
  local t s -> at_ t = BtJump o -> micro rax t s = Some (t', s') ->
  okstep t t' s s' /\ okcode t t' s s'.
Proof.
  intros L Hat Hm. start_case L Hm. unfold accessing in Hm. cbn in Hm. by eapply resume_ok.
Qed.

(** *** Switching *)
Lemma switch_try_ok rax k from to t s t' s' :
  local t s -> at_ t = SwTry k from to -> micro rax t s = Some (t', s') ->
  okstep t t' s s' /\ okcode t t' s s'.
Proof.
  intros L Hat Hm. destruct to as [to|].
  2: { start_case L Hm. simplify_eq. split; [|split; cbn; [by left|set_solver]].
    apply uok_keep; [done| |done|done|done|done].
    split; cbn; [done|done|by left|set_solver|apply (lo_current _ _ L)]. }
  start_case L Hm. match type of L with local {| current := Some ?v |} _ => rename v into o end.
  assert (to ∈ handles s) as Hto by auto. destruct (lo_free _ _ L to Hto) as (y & Hy & Hfree).
  unfold accessing, ult_trylock in Hm. cbn in Hm. rewrite Hy in Hm. cbn in Hm.
  destruct (running y) eqn:Hn; cbn in Hm; simplify_eq.
  - split.
    + apply uok_keep; [done| |cbn; by rewrite set_running_id, insert_id|done|done|done].
      split; cbn; [done|done|by left|set_solver|apply (lo_current _ _ L)].
    + split; cbn; [by left|]. intros j v Hj Hc Hs. set_solver.
  - destruct (Hfree eq_refl) as [Hout Hcode]. split.
    + eapply (uok_update _ _ _ _ to); [done| |reflexivity| |left; by rewrite Hy| |]; cbn.
      * split; cbn; [|repeat constructor; set_solver|by left|set_solver|apply (lo_current _ _ L)].
        split; [by eexists|]. do 2 (split; [done|]). split; [by apply resumable_insert|done].
      * right. left. by exists y.
      * set_solver.
      * left. set_solver.
    + split; cbn; [by left|]. intros j v Hj Hc Hs. right. split; [done|].
      destruct (decide (to = j)) as [->|]; [|by apply saved_insert_ne]. apply saved_insert_eq.
      destruct Hs as (z & Hz & Hz'). rewrite saved_set_running. congruence.
Qed.

Lemma switch_set_ok rax k from to t s t' s' :
  local t s -> at_ t = SwSet k from to -> micro rax t s = Some (t', s') ->
  okstep t t' s s' /\ okcode t t' s s'.
Proof.
  intros L Hat Hm. start_case L Hm. simplify_eq. split.
  - apply uok_keep; [done| |done|done|done|done].
    split; cbn; [split; by eexists|done|by left|set_solver|set_solver].
  - split; cbn; [by left|]. intros j v Hj Hc Hs. by right.
Qed.

Lemma switch_save_ok rax k from to t s t' s' :
  i32 rax <> 0 -> local t s -> at_ t = SwSave k from to -> micro rax t s = Some (t', s') ->
  okstep t t' s s' /\ okcode t t' s s'.
Proof.
  intros Hr L Hat Hm. start_case L Hm.
  match type of L with local {| at_ := SwSave (User ?v) (Some ?w) _ |} _ => rename v into u, w into o end.
  apply NoDup_cons in Hnd as Hne. destruct Hne as [Hne _].
  destruct (owned_running _ _ o L) as (y & Hy & Hn); [set_solver|set_solver|].
  rewrite (save_run o y) in Hm by done. simplify_eq.
  assert (resumable (ults s) to) as Hres by done.
  pose proof (saved_set_context (AtSwitch (User u) (Some o) to) rax y u Hr eq_refl) as Hs. split.
  - eapply (uok_update _ _ _ _ o); [done| |reflexivity|left; set_solver|left; by rewrite Hy| |]; cbn.
    + split; cbn; [|done|by left|set_solver|apply (lo_current _ _ L)].
      split; [by eexists|]. split; [exists o; split; [done|]; apply resumable_insert; [by eexists|done]|].
      split; [done|]. by apply resumable_insert; [set_solver|].
    + set_solver.
    + left. rewrite Hn. set_solver.
  - split; cbn.
    + intros j v [= -> ->]%list_elem_of_singleton. right. split; [set_solver|by apply saved_insert_eq].
    + intros j v Hj Hc Hsv. right. split; [set_solver|]. apply saved_insert_ne; [set_solver|done].
Qed.

Lemma switch_unlock_ok rax k from to t s t' s' :
  local t s -> at_ t = SwUnlock k from to -> micro rax t s = Some (t', s') ->
  okstep t t' s s' /\ okcode t t' s s'.
Proof.
  intros L Hat Hm. start_case L Hm.
  match type of L with local {| at_ := SwUnlock _ (Some ?w) _ |} _ => rename w into o end.
  apply NoDup_cons in Hnd as Hne. destruct Hne as [Hne _].
  destruct (owned_running _ _ o L) as (y & Hy & Hn); [set_solver|set_solver|].
  rewrite (unlocking_run o y) in Hm by done. simplify_eq.
  assert (resumable (ults s) o) as Hres by done. assert (resumable (ults s) to) as Hresi by done. split.
  - eapply (uok_update _ _ _ _ o); [done| |reflexivity|left; set_solver|left; by rewrite Hy| |]; cbn.
    + split; cbn; [|repeat constructor; set_solver|by left|set_solver|apply (lo_current _ _ L)].
      split; [done|]. apply resumable_insert; [set_solver|done].
    + set_solver.
    + right. rewrite saved_set_running. split; [set_solver|]. split; [set_solver|]. split; [done|].
      by eapply (resumable_code (ults s) o).
  - split; cbn; [set_solver|]. intros j u Hj Hc Hs. right. split; [done|].
    destruct (decide (o = j)) as [->|]; [|by apply saved_insert_ne]. apply saved_insert_eq.
    destruct Hs as (z & Hz & Hz'). rewrite saved_set_running. congruence.
Qed.

Lemma switch_jump_ok rax from to t s t' s' :
  local t s -> at_ t = SwJump from to -> micro rax t s = Some (t', s') ->
  okstep t t' s s' /\ okcode t t' s s'.
Proof. intros L Hat Hm. start_case L Hm. by eapply resume_ok. Qed.

(** ** Every step *)
Lemma micro_ok rax t s t' s' :
  i32 rax <> 0 -> local t s -> micro rax t s = Some (t', s') -> okstep t t' s s' /\ okcode t t' s s'.
Proof.
  intros Hr L Hm. destruct (at_ t) eqn:Hat.
  1, 21: unfold micro in Hm; by rewrite Hat in Hm.
  1-4: eapply (convert_ok rax); [done| |done]; first [by left|right; eexists; eauto].
  - by eapply create_alloc_ok.
  - by eapply create_raise_ok.
  - by eapply create_lock_ok.
  - by eapply create_save_ok.
  - by eapply create_unlock_ok.
  - by eapply create_jump_ok.
  - by eapply boot_lock_ok.
  - by eapply boot_save_ok.
  - by eapply boot_unlock_ok.
  - by eapply boot_jump_ok.
  - by eapply switch_try_ok.
  - by eapply switch_set_ok.
  - by eapply switch_save_ok.
  - by eapply switch_unlock_ok.
  - by eapply switch_jump_ok.
Qed.
End steps.
