(* ===== verification/UltSafety.v ===== *)
(** * User-level threads: what holds in every interleaving

    The theorems about UltSwitch.v: no fiber is run by two threads, each
    fiber goes on where it was left, and what a switch and a creation do when
    nothing interrupts them. *)
From S2P Require Import Prelude UltSwitch UltInv UltSteps.

(** ** The invariant and the continuations *)
Section states.
Context {U : Type}.
Implicit Types (u : U) (t : thread U) (x : ult_t U) (s : shared U) (c : system U).

(** A claimed fiber has its code on the thread's side or in its context. *)
Lemma claimed_code t h hs i :
  pc_ok t h hs -> NoDup (claims t) -> i ∈ claims t ->
  (exists u, (i, u) ∈ code t) \/ ((i ∉ (code t).*1) /\ resumable h i).
Proof.
  unfold pc_ok, code, claims. intros Hok Hnd Hi. destruct t as [cu cc cf [] re]; cbn in *;
    repeat match goal with H : _ /\ _ |- _ => destruct H | H : ex _ |- _ => destruct H
      | H : is_Some _ |- _ => destruct H | H : user _ |- _ => destruct H end; subst; cbn in *;
    try destruct cu; cbn in *; try apply NoDup_cons in Hnd as [Hne _];
    rewrite ?elem_of_cons, ?elem_of_nil in Hi;
    repeat match goal with H : _ \/ _ |- _ => destruct H end; subst; try done;
    first [left; eexists; apply list_elem_of_here | left; eexists; apply list_elem_of_further, list_elem_of_here
      | by right; split; [set_solver|]].
Qed.

Lemma code_functional t h hs i u v :
  pc_ok t h hs -> NoDup (claims t) -> (i, u) ∈ code t -> (i, v) ∈ code t -> u = v.
Proof.
  unfold pc_ok, code, claims. intros Hok Hnd. destruct t as [cu cc cf [] re]; cbn in *;
    repeat match goal with H : _ /\ _ |- _ => destruct H | H : ex _ |- _ => destruct H
      | H : is_Some _ |- _ => destruct H | H : user _ |- _ => destruct H end; subst; cbn in *;
    try destruct cu; cbn in *; try apply NoDup_cons in Hnd as [Hne _];
    rewrite ?elem_of_cons, ?elem_of_nil; intros Hu Hv;
    repeat match goal with H : _ \/ _ |- _ => destruct H end; simplify_eq; try done; set_solver.
Qed.

(** A fiber that may be named and is not running is claimed by no thread. *)
Lemma lo_free_code c i x :
  uinv c -> i ∈ handles (mem c) -> ults (mem c) !! i = Some x -> running x = false ->
  (forall q t, threads c !! q = Some t -> i ∉ claims t) /\ exists u, saved_code x = Some u.
Proof.
  intros I Hi Hx Hr. assert (forall q t, threads c !! q = Some t -> i ∉ claims t) as Hno.
  { intros q t Ht. destruct (lo_free _ _ (uinv_local c q t I Ht) i Hi) as (y & Hy & Hf).
    apply Hf. congruence. }
  split; [done|]. by apply (ui_free _ I i x Hx).
Qed.

Lemma coded_claimed c q t i u :
  uinv c -> threads c !! q = Some t -> (i, u) ∈ code t -> i ∈ claims t.
Proof.
  intros I H0 Hc. eapply code_claims; [by eapply (ui_pc _ I)|]. apply list_elem_of_fmap. by exists (i, u).
Qed.

Lemma continuation_functional c i u v :
  uinv c -> continuation c i u -> continuation c i v -> u = v.
Proof.
  intros I [(q & t & H0 & Hu)|[Hn (x & Hx & Hu)]] [(q' & t' & H0' & Hv)|[Hn' (y & Hy & Hv)]].
  - assert (q = q') as -> by (eapply (ui_excl _ I q q' t t' i); eauto using coded_claimed).
    assert (t' = t) as -> by congruence.
    eapply code_functional; [by eapply (ui_pc _ I)|by eapply (ui_nodup _ I)|done|done].
  - destruct (Hn' q t H0). apply list_elem_of_fmap. by exists (i, u).
  - destruct (Hn q' t' H0'). apply list_elem_of_fmap. by exists (i, v).
  - congruence.
Qed.

(** Every record has a continuation, in its context when no thread claims it. *)
Lemma continuation_free c i x :
  uinv c -> ults (mem c) !! i = Some x -> (forall p t, threads c !! p = Some t -> i ∉ claims t) ->
  exists u, saved (ults (mem c)) i u /\ continuation c i u.
Proof.
  intros I Hx Hno. destruct (ui_free _ I i x Hx Hno) as [u Hu]. exists u. split; [by exists x|]. right.
  split; [|by exists x]. intros p t Ht Hc. apply (Hno p t Ht). by apply code_claims with (1 := ui_pc _ I p t Ht).
Qed.

Lemma continuation_claimed c p t i :
  uinv c -> threads c !! p = Some t -> i ∈ claims t -> exists u, continuation c i u.
Proof.
  intros I Ht Hc. destruct (claimed_code t _ _ i (ui_pc _ I p t Ht) (ui_nodup _ I p t Ht) Hc) as [[u Hu]|[Hn [u Hu]]].
  - exists u. left. by exists p, t.
  - exists u. right. split; [|done]. intros q t0 H0 Hc'. assert (q = p) as ->; [|congruence].
    eapply (ui_excl _ I q p t0 t i); [done|done| |done]. by apply code_claims with (1 := ui_pc _ I q t0 H0).
Qed.
End states.

Section runs.
Context {U : Type} (rax_ok : Z -> Prop) (alarm : pc U -> Prop).
Implicit Types (u : U) (t : thread U) (x : ult_t U) (s : shared U) (c : system U).

(** RAX is not zero where a context is saved; SIGALRM hits user code. *)
Hypothesis rax_nonzero : forall rax, rax_ok rax -> i32 rax <> 0.
Hypothesis alarm_user : forall k, alarm k -> user k.

Lemma uinv_newborn c : newborn c -> uinv c.
Proof.
  intros [Ht Hm]. assert (forall p t, threads c !! p = Some t -> claims t = [] /\ spare t = []) as Hno.
  { intros p t H. destruct (Ht p t H) as [Hc [u Hu]]. unfold claims, spare. by rewrite Hu, Hc. }
  split; rewrite ?Hm; cbn.
  - intros p t H. destruct (Ht p t H) as [Hc [u Hu]]. unfold pc_ok. by rewrite Hu.
  - intros p t H. destruct (Hno p t H) as [-> _]. constructor.
  - intros p q t t' i H _ Hi. destruct (Hno p t H) as [E _]. rewrite E in Hi. by apply not_elem_of_nil in Hi.
  - intros p t i H Hi. destruct (Hno p t H) as [E _]. rewrite E in Hi. by apply not_elem_of_nil in Hi.
  - intros i x. by rewrite lookup_empty.
  - intros i x. by rewrite lookup_empty.
  - intros i Hi. by apply not_elem_of_empty in Hi.
  - intros p t i H Hi. by apply not_elem_of_empty.
  - intros p t i H Hi. destruct (Ht p t H) as [Hc _]. congruence.
  - intros i. rewrite lookup_empty. by intros [].
Qed.

(** A step in user code, or into a call. *)
Lemma enter_okstep c p t k :
  uinv c -> threads c !! p = Some t -> user (at_ t) ->
  claims (goto k t) = option_list (current t) -> spare (goto k t) = [] ->
  pc_ok (goto k t) (ults (mem c)) (handles (mem c)) -> okstep t (goto k t) (mem c) (mem c).
Proof.
  intros I Ht [u Hu] Hc Hs Hok. pose proof (uinv_local c p t I Ht) as L.
  assert (claims t = option_list (current t)) as Ec by (unfold claims; by rewrite Hu).
  apply uok_keep; [done| |done|done|by rewrite Hc, Ec|unfold spare at 2; by rewrite Hs, Hu].
  split; [done| |by left|rewrite Hs; set_solver|apply (lo_current _ _ L)].
  rewrite Hc, <- Ec. apply L.
Qed.

Lemma user_at k : (exists u, k = User u) \/ alarm k -> user k.
Proof. intros [H|H]; [done|by apply alarm_user]. Qed.

Lemma okcode_enter t t' s : code t' = code t -> okcode t t' s s.
Proof. intros E. split; rewrite E; auto. Qed.

(** Every step but one of user code, as a step of one thread. *)
Lemma step_cases c p c' :
  uinv c -> step rax_ok alarm c p c' ->
  exists t t' s', threads c !! p = Some t /\ c' = {| threads := <[p := t']> (threads c); mem := s' |} /\
    okstep t t' (mem c) s' /\
    (okcode t t' (mem c) s' \/
     s' = mem c /\ exists u u', at_ t = User u /\ t' = goto (User u') t).
Proof.
  intros I Hs. destruct Hs as [c p t u u' Ht Hu|c p t u Ht Hu Hc|c p t u st Ht Hu Hc|c p t k to Ht Hk Hu Hc Hto|c p t rax t' s' Ht Hr Hm].
  - exists t, (goto (User u') t), (mem c). do 2 (split; [done|]). split.
    + eapply enter_okstep; try done. by exists u.
    + right. split; [done|]. by exists u, u'.
  - exists t, (goto (CvAlloc (User u)) t), (mem c). do 2 (split; [done|]). split.
    + eapply enter_okstep; try done; [by exists u|]. split; [by exists u|done].
    + left. apply okcode_enter. unfold code. rewrite Hu. cbn. by rewrite Hc.
  - exists t, (goto (CrAlloc (User u) st) t), (mem c). do 2 (split; [done|]). split.
    + eapply enter_okstep; try done; [by exists u|]. split; [by exists u|done].
    + left. apply okcode_enter. unfold code. by rewrite Hu.
  - apply user_at in Hk as [u ->]. exists t, (goto (SwTry (User u) (current t) to) t), (mem c).
    do 2 (split; [done|]). split.
    + eapply enter_okstep; try done; [by exists u|]. cbn. split; [by exists u|done].
    + left. apply okcode_enter. unfold code. by rewrite Hu.
  - exists t, t', s'. do 2 (split; [done|]).
    destruct (micro_ok rax t (mem c) t' s') as [O C]; [by apply rax_nonzero|by eapply uinv_local|done|].
    split; [done|by left].
Qed.

Lemma uinv_step c p c' : uinv c -> step rax_ok alarm c p c' -> uinv c'.
Proof.
  intros I Hs. destruct (step_cases c p c' I Hs) as (t & t' & s' & Ht & -> & O & _). by eapply uinv_okstep.
Qed.

Lemma uinv_reachable c : reachable rax_ok alarm c -> uinv c.
Proof. induction 1; [by apply uinv_newborn|by eapply uinv_step]. Qed.

(** ** Every run *)


Lemma continuation_step c p c' i u :
  uinv c -> step rax_ok alarm c p c' -> continuation c i u ->
  continuation c' i u \/
  exists t u', threads c !! p = Some t /\ current t = Some i /\ at_ t = User u /\
    c' = on p (goto (User u') t) c /\ continuation c' i u'.
Proof.
  intros I Hs Hi. destruct (step_cases c p c' I Hs) as (t & t' & s' & Ht & -> & O & [C|(-> & v & u' & Hv & ->)]).
  { left. by apply (continuation_okstep _ _ t t'). }
  assert (forall w, code (goto (User w) t) = option_list ((fun j => (j, w)) <$> current t)) as Hcode.
  { intros w. unfold code. cbn. by destruct (current t). }
  assert (code t = code (goto (User v) t)) as Et by (unfold code; by rewrite Hv).
  destruct (decide (current t = Some i)) as [Hc|Hc].
  - right. exists t, u'. assert (u = v) as ->; [|do 4 (split; [done|])].
    + destruct Hi as [(q & t0 & H0 & Hi)|[Hno _]].
      * assert (q = p) as ->.
        { apply (ui_excl _ I q p t0 t i H0 Ht); [|unfold claims; rewrite Hv, Hc; set_solver].
          eapply code_claims; [by eapply (ui_pc _ I)|]. apply list_elem_of_fmap. by exists (i, u). }
        assert (t0 = t) as -> by congruence. rewrite Et, Hcode, Hc in Hi. cbn in Hi. set_solver.
      * destruct (Hno p t Ht). rewrite Et, Hcode, Hc. cbn. set_solver.
    + left. exists p, (goto (User u') t). split; [apply lookup_insert_eq|]. rewrite Hcode, Hc. cbn. set_solver.
  - left. assert (forall w y, (i, y) ∉ code (goto (User w) t)) as Hno.
    { intros w y. rewrite Hcode. destruct (current t); cbn; set_solver. }
    destruct Hi as [(q & t0 & H0 & Hi)|[Hn Hi]].
    + left. exists q, t0. cbn. destruct (decide (q = p)) as [->|Hq]; [|by rewrite lookup_insert_ne].
      assert (t0 = t) as -> by congruence. rewrite Et in Hi. by apply Hno in Hi.
    + right. split; [|done]. cbn. intros q t0 [[-> ->]|[Hq H0]]%thread_cases; [|by eapply Hn].
      intros ([? y] & -> & Hx)%list_elem_of_fmap. by apply Hno in Hx.
Qed.


(** Every fiber a caller can name has exactly one continuation, and one that
    is not marked running has it in its context, ready to be taken. *)
Theorem ult_continuation_unique c i :
  reachable rax_ok alarm c -> i ∈ handles (mem c) ->
  (exists u, continuation c i u) /\ (forall u v, continuation c i u -> continuation c i v -> u = v) /\
  (forall x, ults (mem c) !! i = Some x -> running x = false -> exists u, saved (ults (mem c)) i u /\ continuation c i u).
Proof.
  intros I%uinv_reachable Hi.
  assert (forall x, ults (mem c) !! i = Some x -> running x = false ->
    exists u, saved (ults (mem c)) i u /\ continuation c i u) as Hfree.
  { intros x Hx Hr. destruct (lo_free_code c i x I Hi Hx Hr) as [Hno _]. by apply (continuation_free c i x). }
  split; [|split; [intros u v; by apply continuation_functional|done]].
  destruct (ui_handle _ I i Hi) as [x Hx]. destruct (running x) eqn:Hr.
  - apply (ui_lock _ I i x Hx) in Hr as (p & t & Ht & Hc & _). by eapply continuation_claimed.
  - destruct (Hfree x Hx Hr) as (u & _ & Hu). by exists u.
Qed.
End runs.

(** ** A call that nothing interrupts *)
Section alone.
Context {U : Type}.
Implicit Types (u : U) (t : thread U) (x y : ult_t U) (s : shared U).

Lemma solo_step rax n t s t' s' :
  micro rax t s = Some (t', s') -> solo rax (S n) t s = solo rax n t' s'.
Proof. intros Hm. cbn [solo]. rewrite Hm. unfold micro in Hm. by destruct (at_ t). Qed.

Lemma solo_user rax n t s u : at_ t = User u -> solo rax n t s = Some (t, s).
Proof. intros H. destruct n; cbn [solo]; by rewrite H. Qed.

(** The record a fiber leaves behind. *)
Definition left_at (q : point U) (rax : Z) x : ult_t U :=
  {| running := false; context := Some (q, rax); id := id x |}.

Definition back_in u t : thread U := goto (User u) t.
Definition moved_to i t : thread U :=
  {| current := Some i; context_creat := context_creat t; context_creat_func := context_creat_func t;
     at_ := at_ t; result := result t |}.

(** [ult_switch_to], undisturbed: NULL and a fiber that is running are left
    alone and the call returns; a free one is marked running, the caller is
    saved and marked free, and the thread goes on with the code the fiber was
    left at, as that fiber. *)
Theorem ult_switch_alone rax u t s o x to :
  at_ t = SwTry (User u) (current t) to -> current t = Some o -> ults s !! o = Some x -> running x = true ->
  match to with
  | None => solo rax 5 t s = Some (back_in u t, s)
  | Some i =>
      forall y, ults s !! i = Some y ->
        if running y then solo rax 5 t s = Some (back_in u t, s)
        else forall v, saved_code y = Some v ->
          solo rax 5 t s = Some (returning (resumed y t) (back_in v (moved_to i t)),
            with_ults (<[o := left_at (AtSwitch (User u) (Some o) i) rax x]> (<[i := set_running true y]> (ults s))) s)
  end.
Proof.
  destruct t as [cu cc cf a re]. cbn [at_ current]. intros -> -> Hx Hr. destruct to as [i|].
  2: { erewrite solo_step by reflexivity. by apply (solo_user _ _ _ _ u). }
  intros y Hy. destruct (running y) eqn:Hry.
  - erewrite solo_step.
    2: { unfold micro, ult_switch_to, accessing, ult_trylock. cbn. rewrite Hy. cbn. by rewrite Hry. }
    rewrite (solo_user _ _ _ _ u) by done. by rewrite set_running_id, insert_id by done; destruct s.
  - intros v Hv. assert (i <> o) as Hne by congruence. set (h := <[i := set_running true y]> (ults s)).
    assert (h !! o = Some x) as Ho by (unfold h; by rewrite lookup_insert_ne).
    erewrite solo_step.
    2: { unfold micro, ult_switch_to, accessing, ult_trylock. cbn. rewrite Hy. cbn. by rewrite Hry. }
    cbn [negb]. erewrite solo_step by reflexivity.
    erewrite solo_step by (unfold micro, ult_switch_to; cbn [at_]; by rewrite (save_run o x)).
    erewrite solo_step by (unfold micro, ult_switch_to, goto; cbn [at_]; erewrite unlocking_run; [reflexivity|apply lookup_insert_eq]).
    erewrite solo_step; [apply (solo_user _ _ _ _ v); reflexivity|].
    unfold micro, ult_switch_to, goto. cbn [at_]. rewrite (long_jmp_resumes i (set_running true y) v).
    + unfold back_in, moved_to, goto, with_ults. cbn. by rewrite insert_insert_eq.
    + cbn. rewrite insert_insert_eq, lookup_insert_ne by done. apply lookup_insert_eq.
    + done.
Qed.

Ltac tidy :=
  unfold goto, with_ults, with_handle, set_context, set_running;
  cbn [at_ current context_creat context_creat_func result ults ult_id next_block handles running context id];
  rewrite ?insert_insert_eq.
Ltac access f := erewrite solo_step by
  (unfold micro, context_create, context_create_boot, with_handle; cbn [at_ current context_creat context_creat_func]; f; reflexivity); tidy.

(** [ult_creat], undisturbed: it returns to its caller, which is marked
    running again; the new fiber has the next identity, is free, and its
    context starts the entry function on its own stack. *)
Theorem ult_creat_alone rax u start t s o x :
  at_ t = CrAlloc (User u) start -> current t = Some o -> ults s !! o = Some x -> running x = true ->
  ults s !! next_block s = None -> i32 rax <> 0 ->
  let n := next_block s in
  solo rax 10 t s =
    Some ({| current := Some o; context_creat := Some n; context_creat_func := Some start; at_ := User u; result := Some n |},
          {| ults := <[n := {| running := false; context := Some (AtBoot start, rax); id := ult_id s |}]>
               (<[o := set_context (AtCreate (User u) n, rax) x]> (ults s));
             ult_id := i32 (ult_id s + 1); next_block := Pos.succ n; handles := {[n]} ∪ handles s |}).
Proof.
  destruct t as [cu cc cf a re]. cbn [at_ current]. intros -> -> Hx Hr Hnew Hrax. cbn zeta. set (n := next_block s) in *.
  assert (n <> o) as Hne by congruence.

  assert (o <> n) as Hne' by congruence.
  erewrite solo_step by reflexivity. tidy. fold n.
  access ltac:(erewrite save_run by apply lookup_insert_eq).
  access ltac:(erewrite ult_lock_run by apply lookup_insert_eq).
  access ltac:(erewrite save_run by (cbn [ults]; rewrite lookup_insert_ne by done; exact Hx)).
  access ltac:(erewrite unlocking_run by apply lookup_insert_eq).
  access ltac:(erewrite (long_jmp_boots n start) by first [reflexivity|
    do 2 eexists; cbn [ults]; rewrite lookup_insert_ne by done; split; [apply lookup_insert_eq|reflexivity]]).
  access ltac:(erewrite ult_lock_run by apply lookup_insert_eq).
  access ltac:(erewrite save_run by (cbn [ults]; rewrite lookup_insert_ne by done; apply lookup_insert_eq)).
  access ltac:(erewrite unlocking_run by apply lookup_insert_eq).
  assert (saved_code {| running := true; context := Some (AtCreate (User u) n, rax); id := id x |} = Some u) as Hs
    by by apply (saved_set_context (AtCreate (User u) n) rax {| running := true; context := None; id := id x |}).
  access ltac:(unfold accessing; cbn [mbind option_bind default];
    erewrite (long_jmp_resumes o _ u) by first [exact Hs|
      cbn [ults]; rewrite lookup_insert_ne by done; apply lookup_insert_eq]).
  rewrite (solo_user _ _ _ _ u) by done. rewrite Hr. unfold returning, resumed. cbn [at_ current context_creat context_creat_func context]. do 3 f_equal. apply map_eq. intros j.
  destruct (decide (j = n)) as [->|Hj]; [by rewrite !lookup_insert_eq|]. rewrite !(lookup_insert_ne _ n) by done.
  destruct (decide (j = o)) as [->|Hjo]; [by rewrite !lookup_insert_eq|]. by rewrite !lookup_insert_ne by done.
Qed.
End alone.

(** ** The stack of a new fiber *)

(** [get_ult_stack] clears no byte but those of the block it allocated only
    for sizes up to STACK_SIZE (0 stands for the system's default): the block
    does not depend on the size asked for, and the pages cleared do. *)
Theorem get_ult_stack_bounds SIGSTKSZ stack size :
  0 <= size <= 2 ^ 64 - 4096 -> 0 < SIGSTKSZ <= 2 ^ 64 - 4096 ->
  get_ult_stack 4096 SIGSTKSZ false stack size tt =
    if decide ((if decide (size = 0) then SIGSTKSZ else size) <= STACK_SIZE)
    then Ret (tt, tt) else Fault (OutOfBounds STACK_SIZE).
Proof.
  intros Hs Hg. unfold get_ult_stack, bzero, assert_or.
  set (n := if decide (size = 0) then SIGSTKSZ else size).
  replace (if size <=? 0 then SIGSTKSZ else size) with n
    by (unfold n; case_decide; destruct (Z.leb_spec size 0); lia).
  assert (0 < n <= 2 ^ 64 - 4096) as Hn by (unfold n; case_decide; lia). clearbody n. unfold STACK_SIZE.
  pose proof (Z.mod_pos_bound n 4096 ltac:(lia)) as Hm. pose proof (Z.div_mod n 4096 ltac:(lia)) as Hd.
  destruct (Z.eqb_spec (n mod 4096) 0) as [E|E]; cbn [negb].
  - destruct (Z.leb_spec n (4096 * 2)); by case_decide; try lia.
  - rewrite u64_small by (unfold in_u64; lia).
    destruct (Z.leb_spec (n + (4096 - n mod 4096)) (4096 * 2)); case_decide; try done; lia.
Qed.
