(* ===== verification/Threads.v ===== *)
(** * Starting threads ([testbed/src/thread.c])

    [create_threads] starts threads that share one heap block with the routine
    to run; each takes a number from [thread_counter] by compare-and-swap and
    frees the block when the routine returns.  The threads' accesses
    interleave. *)
From S2P Require Import Prelude.

(** ** The code of a thread ([__helper_create_thread]) *)
Inductive tpc :=
  | ReadCounter
  | SetTid (old : Z)
  | Swap (old : Z)
  | LoadRoutine
  | Routine
  | FreeArg
  | Returned.

(** [tid] is the thread-local variable. *)
Record tthread := { tid : Z; tat : tpc }.

(** [arg_freed]: the block of [create_threads] has been freed.  [started]: the
    loop counter. *)
Record tstate := { thread_counter : Z; arg_freed : bool; started : Z; pool : gmap Z tthread }.

Definition tgoto (x : tpc) (t : tthread) : tthread := {| tid := tid t; tat := x |}.

Definition __helper_create_thread (t : tthread) (counter : Z) (freed : bool) : outcome (tthread * Z * bool) :=
  match tat t with
  | ReadCounter => Ret (tgoto (SetTid counter) t, counter, freed)
  | SetTid old => Ret ({| tid := u32 (old + 1); tat := Swap old |}, counter, freed)
  | Swap old =>
      (* __sync_bool_compare_and_swap *)
      if counter =? old then Ret (tgoto LoadRoutine t, tid t, freed)
      else Ret (tgoto ReadCounter t, counter, freed)
  | LoadRoutine => if freed then Fault UseAfterFree else Ret (tgoto Routine t, counter, freed)
  | Routine => Ret (tgoto FreeArg t, counter, freed)
  | FreeArg => if freed then Fault UseAfterFree else Ret (tgoto Returned t, counter, true)
  | Returned => Ret (t, counter, freed)
  end.

(** ** All of them

    [n] is the argument of [create_threads], an unsigned short; [returns]: the
    routine may return. *)
Section threads.
Context (n : Z) (returns : Prop).

Definition put_thread (p : Z) (t : tthread) (counter : Z) (freed : bool) (s : tstate) : tstate :=
  {| thread_counter := counter; arg_freed := freed; started := started s; pool := <[p := t]> (pool s) |}.

(** The loop of [create_threads] starts a thread. *)
Definition create_threads (s : tstate) : option tstate :=
  if started s <? n
  then Some {| thread_counter := thread_counter s; arg_freed := arg_freed s; started := i32 (started s + 1);
               pool := <[started s := {| tid := 0; tat := ReadCounter |}]> (pool s) |}
  else None.

Inductive tstep : tstate -> tstate -> Prop :=
  | t_start s s' : create_threads s = Some s' -> tstep s s'
  | t_thread s p t t' counter freed :
      pool s !! p = Some t -> (tat t = Routine -> returns) ->
      __helper_create_thread t (thread_counter s) (arg_freed s) = Ret (t', counter, freed) ->
      tstep s (put_thread p t' counter freed s).

Definition no_threads : tstate :=
  {| thread_counter := 0; arg_freed := false; started := 0; pool := ∅ |}.

Inductive treachable : tstate -> Prop :=
  | t_init : treachable no_threads
  | t_next s s' : treachable s -> tstep s s' -> treachable s'.

(** The threads that have their number. *)
Definition numbered (t : tthread) : bool :=
  match tat t with ReadCounter | SetTid _ | Swap _ => false | _ => true end.
Definition numbers (s : tstate) : gmap Z tthread := filter (fun pt => numbered pt.2 = true) (pool s).

Record tinv (s : tstate) : Prop := {
  ti_started : 0 <= started s <= n;
  ti_pool p : is_Some (pool s !! p) <-> 0 <= p < started s;
  ti_count : thread_counter s = Z.of_nat (size (numbers s));
  ti_range p t : pool s !! p = Some t -> numbered t = true -> 1 <= tid t <= thread_counter s;
  ti_onto k : 1 <= k <= thread_counter s -> exists p t, pool s !! p = Some t /\ numbered t = true /\ tid t = k;
  ti_inj p q t t' : pool s !! p = Some t -> pool s !! q = Some t' ->
    numbered t = true -> numbered t' = true -> tid t = tid t' -> p = q;
  ti_swap p t old : pool s !! p = Some t -> tat t = Swap old -> tid t = old + 1 /\ 0 <= old <= thread_counter s;
  ti_set p t old : pool s !! p = Some t -> tat t = SetTid old -> 0 <= old <= thread_counter s;
  ti_freed : arg_freed s = true -> exists p t, pool s !! p = Some t /\ tat t = Returned;
  ti_returns p t : pool s !! p = Some t -> tat t = FreeArg \/ tat t = Returned -> returns;
}.

Hypothesis Hn : 0 <= n < 2 ^ 16.

(** No more numbers than threads. *)
Lemma pool_size s : 0 <= started s -> (forall p, is_Some (pool s !! p) <-> 0 <= p < started s) ->
  Z.of_nat (size (pool s)) = started s.
Proof.
  intros H0 Hp. rewrite <- size_dom.
  assert (dom (pool s) = list_to_set (seqZ 0 (started s)) :> gset Z) as ->.
  { apply set_eq. intros p. rewrite elem_of_dom, elem_of_list_to_set, elem_of_seqZ, Hp. lia. }
  rewrite size_list_to_set by apply NoDup_seqZ. rewrite length_seqZ. lia.
Qed.

Lemma counter_bound s : tinv s -> 0 <= thread_counter s <= n.
Proof.
  intros I. rewrite (ti_count _ I). split; [lia|]. pose proof (ti_started _ I).
  rewrite <- (pool_size s) in H by (apply I || lia).
  assert (size (numbers s) <= size (pool s))%nat by (apply map_subseteq_size, map_filter_subseteq). lia.
Qed.

Lemma pool_cases (m : gmap Z tthread) p q t t' :
  <[p := t']> m !! q = Some t -> (q = p /\ t = t') \/ (q <> p /\ m !! q = Some t).
Proof. rewrite lookup_insert. case_decide; intros; simplify_eq; auto. Qed.

Lemma filter_keep (m : gmap Z tthread) p t t' :
  m !! p = Some t -> numbered t' = numbered t ->
  size (filter (fun pt => numbered pt.2 = true) (<[p := t']> m)) = size (filter (fun pt => numbered pt.2 = true) m).
Proof.
  intros Hp E. rewrite map_filter_insert. cbn. case_decide as Hd.
  - apply map_size_insert_Some. rewrite E in Hd. exists t. by apply map_lookup_filter_Some.
  - rewrite map_filter_delete_not; [done|]. intros y Hy. rewrite E in Hd. cbn. congruence.
Qed.

Lemma filter_more (m : gmap Z tthread) p t' :
  (forall t, m !! p = Some t -> numbered t = false) ->
  size (filter (fun pt => numbered pt.2 = true) (<[p := t']> m)) =
    ((if numbered t' then 1 else 0) + size (filter (fun pt => numbered pt.2 = true) m))%nat.
Proof.
  intros Hp. rewrite map_filter_insert. cbn. case_decide as Hd.
  - rewrite Hd, map_size_insert_None; [done|]. apply map_lookup_filter_None. right. cbn. intros t Ht.
    by rewrite (Hp t Ht).
  - apply not_true_is_false in Hd. rewrite Hd, map_filter_delete_not; [done|].
    intros y Hy. cbn. by rewrite (Hp y Hy).
Qed.

(** A step of a thread that leaves the numbers as they are. *)
Lemma tinv_keep s p t t' freed :
  tinv s -> pool s !! p = Some t -> numbered t' = numbered t -> (numbered t = true -> tid t' = tid t) ->
  (forall old, tat t' = Swap old -> tid t' = old + 1 /\ 0 <= old <= thread_counter s) ->
  (forall old, tat t' = SetTid old -> 0 <= old <= thread_counter s) ->
  (freed = true -> tat t' = Returned \/ arg_freed s = true) -> tat t <> Returned ->
  (tat t' = FreeArg \/ tat t' = Returned -> returns) ->
  tinv (put_thread p t' (thread_counter s) freed s).
Proof.
  intros I Hp En Et Hsw Hse Hfr Hnr Hre. unfold put_thread. split; cbn.
  - apply I.
  - intros q. rewrite lookup_insert_is_Some'. rewrite <- (ti_pool _ I q). split; [|by right].
    intros [<-|H]; [by eexists|done].
  - rewrite (ti_count _ I). unfold numbers. cbn. by rewrite (filter_keep _ p t t').
  - intros q t0 [[-> ->]|[Hq H0]]%pool_cases Hnum; [|by eapply (ti_range _ I)].
    rewrite En in Hnum. rewrite Et by done. by eapply (ti_range _ I).
  - intros k Hk. destruct (ti_onto _ I k Hk) as (q & t0 & H0 & Hnum & Hk').
    destruct (decide (q = p)) as [->|Hq]; [|exists q, t0; by rewrite lookup_insert_ne].
    assert (t0 = t) as -> by congruence. exists p, t'. rewrite lookup_insert_eq, En, Et by done. done.
  - intros q1 q2 t1 t2 [[-> ->]|[Hq1 H1]]%pool_cases [[-> ->]|[Hq2 H2]]%pool_cases N1 N2 E; [done| | |].
    + rewrite En in N1. rewrite Et in E by done. by eapply (ti_inj _ I).
    + rewrite En in N2. rewrite Et in E by done. by eapply (ti_inj _ I).
    + by eapply (ti_inj _ I).
  - intros q t0 old [[-> ->]|[Hq H0]]%pool_cases Ho; [by apply Hsw|by eapply (ti_swap _ I)].
  - intros q t0 old [[-> ->]|[Hq H0]]%pool_cases Ho; [by apply Hse|by eapply (ti_set _ I)].
  - intros Hf. destruct (Hfr Hf) as [Hr|Hr]; [exists p, t'; by rewrite lookup_insert_eq|].
    destruct (ti_freed _ I Hr) as (q & t0 & H0 & Hret). exists q, t0.
    rewrite lookup_insert_ne; [done|]. intros ->. congruence.
  - intros q t0 [[-> ->]|[Hq H0]]%pool_cases Ho; [by apply Hre|by eapply (ti_returns _ I)].
Qed.

(** The compare-and-swap that succeeds. *)
Lemma tinv_swap s p t :
  tinv s -> pool s !! p = Some t -> tat t = Swap (thread_counter s) ->
  tinv (put_thread p (tgoto LoadRoutine t) (tid t) (arg_freed s) s).
Proof.
  intros I Hp Hat. destruct (ti_swap _ I p t _ Hp Hat) as [Ht _].
  pose proof (counter_bound s I) as Hcb.
  assert (numbered t = false) as Hnt by (unfold numbered; by rewrite Hat). unfold put_thread. split; cbn; rewrite ?Ht.
  - apply I.
  - intros q. rewrite lookup_insert_is_Some'. rewrite <- (ti_pool _ I q). split; [|by right].
    intros [<-|H]; [by eexists|done].
  - rewrite (ti_count _ I). unfold numbers. cbn. rewrite (filter_more _ p); [cbn; lia|]. intros t0 H0. congruence.
  - intros q t0 [[-> ->]|[Hq H0]]%pool_cases Hnum; cbn; [lia|]. pose proof (ti_range _ I q t0 H0 Hnum). lia.
  - intros k Hk. destruct (decide (k = thread_counter s + 1)) as [->|].
    + exists p, (tgoto LoadRoutine t). by rewrite lookup_insert_eq.
    + destruct (ti_onto _ I k) as (q & t0 & H0 & Hnum & Hk'); [lia|]. exists q, t0.
      rewrite lookup_insert_ne; [done|]. intros ->. congruence.
  - intros q1 q2 t1 t2 [[-> ->]|[Hq1 H1]]%pool_cases [[-> ->]|[Hq2 H2]]%pool_cases N1 N2 E; cbn in *; [done| | |].
    + pose proof (ti_range _ I q2 t2 H2 N2). lia.
    + pose proof (ti_range _ I q1 t1 H1 N1). lia.
    + by eapply (ti_inj _ I).
  - intros q t0 old [[-> ->]|[Hq H0]]%pool_cases Ho; [done|]. pose proof (ti_swap _ I q t0 old H0 Ho). lia.
  - intros q t0 old [[-> ->]|[Hq H0]]%pool_cases Ho; [done|]. pose proof (ti_set _ I q t0 old H0 Ho). lia.
  - intros Hf. destruct (ti_freed _ I Hf) as (q & t0 & H0 & Hret). exists q, t0.
    rewrite lookup_insert_ne; [done|]. intros ->. congruence.
  - intros q t0 [[-> ->]|[Hq H0]]%pool_cases Ho; [by destruct Ho|by eapply (ti_returns _ I)].
Qed.

Lemma tinv_start s s' : tinv s -> create_threads s = Some s' -> tinv s'.
Proof.
  intros I. unfold create_threads. destruct (Z.ltb_spec (started s) n) as [Hlt|]; [|done]. intros [= <-].
  pose proof (ti_started _ I). rewrite i32_small by (unfold in_i32; lia).
  set (t' := {| tid := 0; tat := ReadCounter |}).
  assert (forall q t0, pool s !! q = Some t0 -> q <> started s) as Hne.
  { intros q t0 H0 ->. destruct (proj1 (ti_pool _ I (started s))); [by eexists|lia]. }
  assert (forall q t0, <[started s := t']> (pool s) !! q = Some t0 -> numbered t0 = true -> pool s !! q = Some t0) as Hold.
  { intros q t0 [[-> ->]|[Hq H0]]%pool_cases Hnum; done. }
  split; cbn.
  - lia.
  - intros q. rewrite lookup_insert_is_Some'. rewrite (ti_pool _ I q). lia.
  - rewrite (ti_count _ I). unfold numbers. cbn. rewrite (filter_more _ (started s)); [done|].
    intros t0 H0. by destruct (Hne _ _ H0).
  - intros q t0 H0 Hnum. apply (ti_range _ I q); [by apply Hold|done].
  - intros k Hk. destruct (ti_onto _ I k Hk) as (q & t0 & H0 & Hk'). exists q, t0.
    rewrite lookup_insert_ne; [done|]. by apply not_eq_sym, (Hne q t0).
  - intros q1 q2 t1 t2 H1 H2 N1 N2. by apply (ti_inj _ I q1 q2 t1 t2); [apply Hold|apply Hold| |].
  - intros q t0 old [[-> ->]|[Hq H0]]%pool_cases Ho; [done|by eapply (ti_swap _ I)].
  - intros q t0 old [[-> ->]|[Hq H0]]%pool_cases Ho; [done|by eapply (ti_set _ I)].
  - intros Hf. destruct (ti_freed _ I Hf) as (q & t0 & H0 & Hret). exists q, t0.
    rewrite lookup_insert_ne; [done|]. by apply not_eq_sym, (Hne q t0).
  - intros q t0 [[-> ->]|[Hq H0]]%pool_cases Ho; [by destruct Ho|by eapply (ti_returns _ I)].
Qed.

Lemma tinv_step s s' : tinv s -> tstep s s' -> tinv s'.
Proof.
  intros I Hs. destruct Hs as [s s' Hs|s p t t' counter freed Hp Hret Hm]; [by eapply tinv_start|].
  pose proof (counter_bound s I) as Hc. unfold __helper_create_thread in Hm.
  destruct (tat t) as [|old|old| | | |] eqn:Hat; cbn in Hm.
  - simplify_eq. apply (tinv_keep s p t); try done; unfold numbered; rewrite ?Hat; try done; [|by right|by intros []].
    intros old [= <-]. lia.
  - simplify_eq. pose proof (ti_set _ I p t old Hp Hat).
    apply (tinv_keep s p t); try done; unfold numbered; rewrite ?Hat; try done; [|by right|by intros []].
    intros ? [= <-]. cbn. split; [|done]. apply u32_small. unfold in_u32. lia.
  - destruct (Z.eqb_spec (thread_counter s) old) as [<-|]; simplify_eq; [by apply tinv_swap|].
    apply (tinv_keep s p t); try done; unfold numbered; rewrite ?Hat; try done; [by right|by intros []].
  - destruct (arg_freed s) eqn:Hf; [done|]. simplify_eq.
    apply (tinv_keep s p t); try done; unfold numbered; rewrite ?Hat; try done. by intros [].
  - simplify_eq. apply (tinv_keep s p t); try done; unfold numbered; rewrite ?Hat; try done; [by right|].
    intros _. by apply Hret.
  - destruct (arg_freed s) eqn:Hf; [done|]. simplify_eq.
    apply (tinv_keep s p t); try done; unfold numbered; rewrite ?Hat; try done; [by left|].
    intros _. eapply (ti_returns _ I); [exact Hp|by left].
  - simplify_eq. destruct s as [c f st pl]. unfold put_thread. cbn in *. by rewrite insert_id.
Qed.

Lemma tinv_reachable s : treachable s -> tinv s.
Proof.
  induction 1; [|by eapply tinv_step]. split; cbn; try done; try lia.
  - intros p. rewrite lookup_empty. split; [by intros []|lia].
Qed.

(** The numbers threads take are 1, 2, 3, ... without repetition, however their
    accesses interleave: the counter is the number of threads that have one,
    each has a different one, and a compare-and-swap fails only when another
    thread took a number since the counter was read. *)
Theorem thread_numbers s :
  treachable s ->
  thread_counter s = Z.of_nat (size (numbers s)) /\ thread_counter s <= n /\
  (forall k, 1 <= k <= thread_counter s <-> exists p t, pool s !! p = Some t /\ numbered t = true /\ tid t = k) /\
  (forall p q t t', pool s !! p = Some t -> pool s !! q = Some t' ->
    numbered t = true -> numbered t' = true -> tid t = tid t' -> p = q) /\
  (forall p t old, pool s !! p = Some t -> tat t = Swap old -> thread_counter s <> old -> old < thread_counter s).
Proof.
  intros I%tinv_reachable. split; [apply I|]. split; [by apply counter_bound|]. split; [|split].
  - intros k. split; [apply I|]. intros (p & t & Hp & Hnum & <-). by eapply (ti_range _ I).
  - apply I.
  - intros p t old Hp Hat Hne. destruct (ti_swap _ I p t old Hp Hat). lia.
Qed.

(** The block the threads share is never used after it is freed, as long as
    the routine does not return (the one main.c passes does not). *)
Theorem threads_no_fault s p t :
  treachable s -> ~ returns -> pool s !! p = Some t ->
  exists r, __helper_create_thread t (thread_counter s) (arg_freed s) = Ret r.
Proof.
  intros I%tinv_reachable Hret Hp. assert (arg_freed s = false) as Hf.
  { apply not_true_is_false. intros Hf. destruct (ti_freed _ I Hf) as (q & t0 & H0 & Hat). apply Hret.
    eapply (ti_returns _ I); [exact H0|by right]. }
  unfold __helper_create_thread. rewrite Hf. destruct (tat t); try (by eexists). destruct (_ =? _); by eexists.
Qed.
End threads.

(** ** A routine that returns *)

(** The loop starts a thread, or thread [p] makes its next access. *)
Definition tperform (n : Z) (e : option Z) (s : tstate) : option tstate :=
  match e with
  | None => create_threads n s
  | Some p =>
      t ← pool s !! p;
      if __helper_create_thread t (thread_counter s) (arg_freed s) is Ret (t', counter, freed)
      then Some (put_thread p t' counter freed s) else None
  end.
Fixpoint tperforms (n : Z) (es : list (option Z)) (s : tstate) : option tstate :=
  match es with [] => Some s | e :: es => s' ← tperform n e s; tperforms n es s' end.

Lemma tperforms_reachable n es : forall s s',
  treachable n True s -> tperforms n es s = Some s' -> treachable n True s'.
Proof.
  induction es as [|e es IH]; intros s s' Hr H; cbn in H; [by simplify_eq|].
  destruct (tperform n e s) as [s1|] eqn:E; [|done]. apply (IH s1); [|done]. eapply t_next; [done|].
  destruct e as [p|]; cbn in E; [|by apply t_start]. destruct (pool s !! p) as [t|] eqn:Hp; [|done]. cbn in E.
  destruct (__helper_create_thread t _ _) as [[[t' c] f]|] eqn:Hm; [|done]. simplify_eq. by eapply t_thread.
Qed.

Definition two_helpers (more : list (option Z)) : tstate :=
  default no_threads (tperforms 2 ([None; None] ++ replicate 6 (Some 0) ++ more) no_threads).

(** A routine that returns makes the second of two threads use the shared
    block after the first freed it, whether it has not read it yet or is
    about to free it again. *)
Theorem threads_share_block :
  exists s t, treachable 2 True s /\ pool s !! 1 = Some t /\
    __helper_create_thread t (thread_counter s) (arg_freed s) = Fault UseAfterFree.
Proof.
  exists (two_helpers (replicate 3 (Some 1))). eexists. split; [|split; [vm_compute; reflexivity|by vm_compute]].
  unfold two_helpers. destruct (tperforms _ _ _) as [s|] eqn:E; [|apply t_init].
  eapply tperforms_reachable; [apply t_init|exact E].
Qed.

(** ** Runs for the theorems *)
Lemma two_helpers_reachable : treachable 2 True (two_helpers []).
Proof.
  unfold two_helpers. destruct (tperforms _ _ _) as [s|] eqn:E; [|apply t_init].
  eapply tperforms_reachable; [apply t_init|exact E].
Qed.

Lemma thread_numbers_witness : thread_counter (two_helpers []) = Z.of_nat (size (numbers (two_helpers []))).
Proof. exact (proj1 (thread_numbers 2 True ltac:(lia) (two_helpers []) two_helpers_reachable)). Defined.

Definition one_started : tstate := default no_threads (create_threads 2 no_threads).
Lemma one_started_reachable : treachable 2 False one_started.
Proof. eapply t_next; [apply t_init|]. by apply t_start. Qed.

Lemma threads_no_fault_witness :
  exists r, __helper_create_thread {| tid := 0; tat := ReadCounter |} 0 false = Ret r.
Proof.
  exact (threads_no_fault 2 False ltac:(lia) one_started 0 {| tid := 0; tat := ReadCounter |}
    one_started_reachable (fun H => H) eq_refl).
Defined.
