(* ===== verification/UltFrame.v ===== *)
(** * What a step inside [ult.c] can change

    For the code that calls the user-level threads: where a thread goes on
    after a step, which contexts are saved, and that no fiber gets a
    continuation but a new one. *)
From S2P Require Import Prelude UltSwitch UltInv UltSteps UltSafety.

Section frame.
Context {U : Type}.
Implicit Types (u : U) (t : thread U) (x : ult_t U) (s : shared U) (c : system U).

Definition with_creation (i : positive) u (k : pc U) t : thread U :=
  {| current := current t; context_creat := Some i; context_creat_func := Some u; at_ := k; result := result t |}.
Definition as_fiber (i : positive) (r : option positive) (k : pc U) t : thread U :=
  {| current := Some i; context_creat := context_creat t; context_creat_func := context_creat_func t;
     at_ := k; result := r |}.

(** The thread goes on with the code that fiber [i] was left at. *)
Definition resumes (i : positive) t s t' : Prop :=
  exists x u, ults s !! i = Some x /\ saved_code x = Some u /\ t' = returning (resumed x t) (goto (User u) t).

(** Where a step leaves the thread, by the place it was at. *)
Definition next_ok t s t' : Prop :=
  match at_ t with
  | CvAlloc k => t' = goto (CvLock k (next_block s)) t
  | CvLock k i => t' = t \/ t' = goto (CvSave k i) t
  | CvSave k i => t' = goto (CvCurrent k i) t
  | CvCurrent k i => t' = as_fiber i (Some i) k t
  | CrAlloc k u => t' = goto (CrRaise k (next_block s) u) t
  | CrRaise k i u => t' = with_creation i u (CrLock k i) t
  | CrLock k i => t' = t \/ t' = goto (CrSave k i) t
  | CrSave k i => t' = goto (CrUnlock k i) t
  | CrUnlock k i => t' = goto (CrJump (current t) i) t
  | CrJump _ i => exists u, context_creat_func t = Some u /\ t' = goto (BtLock u) t
  | BtLock u => t' = t \/ t' = goto (BtSave u) t
  | BtSave u => t' = goto (BtUnlock u) t
  | BtUnlock _ => t' = goto (BtJump (context_creat t)) t
  | BtJump _ => exists i, current t = Some i /\ resumes i t s t'
  | SwTry k from to => t' = goto k t \/ exists i, to = Some i /\ t' = goto (SwSet k from i) t
  | SwSet k from to => t' = as_fiber to (result t) (SwSave k from to) t
  | SwSave k from to => t' = goto (SwUnlock k from to) t
  | SwUnlock k from to => t' = goto (SwJump from to) t
  | SwJump _ to => resumes to t s t'
  | User _ | Crashed => False
  end.

(** A step of one of the accesses ends where it should, or crashes. *)
Lemma lock_next i k t s t' s' :
  ult_lock i k t s = (t', s') -> at_ t' <> Crashed -> t' = t \/ t' = goto k t.
Proof.
  unfold ult_lock, accessing, ult_trylock. destruct i as [i|]; cbn; [|by intros [= <- <-]].
  destruct (ults s !! i) as [x|]; cbn; [|by intros [= <- <-]].
  destruct (negb (running x)); intros [= <- <-]; auto.
Qed.
Lemma unlocking_next i k t s t' s' :
  unlocking i k t s = (t', s') -> at_ t' <> Crashed -> t' = goto k t.
Proof.
  unfold unlocking, accessing, ult_unlock. destruct i as [i|]; cbn; [|by intros [= <- <-]].
  destruct (ults s !! i) as [x|]; cbn; [|by intros [= <- <-]]. by intros [= <- <-].
Qed.
Lemma set_jmp_next i q rax k t s t' s' :
  set_jmp i q rax k t s = (t', s') -> at_ t' <> Crashed -> t' = goto k t.
Proof.
  unfold set_jmp. destruct i as [i|]; cbn; [|by intros [= <- <-]].
  destruct (ults s !! i) as [x|]; cbn; [|by intros [= <- <-]]. by intros [= <- <-].
Qed.

Lemma resume_next i t s t' s' :
  long_jmp i None t s = (t', s') -> resumable (ults s) i -> resumes i t s t'.
Proof.
  intros H (u & x & Hx & Hu). exists x, u. do 2 (split; [done|]).
  rewrite (long_jmp_resumes i x u t s Hx Hu) in H. by injection H.
Qed.

Lemma micro_next rax t s t' s' :
  pc_ok t (ults s) (handles s) -> micro rax t s = Some (t', s') -> at_ t' <> Crashed -> next_ok t s t'.
Proof.
  unfold micro, ult_convert, ult_creat, context_create, context_create_boot, ult_switch_to, new_ult, next_ok, pc_ok.
  intros Hok Hm Hc. destruct (at_ t) eqn:Ha; try done; try (apply (inj Some) in Hm);
    try (by eapply lock_next); try (by eapply unlocking_next); try (by eapply set_jmp_next);
    try (by injection Hm as <- <-).
  - by apply (set_jmp_next _ _ _ _ _ _ _ _ Hm).
  - destruct Hok as (_ & _ & [u Hu] & Hb). exists u. split; [done|].
    rewrite (long_jmp_boots _ u) in Hm by done. by injection Hm.
  - destruct Hok as (o & Ho & Hr). rewrite Ho in Hm. exists o. split; [done|]. by eapply resume_next.
  - destruct to as [i|]; [|apply (inj Some) in Hm; injection Hm as <- <-; auto].
    apply (inj Some) in Hm. unfold accessing, ult_trylock in Hm. cbn in Hm.
    destruct (ults s !! i) as [x|]; cbn in Hm; [|by injection Hm as <- <-].
    destruct (negb (running x)); injection Hm as <- <-; eauto.
  - destruct Hok as [_ Hr]. by eapply resume_next.
Qed.

(** ** The records *)

(** The context a step fills, and with what. *)
Definition saves t (i : positive) (q : point U) : Prop :=
  match at_ t with
  | CvSave k j => i = j /\ q = AtConvert k j
  | CrRaise _ j _ => i = j /\ q = AtTrampoline
  | CrSave k new => current t = Some i /\ q = AtCreate k new
  | BtSave u => context_creat t = Some i /\ q = AtBoot u
  | SwSave k from to => from = Some i /\ q = AtSwitch k from to
  | _ => False
  end.
(** A step that makes a new record. *)
Definition births t : Prop := exists k, at_ t = CvAlloc k \/ exists u, at_ t = CrAlloc k u.

Definition kept s (i : positive) x : Prop := exists y, ults s !! i = Some y /\ context x = context y.

Lemma insert_kept s j x y i z :
  ults s !! j = Some x -> context y = context x -> <[j := y]> (ults s) !! i = Some z -> kept s i z.
Proof.
  intros Hx E. destruct (decide (i = j)) as [->|Hne].
  - rewrite lookup_insert_eq. intros [= <-]. by exists x.
  - rewrite lookup_insert_ne by done. intros H. by exists z.
Qed.

Lemma lock_kept j k t s t' s' i x :
  ult_lock j k t s = (t', s') -> ults s' !! i = Some x -> kept s i x.
Proof.
  unfold ult_lock, accessing, ult_trylock. destruct j as [j|]; cbn; [|intros [= <- <-]; by exists x].
  destruct (ults s !! j) as [y|] eqn:Hy; cbn; [|intros [= <- <-]; by exists x].
  intros [= <- <-]. cbn. by apply (insert_kept s j y).
Qed.
Lemma unlocking_kept j k t s t' s' i x :
  unlocking j k t s = (t', s') -> ults s' !! i = Some x -> kept s i x.
Proof.
  unfold unlocking, accessing, ult_unlock. destruct j as [j|]; cbn; [|intros [= <- <-]; by exists x].
  destruct (ults s !! j) as [y|] eqn:Hy; cbn; [|intros [= <- <-]; by exists x].
  intros [= <- <-]. cbn. by apply (insert_kept s j y).
Qed.
Lemma set_jmp_kept j q rax k t s t' s' i x :
  set_jmp j q rax k t s = (t', s') -> ults s' !! i = Some x ->
  kept s i x \/ j = Some i /\ context x = Some (q, rax) /\ is_Some (ults s !! i).
Proof.
  unfold set_jmp. destruct j as [j|]; cbn; [|intros [= <- <-]; left; by exists x].
  destruct (ults s !! j) as [y|] eqn:Hy; cbn; [|intros [= <- <-]; left; by exists x].
  intros [= <- <-]. cbn. destruct (decide (i = j)) as [->|Hne].
  - rewrite lookup_insert_eq. intros [= <-]. right. by rewrite Hy.
  - rewrite lookup_insert_ne by done. left. by exists x.
Qed.
Lemma long_jmp_kept j v t s t' s' i x :
  long_jmp j v t s = (t', s') -> ults s' !! i = Some x -> kept s i x.
Proof. intros [= _ <-]. by exists x. Qed.

(** Every record was there, with its context or one just saved, or is new. *)
Lemma micro_records rax t s t' s' i x :
  micro rax t s = Some (t', s') -> ults s' !! i = Some x ->
  kept s i x \/ (births t /\ i = next_block s /\ context x = None) \/
  (is_Some (ults s !! i) /\ exists q, saves t i q /\ context x = Some (q, rax)).
Proof.
  unfold micro, ult_convert, ult_creat, context_create, context_create_boot, ult_switch_to, new_ult, births, saves.
  intros Hm Hx. destruct (at_ t) eqn:Ha; try done; try (apply (inj Some) in Hm);
    try (left; first [by eapply lock_kept|by eapply unlocking_kept|by eapply long_jmp_kept
      |injection Hm as <- <-; by exists x]);
    try (destruct (set_jmp_kept _ _ _ _ _ _ _ _ i x Hm Hx) as [|(Hj & Hq & Hi)]; [by left|];
      right; right; split; [done|]; eexists; split; [|exact Hq]; by simplify_eq).
  - injection Hm as <- <-. cbn in Hx. destruct (decide (i = next_block s)) as [->|Hne].
    + rewrite lookup_insert_eq in Hx. right. left. simplify_eq. split; [by eauto|done].
    + rewrite lookup_insert_ne in Hx by done. left. by exists x.
  - injection Hm as <- <-. cbn in Hx. destruct (decide (i = next_block s)) as [->|Hne].
    + rewrite lookup_insert_eq in Hx. right. left. simplify_eq. split; [by eauto|done].
    + rewrite lookup_insert_ne in Hx by done. left. by exists x.
  - destruct (current t) as [j|]; cbn in Hm; [by left; eapply long_jmp_kept|].
    injection Hm as <- <-. left. by exists x.
  - destruct to as [j|]; [|apply (inj Some) in Hm; injection Hm as <- <-; left; by exists x].
    apply (inj Some) in Hm. unfold accessing, ult_trylock in Hm. cbn in Hm.
    destruct (ults s !! j) as [y|] eqn:Hy; cbn in Hm; [|injection Hm as <- <-; left; by exists x].
    injection Hm as <- <-. left. by apply (insert_kept s j y) with (y := set_running true y).
Qed.

(** A step claims nothing but a new record or the fiber it switches to; the
    creator of a fiber is locked again by the new one. *)
Lemma claims_next t s t' i :
  (forall u, at_ t <> BtLock u) -> pc_ok t (ults s) (handles s) -> next_ok t s t' -> i ∈ claims t' ->
  i ∈ claims t \/ (births t /\ i = next_block s) \/ exists k from, at_ t = SwTry k from (Some i).
Proof.
  unfold pc_ok, next_ok, births. intros Hb Hok Hn Hi. unfold claims at 1.
  destruct (at_ t) eqn:Ha; try done;
    repeat match goal with H : _ /\ _ |- _ => destruct H | H : ex _ |- _ => destruct H
      | H : _ \/ _ |- _ => destruct H | H : is_Some _ |- _ => destruct H | H : user _ |- _ => destruct H
      | H : resumes _ _ _ _ |- _ => destruct H as (? & ? & _ & _ & ->) end; subst;
    unfold claims in Hi; cbn in Hi; rewrite ?Ha in Hi;
    repeat match goal with H : _ = Some _ |- _ => rewrite H in * end; cbn in *;
    try (left; set_solver).
  - apply list_elem_of_singleton in Hi. right. left. by eauto.
  - apply elem_of_cons in Hi as [->|Hi%list_elem_of_singleton]; [left; set_solver|]. right. left. by eauto.
  - apply elem_of_cons in Hi as [->|Hi%list_elem_of_singleton]; [left; set_solver|]. right. right. subst. by eauto.
Qed.

(** ** Continuations *)
Lemma saved_record h i u : saved h i u -> is_Some (h !! i).
Proof. intros (x & -> & _). by eexists. Qed.

Lemma continuation_record c i u : uinv c -> continuation c i u -> is_Some (ults (mem c) !! i).
Proof.
  intros I [(p & t & Ht & Hi)|[_ Hi]]; [|by eapply saved_record].
  eapply (ui_dom _ I p t i Ht). by eapply coded_claimed.
Qed.

Lemma continuation_exists c i : uinv c -> is_Some (ults (mem c) !! i) -> exists u, continuation c i u.
Proof.
  intros I [x Hx]. destruct (decide (map_Exists (fun _ t => i ∈ claims t) (threads c))) as [(p & t & Ht & Hi)|Hno].
  - by apply (continuation_claimed c p t i).
  - destruct (continuation_free c i x I Hx) as (u & _ & Hu); [|by exists u].
    intros p t Ht Hi. apply Hno. by exists p, t.
Qed.

(** A fiber goes on with what its context says when a thread has claimed it
    and not yet its code. *)
Lemma continuation_saved c p t i u :
  uinv c -> threads c !! p = Some t -> i ∈ claims t -> i ∉ (code t).*1 -> saved (ults (mem c)) i u ->
  continuation c i u.
Proof.
  intros I Ht Hc Hn Hu. right. split; [|done]. intros q t0 H0 Hc'.
  assert (q = p) as ->; [|congruence]. eapply (ui_excl _ I q p t0 t i); [done|done| |done].
  by apply code_claims with (1 := ui_pc _ I q t0 H0).
Qed.

Definition after (p : Z) t s c : system U := {| threads := <[p := t]> (threads c); mem := s |}.

Lemma micro_after c p t rax t' s' :
  i32 rax <> 0 -> uinv c -> threads c !! p = Some t -> micro rax t (mem c) = Some (t', s') ->
  okstep t t' (mem c) s' /\ okcode t t' (mem c) s' /\ uinv (after p t' s' c).
Proof.
  intros Hr I Ht Hm. destruct (micro_ok rax t (mem c) t' s') as [O C]; [done|by eapply uinv_local|done|].
  do 2 (split; [done|]). by eapply uinv_okstep.
Qed.

(** Only the new record of a creation gets a continuation. *)
Lemma micro_continuation c p t rax t' s' i u :
  i32 rax <> 0 -> uinv c -> threads c !! p = Some t -> micro rax t (mem c) = Some (t', s') ->
  continuation (after p t' s' c) i u ->
  continuation c i u \/ (births t /\ i = next_block (mem c) /\ (i, u) ∈ code t').
Proof.
  intros Hr I Ht Hm Hu. destruct (micro_after c p t rax t' s' Hr I Ht Hm) as (O & C & I').
  destruct (ults (mem c) !! i) as [x|] eqn:Hi.
  - left. destruct (continuation_exists c i I) as [v Hv]; [by rewrite Hi|].
    assert (continuation (after p t' s' c) i v) as Hv' by (by apply (continuation_okstep c p t)).
    by rewrite (continuation_functional _ i u v I' Hu Hv').
  - right. destruct (continuation_record _ i u I' Hu) as [x Hx]. cbn in Hx.
    destruct (micro_records rax t (mem c) t' s' i x Hm Hx) as [(y & Hy & _)|[(Hb & -> & Hn)|[[y Hy] _]]]; [congruence| |congruence].
    do 2 (split; [done|]). destruct Hu as [(q & t0 & [[-> ->]|[Hq H0]]%thread_cases & Hc)|[_ (y & Hy & Hs)]]; [done| |].
    + assert (is_Some (ults (mem c) !! next_block (mem c))) as [y Hy]; [|congruence].
      apply (ui_dom _ I q t0 _ H0). by apply (coded_claimed c q t0 _ u).
    + cbn in Hy. assert (y = x) as -> by congruence. unfold saved_code in Hs. by rewrite Hn in Hs.
Qed.

(** Its code is what the call was given. *)
Lemma birth_code c p t rax t' s' u :
  i32 rax <> 0 -> uinv c -> threads c !! p = Some t -> micro rax t (mem c) = Some (t', s') ->
  births t -> (next_block (mem c), u) ∈ code t' ->
  at_ t = CvAlloc (User u) \/ exists k, at_ t = CrAlloc k u.
Proof.
  intros Hr I Ht Hm Hb Hc. destruct (micro_after c p t rax t' s' Hr I Ht Hm) as (O & _).
  assert (next_ok t (mem c) t') as Hn.
  { eapply micro_next; [by apply (ui_pc _ I p)|done|]. intros Ha. pose proof (ok_pc _ _ _ _ O) as Hok.
    unfold pc_ok in Hok. by rewrite Ha in Hok. }
  destruct Hb as (k & [Ha|[v Ha]]); unfold next_ok in Hn; rewrite Ha in Hn; subst t'; unfold code in Hc; cbn in Hc.
  - left. destruct k; cbn in Hc; set_solver.
  - right. exists k. rewrite elem_of_app in Hc. destruct Hc as [Hc|Hc]; [|set_solver]. exfalso.
    assert (is_Some (ults (mem c) !! next_block (mem c))) as [x Hx].
    { apply (ui_dom _ I p t); [done|]. unfold claims. rewrite Ha. destruct (current t); [|set_solver].
      destruct k; set_solver. }
    pose proof (fresh_block t (mem c) (uinv_local c p t I Ht)). congruence.
Qed.

(** Steps outside ult.c. *)
Lemma continuation_goto c p t t' i u :
  threads c !! p = Some t -> code t' = code t -> continuation (on p t' c) i u <-> continuation c i u.
Proof.
  intros Ht E. unfold continuation. cbn [threads on mem].
  assert ((exists q t0, <[p := t']> (threads c) !! q = Some t0 /\ (i, u) ∈ code t0) <->
    (exists q t0, threads c !! q = Some t0 /\ (i, u) ∈ code t0)) as ->.
  { split; intros (q & t0 & H0 & Hc).
    - apply thread_cases in H0 as [[-> ->]|[_ H0]]; [exists p, t; by rewrite <- E|by exists q, t0].
    - destruct (decide (q = p)) as [->|Hq]; [|exists q, t0; by rewrite lookup_insert_ne].
      exists p, t'. rewrite lookup_insert_eq, E. by simplify_eq. }
  assert ((forall q t0, <[p := t']> (threads c) !! q = Some t0 -> i ∉ (code t0).*1) <->
    (forall q t0, threads c !! q = Some t0 -> i ∉ (code t0).*1)) as ->; [|done].
  split; intros H q t0 H0.
  - destruct (decide (q = p)) as [->|Hq]; [|by apply (H q); rewrite lookup_insert_ne].
    assert (t0 = t) as -> by congruence. rewrite <- E. apply (H p). by rewrite lookup_insert_eq.
  - apply thread_cases in H0 as [[-> ->]|[_ H0]]; [rewrite E; by apply (H p)|by apply (H q)].
Qed.

Lemma code_user t u : at_ t = User u -> code t = option_list ((fun i => (i, u)) <$> current t).
Proof. intros Ha. unfold code. rewrite Ha. by destruct (current t). Qed.

Lemma continuation_current c p t o u :
  threads c !! p = Some t -> at_ t = User u -> current t = Some o -> continuation c o u.
Proof. intros Ht Ha Hc. left. exists p, t. split; [done|]. rewrite (code_user t u Ha), Hc. cbn. set_solver. Qed.

Lemma continuation_run c p t u u' o i v :
  uinv c -> uinv (on p (goto (User u') t) c) -> threads c !! p = Some t -> at_ t = User u -> current t = Some o ->
  continuation (on p (goto (User u') t) c) i v <-> if decide (i = o) then v = u' else continuation c i v.
Proof.
  intros I I' Ht Ha Hc. set (t' := goto (User u') t) in *.
  assert (continuation (on p t' c) o u') as Ho.
  { by apply (continuation_current _ p t'); [apply lookup_insert_eq|..]. }
  case_decide as Hd; [subst i; split; [intros H; by eapply continuation_functional|by intros ->]|].
  assert (forall w, i ∉ (code (goto (User w) t)).*1) as Hno.
  { intros w. rewrite (code_user _ w) by done. cbn. rewrite Hc. cbn. set_solver. }
  assert (code t = code (goto (User u) t)) as Et by by rewrite !(code_user _ u).
  assert (forall q t0, threads c !! q = Some t0 -> q <> p -> threads (on p t' c) !! q = Some t0) as Hq
    by (intros; cbn; by rewrite lookup_insert_ne).
  split; (intros [(q & t0 & H0 & Hv)|[Hn Hs]]; [left|right; split; [|done]]).
  - apply thread_cases in H0 as [[-> ->]|[_ H0]]; [|by exists q, t0].
    destruct (Hno u'). apply list_elem_of_fmap. by exists (i, v).
  - intros q t0 H0. destruct (decide (q = p)) as [->|Hne]; [|by apply (Hn q), Hq].
    assert (t0 = t) as -> by congruence. by rewrite Et.
  - exists q, t0. split; [|done]. apply Hq; [done|]. intros ->. assert (t0 = t) as -> by congruence.
    rewrite Et in Hv. destruct (Hno u). apply list_elem_of_fmap. by exists (i, v).
  - intros q t0 [[-> ->]|[_ H0]]%thread_cases; [by apply Hno|by apply (Hn q)].
Qed.
End frame.
