(* ===== verification/MainDriver.v ===== *)
(** * The driver program ([testbed/src/main.c], [timer.h])

    The rest of main.c, around the work of Main.v: its checks of the
    arguments, the choice of the next fiber, the milliseconds it reports, and
    the protocol by which the fibers count themselves out and the first one
    ends the program. *)
From S2P Require Import Prelude Numerical.
Local Open Scope prog_scope.

(** ** timer.h *)
Record timeval := { tv_sec : Z; tv_usec : Z }.
Definition millis_of (t : timeval) : Z := i64 (i64 (tv_sec t * 1000) + tv_usec t / 1000).

(* an int variable, assigned and then decremented *)
Definition timer_value_milli (timer_name now : timeval) : Z :=
  let __rs_timedif := i32 (millis_of now) in
  i32 (__rs_timedif - millis_of timer_name).

(** ** The next fiber *)
Section choice.
Context `{L : Libc}.

(** [random() % num_fibers]: a long, returned as an int and kept unsigned. *)
Definition get_random_fiber (num_fibers : Z) (draw : nat) : Z := i32 (random draw mod num_fibers).

(** The index [schedule] and [thread_initialization] read [fibers] at. *)
Definition next_index (num_fibers : Z) (draw : nat) : Z := u32 (get_random_fiber num_fibers draw).
End choice.

(** ** The checks of main *)
Inductive startup :=
  | NoCpus
  | Usage
  | InvalidNumber
  | TooFew
  | Started (num_fibers helpers : Z).

(** EINVAL and ERANGE are those of errno.h. *)
Definition EINVAL : Z := 22.
Definition ERANGE : Z := 34.

(** [online]: the result of sysconf; [number], [errno]: those of strtoll.
    [helpers]: the threads [create_threads] is asked for. *)
Definition main_checks (online argc number errno : Z) : startup :=
  let cpus := u32 online in
  if cpus <? 1 then NoCpus
  else if argc <? 2 then Usage
  else
    let num_fibers := u32 number in
    if (num_fibers =? 0) && (errno =? EINVAL) then InvalidNumber
    (* ERANGE: a warning *)
    else if num_fibers <=? cpus then TooFew
    else Started num_fibers (if 1 <? cpus then wrapU 16 (cpus - 1) else 0).

(** ** Counting out *)

(** A fiber after its work: [m] is the time it took. *)
Inductive phase :=
  | Working
  | AddMillis (m : Z)
  | CountOut (m : Z)
  | Scheduling (m : Z)
  | WaitAll (m : Z).

(** The variables the threads share.  [ended]: what the last message reports,
    the sum of the times. *)
Record globals := {
  completed_fibers : Z;
  exec_millis : Z;
  init_complete : bool;
  ended : option Z;
}.

(** Line 95 on, for the fiber that runs [main_loop] with [id]; [millis] is the
    time its work took. *)
Definition fiber_end (id : Z) (x : phase) (millis : Z) (g : globals) : phase * globals :=
  match x with
  | Working => (AddMillis (u32 millis), g)
  | AddMillis m =>
      (CountOut m, {| completed_fibers := completed_fibers g; exec_millis := u64 (exec_millis g + m);
                      init_complete := init_complete g; ended := ended g |})
  | CountOut m =>
      (if id =? 1 then WaitAll m else Scheduling m,
       {| completed_fibers := u32 (completed_fibers g - 1); exec_millis := exec_millis g;
          init_complete := init_complete g; ended := ended g |})
  | Scheduling m => (x, g)
  | WaitAll m =>
      (x, if 0 <? completed_fibers g then g
          else {| completed_fibers := completed_fibers g; exec_millis := exec_millis g;
                  init_complete := init_complete g; ended := Some (exec_millis g) |})
  end.

Definition start_globals (num_fibers : Z) : globals :=
  {| completed_fibers := num_fibers; exec_millis := 0; init_complete := false; ended := None |}.
Definition init_completed (g : globals) : globals :=
  {| completed_fibers := completed_fibers g; exec_millis := exec_millis g; init_complete := true; ended := ended g |}.

(** The protocol.  [created]: the entries of [fibers] main has written. *)
Record mstate := { vars : globals; created : Z; phases : list phase }.

(** main, after the checks: lines 180 to 192. *)
Definition main_start (num_fibers : Z) : mstate :=
  {| vars := start_globals num_fibers; created := 1; phases := replicate (Z.to_nat num_fibers) Working |}.
Definition main_create (num_fibers : Z) (s : mstate) : mstate :=
  if created s <? num_fibers
  then {| vars := vars s; created := u32 (created s + 1); phases := phases s |}
  else {| vars := init_completed (vars s); created := created s; phases := phases s |}.

(** A step of the fiber at index [i] of [fibers], whose id is [i + 1]. *)
Definition fiber_step (i : nat) (x : phase) (millis : Z) (s : mstate) : mstate :=
  let r := fiber_end (Z.of_nat i + 1) x millis (vars s) in
  {| vars := r.2; created := created s; phases := <[i := r.1]> (phases s) |}.

Section protocol.
Context (num_fibers : Z).

(** Until the program has ended: main fills the array and sets
    [init_complete], or a fiber runs on some thread, which takes it from the
    array once that is filled. *)
Inductive mstep : mstate -> mstate -> Prop :=
  | m_main s : ended (vars s) = None -> init_complete (vars s) = false -> mstep s (main_create num_fibers s)
  | m_fiber s i x millis :
      ended (vars s) = None -> created s = num_fibers -> phases s !! i = Some x -> mstep s (fiber_step i x millis s).

Inductive mreachable : mstate -> Prop :=
  | m_start : mreachable (main_start num_fibers)
  | m_next s s' : mreachable s -> mstep s s' -> mreachable s'.

(** What a fiber has added to the total, and whether it is to count out. *)
Definition added (x : phase) : Z :=
  match x with Working | AddMillis _ => 0 | CountOut m | Scheduling m | WaitAll m => m end.
Definition pending (x : phase) : Z :=
  match x with Working | AddMillis _ | CountOut _ => 1 | _ => 0 end.
Fixpoint total (f : phase -> Z) (l : list phase) : Z :=
  match l with [] => 0 | x :: l => f x + total f l end.

Lemma total_insert f l i x y :
  l !! i = Some x -> total f (<[i := y]> l) = total f l - f x + f y.
Proof.
  revert i. induction l as [|z l IH]; intros [|i] Hi; cbn in *; simplify_eq; [lia|].
  etransitivity; [exact (f_equal (Z.add (f z)) (IH i Hi))|lia].
Qed.

Lemma total_replicate f n x : total f (replicate n x) = Z.of_nat n * f x.
Proof. induction n as [|n IH]; cbn [replicate total]; [lia|]. rewrite IH. lia. Qed.

Lemma total_zero f l : (forall x, 0 <= f x) -> total f l <= 0 -> forall x, x ∈ l -> f x = 0.
Proof.
  intros Hf. assert (forall l', 0 <= total f l') as Hp.
  { induction l' as [|y l' IH]; cbn; [lia|]. specialize (Hf y). lia. }
  induction l as [|y l IH]; cbn; intros Hl x Hx; [by apply not_elem_of_nil in Hx|].
  specialize (Hp l). specialize (Hf y). apply elem_of_cons in Hx as [->|Hx]; [lia|]. apply IH; [lia|done].
Qed.

Hypothesis Hnum : 1 <= num_fibers < 2 ^ 32.

Record minv (s : mstate) : Prop := {
  mi_length : length (phases s) = Z.to_nat num_fibers;
  mi_completed : completed_fibers (vars s) = total pending (phases s);
  mi_exec : exec_millis (vars s) = u64 (total added (phases s));
  mi_created : 1 <= created s <= num_fibers /\ (init_complete (vars s) = true -> created s = num_fibers);
  mi_first x : phases s !! 0%nat = Some x -> (forall m, x <> Scheduling m);
  mi_rest i x m : phases s !! i = Some x -> x = WaitAll m -> i = 0%nat;
  mi_ended v : ended (vars s) = Some v ->
    (forall x, x ∈ phases s -> pending x = 0) /\ v = u64 (total added (phases s));
}.

Lemma pending_nonneg x : 0 <= pending x.
Proof. by destruct x. Qed.

Lemma total_pending_length l : 0 <= total pending l <= Z.of_nat (length l).
Proof.
  induction l as [|x l IH]; cbn; [lia|]. assert (0 <= pending x <= 1) by by destruct x. lia.
Qed.

Lemma u64_add_mod a b : u64 (u64 a + b) = u64 (a + b).
Proof. unfold u64, wrapU. apply Zplus_mod_idemp_l. Qed.

Lemma minv_step s s' : minv s -> mstep s s' -> minv s'.
Proof.
  intros I Hs. pose proof (total_pending_length (phases s)) as Hb. rewrite (mi_length _ I) in Hb.
  destruct Hs as [s He Hi|s i x millis He Hi Hx].
  - pose proof (mi_created _ I) as [Hc _]. unfold main_create.
    destruct (Z.ltb_spec (created s) num_fibers) as [Hlt|Hge]; split; cbn; try apply I.
    + rewrite u32_small by (unfold in_u32; lia). rewrite Hi. split; [lia|done].
    + split; [lia|]. intros _. lia.
  - assert (forall y, length (<[i := y]> (phases s)) = Z.to_nat num_fibers) as Hlen
      by (intros; rewrite length_insert; apply I).
    assert (forall y j z, <[i := y]> (phases s) !! j = Some z -> (j = i /\ z = y) \/ phases s !! j = Some z) as Hcase.
    { intros y j z. destruct (decide (j = i)) as [->|]; [|rewrite list_lookup_insert_ne by done; auto].
      rewrite list_lookup_insert_eq by (by eapply lookup_lt_Some). intros [= <-]. auto. }
    destruct x as [|m|m|m|m]; unfold fiber_step; cbn [fiber_end fst snd].
    + split; cbn; rewrite ?He, ?(total_insert _ _ _ _ _ Hx); cbn; try done; try apply I; auto.
      * rewrite (mi_completed _ I). lia.
      * rewrite (mi_exec _ I). f_equal. lia.
      * intros z [[_ ->]|Hz]%Hcase; [done|by apply I].
      * intros j z m [[_ ->]|Hz]%Hcase; [done|by apply (mi_rest _ I)].
    + split; cbn; rewrite ?He, ?(total_insert _ _ _ _ _ Hx); cbn; try done; try apply I; auto.
      * rewrite (mi_completed _ I). lia.
      * rewrite (mi_exec _ I), u64_add_mod. f_equal. lia.
      * intros z [[_ ->]|Hz]%Hcase; [done|by apply I].
      * intros j z m' [[_ ->]|Hz]%Hcase; [done|by apply (mi_rest _ I)].
    + assert (1 <= total pending (phases s)) as H1.
      { pose proof (total_insert pending _ _ _ Working Hx) as E. cbn in E.
        pose proof (total_insert pending _ _ _ (Scheduling m) Hx) as E'. cbn in E'.
        pose proof (total_pending_length (<[i := Scheduling m]> (phases s))). lia. }
      split; cbn; rewrite ?He, ?(total_insert _ _ _ _ _ Hx); try done; try apply I; auto.
      * rewrite (mi_completed _ I). rewrite u32_small by (unfold in_u32; lia). destruct (Z.eqb_spec (Z.of_nat i + 1) 1); cbn; lia.
      * rewrite (mi_exec _ I). f_equal. destruct (Z.eqb_spec (Z.of_nat i + 1) 1); cbn; lia.
      * intros z [[<- ->]|Hz]%Hcase; [done|by apply I].
      * intros j z m' [[-> ->]|Hz]%Hcase; [|by apply (mi_rest _ I)].
        destruct (Z.eqb_spec (Z.of_nat i + 1) 1); [lia|done].
    + rewrite list_insert_id by done. by destruct s.
    + rewrite list_insert_id by done. destruct (Z.ltb_spec 0 (completed_fibers (vars s))) as [|Hz]; [by destruct s|].
      split; cbn; try apply I.
      intros v [= <-]. split; [|apply I]. rewrite (mi_completed _ I) in Hz.
      by apply total_zero; [apply pending_nonneg|].
Qed.

Lemma minv_start : minv (main_start num_fibers).
Proof.
  split; cbn; try done.
  - apply length_replicate.
  - rewrite total_replicate. cbn. lia.
  - rewrite total_replicate. cbn. by rewrite Z.mul_0_r.
  - split; [lia|done].
  - intros x [-> _]%lookup_replicate. done.
  - intros i x m [-> _]%lookup_replicate. done.
Qed.

Lemma minv_reachable s : mreachable s -> minv s.
Proof. induction 1; [apply minv_start|by eapply minv_step]. Qed.

(** The program ends only when every fiber has counted itself out after its
    work, and the total it then reports holds the time of each of them;
    before that the counter is the number of fibers still to count out, and
    only the first fiber, whose thread ends the program, waits. *)
Theorem ends_after_all s :
  mreachable s ->
  completed_fibers (vars s) = total pending (phases s) /\ length (phases s) = Z.to_nat num_fibers /\
  (forall i m, phases s !! i = Some (WaitAll m) -> i = 0%nat) /\
  (forall v, ended (vars s) = Some v ->
    (forall x, x ∈ phases s -> exists m, x = Scheduling m \/ x = WaitAll m) /\
    v = u64 (total added (phases s))).
Proof.
  intros I%minv_reachable. split; [apply I|]. split; [apply I|]. split.
  - intros i m Hi. by eapply (mi_rest _ I).
  - intros v Hv. destruct (mi_ended _ I v Hv) as [Hp ->]. split; [|done].
    intros x Hx. specialize (Hp x Hx). destruct x; try done; eauto.
Qed.

(** *** The end can be reached *)
Definition rank (x : phase) : Z :=
  match x with Working => 3 | AddMillis _ => 2 | CountOut _ => 1 | _ => 0 end.

Lemma total_exists f l : 0 < total f l -> exists i x, l !! i = Some x /\ 0 < f x.
Proof.
  induction l as [|y l IH]; cbn; [lia|]. intros H. destruct (Z.lt_ge_cases 0 (f y)) as [Hy|Hy].
  - by exists 0%nat, y.
  - destruct IH as (i & x & Hi & Hx); [lia|]. by exists (S i), x.
Qed.

(** A step that brings the end nearer, as long as it is not reached. *)
Definition distance (s : mstate) : Z :=
  (num_fibers - created s) + (if init_complete (vars s) then 0 else 1) + total rank (phases s).

Lemma rank_total_nonneg l : 0 <= total rank l.
Proof. induction l as [|x l IH]; cbn; [lia|]. assert (0 <= rank x) by by destruct x. lia. Qed.

Lemma distance_nonneg s : minv s -> 0 <= distance s.
Proof.
  intros I. pose proof (mi_created _ I) as [Hc _]. pose proof (rank_total_nonneg (phases s)) as Hr.
  unfold distance. destruct (init_complete (vars s)); lia.
Qed.

(** What a fiber that has not counted itself out does. *)
Lemma fiber_nearer s i x millis :
  phases s !! i = Some x -> 0 < rank x ->
  distance (fiber_step i x millis s) < distance s /\ ended (vars (fiber_step i x millis s)) = ended (vars s).
Proof.
  intros Hx Hr. destruct x as [|m|m|m|m]; cbn in Hr; try lia; unfold distance; cbn; rewrite (total_insert _ _ _ _ _ Hx);
    (split; [|done]); cbn; try lia. destruct (Z.eqb_spec (Z.of_nat i + 1) 1); cbn; lia.
Qed.

(** What main does. *)
Lemma main_nearer s :
  1 <= created s <= num_fibers -> init_complete (vars s) = false ->
  distance (main_create num_fibers s) < distance s /\ ended (vars (main_create num_fibers s)) = ended (vars s).
Proof.
  intros Hc Hi. unfold main_create, distance. rewrite Hi. destruct (Z.ltb_spec (created s) num_fibers); cbn; (split; [|done]).
  - rewrite u32_small by (unfold in_u32; lia). rewrite Hi. lia.
  - lia.
Qed.

Lemma nearer s :
  minv s -> ended (vars s) = None -> 0 < distance s ->
  exists s', mstep s s' /\ ended (vars s') = None /\ distance s' < distance s.
Proof.
  intros I He Hd. pose proof (mi_created _ I) as [Hc Hcc]. destruct (init_complete (vars s)) eqn:Hi.
  - destruct (total_exists rank (phases s)) as (i & x & Hx & Hr).
    { unfold distance in Hd. rewrite Hi, (Hcc eq_refl) in Hd. lia. }
    destruct (fiber_nearer s i x 0 Hx Hr) as [Hlt E]. exists (fiber_step i x 0 s).
    split; [by apply m_fiber; auto|]. split; [congruence|done].
  - destruct (main_nearer s Hc Hi) as [Hlt E]. exists (main_create num_fibers s).
    split; [by apply m_main|]. split; [congruence|done].
Qed.

(** When every fiber is done, the first has nothing more to wait for. *)
Lemma all_counted s :
  minv s -> total rank (phases s) <= 0 ->
  completed_fibers (vars s) = 0 /\ exists m, phases s !! 0%nat = Some (WaitAll m).
Proof.
  intros I Hd. assert (forall x, x ∈ phases s -> rank x = 0) as Hz by (apply total_zero; [by intros []|lia]).
  assert (forall l, (forall y, y ∈ l -> rank y = 0) -> total pending l = 0) as H.
  { induction l as [|y l IH]; intros Hl; cbn; [done|]. rewrite IH by (intros z Hzz; apply Hl; by right).
    assert (rank y = 0) as Hy by (apply Hl, list_elem_of_here). by destruct y. }
  split; [rewrite (mi_completed _ I); by apply H|].
  destruct (phases s) as [|x l] eqn:El; [pose proof (mi_length _ I) as Hl; rewrite El in Hl; cbn in Hl; lia|].
  assert (phases s !! 0%nat = Some x) as Hx by by rewrite El.
  assert (rank x = 0) as Hrx by (apply Hz, list_elem_of_here).
  destruct x as [|m|m|m|m]; try done; [by destruct (mi_first _ I _ Hx m)|by exists m].
Qed.

Lemma last_step s :
  minv s -> ended (vars s) = None -> distance s <= 0 -> exists s', mstep s s' /\ is_Some (ended (vars s')).
Proof.
  intros I He Hd. pose proof (mi_created _ I) as [Hc Hcc]. pose proof (rank_total_nonneg (phases s)) as Hr.
  unfold distance in Hd. destruct (init_complete (vars s)) eqn:Hi; [|lia].
  destruct (all_counted s I) as [H0 [m Hx]]; [lia|].
  exists (fiber_step 0 (WaitAll m) 0 s). split; [by apply m_fiber; auto|]. cbn. rewrite H0. by eexists.
Qed.

(** From every state of the program that has not ended, it can go on to its
    end: no order of the fibers' steps leaves the first fiber waiting for a
    count that cannot reach zero. *)
Theorem can_end s :
  mreachable s -> ended (vars s) = None -> exists s', rtc mstep s s' /\ is_Some (ended (vars s')).
Proof.
  intros I%minv_reachable He. remember (Z.to_nat (distance s)) as n eqn:En.
  revert s I He En. induction n as [n IH] using lt_wf_ind. intros s I He En.
  destruct (Z.lt_ge_cases 0 (distance s)) as [Hd|Hd].
  - destruct (nearer s I He Hd) as (s1 & Hs & He1 & Hlt).
    destruct (IH (Z.to_nat (distance s1))) with (s := s1) as (s2 & Hr & H2); [lia|by eapply minv_step|done|done|].
    exists s2. split; [by eapply rtc_l|done].
  - destruct (last_step s I He Hd) as (s1 & Hs & H1). exists s1. split; [by apply rtc_once|done].
Qed.
End protocol.

(** ** The checks *)

(** Main goes on exactly when there are arguments and more fibers than online
    processors (so never when sysconf fails, whose -1 is the largest unsigned
    value); as long as the processors fit an unsigned short, it then has as
    many threads as processors, fewer than fibers. *)
Theorem main_starts online argc number errno num_fibers helpers :
  main_checks online argc number errno = Started num_fibers helpers <->
  num_fibers = u32 number /\ 2 <= argc /\ 1 <= u32 online < num_fibers /\
  helpers = wrapU 16 (u32 online - 1) /\ (u32 online <= 2 ^ 16 -> helpers + 1 = u32 online).
Proof.
  unfold main_checks. pose proof (wrapU_range 32 online ltac:(lia)) as Ho. fold (u32 online) in Ho.
  assert (u32 online <= 2 ^ 16 -> 1 <= u32 online -> wrapU 16 (u32 online - 1) = u32 online - 1) as Hw
    by (intros; apply wrapU_small; lia).
  destruct (Z.ltb_spec (u32 online) 1); [split; [done|lia]|].
  destruct (Z.ltb_spec argc 2); [split; [done|lia]|].
  destruct ((u32 number =? 0) && (errno =? EINVAL)) eqn:E.
  { apply andb_true_iff in E as [E%Z.eqb_eq _]. split; [done|]. intros (-> & _ & ? & _). lia. }
  destruct (Z.leb_spec (u32 number) (u32 online)); [split; [done|intros (-> & _ & ? & _); lia]|].
  assert ((if 1 <? u32 online then wrapU 16 (u32 online - 1) else 0) = wrapU 16 (u32 online - 1)) as ->.
  { destruct (Z.ltb_spec 1 (u32 online)); [done|]. by replace (u32 online) with 1 by lia. }
  split.
  - intros [= <- <-]. do 4 (split; [first [done|lia]|]). intros. rewrite Hw by lia. lia.
  - by intros (-> & _ & _ & -> & _).
Qed.

Section choice_laws.
Context `{LL : LibcLaws}.

(** Whatever [random] returns, the index read is one of the array's. *)
Theorem next_index_in_bounds num_fibers draw :
  0 < num_fibers < 2 ^ 32 -> 0 <= next_index num_fibers draw < num_fibers.
Proof.
  intros Hn. unfold next_index, get_random_fiber. pose proof (random_range draw) as Hr.
  pose proof (Z.mod_pos_bound (random draw) num_fibers ltac:(lia)) as Hm.
  assert (random draw mod num_fibers <= random draw) as Hle by (apply Z.mod_le; lia).
  rewrite i32_small by (unfold in_i32; lia). by rewrite u32_small by (unfold in_u32; lia).
Qed.
End choice_laws.

(** Although the milliseconds since 1970 do not fit the int they are kept in,
    the difference of two times is right as long as it fits itself. *)
Theorem timer_exact start now :
  in_i32 (millis_of now - millis_of start) ->
  timer_value_milli start now = millis_of now - millis_of start.
Proof.
  intros H. etransitivity; [|by apply i32_small]. unfold timer_value_milli.
  unfold i32, wrapS. f_equal.
  replace ((millis_of now + 2 ^ (32 - 1)) mod 2 ^ 32 - 2 ^ (32 - 1) - millis_of start + 2 ^ (32 - 1))
    with ((millis_of now + 2 ^ (32 - 1)) mod 2 ^ 32 - millis_of start) by lia.
  rewrite Zminus_mod_idemp_l. f_equal. lia.
Qed.

(** ** Runs for the theorems *)
Lemma ends_after_all_witness :
  completed_fibers (vars (main_start 2)) = total pending (phases (main_start 2)).
Proof. exact (proj1 (ends_after_all 2 ltac:(lia) (main_start 2) (m_start 2))). Defined.

Lemma can_end_witness : exists s, rtc (mstep 2) (main_start 2) s /\ is_Some (ended (vars s)).
Proof. exact (can_end 2 ltac:(lia) (main_start 2) (m_start 2) eq_refl). Defined.
