(* ===== verification/Program.v ===== *)
(** * The driver program on user-level threads ([testbed/src/main.c])

    main.c on the fibers of ult.c: the threads of UltSwitch.v run [main],
    [thread_initialization] and [main_loop].  The work of a fiber is one step
    here (Main.v has it); [f] is the index [get_random_fiber] picks, which is
    in the array (MainDriver.v). *)
From S2P Require Import Prelude UltSwitch MainDriver.

(** The places between two accesses.  [MainStore i]: the call whose result goes
    to [fibers[i]] is made or returns; [Body id x]: in [main_loop]. *)
Inductive place :=
  (* main *)
  | MainStart
  | MainStore (i : Z)
  | MainCreate (i : Z)
  | MainAlarm
  | MainInit
  (* main_loop *)
  | Body (id : Z) (x : phase)
  (* thread_initialization *)
  | HelperStart
  | HelperWait
  | HelperLoop.

(** [armed]: SIGALRM has its handler and [alarm] was called. *)
Record program := {
  sys : system place;
  fibers : gmap Z (option positive);
  globs : globals;
  armed : bool;
}.

Definition with_sys (c : system place) (s : program) : program :=
  {| sys := c; fibers := fibers s; globs := globs s; armed := armed s |}.
Definition with_globs (g : globals) (s : program) : program :=
  {| sys := sys s; fibers := fibers s; globs := g; armed := armed s |}.
Definition set_thread (p : Z) (t : thread place) (s : program) : program := with_sys (on p t (sys s)) s.

(* SwitchToFiber(fibers[f]); an entry never written is a wild pointer *)
Definition switch_to (p f : Z) (t : thread place) (s : program) : program :=
  set_thread p (goto (if fibers s !! f is Some to then SwTry (at_ t) (current t) to else Crashed) t) s.

Section program.
Context (num_fibers : Z).

(** main, from line 183. *)
Definition main (p : Z) (t : thread place) (u : place) (s : program) : option program :=
  match u with
  | MainStart => Some (set_thread p (goto (CvAlloc (User (MainStore 0))) t) s)
  | MainStore i =>
      let s := set_thread p (goto (User (MainCreate (u32 (i + 1)))) t) s in
      Some {| sys := sys s; fibers := <[i := result t]> (fibers s); globs := globs s; armed := armed s |}
  | MainCreate i =>
      Some (set_thread p (goto (if i <? num_fibers
                                then CrAlloc (User (MainStore i)) (Body (u32 (i + 1)) Working)
                                else User MainAlarm) t) s)
  | MainAlarm =>
      let s := set_thread p (goto (User MainInit) t) s in
      Some {| sys := sys s; fibers := fibers s; globs := globs s; armed := true |}
  | MainInit => Some (with_globs (init_completed (globs s)) (set_thread p (goto (User (Body 1 Working)) t) s))
  | _ => None
  end.

Definition main_loop (p f millis : Z) (t : thread place) (u : place) (s : program) : option program :=
  match u with
  | Body id (Scheduling _) => Some (switch_to p f t s)
  | Body id x =>
      let r := fiber_end id x millis (globs s) in
      Some (with_globs r.2 (set_thread p (goto (User (Body id r.1)) t) s))
  | _ => None
  end.

Definition thread_initialization (p f : Z) (t : thread place) (u : place) (s : program) : option program :=
  match u with
  | HelperStart => Some (set_thread p (goto (CvAlloc (User HelperWait)) t) s)
  | HelperWait => Some (if init_complete (globs s) then set_thread p (goto (User HelperLoop) t) s else s)
  | HelperLoop => Some (switch_to p f t s)
  | _ => None
  end.

(** A step of thread [p] in main.c. *)
Definition run_code (p f millis : Z) (s : program) : option program :=
  t ← threads (sys s) !! p;
  match at_ t with
  | User u =>
      match u with
      | MainStart | MainStore _ | MainCreate _ | MainAlarm | MainInit => main p t u s
      | Body _ _ => main_loop p f millis t u s
      | HelperStart | HelperWait | HelperLoop => thread_initialization p f t u s
      end
  | _ => None
  end.

(** SIGALRM hits thread [p], in the code of a fiber: its handler is [schedule]. *)
Definition schedule (p f : Z) (s : program) : option program :=
  t ← threads (sys s) !! p;
  match at_ t, current t with
  | User _, Some _ => if armed s then Some (switch_to p f t s) else None
  | _, _ => None
  end.

(** A step of thread [p] inside ult.c. *)
Definition run_ult (p rax : Z) (s : program) : option program :=
  t ← threads (sys s) !! p;
  '(t', s') ← micro rax t (mem (sys s));
  Some (with_sys {| threads := <[p := t']> (threads (sys s)); mem := s' |} s).

(** Until the program has ended. *)
Section steps.
Context (rax_ok : Z -> Prop).

Inductive pstep : program -> program -> Prop :=
  | p_code p f millis s s' :
      ended (globs s) = None -> 0 <= f < num_fibers -> run_code p f millis s = Some s' -> pstep s s'
  | p_signal p f s s' :
      ended (globs s) = None -> 0 <= f < num_fibers -> schedule p f s = Some s' -> pstep s s'
  | p_ult p rax s s' :
      ended (globs s) = None -> rax_ok rax -> run_ult p rax s = Some s' -> pstep s s'.

(** main has started [helpers] threads. *)
Definition start_thread (u : place) : thread place :=
  {| current := None; context_creat := None; context_creat_func := None; at_ := User u; result := None |}.
Definition start_threads (helpers : nat) : gmap Z (thread place) :=
  <[0 := start_thread MainStart]>
    (list_to_map ((fun p => (Z.of_nat p, start_thread HelperStart)) <$> seq 1 helpers)).
Definition program_start (helpers : nat) : program :=
  {| sys := {| threads := start_threads helpers;
               mem := {| ults := ∅; ult_id := 0; next_block := 1; handles := ∅ |} |};
     fibers := ∅; globs := start_globals num_fibers; armed := false |}.

Inductive preachable (helpers : nat) : program -> Prop :=
  | p_start : preachable helpers (program_start helpers)
  | p_next s s' : preachable helpers s -> pstep s s' -> preachable helpers s'.
End steps.

(** ** Executing runs *)
Inductive pevent :=
  | PCode (p f millis : Z)
  | PSignal (p f : Z)
  | PUlt (p rax : Z).

Definition pperform (e : pevent) (s : program) : option program :=
  if ended (globs s) is Some _ then None
  else match e with
       | PCode p f millis => if bool_decide (0 <= f < num_fibers) then run_code p f millis s else None
       | PSignal p f => if bool_decide (0 <= f < num_fibers) then schedule p f s else None
       | PUlt p rax => if negb (i32 rax =? 0) then run_ult p rax s else None
       end.
Fixpoint pperforms (es : list pevent) (s : program) : option program :=
  match es with
  | [] => Some s
  | e :: es => s' ← pperform e s; pperforms es s'
  end.

Lemma pperforms_reachable helpers es : forall s s',
  preachable (fun rax => i32 rax <> 0) helpers s -> pperforms es s = Some s' ->
  preachable (fun rax => i32 rax <> 0) helpers s'.
Proof.
  induction es as [|e es IH]; intros s s' Hs H; cbn in H; [by simplify_eq|].
  destruct (pperform e s) as [s1|] eqn:E; [|done]. apply (IH s1); [|done]. eapply p_next; [done|].
  unfold pperform in E. destruct (ended (globs s)) eqn:He; [done|]. destruct e as [p f millis|p f|p rax].
  - case_bool_decide; [|done]. by eapply p_code.
  - case_bool_decide; [|done]. by eapply p_signal.
  - destruct (Z.eqb_spec (i32 rax) 0); cbn [negb] in E; [done|]. by eapply p_ult.
Qed.
End program.
