(* ===== verification/ProgramInv.v ===== *)
(** * The fibers of the driver program

    The invariant of Program.v: every fiber that is created runs [main_loop]
    with the id of its entry in [fibers], on one thread at most; the array is
    not read before it is filled; and the fibers' ends are a run of the
    protocol of MainDriver.v. *)
From S2P Require Import Prelude UltSwitch UltInv UltSteps UltSafety UltFrame MainDriver Program.

Section inv.
Context (num_fibers : Z) (rax_ok : Z -> Prop).
Hypothesis Hnum : 1 <= num_fibers < 2 ^ 32.
Hypothesis rax_nonzero : forall rax, rax_ok rax -> i32 rax <> 0.
Implicit Types (c : system place) (t : thread place) (s : program) (m : mstate) (u : place) (i o : positive) (j : Z).

(** SIGALRM is a step of Program.v. *)
Definition no_alarm (k : pc place) : Prop := False.

(** ** What a fiber is doing *)

(** The index in [fibers] of a fiber with this code. *)
Definition index u : option Z :=
  match u with
  | MainStart | MainStore _ | MainCreate _ | MainAlarm | MainInit => Some 0
  | Body id _ => Some (id - 1)
  | HelperStart | HelperWait | HelperLoop => None
  end.
Definition phase_of u : phase := match u with Body _ x => x | _ => Working end.
(** The code that runs once the array is filled. *)
Definition scheduled u : Prop :=
  match u with MainInit | Body _ _ | HelperWait | HelperLoop => True | _ => False end.
Definition has_index c i j : Prop := exists u, continuation c i u /\ index u = Some j.
Definition new_body j : place := Body (j + 1) Working.

(** ** The invariant *)

(** What the saved contexts say. *)
Definition point_ok s (q : point place) : Prop :=
  match q with
  | AtCreate k new =>
      exists j, k = User (MainStore j) /\ new ∈ handles (mem (sys s)) /\ has_index (sys s) new j
  | AtSwitch _ _ _ => armed s = true
  | AtBoot u => exists j, u = new_body j
  | AtConvert _ _ | AtTrampoline => True
  end.

Record core s m : Prop := {
  co_sys : reachable rax_ok no_alarm (sys s);
  co_main : mreachable num_fibers m;
  co_vars : vars m = globs s;
  co_phase i u j : continuation (sys s) i u -> index u = Some j ->
    0 <= j < num_fibers /\ phases m !! Z.to_nat j = Some (phase_of u);
  co_unique i i' j : has_index (sys s) i j -> has_index (sys s) i' j -> i = i';
  co_other i u : continuation (sys s) i u -> index u = None -> scheduled u;
  co_entry j r : fibers s !! j = Some r ->
    exists i, r = Some i /\ i ∈ handles (mem (sys s)) /\ has_index (sys s) i j;
  co_point i x q rax : ults (mem (sys s)) !! i = Some x -> context x = Some (q, rax) -> point_ok s q;
}.

(** Before SIGALRM has its handler: main, on thread 0, has written [stored]
    entries and made [used] fibers of the array. *)
Definition creating j stored used : Prop := 1 <= j < num_fibers /\ stored = j /\ used = j + 1.

Definition main_stage c t (stored used : Z) : Prop :=
  match at_ t with
  | User MainStart => current t = None /\ stored = 0 /\ used = 0
  | CvAlloc k => k = User (MainStore 0) /\ stored = 0 /\ used = 0
  | CvLock k _ | CvSave k _ | CvCurrent k _ => k = User (MainStore 0) /\ stored = 0 /\ used = 1
  | User (MainStore j) =>
      is_Some (current t) /\
      (exists i, result t = Some i /\ i ∈ handles (mem c) /\ has_index c i j) /\
      0 <= j < num_fibers /\ stored = j /\ used = j + 1
  | User (MainCreate j) => is_Some (current t) /\ 1 <= j <= num_fibers /\ stored = j /\ used = j
  | CrAlloc k u => exists j, k = User (MainStore j) /\ u = new_body j /\ 1 <= j < num_fibers /\ stored = j /\ used = j
  | CrRaise k _ u => exists j, k = User (MainStore j) /\ u = new_body j /\ creating j stored used
  | CrLock k _ | CrSave k _ =>
      exists j, k = User (MainStore j) /\ context_creat_func t = Some (new_body j) /\ creating j stored used
  | CrUnlock _ _ | CrJump _ _ =>
      exists j o, context_creat_func t = Some (new_body j) /\ creating j stored used /\
        current t = Some o /\ continuation c o (MainStore j)
  | BtLock u | BtSave u | BtUnlock u =>
      exists j o, u = new_body j /\ creating j stored used /\ current t = Some o /\ continuation c o (MainStore j)
  | BtJump _ =>
      exists j o, creating j stored used /\ current t = Some o /\ continuation c o (MainStore j)
  | User MainAlarm => is_Some (current t) /\ stored = num_fibers /\ used = num_fibers
  | _ => False
  end.
Definition waiting t : Prop :=
  match at_ t with
  | User HelperStart => current t = None
  | User HelperWait => is_Some (current t)
  | CvAlloc k | CvLock k _ | CvSave k _ | CvCurrent k _ => k = User HelperWait
  | _ => False
  end.

Record preparing s m : Prop := {
  pr_init : init_complete (globs s) = false;
  pr_ended : ended (globs s) = None;
  pr_phases j : 0 <= j < num_fibers -> phases m !! Z.to_nat j = Some Working;
  pr_main : exists t stored used,
    threads (sys s) !! 0 = Some t /\ main_stage (sys s) t stored used /\
    created m = Z.max 1 stored /\
    (forall j, is_Some (fibers s !! j) <-> 0 <= j < stored) /\
    (forall i j, has_index (sys s) i j -> j < used);
  pr_helper p t : threads (sys s) !! p = Some t -> p <> 0 -> waiting t;
}.

(** Afterwards. *)
Definition calm t : Prop :=
  match at_ t with
  | User HelperStart => current t = None
  | User u => scheduled u /\ is_Some (current t)
  | CvAlloc k | CvLock k _ | CvSave k _ | CvCurrent k _ => k = User HelperWait
  | SwTry k _ _ | SwSet k _ _ | SwSave k _ _ | SwUnlock k _ _ => exists u, k = User u /\ scheduled u
  | SwJump _ _ => True
  | _ => False
  end.

(** The fiber a thread is switching to. *)
Definition target t : option positive :=
  match at_ t with
  | SwTry _ _ to => to
  | SwSet _ _ to | SwSave _ _ to | SwUnlock _ _ to | SwJump _ to => Some to
  | _ => None
  end.

Record ready s m : Prop := {
  re_created : created m = num_fibers;
  re_entries j : 0 <= j < num_fibers -> is_Some (fibers s !! j);
  re_codes i u : continuation (sys s) i u -> scheduled u;
  re_init i : continuation (sys s) i MainInit -> init_complete (globs s) = false;
  re_threads p t : threads (sys s) !! p = Some t -> calm t;
  re_target p t i : threads (sys s) !! p = Some t -> target t = Some i -> exists j, has_index (sys s) i j;
  re_main : exists t, threads (sys s) !! 0 = Some t /\ is_Some (current t);
}.

Definition staged s m : Prop := if armed s then ready s m else preparing s m.
Definition pinv s m : Prop := core s m /\ staged s m.

Lemma co_uinv s m : core s m -> uinv (sys s).
Proof. intros C. by apply (uinv_reachable rax_ok no_alarm rax_nonzero), (co_sys _ _ C). Qed.

Lemma has_index_frame c c' i j :
  (forall i u, continuation c i u -> continuation c' i u) -> has_index c i j -> has_index c' i j.
Proof. intros H (u & Hu & Hj). exists u. split; [by apply H|done]. Qed.

Lemma main_stage_frame c c' t stored used :
  (forall i u, continuation c i u -> continuation c' i u) ->
  (forall i, i ∈ handles (mem c) -> i ∈ handles (mem c')) ->
  main_stage c t stored used -> main_stage c' t stored used.
Proof.
  intros Hc Hh. unfold main_stage. destruct (at_ t) as [[]| | | | | | | | | | | | | | | | | | | |]; try exact (fun H => H).
  - intros (Ho & (x & Hr & Hx & Hi) & Hj). split; [done|]. split; [|done]. exists x. split; [done|].
    split; [by apply Hh|by apply (has_index_frame c)].
  - intros (j & o & Hf & Hj & Ho & Hu%Hc). by exists j, o.
  - intros (j & o & Hf & Hj & Ho & Hu%Hc). by exists j, o.
  - intros (j & o & Hf & Hj & Ho & Hu%Hc). by exists j, o.
  - intros (j & o & Hf & Hj & Ho & Hu%Hc). by exists j, o.
  - intros (j & o & Hf & Hj & Ho & Hu%Hc). by exists j, o.
  - intros (j & o & Hj & Ho & Hu%Hc). by exists j, o.
Qed.

(** ** Steps inside ult.c *)
Section micro.
Context (s : program) (m : mstate) (p rax : Z) (t t' : thread place) (mem' : shared place).
Hypothesis C : core s m.
Hypothesis Ht : threads (sys s) !! p = Some t.
Hypothesis Hrax : rax_ok rax.
Hypothesis Hm : micro rax t (mem (sys s)) = Some (t', mem').

Definition stepped : program := with_sys (after p t' mem' (sys s)) s.

Lemma stepped_facts :
  okstep t t' (mem (sys s)) mem' /\ okcode t t' (mem (sys s)) mem' /\ uinv (sys stepped).
Proof. apply (micro_after (sys s) p t rax); [by apply rax_nonzero|by apply (co_uinv s m)|done|done]. Qed.

Lemma stepped_next : next_ok t (mem (sys s)) t'.
Proof.
  destruct stepped_facts as (O & _ & _). eapply micro_next; [|done|].
  - by apply (ui_pc _ (co_uinv _ _ C) p).
  - intros Ha. pose proof (ok_pc _ _ _ _ O) as Hok. unfold pc_ok in Hok. by rewrite Ha in Hok.
Qed.

Lemma stepped_reachable : reachable rax_ok no_alarm (sys stepped).
Proof. eapply r_step; [apply (co_sys _ _ C)|]. by eapply s_micro. Qed.

Lemma stepped_continuation i u : continuation (sys s) i u -> continuation (sys stepped) i u.
Proof. destruct stepped_facts as (O & Oc & _). by apply (continuation_okstep (sys s) p t); [apply (co_uinv s m)|..]. Qed.
Lemma stepped_index i j : has_index (sys s) i j -> has_index (sys stepped) i j.
Proof. intros (u & Hu & Hj). exists u. split; [by apply stepped_continuation|done]. Qed.
Lemma stepped_handle i : i ∈ handles (mem (sys s)) -> i ∈ handles (mem (sys stepped)).
Proof. destruct stepped_facts as (O & _ & _). apply O. Qed.

(** The new fiber of a step, if there is one. *)
Definition born_with u : Prop := at_ t = CvAlloc (User u) \/ exists k, at_ t = CrAlloc k u.

Lemma stepped_back i u :
  continuation (sys stepped) i u -> continuation (sys s) i u \/ (i = next_block (mem (sys s)) /\ born_with u).
Proof.
  intros Hu. pose proof (rax_nonzero _ Hrax) as Hr. pose proof (co_uinv _ _ C) as I.
  destruct (micro_continuation (sys s) p t rax t' mem' i u Hr I Ht Hm Hu) as [H|(Hb & -> & Hc)]; [by left|].
  right. split; [done|]. by apply (birth_code (sys s) p t rax t' mem').
Qed.

(** It has an index no other fiber has, or is that of a helper thread. *)
Definition birth_ok : Prop := forall u, born_with u ->
  (index u = None /\ scheduled u) \/
  exists j, index u = Some j /\ (forall i, ~ has_index (sys s) i j) /\
    0 <= j < num_fibers /\ phases m !! Z.to_nat j = Some (phase_of u).

Lemma stepped_index_back i j :
  birth_ok -> has_index (sys stepped) i j ->
  has_index (sys s) i j \/ (i = next_block (mem (sys s)) /\ forall i', ~ has_index (sys s) i' j).
Proof.
  intros Hb (u & Hu & Hj). destruct (stepped_back i u Hu) as [H|[-> H]]; [left; by exists u|].
  right. split; [done|]. destruct (Hb u H) as [[? _]|(j' & Hj' & Hno & _)]; [congruence|].
  by assert (j' = j) as <- by congruence.
Qed.

Lemma stepped_core :
  birth_ok -> (forall i q, saves t i q -> point_ok stepped q) -> core stepped m.
Proof.
  intros Hb Hq. split; cbn [globs fibers stepped with_sys].
  - apply stepped_reachable.
  - apply C.
  - apply C.
  - intros i u j [H|[_ H]]%stepped_back Hj; [by apply (co_phase _ _ C i)|].
    destruct (Hb u H) as [[? _]|(j' & Hj' & _ & H1)]; [congruence|]. by assert (j' = j) as <- by congruence.
  - intros i i' j [H|[-> H]]%(stepped_index_back _ _ Hb) [H'|[-> H']]%(stepped_index_back _ _ Hb);
      [by apply (co_unique _ _ C i i' j)|by destruct (H' i)|by destruct (H i')|done].
  - intros i u [H|[_ H]]%stepped_back Hj; [by apply (co_other _ _ C i)|].
    destruct (Hb u H) as [[_ ?]|(j' & Hj' & _)]; [done|congruence].
  - intros j r Hr. destruct (co_entry _ _ C j r Hr) as (i & -> & Hi & Hj). exists i.
    split; [done|]. split; [by apply stepped_handle|by apply stepped_index].
  - intros i x q rax' Hx Hc. cbn in Hx.
    destruct (micro_records rax t _ t' mem' i x Hm Hx) as [(y & Hy & E)|[(_ & _ & E)|(_ & q' & Hs & E)]]; [|congruence|].
    + rewrite E in Hc. pose proof (co_point _ _ C i y q rax' Hy Hc) as Hp.
      destruct q; try done. destruct Hp as (j & ? & ? & ?). exists j. split; [done|].
      split; [by apply stepped_handle|by apply stepped_index].
    + assert (q' = q) as <- by congruence. by eapply Hq.
Qed.

Lemma stepped_pc : pc_ok t (ults (mem (sys s))) (handles (mem (sys s))).
Proof. by apply (ui_pc _ (co_uinv _ _ C) p). Qed.

(** A fiber resumed goes on with its code. *)
Lemma resumes_continuation i :
  i ∈ claims t -> code t = [] -> resumes i t (mem (sys s)) t' ->
  exists x u, ults (mem (sys s)) !! i = Some x /\ saved_code x = Some u /\
    t' = returning (resumed x t) (goto (User u) t) /\ continuation (sys s) i u.
Proof.
  intros Hi E (x & u & Hx & Hu & Et). exists x, u. do 3 (split; [done|]).
  apply (continuation_saved (sys s) p t); [by apply (co_uinv s m)|done|done|rewrite E; set_solver|by exists x].
Qed.

(** *** Once the array is filled *)
Lemma calm_birth u : calm t -> born_with u -> u = HelperWait.
Proof. unfold calm. intros Hc [Ha|[k Ha]]; rewrite Ha in Hc; [congruence|done]. Qed.

Lemma calm_step : (forall i u, continuation (sys s) i u -> scheduled u) -> calm t -> calm t'.
Proof.
  intros Hs. pose proof stepped_next as Hn. pose proof stepped_pc as Hok. unfold next_ok, pc_ok, calm in *.
  destruct (at_ t) eqn:Ha; try done.
  - intros ->. by rewrite Hn.
  - intros ->. destruct Hn as [->| ->]; cbn; by rewrite ?Ha.
  - intros ->. by rewrite Hn.
  - intros ->. rewrite Hn. cbn. eauto.
  - intros (u & -> & Hu). destruct Hn as [->|(i & _ & ->)]; cbn; [|by exists u].
    destruct Hok as (_ & -> & Hc & _). by destruct u.
  - intros (u & -> & Hu). rewrite Hn. by exists u.
  - intros (u & -> & Hu). rewrite Hn. by exists u.
  - intros (u & -> & Hu). by rewrite Hn.
  - intros _. destruct Hok as [Hc _]. destruct (resumes_continuation to) as (x & u & _ & _ & -> & Hu).
    + unfold claims. rewrite Ha. set_solver.
    + unfold code. by rewrite Ha.
    + done.
    + cbn. apply Hs in Hu. rewrite Hc. destruct u; naive_solver.
Qed.

Lemma target_step i : calm t -> target t' = Some i -> target t = Some i.
Proof.
  pose proof stepped_next as Hn. unfold next_ok, calm, target in *. destruct (at_ t) eqn:Ha; try done.
  - intros ->. by rewrite Hn.
  - intros ->. destruct Hn as [->| ->]; cbn; by rewrite ?Ha.
  - intros ->. by rewrite Hn.
  - intros ->. by rewrite Hn.
  - intros (u & -> & _). by destruct Hn as [->|(j & -> & ->)].
  - intros _. by rewrite Hn.
  - intros _. by rewrite Hn.
  - intros _. by rewrite Hn.
  - intros _. by destruct Hn as (x & u & _ & _ & ->).
Qed.

Lemma current_step : is_Some (current t) -> is_Some (current t').
Proof.
  pose proof stepped_next as Hn. unfold next_ok in Hn. intros Hc.
  destruct (at_ t); try (rewrite Hn; first [exact Hc|eexists; reflexivity]).
  - destruct Hn.
  - destruct Hn as [Hn|Hn]; rewrite Hn; exact Hc.
  - destruct Hn as [Hn|Hn]; rewrite Hn; exact Hc.
  - destruct Hn as (u & _ & Hn). rewrite Hn. exact Hc.
  - destruct Hn as [Hn|Hn]; rewrite Hn; exact Hc.
  - destruct Hn as (o & _ & x & u & _ & _ & Hn). rewrite Hn. exact Hc.
  - destruct Hn as [Hn|(i & _ & Hn)]; rewrite Hn; exact Hc.
  - destruct Hn as (x & u & _ & _ & Hn). rewrite Hn. exact Hc.
  - destruct Hn.
Qed.

Lemma ready_step : ready s m -> armed s = true -> core stepped m /\ ready stepped m.
Proof.
  intros R Hr. pose proof (re_threads _ _ R p t Ht) as Hc. split.
  - apply stepped_core.
    + intros u ->%calm_birth; [|done]. by left.
    + intros i q. unfold saves, calm in *. destruct (at_ t); try done; intros [_ ->]; done.
  - split; cbn [created globs fibers stepped with_sys].
    + apply R.
    + apply R.
    + intros i u [H|[_ ->%calm_birth]]%stepped_back; [by apply (re_codes _ _ R i)|done|done].
    + intros i [H|[_ H%calm_birth]]%stepped_back; [by apply (re_init _ _ R i)|done|done].
    + cbn. intros q t0 [[-> ->]|[_ H0]]%thread_cases; [|by apply (re_threads _ _ R q)].
      apply calm_step; [apply R|done].
    + cbn. intros q t0 i H0 Hi. assert (exists j, has_index (sys s) i j) as [j Hj].
      { apply thread_cases in H0 as [[-> ->]|[_ H0]]; [|by apply (re_target _ _ R q t0)].
        apply (re_target _ _ R p t); [done|by apply target_step]. }
      exists j. by apply stepped_index.
    + destruct (re_main _ _ R) as (t0 & H0 & Hc0). cbn. destruct (decide (p = 0)) as [Hp|Hp].
      * exists t'. split; [rewrite Hp; apply lookup_insert_eq|]. apply current_step.
        assert (t0 = t) as <- by (rewrite Hp in Ht; congruence). done.
      * exists t0. by rewrite lookup_insert_ne.
Qed.

(** *** Before *)
Lemma waiting_birth u : waiting t -> born_with u -> u = HelperWait.
Proof. unfold waiting. intros Hc [Ha|[k Ha]]; rewrite Ha in Hc; [congruence|done]. Qed.

Lemma waiting_step : waiting t -> waiting t'.
Proof.
  pose proof stepped_next as Hn. unfold next_ok, waiting in *. destruct (at_ t) eqn:Ha; try done.
  - intros ->. by rewrite Hn.
  - intros ->. destruct Hn as [->| ->]; cbn; by rewrite ?Ha.
  - intros ->. by rewrite Hn.
  - intros ->. rewrite Hn. cbn. eauto.
Qed.

(** What the context of main's fiber, saved in the last creation, returns. *)
Lemma creation_point o j x :
  armed s = false -> continuation (sys s) o (MainStore j) -> ults (mem (sys s)) !! o = Some x ->
  saved_code x = Some (MainStore j) ->
  exists new, resumed x t = Some new /\ new ∈ handles (mem (sys s)) /\ has_index (sys s) new j.
Proof.
  intros Ha Hu Hx Hs. unfold saved_code, resumed in *. destruct (context x) as [[q r]|] eqn:Hc; [|done].
  pose proof (co_point _ _ C o x q r Hx Hc) as Hq. destruct (i32 r =? 0); [done|].
  destruct q as [| |k new|u|]; cbn in Hq, Hs; try done.
  - destruct Hq as (j' & -> & Hn & Hi). exists new. by simplify_eq.
  - by destruct Hq as [j' ->].
  - congruence.
Qed.

(** The stage of main moves on. *)
Definition moves_on (stored used : Z) : Prop := exists used',
  main_stage (sys stepped) t' stored used' /\ used <= used' /\
  (forall u j, born_with u -> index u = Some j -> j < used').

Lemma moves_on_same stored used :
  (forall u, ~ born_with u) -> main_stage (sys stepped) t' stored used -> moves_on stored used.
Proof. intros Hb Hs. exists used. split; [done|]. split; [done|]. by intros u j Hu%Hb. Qed.

Lemma no_birth k : at_ t = k -> (forall k', k <> CvAlloc k') -> (forall k' u, k <> CrAlloc k' u) ->
  forall u, ~ born_with u.
Proof. unfold born_with. intros -> H1 H2 u [->|[k' ->]]; [by eapply H1|by eapply H2]. Qed.

Ltac stays := apply moves_on_same; [by eapply no_birth|].

Lemma convert_moves_on k stored used :
  (at_ t = CvAlloc k \/ exists i, at_ t = CvLock k i \/ at_ t = CvSave k i \/ at_ t = CvCurrent k i) ->
  main_stage (sys s) t stored used -> moves_on stored used.
Proof.
  pose proof stepped_next as Hn. unfold main_stage, next_ok in *.
  intros [Ha|(i & [Ha|[Ha|Ha]])] Hs; rewrite Ha in Hn, Hs; destruct Hs as (-> & -> & ->).
  - exists 1. rewrite Hn. split; [done|]. split; [lia|]. intros u j [Hu|[k Hu]] Hj; [|congruence].
    assert (u = MainStore 0) as -> by congruence. by injection Hj as <-.
  - stays. destruct Hn as [Hn|Hn]; rewrite Hn; unfold main_stage; cbn; by rewrite ?Ha.
  - stays. by rewrite Hn.
  - stays. rewrite Hn. unfold main_stage. cbn. split; [by eexists|]. split; [|lia].
    exists i. split; [done|]. destruct stepped_facts as (O & _ & _). split; [apply (ok_current _ _ _ _ O); by rewrite Hn|].
    exists (MainStore 0). split; [|done]. apply stepped_continuation. left. exists p, t. split; [done|].
    unfold code. rewrite Ha. set_solver.
Qed.

Lemma create_moves_on stored used :
  match at_ t with
  | CrAlloc _ _ | CrRaise _ _ _ | CrLock _ _ | CrSave _ _ | CrUnlock _ _ | CrJump _ _ => True | _ => False
  end -> main_stage (sys s) t stored used -> moves_on stored used.
Proof.
  pose proof stepped_next as Hn. pose proof stepped_pc as Hok. unfold main_stage, next_ok, pc_ok in *.
  destruct (at_ t) eqn:Ha; try done; intros _ Hs.
  - destruct Hs as (j & -> & -> & Hj & -> & ->). exists (j + 1). rewrite Hn. unfold main_stage, creating. cbn.
    split; [by exists j|]. split; [lia|]. intros u j' [Hu|[k Hu]] Hj'; [congruence|].
    assert (u = new_body j) as -> by congruence. cbn in Hj'. assert (j' = j) by (injection Hj'; lia). lia.
  - stays. destruct Hs as (j & -> & -> & Hj). rewrite Hn. unfold main_stage. cbn. by exists j.
  - stays. destruct Hs as (j & -> & Hf & Hj). destruct Hn as [Hn|Hn]; rewrite Hn; unfold main_stage; rewrite ?Ha; cbn; by exists j.
  - stays. destruct Hs as (j & -> & Hf & Hj). rewrite Hn. unfold main_stage. cbn.
    destruct Hok as (_ & [o Ho] & _). exists j, o. do 3 (split; [done|]). apply stepped_continuation.
    left. exists p, t. split; [done|]. unfold code. rewrite Ha, Ho. cbn. set_solver.
  - stays. destruct Hs as (j & o & Hf & Hj & Ho & Hu). rewrite Hn. unfold main_stage. cbn.
    exists j, o. do 3 (split; [done|]). by apply stepped_continuation.
  - stays. destruct Hs as (j & o & Hf & Hj & Ho & Hu). destruct Hn as (u & Hu' & Hn). rewrite Hn. unfold main_stage. cbn.
    exists j, o. split; [congruence|]. do 2 (split; [done|]). by apply stepped_continuation.
Qed.

Lemma boot_moves_on stored used :
  armed s = false ->
  match at_ t with BtLock _ | BtSave _ | BtUnlock _ | BtJump _ => True | _ => False end ->
  main_stage (sys s) t stored used -> moves_on stored used.
Proof.
  intros Har. pose proof stepped_next as Hn. unfold main_stage, next_ok in *.
  destruct (at_ t) eqn:Ha; try done; intros _ Hs; stays.
  - destruct Hs as (j & o & -> & Hj & Ho & Hu%stepped_continuation).
    destruct Hn as [Hn|Hn]; rewrite Hn; unfold main_stage; rewrite ?Ha; cbn; by eauto 10.
  - destruct Hs as (j & o & -> & Hj & Ho & Hu%stepped_continuation). rewrite Hn. unfold main_stage. cbn. by eauto 10.
  - destruct Hs as (j & o & -> & Hj & Ho & Hu%stepped_continuation). rewrite Hn. unfold main_stage. cbn. by eauto 10.
  - destruct Hs as (j & o & (Hj & -> & ->) & Ho & Hu). destruct Hn as (o' & Ho' & Hn). assert (o' = o) as -> by congruence.
    destruct (resumes_continuation o) as (x & u & Hx & Hc & Ht' & Hu'); [|unfold code; by rewrite Ha|done|].
    { unfold claims. rewrite Ha, Ho. set_solver. }
    assert (u = MainStore j) as -> by (apply (continuation_functional (sys s) o); [by apply (co_uinv s m)|done|done]).
    destruct (creation_point o j x Har Hu Hx Hc) as (new & Hr & Hnew & Hi). rewrite Ht'. unfold main_stage. cbn.
    rewrite Ho. split; [by eexists|]. split; [|lia]. exists new. split; [done|].
    split; [by apply stepped_handle|by apply stepped_index].
Qed.

Lemma stage_moves_on stored used :
  armed s = false -> main_stage (sys s) t stored used -> moves_on stored used.
Proof.
  intros Har Hs. pose proof stepped_next as Hn. unfold next_ok in Hn.
  destruct (at_ t) eqn:Ha; try done;
    first [by eapply convert_moves_on; eauto 10
      |by apply create_moves_on; [rewrite Ha|]|by apply boot_moves_on; [|rewrite Ha|]
      |unfold main_stage in Hs; by rewrite Ha in Hs].
Qed.

Lemma stage_birth stored used :
  main_stage (sys s) t stored used -> (forall i j, has_index (sys s) i j -> j < used) ->
  (forall j, 0 <= j < num_fibers -> phases m !! Z.to_nat j = Some Working) -> birth_ok.
Proof.
  unfold main_stage. intros Hs Hu Hp u [Ha|[k Ha]]; rewrite Ha in Hs; right.
  - destruct Hs as (E & -> & ->). assert (u = MainStore 0) as -> by congruence. exists 0. split; [done|].
    split; [|split; [lia|apply Hp; lia]]. intros i Hi. pose proof (Hu i 0 Hi). lia.
  - destruct Hs as (j & -> & -> & Hj & -> & ->). exists j. cbn. split; [f_equal; lia|].
    split; [|split; [lia|apply Hp; lia]]. intros i Hi. pose proof (Hu i j Hi). lia.
Qed.

Lemma stepped_new_handle k new : at_ t = CrSave k new -> new ∈ handles (mem (sys stepped)).
Proof.
  intros Ha. pose proof Hm as E. unfold micro, context_create, set_jmp in E. rewrite Ha in E. cbn.
  destruct (current t) as [o|]; [destruct (ults (with_handle new (mem (sys s))) !! o)|];
    injection E as <- <-; cbn; set_solver.
Qed.

Lemma stage_saves stored used i q : main_stage (sys s) t stored used -> saves t i q -> point_ok stepped q.
Proof.
  unfold main_stage, saves. intros Hs. destruct (at_ t) eqn:Ha; try done; intros [_ ->]; try done.
  - destruct Hs as (j & -> & Hf & _). exists j. split; [done|]. split; [by eapply stepped_new_handle|].
    exists (new_body j). split; [|cbn; f_equal; lia]. apply stepped_continuation. left. exists p, t. split; [done|].
    unfold code. rewrite Ha, Hf. cbn. rewrite elem_of_app. right. set_solver.
  - destruct Hs as (j & o & -> & _). by exists j.
Qed.

Lemma waiting_saves i q : waiting t -> saves t i q -> point_ok stepped q.
Proof. unfold waiting, saves. intros Hw. destruct (at_ t) eqn:Ha; try done. by intros [_ ->]. Qed.

Lemma preparing_step : preparing s m -> armed s = false -> core stepped m /\ preparing stepped m.
Proof.
  intros P Har. destruct (pr_main _ _ P) as (t0 & stored & used & H0 & Hs & Hcr & Hent & Hused).
  destruct (decide (p = 0)) as [Hp|Hp].
  - assert (t0 = t) as -> by (rewrite Hp in Ht; congruence).
    destruct (stage_moves_on stored used Har Hs) as (used' & Hs' & Hle & Hb).
    assert (birth_ok) as Hbo by (apply (stage_birth stored used); [done|done|apply P]).
    split; [apply stepped_core; [done|]; intros i q; by apply (stage_saves stored used)|].
    split; [apply P..| |].
    + exists t', stored, used'. split; [cbn; rewrite Hp; apply lookup_insert_eq|]. do 3 (split; [done|]).
      intros i j (u & [Hu|[_ Hu]]%stepped_back & Hj); [|by apply (Hb u)].
      assert (j < used) by (apply (Hused i); by exists u). lia.
    + intros q tq [[-> ->]|[_ Hq]]%thread_cases Hne; [done|by apply (pr_helper _ _ P q)].
  - pose proof (pr_helper _ _ P p t Ht Hp) as Hw.
    assert (birth_ok) as Hbo by (intros u ->%waiting_birth; [by left|done]).
    split; [apply stepped_core; [done|]; intros i q; by apply waiting_saves|].
    split; [apply P..| |].
    + exists t0, stored, used. split; [cbn; by rewrite lookup_insert_ne|]. split; [by apply (main_stage_frame (sys s)); [apply stepped_continuation|apply stepped_handle|]|].
      do 2 (split; [done|]). intros i j (u & [Hu|[_ Hu]]%stepped_back & Hj); [apply (Hused i); by exists u|].
      by rewrite (waiting_birth u Hw Hu) in Hj.
    + intros q tq [[-> ->]|[_ Hq]]%thread_cases Hne; [by apply waiting_step|by apply (pr_helper _ _ P q)].
Qed.
End micro.

(** ** Steps in main.c *)
Lemma core_enter s m p t t' :
  core s m -> threads (sys s) !! p = Some t -> code t' = code t -> reachable rax_ok no_alarm (on p t' (sys s)) ->
  core (set_thread p t' s) m.
Proof.
  intros C Ht E Hr. pose proof (fun i u => continuation_goto (sys s) p t t' i u Ht E) as Hc.
  assert (forall i j, has_index (on p t' (sys s)) i j <-> has_index (sys s) i j) as Hi.
  { intros i j. split; intros (u & Hu & Hj); (exists u; split; [by apply Hc|done]). }
  split; cbn [sys globs fibers set_thread with_sys].
  - done.
  - apply C.
  - apply C.
  - intros i u j Hu. apply (co_phase _ _ C i). by apply Hc.
  - intros i i' j Hj Hj'. by apply (co_unique _ _ C i i' j); apply Hi.
  - intros i u Hu. apply (co_other _ _ C i). by apply Hc.
  - intros j r Hr'. destruct (co_entry _ _ C j r Hr') as (i & ? & ? & ?). exists i.
    do 2 (split; [done|]). by apply Hi.
  - intros i x q rax Hx Hq. pose proof (co_point _ _ C i x q rax Hx Hq) as Hp.
    destruct q; try done. destruct Hp as (j & ? & ? & ?). exists j. do 2 (split; [done|]). by apply Hi.
Qed.

Section run.
Context (s s' : program) (m m' : mstate) (p : Z) (t : thread place) (u u' : place) (o : positive).
Hypothesis C : core s m.
Hypothesis Ht : threads (sys s) !! p = Some t.
Hypothesis Ha : at_ t = User u.
Hypothesis Ho : current t = Some o.
Hypothesis Hs : sys s' = on p (goto (User u') t) (sys s).
Hypothesis Hindex : index u' = index u.

Lemma run_reachable : reachable rax_ok no_alarm (sys s').
Proof. rewrite Hs. eapply r_step; [apply (co_sys _ _ C)|]. by eapply s_code. Qed.

Lemma run_continuation i v : continuation (sys s') i v <-> if decide (i = o) then v = u' else continuation (sys s) i v.
Proof.
  rewrite Hs. apply (continuation_run _ _ _ u); [by apply (co_uinv s m)| |done..]. rewrite <- Hs.
  apply (uinv_reachable rax_ok no_alarm rax_nonzero); [done|apply run_reachable].
Qed.

Lemma run_current : continuation (sys s) o u.
Proof. by apply (continuation_current (sys s) p t). Qed.

Lemma run_index i j : has_index (sys s') i j <-> has_index (sys s) i j.
Proof.
  unfold has_index. setoid_rewrite run_continuation. case_decide as Hd; [subst i|done]. split.
  - intros (v & -> & Hj). exists u. split; [apply run_current|congruence].
  - intros (v & Hv & Hj). exists u'. split; [done|].
    by rewrite Hindex, (continuation_functional _ o u v (co_uinv _ _ C) run_current Hv).
Qed.

Lemma run_core :
  mreachable num_fibers m' -> vars m' = globs s' -> (armed s = true -> armed s' = true) ->
  (index u = None -> scheduled u') ->
  (forall j, index u = Some j -> phases m' !! Z.to_nat j = Some (phase_of u')) ->
  (forall j, index u <> Some j -> 0 <= j < num_fibers -> phases m' !! Z.to_nat j = phases m !! Z.to_nat j) ->
  (forall j r, fibers s' !! j = Some r -> fibers s !! j = Some r \/
    exists i, r = Some i /\ i ∈ handles (mem (sys s)) /\ has_index (sys s) i j) -> core s' m'.
Proof.
  intros Hr Hv Harm Hsch Hown Hother Hent.
  assert (mem (sys s') = mem (sys s)) as Em by by rewrite Hs.
  split.
  - apply run_reachable.
  - done.
  - done.
  - intros i v j. rewrite run_continuation. case_decide as Hd.
    + intros -> Hj. rewrite Hindex in Hj. split; [by apply (co_phase _ _ C o u j run_current)|by apply Hown].
    + intros Hi Hj. destruct (co_phase _ _ C i v j Hi Hj) as [Hb Hp]. split; [done|]. rewrite Hother; [done| |done].
      intros Hu. apply Hd. apply (co_unique _ _ C i o j); [by exists v|]. exists u. split; [apply run_current|done].
  - intros i i' j. rewrite !run_index. apply C.
  - intros i v. rewrite run_continuation. case_decide; [intros ->; by rewrite Hindex|apply C].
  - intros j r [Hj|(i & Hi)]%Hent; [destruct (co_entry _ _ C j r Hj) as (i & Hi)|]; exists i; by rewrite run_index, Em.
  - intros i x q rax. rewrite Em. intros Hx Hq. pose proof (co_point _ _ C i x q rax Hx Hq) as Hp.
    destruct q; try done; [|by apply Harm]. destruct Hp as (j & Hj). exists j. by rewrite run_index, Em.
Qed.
End run.

Lemma set_thread_twice p t t' s : set_thread p t' (set_thread p t s) = set_thread p t' s.
Proof. unfold set_thread, with_sys, on. cbn. by rewrite insert_insert_eq. Qed.

(** A thread that is no fiber becomes one. *)
Lemma convert_code t u v : at_ t = User u -> current t = None -> code (goto (CvAlloc (User v)) t) = code t.
Proof. intros Ha Hc. by rewrite (code_user t u Ha), Hc. Qed.

Lemma convert_core s m p t u v :
  core s m -> threads (sys s) !! p = Some t -> at_ t = User u -> current t = None ->
  core (set_thread p (goto (CvAlloc (User v)) t) s) m.
Proof.
  intros C Ht Ha Hc. apply (core_enter s m p t); [done..|by apply (convert_code t u)|].
  pose proof (set_thread_twice p (goto (User v) t) (goto (CvAlloc (User v)) t) s) as E.
  apply (f_equal sys) in E. cbn [sys set_thread with_sys] in E. rewrite <- E.
  eapply r_step; [eapply r_step; [apply (co_sys _ _ C)|by eapply s_code]|].
  apply (s_convert _ _ _ p (goto (User v) t) v); [apply lookup_insert_eq|done|done].
Qed.

(** *** Once the array is filled *)
Lemma main_current c p t t' :
  threads c !! p = Some t -> current t' = current t ->
  (exists t0, threads c !! 0 = Some t0 /\ is_Some (current t0)) ->
  exists t0, threads (on p t' c) !! 0 = Some t0 /\ is_Some (current t0).
Proof.
  intros Ht E (t0 & H0 & Hc). cbn. destruct (decide (p = 0)) as [->|Hp].
  - exists t'. rewrite lookup_insert_eq, E. split; [done|]. by assert (t0 = t) as <- by congruence.
  - exists t0. by rewrite lookup_insert_ne.
Qed.

Lemma ready_enter s m p t t' :
  ready s m -> threads (sys s) !! p = Some t -> code t' = code t -> calm t' -> current t' = current t ->
  (forall i, target t' = Some i -> exists j, has_index (sys s) i j) -> ready (set_thread p t' s) m.
Proof.
  intros R Ht E Hc Ecur Hto. split; cbn [sys globs fibers set_thread with_sys]; [apply R|apply R| | | | |].
  - intros i u Hu. apply (re_codes _ _ R i). by apply (continuation_goto _ p t t').
  - intros i Hu. apply (re_init _ _ R i). by apply (continuation_goto _ p t t').
  - intros q t0 [[-> ->]|[_ H0]]%thread_cases; [done|by apply (re_threads _ _ R q)].
  - intros q t0 i H0 Hi. assert (exists j, has_index (sys s) i j) as (j & u & Hu & Hj).
    { apply thread_cases in H0 as [[-> ->]|[_ H0]]; [by apply Hto|by apply (re_target _ _ R q t0)]. }
    exists j, u. split; [by apply (continuation_goto _ p t t')|done].
  - exact (main_current _ p t t' Ht Ecur (re_main _ _ R)).
Qed.

Lemma calm_user t u : at_ t = User u -> calm t -> u = HelperStart /\ current t = None \/ scheduled u /\ is_Some (current t).
Proof. unfold calm. intros ->. destruct u; auto. Qed.

(** Any entry of the array can be switched to. *)
Lemma switch_ok s m p f t u :
  core s m -> ready s m -> threads (sys s) !! p = Some t -> at_ t = User u -> is_Some (current t) -> scheduled u ->
  0 <= f < num_fibers -> core (switch_to p f t s) m /\ ready (switch_to p f t s) m.
Proof.
  intros C R Ht Ha Hc Hu Hf. unfold switch_to. destruct (re_entries _ _ R f Hf) as [r Hr]. rewrite Hr.
  destruct (co_entry _ _ C f r Hr) as (i & -> & Hi & Hx). rewrite Ha.
  assert (code (goto (SwTry (User u) (current t) (Some i)) t) = code t) as E by (rewrite (code_user t u Ha); unfold code; cbn; by destruct (current t)).
  split.
  - apply (core_enter s m p t); [done..|]. eapply r_step; [apply (co_sys _ _ C)|].
    apply s_switch; [done|by left; exists u|done|done|by intros ? [= <-]].
  - apply (ready_enter s m p t); [done..|by exists u|done|]. intros i' [= <-]. by exists f.
Qed.

Lemma ready_run s s' m m' p t u u' o :
  core s m -> ready s m -> threads (sys s) !! p = Some t -> at_ t = User u -> current t = Some o ->
  sys s' = on p (goto (User u') t) (sys s) -> index u' = index u -> fibers s' = fibers s ->
  created m' = created m -> scheduled u' -> u' <> MainInit ->
  (init_complete (globs s) = false -> init_complete (globs s') = false \/ u = MainInit) -> ready s' m'.
Proof.
  intros C R Ht Ha Ho Hs Hi Hf Hc Hu Hne Hin.
  pose proof (run_continuation s s' m p t u u' o C Ht Ha Ho Hs) as Hcont. split.
  - by rewrite Hc, (re_created _ _ R).
  - rewrite Hf. apply R.
  - intros i v. rewrite Hcont. case_decide; [by intros ->|apply R].
  - intros i. rewrite Hcont. case_decide as Hd; [by intros <-|]. intros Hi'.
    destruct (Hin (re_init _ _ R i Hi')) as [|E]; [done|]. subst u. destruct Hd. apply (co_unique _ _ C i o 0).
    + by exists MainInit.
    + exists MainInit. split; [by apply (continuation_current (sys s) p t)|done].
  - rewrite Hs. intros q t0 [[-> ->]|[_ H0]]%thread_cases; [|by apply (re_threads _ _ R q)].
    unfold calm. cbn. rewrite Ho. by destruct u'.
  - rewrite Hs. intros q t0 i [[-> ->]|[_ H0]]%thread_cases Hi'; [done|].
    destruct (re_target _ _ R q t0 i H0 Hi') as [j Hj]. exists j. rewrite <- Hs.
    by apply (run_index s s' m p t u u' o).
  - rewrite Hs. apply (main_current _ p t); [done|done|apply R].
Qed.

Lemma fiber_end_init id x millis g : init_complete (fiber_end id x millis g).2 = init_complete g.
Proof. destruct x; cbn; try done. by destruct (0 <? completed_fibers g). Qed.

(** A fiber's own step is a step of the protocol. *)
Lemma body_step s m p t id x millis :
  core s m -> ready s m -> threads (sys s) !! p = Some t -> at_ t = User (Body id x) -> is_Some (current t) ->
  ended (globs s) = None ->
  let r := fiber_end id x millis (globs s) in
  let s' := with_globs r.2 (set_thread p (goto (User (Body id r.1)) t) s) in
  let m' := fiber_step (Z.to_nat (id - 1)) x millis m in core s' m' /\ ready s' m'.
Proof.
  intros C R Ht Ha [o Ho] He r s' m'. set (j := Z.to_nat (id - 1)).
  destruct (co_phase _ _ C o (Body id x) (id - 1)) as [Hb Hx]; [by apply (continuation_current (sys s) p t)|done|].
  cbn [phase_of] in Hx. fold j in Hx. fold j in m'. unfold m'.
  assert (fiber_end (Z.of_nat j + 1) x millis (vars m) = r) as Er.
  { unfold r. rewrite (co_vars _ _ C). f_equal. unfold j. lia. }
  split.
  - apply (run_core s s' m _ p t (Body id x) (Body id r.1) o); try done.
    + eapply m_next; [apply (co_main _ _ C)|]. apply m_fiber; [by rewrite (co_vars _ _ C)|apply R|done].
    + unfold fiber_step. by rewrite Er.
    + intros k [= <-]. unfold fiber_step. cbn [phases]. rewrite Er. apply list_lookup_insert_eq. by eapply lookup_lt_Some.
    + intros k Hk Hkb. unfold fiber_step. cbn [phases]. apply list_lookup_insert_ne. unfold j. intros E. apply Hk.
      cbn. f_equal. lia.
    + by left.
  - apply (ready_run s s' m _ p t (Body id x) (Body id r.1) o); try done.
    intros Hi. left. unfold s', r. cbn. by rewrite fiber_end_init.
Qed.

Lemma init_step s m p t :
  core s m -> ready s m -> threads (sys s) !! p = Some t -> at_ t = User MainInit -> is_Some (current t) ->
  ended (globs s) = None ->
  let s' := with_globs (init_completed (globs s)) (set_thread p (goto (User (Body 1 Working)) t) s) in
  core s' (main_create num_fibers m) /\ ready s' (main_create num_fibers m).
Proof.
  intros C R Ht Ha [o Ho] He s'.
  assert (main_create num_fibers m = {| vars := init_completed (globs s); created := created m; phases := phases m |}) as E.
  { unfold main_create. rewrite (re_created _ _ R), Z.ltb_irrefl. by rewrite (co_vars _ _ C). }
  assert (continuation (sys s) o MainInit) as Hc by (by apply (continuation_current (sys s) p t)).
  split.
  - apply (run_core s s' m _ p t MainInit (Body 1 Working) o); try done; rewrite ?E; try done.
    + rewrite <- E. eapply m_next; [apply (co_main _ _ C)|]. apply m_main; rewrite (co_vars _ _ C); [done|].
      by apply (re_init _ _ R o).
    + intros j Hj. apply (co_phase _ _ C o MainInit j Hc Hj).
    + by left.
  - apply (ready_run s s' m _ p t MainInit (Body 1 Working) o); try done; [by rewrite E|]. by right.
Qed.

Lemma ready_code s m p f millis s' :
  core s m -> ready s m -> armed s = true -> ended (globs s) = None -> 0 <= f < num_fibers ->
  run_code num_fibers p f millis s = Some s' -> exists m', core s' m' /\ staged s' m'.
Proof.
  intros C R Har He Hf. unfold run_code. destruct (threads (sys s) !! p) as [t|] eqn:Ht; [|done]. cbn.
  destruct (at_ t) as [u| | | | | | | | | | | | | | | | | | | |] eqn:Ha; try done.
  assert (forall s1 m1, armed s1 = true -> core s1 m1 -> ready s1 m1 -> exists m', core s1 m' /\ staged s1 m') as Hgo.
  { intros s1 m1 E C1 R1. exists m1. split; [done|]. unfold staged. by rewrite E. }
  destruct (calm_user t u Ha (re_threads _ _ R p t Ht)) as [[-> Hc]|[Hu Hc]].
  - intros [= <-]. apply (Hgo _ m); [done|by apply (convert_core s m p t HelperStart)|].
    by apply (ready_enter s m p t); [..|apply (convert_code t HelperStart)| | |].
  - destruct u as [| | | | |id x| | |]; try done.
    + intros [= <-]. destruct (init_step s m p t C R Ht Ha Hc He) as (C' & R'). by apply (Hgo _ (main_create num_fibers m)).
    + destruct x as [|x|x|x|x]; intros [= <-];
        try (destruct (body_step s m p t id _ millis C R Ht Ha Hc He) as (C' & R'); refine (Hgo _ _ _ C' R'); exact Har).
      destruct (switch_ok s m p f t _ C R Ht Ha Hc Hu Hf). apply (Hgo _ m); done.
    + intros [= <-]. destruct (init_complete (globs s)); [|by apply (Hgo _ m)]. destruct Hc as [o Ho].
      apply (Hgo _ m); [done|..].
      * apply (run_core s _ m m p t HelperWait HelperLoop o); try done; [apply C..|by left].
      * apply (ready_run s _ m m p t HelperWait HelperLoop o); try done. by left.
    + intros [= <-]. destruct (switch_ok s m p f t _ C R Ht Ha Hc Hu Hf). apply (Hgo _ m); done.
Qed.

(** *** Before *)
Lemma preparing_enter s m p t t' :
  preparing s m -> threads (sys s) !! p = Some t -> code t' = code t -> p <> 0 -> waiting t' ->
  preparing (set_thread p t' s) m.
Proof.
  intros P Ht E Hp Hw. pose proof (fun i u => continuation_goto (sys s) p t t' i u Ht E) as Hc.
  destruct (pr_main _ _ P) as (t0 & stored & used & H0 & Hs & Hcr & Hent & Hused). split; [apply P..| |].
  - exists t0, stored, used. split; [cbn; by rewrite lookup_insert_ne|].
    split; [by apply (main_stage_frame (sys s)); [intros i u; apply Hc|..]|]. do 2 (split; [done|]).
    intros i j (u & Hu & Hj). apply (Hused i). exists u. split; [by apply Hc|done].
  - intros q tq [[-> ->]|[_ Hq]]%thread_cases Hne; [done|by apply (pr_helper _ _ P q)].
Qed.

(** main's thread goes on: what the new stage needs. *)
Lemma preparing_main s s' m m' t' stored used :
  preparing s m -> globs s' = globs s -> phases m' = phases m ->
  (forall q, q <> 0 -> threads (sys s') !! q = threads (sys s) !! q) ->
  threads (sys s') !! 0 = Some t' -> main_stage (sys s') t' stored used -> created m' = Z.max 1 stored ->
  (forall j, is_Some (fibers s' !! j) <-> 0 <= j < stored) ->
  (forall i j, has_index (sys s') i j -> j < used) -> preparing s' m'.
Proof.
  intros P Eg Ep Hq H0 Hs Hc Hf Hu. split; rewrite ?Eg, ?Ep; [apply P..| |].
  - by exists t', stored, used.
  - intros q t Ht Hne. rewrite Hq in Ht by done. by apply (pr_helper _ _ P q).
Qed.

Lemma on_other p t c q : q <> p -> threads (on p t c) !! q = threads c !! q.
Proof. intros Hq. cbn. by rewrite lookup_insert_ne. Qed.

(** The protocol's state after main has written entry [j]. *)
Definition after_store j m : mstate := if j =? 0 then m else main_create num_fibers m.

Lemma after_store_created j m :
  0 <= j < num_fibers -> created m = Z.max 1 j ->
  created (after_store j m) = j + 1 /\ vars (after_store j m) = vars m /\ phases (after_store j m) = phases m.
Proof.
  intros Hj Hc. unfold after_store, main_create. destruct (Z.eqb_spec j 0) as [->|Hne]; [by rewrite Hc|].
  rewrite Hc, (Z.max_r 1 j) by lia. destruct (Z.ltb_spec j num_fibers); [|lia]. cbn.
  by rewrite u32_small by (unfold in_u32; lia).
Qed.

Lemma store_step s m t j stored used :
  core s m -> preparing s m -> threads (sys s) !! 0 = Some t -> at_ t = User (MainStore j) ->
  main_stage (sys s) t stored used -> created m = Z.max 1 stored ->
  (forall k, is_Some (fibers s !! k) <-> 0 <= k < stored) -> (forall i k, has_index (sys s) i k -> k < used) ->
  let s' := {| sys := on 0 (goto (User (MainCreate (u32 (j + 1)))) t) (sys s); fibers := <[j := result t]> (fibers s);
               globs := globs s; armed := armed s |} in
  core s' (after_store j m) /\ preparing s' (after_store j m).
Proof.
  intros C P Ht Ha Hs Hc Hf Hu s'. unfold main_stage in Hs. rewrite Ha in Hs.
  destruct Hs as ([o Ho] & (i & Hr & Hi & Hx) & Hj & -> & ->).
  destruct (after_store_created j m Hj Hc) as (Hc' & Hv & Hp).
  assert (mreachable num_fibers (after_store j m)) as Hm.
  { unfold after_store. destruct (j =? 0); [apply C|]. eapply m_next; [apply (co_main _ _ C)|].
    apply m_main; rewrite (co_vars _ _ C); apply P. }
  split.
  - apply (run_core s s' m _ 0 t (MainStore j) (MainCreate (u32 (j + 1))) o); try done.
    + by rewrite Hv, (co_vars _ _ C).
    + rewrite Hp. intros k [= <-]. apply (pr_phases _ _ P). lia.
    + intros k _ _. by rewrite Hp.
    + intros k r. cbn. rewrite lookup_insert. case_decide; [|by left]. subst k. intros [= <-]. right. by exists i.
  - apply (preparing_main s s' m _ (goto (User (MainCreate (u32 (j + 1)))) t) (j + 1) (j + 1)); try done.
    + intros q Hq. by apply on_other.
    + by apply lookup_insert_eq.
    + unfold main_stage. cbn. rewrite u32_small by (unfold in_u32; lia). split; [by exists o|lia].
    + rewrite Hc'. lia.
    + intros k. cbn. rewrite lookup_insert_is_Some', Hf. lia.
    + intros i' k Hk. apply (Hu i'). by apply (run_index s s' m 0 t (MainStore j) (MainCreate (u32 (j + 1))) o).
Qed.

(** A step of main's own code. *)
Lemma main_run s m t u u' o stored used :
  core s m -> preparing s m -> threads (sys s) !! 0 = Some t -> at_ t = User u -> current t = Some o ->
  index u = Some 0 -> index u' = Some 0 -> phase_of u' = Working -> created m = Z.max 1 stored ->
  (forall k, is_Some (fibers s !! k) <-> 0 <= k < stored) -> (forall i k, has_index (sys s) i k -> k < used) ->
  let s' := set_thread 0 (goto (User u') t) s in
  core s' m /\ (forall i k, has_index (sys s') i k -> k < used) /\
  (main_stage (sys s') (goto (User u') t) stored used -> preparing s' m).
Proof.
  intros C P Ht Ha Ho Hu Hu' Hph Hc Hf Hused s'.
  assert (forall i k, has_index (sys s') i k -> k < used) as Hused'.
  { intros i k Hk. apply (Hused i). apply (run_index s s' m 0 t u u' o); try done. congruence. }
  split; [|split; [done|]].
  - apply (run_core s s' m m 0 t u u' o); try done; try apply C; [congruence..| |by left].
    rewrite Hu, Hph. intros k [= <-]. apply (pr_phases _ _ P). lia.
  - intros Hs. apply (preparing_main s s' m m (goto (User u') t) stored used); try done.
    + intros q Hq. by apply on_other.
    + by apply lookup_insert_eq.
Qed.

Lemma create_step s m t j stored used :
  core s m -> preparing s m -> threads (sys s) !! 0 = Some t -> at_ t = User (MainCreate j) ->
  main_stage (sys s) t stored used -> created m = Z.max 1 stored ->
  (forall k, is_Some (fibers s !! k) <-> 0 <= k < stored) -> (forall i k, has_index (sys s) i k -> k < used) ->
  let s' := set_thread 0 (goto (if j <? num_fibers then CrAlloc (User (MainStore j)) (Body (u32 (j + 1)) Working)
                                else User MainAlarm) t) s in
  core s' m /\ preparing s' m.
Proof.
  intros C P Ht Ha Hs Hc Hf Hu. unfold main_stage in Hs. rewrite Ha in Hs. destruct Hs as ([o Ho] & Hj & -> & ->).
  destruct (Z.ltb_spec j num_fibers) as [Hlt|Hge].
  - destruct (main_run s m t (MainCreate j) (MainStore j) o j j) as (C1 & Hu1 & _); try done.
    rewrite u32_small by (unfold in_u32; lia). rewrite <- (set_thread_twice 0 (goto (User (MainStore j)) t)).
    set (t1 := goto (User (MainStore j)) t) in *. set (s1 := set_thread 0 t1 s) in *.
    assert (threads (sys s1) !! 0 = Some t1) as Ht1 by apply lookup_insert_eq.
    set (t2 := goto (CrAlloc (User (MainStore j)) (Body (j + 1) Working)) t).
    assert (code t2 = code t1) as E by (unfold code; cbn; by rewrite Ho).
    split.
    + apply (core_enter s1 m 0 t1); [done..|]. eapply r_step; [apply (co_sys _ _ C1)|].
      by apply (s_create _ _ _ 0 t1 (MainStore j)).
    + apply (preparing_main s _ m m t2 j j); try done.
      * intros q Hq. cbn. by rewrite !lookup_insert_ne by done.
      * apply lookup_insert_eq.
      * unfold main_stage. cbn. exists j. do 2 (split; [done|]). lia.
      * intros i k (v & Hv & Hk). apply (Hu1 i). exists v. split; [|done]. by apply (continuation_goto _ 0 t1 t2).
  - destruct (main_run s m t (MainCreate j) MainAlarm o j j) as (C1 & _ & Hp); try done. split; [done|].
    apply Hp. unfold main_stage. cbn. rewrite Ho. split; [by eexists|lia].
Qed.

Lemma waiting_calm t : waiting t -> calm t.
Proof. unfold waiting, calm. destruct (at_ t) as [[]| | | | | | | | | | | | | | | | | | | |]; done. Qed.

(** SIGALRM gets its handler when the array is filled. *)
Lemma alarm_step s m t stored used :
  core s m -> preparing s m -> threads (sys s) !! 0 = Some t -> at_ t = User MainAlarm ->
  main_stage (sys s) t stored used -> created m = Z.max 1 stored ->
  (forall k, is_Some (fibers s !! k) <-> 0 <= k < stored) ->
  let s' := {| sys := on 0 (goto (User MainInit) t) (sys s); fibers := fibers s; globs := globs s; armed := true |} in
  core s' m /\ ready s' m.
Proof.
  intros C P Ht Ha Hs Hc Hf s'. unfold main_stage in Hs. rewrite Ha in Hs. destruct Hs as ([o Ho] & -> & _).
  assert (continuation (sys s) o MainAlarm) as Hoc by (by apply (continuation_current (sys s) 0 t)).
  assert (sys s' = on 0 (goto (User MainInit) t) (sys s)) as Es by done.
  split.
  - apply (run_core s s' m m 0 t MainAlarm MainInit o); try done; [apply C..| |by left].
    intros j [= <-]. apply (pr_phases _ _ P). lia.
  - split.
    + rewrite Hc. lia.
    + intros j Hj. by apply Hf.
    + intros i v. rewrite (run_continuation s s' m 0 t MainAlarm MainInit o C Ht Ha Ho Es).
      case_decide as Hd; [by intros ->|]. intros Hv. destruct (index v) as [k|] eqn:Hk; [|by apply (co_other _ _ C i)].
      destruct v; try done; destruct Hd; (apply (co_unique _ _ C i o 0); [by eexists; split|by exists MainAlarm]).
    + intros i _. apply P.
    + intros q t0 [[-> ->]|[Hq H0]]%thread_cases; [unfold calm; cbn; by rewrite Ho|].
      by apply waiting_calm, (pr_helper _ _ P q).
    + intros q t0 i [[-> ->]|[Hq H0]]%thread_cases Hi; [done|]. pose proof (pr_helper _ _ P q t0 H0 Hq) as Hw.
      unfold waiting, target in *. by destruct (at_ t0).
    + exists (goto (User MainInit) t). split; [apply lookup_insert_eq|by exists o].
Qed.

Lemma start_step s m t stored used :
  core s m -> preparing s m -> threads (sys s) !! 0 = Some t -> at_ t = User MainStart ->
  main_stage (sys s) t stored used -> created m = Z.max 1 stored ->
  (forall k, is_Some (fibers s !! k) <-> 0 <= k < stored) -> (forall i k, has_index (sys s) i k -> k < used) ->
  let s' := set_thread 0 (goto (CvAlloc (User (MainStore 0))) t) s in core s' m /\ preparing s' m.
Proof.
  intros C P Ht Ha Hs Hcr Hent Hused s'. unfold main_stage in Hs. rewrite Ha in Hs. destruct Hs as (Hc & -> & ->).
  split; [by apply (convert_core s m 0 t MainStart)|].
  apply (preparing_main s _ m m (goto (CvAlloc (User (MainStore 0))) t) 0 0); try done.
  - intros q Hq. by apply on_other.
  - apply lookup_insert_eq.
  - intros i k (v & Hv & Hk). apply (Hused i). exists v. split; [|done].
    apply (continuation_goto (sys s) 0 t (goto (CvAlloc (User (MainStore 0))) t)); [done| |done].
    by apply (convert_code t MainStart).
Qed.

Lemma preparing_code s m p f millis s' :
  core s m -> preparing s m -> armed s = false ->
  run_code num_fibers p f millis s = Some s' -> exists m', core s' m' /\ staged s' m'.
Proof.
  intros C P Har. unfold run_code. destruct (threads (sys s) !! p) as [t|] eqn:Ht; [|done]. cbn.
  destruct (at_ t) as [u| | | | | | | | | | | | | | | | | | | |] eqn:Ha; try done.
  assert (forall s1 m1, armed s1 = false -> core s1 m1 /\ preparing s1 m1 -> exists m', core s1 m' /\ staged s1 m') as Hgo.
  { intros s1 m1 E [C1 P1]. exists m1. split; [done|]. unfold staged. by rewrite E. }
  destruct (pr_main _ _ P) as (t0 & stored & used & H0 & Hs & Hcr & Hent & Hused).
  destruct (decide (p = 0)) as [->|Hp].
  - assert (t0 = t) as -> by congruence. pose proof Hs as Hst. unfold main_stage in Hst. rewrite Ha in Hst.
    destruct u as [|j|j| | | | | |]; try done; cbn; intros [= <-].
    + apply (Hgo _ m); [done|]. by apply (start_step s m t stored used).
    + apply (Hgo _ (after_store j m)); [done|]. by apply (store_step s m t j stored used).
    + apply (Hgo _ m); [done|]. by apply (create_step s m t j stored used).
    + destruct (alarm_step s m t stored used C P Ht Ha Hs Hcr Hent) as [C1 R1]. by exists m.
  - pose proof (pr_helper _ _ P p t Ht Hp) as Hw. unfold waiting in Hw. rewrite Ha in Hw.
    destruct u; try done; cbn; intros [= <-]; apply (Hgo _ m).
    + done.
    + split; [by apply (convert_core s m p t HelperStart)|].
      apply (preparing_enter s m p t); [done..|by apply (convert_code t HelperStart)|done|done].
    + rewrite (pr_init _ _ P). done.
    + by rewrite (pr_init _ _ P).
Qed.

(** ** Every run *)
Lemma pinv_step s s' m : pinv s m -> pstep num_fibers rax_ok s s' -> exists m', pinv s' m'.
Proof.
  intros [C S] Hs. unfold staged in S. destruct Hs as [p f millis s s' He Hf Hr|p f s s' He Hf Hr|p rax s s' He Hrax Hr].
  - destruct (armed s) eqn:Har; [by apply (ready_code s m p f millis)|by apply (preparing_code s m p f millis)].
  - unfold schedule in Hr. destruct (threads (sys s) !! p) as [t|] eqn:Ht; [|done]. cbn in Hr.
    destruct (at_ t) as [u| | | | | | | | | | | | | | | | | | | |] eqn:Ha; try done.
    destruct (current t) as [o|] eqn:Ho; [|done]. destruct (armed s) eqn:Har; [|done].
    apply (inj Some) in Hr as <-. exists m.
    destruct (calm_user t u Ha (re_threads _ _ S p t Ht)) as [[_ Hc]|[Hu Hc]]; [congruence|].
    destruct (switch_ok s m p f t u C S Ht Ha Hc Hu Hf) as [C' R']. split; [done|].
    unfold staged. by change (armed (switch_to p f t s)) with (armed s); rewrite Har.
  - unfold run_ult in Hr. destruct (threads (sys s) !! p) as [t|] eqn:Ht; [|done]. cbn in Hr.
    destruct (micro rax t (mem (sys s))) as [[t' mem']|] eqn:Hm; [|done]. apply (inj Some) in Hr as <-. exists m.
    unfold pinv, staged. cbn. destruct (armed s) eqn:Har.
    + by apply (ready_step s m p rax t t' mem').
    + by apply (preparing_step s m p rax t t' mem').
Qed.

Lemma start_threads_lookup helpers p t :
  start_threads helpers !! p = Some t -> t = start_thread (if decide (p = 0) then MainStart else HelperStart).
Proof.
  unfold start_threads. rewrite lookup_insert. destruct (decide (0 = p)) as [<-|Hp]; [by intros [= <-]|].
  intros H%elem_of_list_to_map_2. apply list_elem_of_fmap in H as (n & [= -> ->] & Hn).
  by destruct (decide (Z.of_nat n = 0)).
Qed.

Lemma start_continuation helpers i u : ~ continuation (sys (program_start num_fibers helpers)) i u.
Proof.
  intros [(p & t & ->%start_threads_lookup & Hc)|[_ (x & Hx & _)]]; [|done].
  unfold code in Hc. cbn in Hc. by apply not_elem_of_nil in Hc.
Qed.

Lemma pinv_start helpers : pinv (program_start num_fibers helpers) (main_start num_fibers).
Proof.
  pose proof (start_continuation helpers) as Hno. split.
  - split; try done.
    + apply r_start. split; [|done]. intros p t ->%start_threads_lookup. cbn. eauto.
    + apply m_start.
    + intros i u j H. by apply Hno in H.
    + intros i i' j (u & H & _). by apply Hno in H.
    + intros i u H. by apply Hno in H.
  - split; try done.
    + intros j Hj. apply lookup_replicate. split; [done|lia].
    + exists (start_thread MainStart), 0, 0. split; [apply lookup_insert_eq|]. do 2 (split; [done|]). split.
      * intros j. cbn. rewrite lookup_empty. split; [by intros []|lia].
      * intros i j (u & H & _). by apply Hno in H.
    + intros p t ->%start_threads_lookup Hp. by rewrite decide_False.
Qed.

Lemma pinv_reachable helpers s : preachable num_fibers rax_ok helpers s -> exists m, pinv s m.
Proof.
  induction 1 as [|s s' _ [m I] Hs]; [by exists (main_start num_fibers); apply pinv_start|by eapply pinv_step].
Qed.
End inv.
