(* ===== verification/ProgramSafety.v ===== *)
(** * The driver program: what holds in every run

    Main.c on the user-level threads of ult.c, with SIGALRM and any number of
    helper threads. *)
From S2P Require Import Prelude UltSwitch UltInv UltSteps UltSafety UltFrame MainDriver Program ProgramInv.

Section runs.
Context (num_fibers : Z) (rax_ok : Z -> Prop) (helpers : nat).
Implicit Types (t : thread place) (s : program) (m : mstate) (i : positive).

Hypothesis Hnum : 1 <= num_fibers < 2 ^ 32.
Hypothesis rax_nonzero : forall rax, rax_ok rax -> i32 rax <> 0.


Lemma body_armed s m p t id x :
  pinv num_fibers rax_ok s m -> threads (sys s) !! p = Some t -> at_ t = User (Body id x) \/ at_ t = User HelperLoop ->
  armed s = true /\ is_Some (current t).
Proof.
  intros [C S] Ht Ha. unfold staged in S. destruct (armed s).
  - split; [done|]. pose proof (re_threads _ _ _ S p t Ht) as Hc. unfold calm in Hc. destruct Ha as [Ha|Ha]; rewrite Ha in Hc; apply Hc.
  - exfalso. destruct (pr_main _ _ _ S) as (t0 & stored & used & H0 & Hs & _).
    destruct (decide (p = 0)) as [->|Hp].
    + assert (t0 = t) as -> by congruence. unfold main_stage in Hs. by destruct Ha as [Ha|Ha]; rewrite Ha in Hs.
    + pose proof (pr_helper _ _ _ S p t Ht Hp) as Hw. unfold waiting in Hw. by destruct Ha as [Ha|Ha]; rewrite Ha in Hw.
Qed.

(** Each entry of the array is the fiber that runs [main_loop] with its id. *)
Lemma entry_fiber s m f :
  pinv num_fibers rax_ok s m -> armed s = true -> 0 <= f < num_fibers ->
  exists i u, fibers s !! f = Some (Some i) /\ i ∈ handles (mem (sys s)) /\ continuation (sys s) i u /\
    ((exists x, u = Body (f + 1) x) \/ f = 0 /\ u = MainInit).
Proof.
  intros [C S] Har Hf. unfold staged in S. rewrite Har in S. destruct (re_entries _ _ _ S f Hf) as [r Hr].
  destruct (co_entry _ _ _ _ C f r Hr) as (i & -> & Hi & u & Hu & Hx). exists i, u. do 3 (split; [done|]).
  pose proof (re_codes _ _ _ S i u Hu) as Hs. destruct u as [| | | | |id x| | |]; try done; cbn in Hx.
  - right. split; [congruence|done].
  - left. exists x. f_equal. injection Hx. lia.
Qed.


(** *** The fibers of the helper threads *)
Definition unclaimed (c : system place) i : Prop := forall p t, threads c !! p = Some t -> i ∉ claims t.
Definition abandoned s i : Prop :=
  armed s = true /\ continuation (sys s) i HelperLoop /\ unclaimed (sys s) i.

Lemma unclaimed_goto c p t k i :
  unclaimed c i -> threads c !! p = Some t -> (exists u, at_ t = User u) ->
  claims (goto k t) = option_list (current t) -> unclaimed (on p (goto k t) c) i.
Proof.
  intros Hn Ht [u Hu] E q t0 [[-> ->]|[_ H0]]%thread_cases; [|by apply (Hn q)].
  rewrite E. pose proof (Hn p t Ht) as Hi. unfold claims in Hi. by rewrite Hu in Hi.
Qed.

(** A step in main.c goes on in user code, or enters a call. *)
Definition moves s p s' : Prop :=
  s' = s \/ exists t k, threads (sys s) !! p = Some t /\ (exists u, at_ t = User u) /\
    sys s' = on p (goto k t) (sys s) /\ armed s' = armed s /\
    claims (goto k t) = option_list (current t) /\ (code (goto k t) = code t \/ exists u, k = User u).

Lemma switch_moves s m p f t u :
  core num_fibers rax_ok s m -> ready num_fibers s m -> threads (sys s) !! p = Some t -> at_ t = User u ->
  0 <= f < num_fibers -> moves s p (switch_to p f t s).
Proof.
  intros C R Ht Ha Hf. right. unfold switch_to. destruct (re_entries _ _ _ R f Hf) as [r Hr]. rewrite Hr.
  exists t, (SwTry (at_ t) (current t) r). do 2 (split; [by eauto|]). do 3 (split; [done|]). left.
  rewrite (code_user t u Ha), Ha. unfold code. cbn. by destruct (current t).
Qed.

Lemma code_moves s m p f millis s' :
  core num_fibers rax_ok s m -> ready num_fibers s m -> 0 <= f < num_fibers ->
  run_code num_fibers p f millis s = Some s' -> moves s p s'.
Proof.
  intros C R Hf. unfold run_code. destruct (threads (sys s) !! p) as [t|] eqn:Ht; [|done]. cbn.
  destruct (at_ t) as [u| | | | | | | | | | | | | | | | | | | |] eqn:Ha; try done.
  assert (forall u' s1, sys s1 = on p (goto (User u') t) (sys s) -> armed s1 = armed s -> moves s p s1) as Hrun.
  { intros u' s1 Es Ea. right. exists t, (User u'). split; [done|]. split; [by exists u|]. do 3 (split; [done|]).
    right. by exists u'. }
  pose proof (switch_moves s m p f t u C R Ht Ha Hf) as Hsw.
  destruct (calm_user t u Ha (re_threads _ _ _ R p t Ht)) as [[-> Hc]|[Hu Hc]].
  - intros [= <-]. right. exists t, (CvAlloc (User HelperWait)). split; [done|]. split; [by eexists|].
    do 3 (split; [done|]). left. by apply (convert_code t HelperStart).
  - destruct u as [| | | | |id x| | |]; try done.
    + intros [= <-]. by eapply Hrun.
    + destruct x; intros [= <-]; first [exact Hsw|by eapply Hrun].
    + intros [= <-]. destruct (init_complete (globs s)); [by eapply Hrun|by left].
    + by intros [= <-].
Qed.

Lemma moves_abandoned s s' m m' p i :
  pinv num_fibers rax_ok s m -> pinv num_fibers rax_ok s' m' -> moves s p s' -> abandoned s i -> abandoned s' i.
Proof.
  intros [C _] [C' _] [->|(t & k & Ht & Hu & Es & Ea & Ec & Hk)] (Har & Hi & Hn); [done|].
  split; [congruence|]. rewrite Es. split; [|by apply unclaimed_goto].
  assert (code (goto k t) = code t -> continuation (on p (goto k t) (sys s)) i HelperLoop) as Hsame
    by (intros E; by apply (continuation_goto (sys s) p t)).
  destruct Hk as [E|[v ->]]; [by apply Hsame|]. destruct Hu as [u Hu]. destruct (current t) as [o|] eqn:Ho.
  - pose proof (co_uinv num_fibers rax_ok rax_nonzero s' m' C') as U'. rewrite Es in U'.
    apply (continuation_run (sys s) p t u v o); [by apply (co_uinv num_fibers rax_ok rax_nonzero s m)|done..|].
    rewrite decide_False; [done|]. intros ->. apply (Hn p t Ht). unfold claims. rewrite Hu, Ho. set_solver.
  - apply Hsame. rewrite (code_user t u Hu), (code_user (goto (User v) t) v eq_refl). cbn. by rewrite Ho.
Qed.

(** The comment above [thread_initialization] holds: once a helper thread has
    left the fiber its loop is in, no step of any thread takes it up again. *)
Theorem helper_abandoned s s' i :
  preachable num_fibers rax_ok helpers s -> pstep num_fibers rax_ok s s' -> abandoned s i -> abandoned s' i.
Proof.
  intros (m & I)%pinv_reachable Hs Hab; [|done..].
  destruct (pinv_step num_fibers rax_ok Hnum rax_nonzero s s' m I Hs) as [m' I']. pose proof I as [C S].
  pose proof Hab as (Har & Hi & Hn). pose proof (co_uinv num_fibers rax_ok rax_nonzero s m C) as U. unfold staged in S. rewrite Har in S.
  destruct Hs as [p f millis s s' He Hf Hr|p f s s' He Hf Hr|p rax s s' He Hrax Hr].
  - apply (moves_abandoned s s' m m' p); [done..| |done]. by apply (code_moves s m p f millis).
  - apply (moves_abandoned s s' m m' p); [done..| |done]. unfold schedule in Hr.
    destruct (threads (sys s) !! p) as [t|] eqn:Ht; [|done]. cbn in Hr. destruct (at_ t) as [u| | | | | | | | | | | | | | | | | | | |] eqn:Ha; try done.
    destruct (current t); [|done]. rewrite Har in Hr. apply (inj Some) in Hr as <-. by apply (switch_moves s m p f t u).
  - unfold run_ult in Hr. destruct (threads (sys s) !! p) as [t|] eqn:Ht; [|done]. cbn in Hr.
    destruct (micro rax t (mem (sys s))) as [[t' mem']|] eqn:Hm; [|done]. apply (inj Some) in Hr as <-.
    split; [done|]. split; [by apply (stepped_continuation num_fibers rax_ok rax_nonzero s m p rax t t' mem')|].
    intros q t0 [[-> ->]|[_ H0]]%thread_cases; [|by apply (Hn q)]. intros Hc.
    pose proof (re_threads _ _ _ S p t Ht) as Hcalm.
    destruct (claims_next t (mem (sys s)) t' i) as [Hc'|[[_ ->]|(k & from & Hto)]]; [| | |done|by apply (Hn p t)| |].
    + intros u Hb. unfold calm in Hcalm. by rewrite Hb in Hcalm.
    + by apply (stepped_pc num_fibers rax_ok rax_nonzero s m p t).
    + by apply (stepped_next num_fibers rax_ok rax_nonzero s m p rax t t' mem').
    + destruct (continuation_record _ _ _ U Hi) as [x Hx].
      pose proof (fresh_block t _ (uinv_local _ p t U Ht)). congruence.
    + destruct (re_target _ _ _ S p t i Ht) as (j & u & Hu & Hj); [unfold target; by rewrite Hto|].
      assert (u = HelperLoop) as ->; [|done].
      by apply (continuation_functional (sys s) i); [apply (co_uinv num_fibers rax_ok rax_nonzero s m)|..].
Qed.

Definition sum (l : list Z) : Z := foldr Z.add 0 l.

Lemma total_sum f l : total f l = sum (f <$> l).
Proof. induction l as [|x l IH]; cbn; [done|]. by rewrite IH. Qed.

End runs.
