(* ===== verification/ProgramLive.v ===== *)
(** * The driver program can always end

    From every state that can be reached, however the threads' calls are
    interrupted there, the program can go on to its end: no lock is left
    behind, no fiber is lost, and the first fiber's count reaches zero. *)
From S2P Require Import Prelude UltSwitch UltInv UltSteps UltSafety UltFrame MainDriver Program ProgramInv.

(** ** Calls end *)

(** The steps a thread has left in its call. *)
Definition steps_left (t : thread place) : nat :=
  match at_ t with
  | SwTry _ _ _ => 5
  | CvAlloc _ | SwSet _ _ _ => 4
  | CvLock _ _ | SwSave _ _ _ => 3
  | CvSave _ _ | SwUnlock _ _ _ => 2
  | CvCurrent _ _ | SwJump _ _ => 1
  | _ => 0
  end.
Definition load (ts : gmap Z (thread place)) : nat := map_fold (fun _ t n => steps_left t + n)%nat 0%nat ts.

Lemma load_insert ts p t t' :
  ts !! p = Some t -> (load (<[p := t']> ts) + steps_left t = load ts + steps_left t')%nat.
Proof.
  intros Ht. assert (forall x, load (<[p := x]> (delete p ts)) = steps_left x + load (delete p ts))%nat as H.
  { intros x. unfold load. rewrite map_fold_insert_L; [done|intros; lia|apply lookup_delete_eq]. }
  rewrite <- (insert_delete_id ts p t Ht) at 2. rewrite <- (insert_delete_eq ts p t'), !H. lia.
Qed.

Definition in_code (t : thread place) : bool := match at_ t with User _ => true | _ => false end.
Lemma in_code_user t : in_code t = true -> exists u, at_ t = User u.
Proof. unfold in_code. destruct (at_ t); eauto; done. Qed.

(** A step inside a call can always be made. *)
Lemma call_enabled rax (t : thread place) s :
  in_code t = false -> at_ t <> Crashed -> exists t' s', micro rax t s = Some (t', s').
Proof.
  unfold in_code, micro, ult_convert, ult_creat, context_create, context_create_boot, ult_switch_to.
  intros Hu Hc. destruct (at_ t) as [| | | | | | | | | | | | | | |k from [to|]| | | | |]; try done;
    match goal with |- exists _ _, Some ?x = _ => destruct x as [t' s']; by exists t', s' end.
Qed.

(** A lock that is free is taken. *)
Lemma lock_taken i k x (t : thread place) s t' s' :
  ults s !! i = Some x -> running x = false -> ult_lock (Some i) k t s = (t', s') -> t' = goto k t.
Proof.
  intros Hx Hr. unfold ult_lock, accessing, ult_trylock. cbn. rewrite Hx. cbn. rewrite Hr. cbn. by intros [= <- _].
Qed.

Section live.
Context (num_fibers : Z) (rax_ok : Z -> Prop) (rax : Z).
Hypothesis Hnum : 1 <= num_fibers < 2 ^ 32.
Hypothesis rax_nonzero : forall rax, rax_ok rax -> i32 rax <> 0.
Hypothesis Hrax : rax_ok rax.
Implicit Types (t : thread place) (s : program) (m : mstate) (i : positive).

(** ** Once the array is filled *)
Record good s m : Prop := {
  go_core : core num_fibers rax_ok s m;
  go_ready : ready num_fibers s m;
  go_armed : armed s = true;
  go_ended : ended (globs s) = None;
}.

Lemma good_uinv s m : good s m -> uinv (sys s).
Proof. intros G. exact (co_uinv num_fibers rax_ok rax_nonzero s m (go_core _ _ G)). Qed.

Lemma not_crashed s m p t : uinv (sys s) -> threads (sys s) !! p = Some t -> at_ t <> Crashed.
Proof. intros I Ht Ha. pose proof (ui_pc _ I p t Ht) as Hok. unfold pc_ok in Hok. by rewrite Ha in Hok. Qed.

(** A step of a thread that is in a call. *)
Lemma call_step s m p t :
  good s m -> threads (sys s) !! p = Some t -> in_code t = false ->
  exists t' mem', micro rax t (mem (sys s)) = Some (t', mem') /\
    next_ok t (mem (sys s)) t' /\
    pstep num_fibers rax_ok s (stepped s p t' mem') /\ good (stepped s p t' mem') m.
Proof.
  intros G Ht Hu. pose proof G as [C R Ha He].
  destruct (call_enabled rax t (mem (sys s)) Hu (not_crashed s m p t (good_uinv _ _ G) Ht)) as (t' & mem' & Hm).
  exists t', mem'. split; [done|]. split; [by apply (stepped_next num_fibers rax_ok rax_nonzero s m p rax t t' mem')|].
  split.
  - apply (p_ult _ _ p rax); [done|done|]. unfold run_ult. rewrite Ht. cbn. by rewrite Hm.
  - destruct (ready_step num_fibers rax_ok Hnum rax_nonzero s m p rax t t' mem' C Ht Hrax Hm R Ha). by split.
Qed.

Lemma call_step_left s m p t t' mem' :
  good s m -> threads (sys s) !! p = Some t -> in_code t = false ->
  micro rax t (mem (sys s)) = Some (t', mem') -> next_ok t (mem (sys s)) t' ->
  (steps_left t' < steps_left t)%nat.
Proof.
  intros G Ht Hu Hm Hn. pose proof (re_threads _ _ _ (go_ready _ _ G) p t Ht) as Hc.
  pose proof (uinv_local _ p t (good_uinv _ _ G) Ht) as L.
  unfold in_code, next_ok, calm, steps_left in *.
  destruct (at_ t) as [u|k|k ctx|k ctx|k ctx|k u|k i u|k i|k i|k i|o i|u|u|u|o|k from to|k from to|k from to|k from to|from to|] eqn:Ha;
    try done; try (rewrite Hn; cbn; lia).
  - assert (t' = goto (CvSave k ctx) t) as ->; [|cbn; lia].
    destruct (spare_free t _ ctx L) as (x & Hx & Hr); [unfold spare; rewrite Ha; set_solver|].
    unfold micro, ult_convert in Hm. rewrite Ha in Hm. apply (inj Some) in Hm. by eapply lock_taken.
  - subst k. rewrite Hn. cbn. lia.
  - destruct Hc as (u & -> & _). destruct Hn as [->|(i & _ & ->)]; cbn; lia.
  - destruct Hn as (x & u & _ & _ & ->). cbn. lia.
Qed.

(** Every call comes to its end. *)
Lemma calls_end s m :
  good s m -> exists s', rtc (pstep num_fibers rax_ok) s s' /\ good s' m /\
    (forall p t, threads (sys s') !! p = Some t -> exists u, at_ t = User u).
Proof.
  remember (load (threads (sys s))) as n eqn:En. revert s En.
  induction n as [n IH] using lt_wf_ind. intros s En G.
  destruct (decide (map_Exists (fun _ t => in_code t = false) (threads (sys s)))) as [(p & t & Ht & Hu)|Hall].
  - destruct (call_step s m p t G Ht Hu) as (t' & mem' & Hm & Hn & Hs & G').
    pose proof (call_step_left s m p t t' mem' G Ht Hu Hm Hn) as Hlt.
    pose proof (load_insert (threads (sys s)) p t t' Ht) as Hl.
    destruct (IH (load (threads (sys (stepped s p t' mem'))))) with (s := stepped s p t' mem') as (s' & Hr & H'); [cbn; lia|done|done|].
    exists s'. split; [by eapply rtc_l|done].
  - exists s. split; [done|]. split; [done|]. intros p t Ht. apply in_code_user.
    destruct (in_code t) eqn:E; [done|]. destruct Hall. by exists p, t.
Qed.

(** *** A fiber's turn *)

(** A thread that runs the fiber at index [f] brings the end nearer, if that
    fiber is not done, or ends the program. *)
Lemma fiber_turn s m p t u i f :
  good s m -> threads (sys s) !! p = Some t -> at_ t = User u -> current t = Some i -> index u = Some f ->
  0 < rank (phase_of u) \/ (f = 0 /\ (exists k, phase_of u = WaitAll k) /\ completed_fibers (globs s) = 0) ->
  exists s', pstep num_fibers rax_ok s s' /\
    (is_Some (ended (globs s')) \/ exists m', good s' m' /\ distance num_fibers m' < distance num_fibers m).
Proof.
  intros [C R Har He] Ht Ha Hi Hf Hr.
  assert (continuation (sys s) i u) as Hu by (by apply (continuation_current (sys s) p t)).
  destruct (co_phase _ _ _ _ C i u f Hu Hf) as [Hb Hph].
  assert (0 <= 0 < num_fibers) as H0 by lia.
  pose proof (re_codes _ _ _ R i u Hu) as Hsch. destruct u as [| | | | |id x| | |]; try done.
  - destruct (init_step num_fibers rax_ok rax_nonzero s m p t C R Ht Ha) as [C' R']; [by exists i|done|].
    eexists. split; [apply (p_code _ _ p 0 0); [done|done|]; unfold run_code; rewrite Ht; cbn; by rewrite Ha|].
    right. exists (main_create num_fibers m).
    destruct (main_nearer num_fibers Hnum m) as [Hlt E].
    + rewrite (re_created _ _ _ R). lia.
    + rewrite (co_vars _ _ _ _ C). by apply (re_init _ _ _ R i).
    + split; [|done]. split; [done..|]. rewrite <- (co_vars _ _ _ _ C'), E. by rewrite (co_vars _ _ _ _ C).
  - cbn [phase_of] in *. assert (f = id - 1) as -> by (injection Hf; lia).
    destruct (body_step num_fibers rax_ok rax_nonzero s m p t id x 0 C R Ht Ha) as [C' R']; [by exists i|done|].
    eexists. split.
    { apply (p_code _ _ p 0 0); [done|done|]. unfold run_code. rewrite Ht. cbn. rewrite Ha. cbn.
      destruct x; try reflexivity. destruct Hr as [Hr|(_ & [k Hk] & _)]; [cbn in Hr; lia|done]. }
    destruct Hr as [Hr|(Hid & [k ->] & Hz)].
    + right. eexists. destruct (fiber_nearer num_fibers m (Z.to_nat (id - 1)) x 0 Hph Hr) as [Hlt E]. split; [|exact Hlt].
      split; [exact C'|exact R'|done|]. rewrite <- (co_vars _ _ _ _ C'), E. by rewrite (co_vars _ _ _ _ C).
    + left. cbn. rewrite Hz. by eexists.
Qed.

(** *** Taking a free fiber *)
Lemma try_free t (mem0 : shared place) k from i x t' mem' :
  at_ t = SwTry k from (Some i) -> ults mem0 !! i = Some x -> running x = false ->
  micro rax t mem0 = Some (t', mem') -> t' = goto (SwSet k from i) t.
Proof.
  intros Ha Hx Hr. unfold micro, ult_switch_to, accessing, ult_trylock. rewrite Ha. cbn. rewrite Hx. cbn.
  rewrite Hr. cbn. by intros [= <- _].
Qed.

(** The next step of thread 0's call. *)
Lemma call_goes_on s m t :
  good s m -> threads (sys s) !! 0 = Some t -> in_code t = false ->
  exists s' t', pstep num_fibers rax_ok s s' /\ good s' m /\ globs s' = globs s /\ fibers s' = fibers s /\
    threads (sys s') !! 0 = Some t' /\ next_ok t (mem (sys s)) t'.
Proof.
  intros G Ht Hu. destruct (call_step s m 0 t G Ht Hu) as (t' & mem' & _ & Hn & Hs & G').
  exists (stepped s 0 t' mem'), t'. do 4 (split; [done|]). split; [apply lookup_insert_eq|done].
Qed.

Lemma switch_goes_on s m t k from i :
  good s m -> threads (sys s) !! 0 = Some t -> at_ t = SwSet k from i ->
  exists s' t' u, rtc (pstep num_fibers rax_ok) s s' /\ good s' m /\ globs s' = globs s /\ fibers s' = fibers s /\
    threads (sys s') !! 0 = Some t' /\ at_ t' = User u /\ current t' = Some i.
Proof.
  intros G Ht Ha.
  destruct (call_goes_on s m t G Ht) as (s1 & t1 & P1 & G1 & E1 & F1 & T1 & N1); [unfold in_code; by rewrite Ha|].
  unfold next_ok in N1. rewrite Ha in N1.
  destruct (call_goes_on s1 m t1 G1 T1) as (s2 & t2 & P2 & G2 & E2 & F2 & T2 & N2); [by rewrite N1|].
  rewrite N1 in N2. unfold next_ok in N2. cbn in N2.
  destruct (call_goes_on s2 m t2 G2 T2) as (s3 & t3 & P3 & G3 & E3 & F3 & T3 & N3); [by rewrite N2|].
  rewrite N2 in N3. unfold next_ok in N3. cbn in N3.
  destruct (call_goes_on s3 m t3 G3 T3) as (s4 & t4 & P4 & G4 & E4 & F4 & T4 & N4); [by rewrite N3|].
  rewrite N3 in N4. unfold next_ok in N4. cbn in N4. destruct N4 as (x & u & _ & _ & N4).
  exists s4, t4, u. split; [by repeat (eapply rtc_l; [eassumption|])|]. split; [done|].
  do 2 (split; [congruence|]). split; [done|]. by rewrite N4.
Qed.

Lemma switch_over s m f i :
  good s m -> (forall p t, threads (sys s) !! p = Some t -> exists u, at_ t = User u) ->
  0 <= f < num_fibers -> fibers s !! f = Some (Some i) ->
  (forall p t, threads (sys s) !! p = Some t -> current t <> Some i) ->
  exists s' t u, rtc (pstep num_fibers rax_ok) s s' /\ good s' m /\ globs s' = globs s /\ fibers s' = fibers s /\
    threads (sys s') !! 0 = Some t /\ at_ t = User u /\ current t = Some i.
Proof.
  intros G Hall Hf Hi Hno. pose proof G as [C R Har He]. destruct (re_main _ _ _ R) as (t & Ht & [o Ho]).
  destruct (Hall 0 t Ht) as [u Ha].
  destruct (calm_user t u Ha (re_threads _ _ _ R 0 t Ht)) as [[_ Hc]|[Hu Hc]]; [congruence|].
  destruct (switch_ok num_fibers rax_ok s m 0 f t u C R Ht Ha Hc Hu Hf) as [C1 R1].
  set (s1 := switch_to 0 f t s) in *. assert (good s1 m) as G1 by by split.
  assert (pstep num_fibers rax_ok s s1) as P1.
  { apply (p_signal _ _ 0 f); [done|done|]. unfold schedule. rewrite Ht. cbn. by rewrite Ha, Ho, Har. }
  set (t1 := goto (SwTry (User u) (Some o) (Some i)) t).
  assert (threads (sys s1) !! 0 = Some t1) as T1.
  { unfold s1, switch_to. rewrite Hi, Ha, Ho. apply lookup_insert_eq. }
  destruct (co_entry _ _ _ _ C f (Some i) Hi) as (i' & [= <-] & Hh & _).
  destruct (ui_handle _ (good_uinv _ _ G) i Hh) as [x Hx].
  assert (running x = false) as Hr.
  { destruct (running x) eqn:Hr; [|done]. apply (ui_lock _ (good_uinv _ _ G) i x Hx) in Hr as (q & t0 & H0 & Hc0 & _).
    destruct (Hall q t0 H0) as [v Hv]. unfold claims in Hc0. rewrite Hv in Hc0.
    pose proof (Hno q t0 H0) as Hne. destruct (current t0); set_solver. }
  destruct (call_step s1 m 0 t1 G1 T1 eq_refl) as (t2 & mem2 & Hm & _ & P2 & G2).
  assert (t2 = goto (SwSet (User u) (Some o) i) t1) as E by by apply (try_free t1 (mem (sys s1)) _ _ i x t2 mem2).
  destruct (switch_goes_on (stepped s1 0 t2 mem2) m t2 (User u) (Some o) i G2) as (s' & t' & v & Hs & G' & Eg & Ef & Ht' & Hv & Hc').
  { apply lookup_insert_eq. }
  { by rewrite E. }
  exists s', t', v. split; [eapply rtc_l; [done|]; by eapply rtc_l|]. split; [done|]. split; [by rewrite Eg|]. split; [by rewrite Ef|done].
Qed.

(** *** To the end *)
Lemma takes_turn s m f :
  good s m -> (forall p t, threads (sys s) !! p = Some t -> exists u, at_ t = User u) -> 0 <= f < num_fibers ->
  exists s' p t u i, rtc (pstep num_fibers rax_ok) s s' /\ good s' m /\ globs s' = globs s /\ fibers s' = fibers s /\
    threads (sys s') !! p = Some t /\ at_ t = User u /\ current t = Some i /\ index u = Some f.
Proof.
  intros G Hall Hf. destruct (re_entries _ _ _ (go_ready _ _ G) f Hf) as [r Hr].
  destruct (co_entry _ _ _ _ (go_core _ _ G) f r Hr) as (i & -> & _ & Hx).
  assert (forall s' p t u, good s' m -> has_index (sys s') i f -> threads (sys s') !! p = Some t -> at_ t = User u ->
    current t = Some i -> index u = Some f) as Hindex.
  { intros s' p t u G' (v & Hv & Hj) Ht Ha Hc.
    by rewrite (continuation_functional (sys s') i u v (good_uinv _ _ G')) by first [done|by apply (continuation_current (sys s') p t)]. }
  destruct (decide (map_Exists (fun _ t => current t = Some i) (threads (sys s)))) as [(p & t & Ht & Hc)|Hno].
  - destruct (Hall p t Ht) as [u Ha]. exists s, p, t, u, i. repeat (split; [done|]). by apply (Hindex s p t u).
  - destruct (switch_over s m f i G Hall Hf Hr) as (s' & t & u & Hs & G' & Eg & Ef & Ht & Ha & Hc).
    { intros p t Ht Hc. apply Hno. by exists p, t. }
    exists s', 0, t, u, i. repeat (split; [done|]). apply (Hindex s' 0 t u G'); [|done..].
    rewrite <- Ef in Hr. by destruct (co_entry _ _ _ _ (go_core _ _ G') f (Some i) Hr) as (i' & [= <-] & _ & Hx').
Qed.

Lemma good_can_end s m : good s m -> exists s', rtc (pstep num_fibers rax_ok) s s' /\ is_Some (ended (globs s')).
Proof.
  remember (Z.to_nat (distance num_fibers m)) as n eqn:En. revert s m En.
  induction n as [n IH] using lt_wf_ind. intros s m En G.
  destruct (calls_end s m G) as (s1 & Hs1 & G1 & Hall).
  pose proof (minv_reachable num_fibers Hnum m (co_main _ _ _ _ (go_core _ _ G1))) as M.
  assert (exists f x, 0 <= f < num_fibers /\ phases m !! Z.to_nat f = Some x /\
    (0 < rank x \/ (f = 0 /\ (exists k, x = WaitAll k) /\ completed_fibers (globs s1) = 0))) as (f & x & Hf & Hx & Hr).
  { destruct (Z.lt_ge_cases 0 (total rank (phases m))) as [Hlt|Hle].
    - destruct (total_exists rank (phases m) Hlt) as (j & x & Hx & Hr). exists (Z.of_nat j), x.
      apply lookup_lt_Some in Hx as Hl. rewrite (mi_length _ _ M) in Hl. rewrite Nat2Z.id. split; [lia|]. by auto.
    - destruct (all_counted num_fibers Hnum m M Hle) as [H0 [k Hk]]. exists 0, (WaitAll k). split; [lia|].
      split; [done|]. right. split; [done|]. split; [by exists k|]. by rewrite <- (co_vars _ _ _ _ (go_core _ _ G1)). }
  destruct (takes_turn s1 m f G1 Hall Hf) as (s2 & p & t & u & i & Hs2 & G2 & Eg & _ & Ht & Ha & Hc & Hi).
  assert (phase_of u = x) as Ex.
  { assert (continuation (sys s2) i u) as Hu by (by apply (continuation_current (sys s2) p t)).
    destruct (co_phase _ _ _ _ (go_core _ _ G2) i u f Hu Hi) as [_ Hp]. congruence. }
  destruct (fiber_turn s2 m p t u i f G2 Ht Ha Hc Hi) as (s3 & Hs3 & [He|(m' & G3 & Hlt)]).
  - rewrite Ex, Eg. exact Hr.
  - exists s3. split; [|done]. etransitivity; [done|]. etransitivity; [done|]. by apply rtc_once.
  - pose proof (minv_reachable num_fibers Hnum m' (co_main _ _ _ _ (go_core _ _ G3))) as M'.
    pose proof (distance_nonneg num_fibers m' M') as H0.
    destruct (IH (Z.to_nat (distance num_fibers m'))) with (s := s3) (m := m') as (s4 & Hs4 & He); [lia|done|done|].
    exists s4. split; [|done]. etransitivity; [done|]. etransitivity; [done|]. by eapply rtc_l.
Qed.

(** ** Before *)

(** What main has left until the next entry is written. *)
Definition main_left t : nat :=
  match at_ t with
  | User MainStart => 30
  | CvAlloc _ => 29
  | CvLock _ _ => 28
  | CvSave _ _ => 27
  | CvCurrent _ _ => 26
  | User (MainStore j) => if j =? 0 then 25 else 9
  | User (MainCreate _) => 20
  | CrAlloc _ _ => 19
  | CrRaise _ _ _ => 18
  | CrLock _ _ => 17
  | CrSave _ _ => 16
  | CrUnlock _ _ => 15
  | CrJump _ _ => 14
  | BtLock _ => 13
  | BtSave _ => 12
  | BtUnlock _ => 11
  | BtJump _ => 10
  | _ => 0
  end.

(** The new fiber finds the lock of its creator free. *)
Lemma creator_free s m t o j :
  core num_fibers rax_ok s m -> preparing num_fibers s m -> threads (sys s) !! 0 = Some t ->
  o ∉ claims t -> continuation (sys s) o (MainStore j) ->
  exists x, ults (mem (sys s)) !! o = Some x /\ running x = false.
Proof.
  intros C P Ht Hn Hu. pose proof (co_uinv num_fibers rax_ok rax_nonzero s m C) as I.
  destruct (continuation_record _ o _ I Hu) as [x Hx]. exists x. split; [done|].
  destruct (running x) eqn:Hr; [|done]. apply (ui_lock _ I o x Hx) in Hr as (q & t0 & H0 & Hc & _).
  assert (q <> 0) as Hq by (intros ->; congruence).
  pose proof (pr_helper _ _ _ P q t0 H0 Hq) as Hw. pose proof (ui_pc _ I q t0 H0) as Hok.
  assert (continuation (sys s) o HelperWait) as Hu'; [|by pose proof (continuation_functional _ o _ _ I Hu Hu')].
  unfold waiting, pc_ok, claims in *. destruct (at_ t0) as [[]| | | | | | | | | | | | | | | | | | | |] eqn:Ha; try done.
  - rewrite Hw in Hc. by apply not_elem_of_nil in Hc.
  - destruct Hw as [i Hi]. rewrite Hi in Hc. apply list_elem_of_singleton in Hc as ->.
    by apply (continuation_current (sys s) q t0).
  - destruct Hok as [_ Hok]. rewrite Hok in Hc. by apply not_elem_of_nil in Hc.
  - apply list_elem_of_singleton in Hc as ->. left. exists q, t0. split; [done|]. unfold code. rewrite Ha, Hw. set_solver.
  - apply list_elem_of_singleton in Hc as ->. left. exists q, t0. split; [done|]. unfold code. rewrite Ha, Hw. set_solver.
  - apply list_elem_of_singleton in Hc as ->. left. exists q, t0. split; [done|]. unfold code. rewrite Ha, Hw. set_solver.
Qed.

Lemma main_call_left s m t stored used t' mem' :
  core num_fibers rax_ok s m -> preparing num_fibers s m -> threads (sys s) !! 0 = Some t -> in_code t = false ->
  main_stage num_fibers (sys s) t stored used -> micro rax t (mem (sys s)) = Some (t', mem') ->
  next_ok t (mem (sys s)) t' -> (main_left t' < main_left t)%nat.
Proof.
  intros C P Ht Hu Hs Hm Hn. pose proof (co_uinv num_fibers rax_ok rax_nonzero s m C) as I.
  pose proof (uinv_local _ 0 t I Ht) as L. unfold in_code, next_ok, main_stage, main_left in *.
  destruct (at_ t) as [u|k|k i|k i|k i|k u|k i u|k i|k i|k i|o i|u|u|u|o|k from to|k from to|k from to|k from to|from to|] eqn:Ha;
    try done; try (rewrite Hn; cbn; lia).
  - assert (t' = goto (CvSave k i) t) as ->; [|cbn; lia].
    destruct (spare_free t _ i L) as (x & Hx & Hr); [unfold spare; rewrite Ha; set_solver|].
    unfold micro, ult_convert in Hm. rewrite Ha in Hm. apply (inj Some) in Hm. by eapply lock_taken.
  - destruct Hs as (-> & _). rewrite Hn. cbn. lia.
  - assert (t' = goto (CrSave k i) t) as ->; [|cbn; lia].
    destruct (spare_free t _ i L) as (x & Hx & Hr); [unfold spare; rewrite Ha; set_solver|].
    unfold micro, context_create in Hm. rewrite Ha in Hm. apply (inj Some) in Hm. by eapply lock_taken.
  - destruct Hn as (u & _ & ->). cbn. lia.
  - destruct Hs as (j & o & _ & _ & Ho & Hc). assert (t' = goto (BtSave u) t) as ->; [|cbn; lia].
    destruct (creator_free s m t o j C P Ht) as (x & Hx & Hr); [|done|].
    { pose proof (ui_pc _ I 0 t Ht) as Hok. unfold pc_ok, claims in *. rewrite Ha in *.
      destruct Hok as (i & o' & -> & Ho' & Hne). cbn. set_solver. }
    unfold micro, context_create_boot in Hm. rewrite Ha, Ho in Hm. apply (inj Some) in Hm. by eapply lock_taken.
  - destruct Hs as (j & o' & (Hj & _) & Ho & Hc). destruct Hn as (o'' & Ho'' & Hn).
    assert (o'' = o') as -> by congruence. destruct Hn as (x & u & Hx & Hsv & ->).
    assert (u = MainStore j) as ->; [|cbn; destruct (Z.eqb_spec j 0); lia].
    apply (continuation_functional (sys s) o'); [done| |done].
    apply (continuation_saved (sys s) 0 t); [done|done| | |by exists x].
    + unfold claims. rewrite Ha, Ho. set_solver.
    + unfold code. rewrite Ha. set_solver.
Qed.

Definition to_go m t : nat := (Z.to_nat (distance num_fibers m) * 100 + main_left t)%nat.

(** A step of main, to the state after its loop or nearer to it. *)
Definition goes_on s m t : Prop := exists s', pstep num_fibers rax_ok s s' /\
  ((exists m', good s' m') \/ exists m' t',
    (core num_fibers rax_ok s' m' /\ preparing num_fibers s' m') /\ armed s' = false /\
    threads (sys s') !! 0 = Some t' /\ (to_go m' t' < to_go m t)%nat).

Lemma main_call_goes_on s m t :
  core num_fibers rax_ok s m -> preparing num_fibers s m -> armed s = false -> threads (sys s) !! 0 = Some t ->
  in_code t = false -> goes_on s m t.
Proof.
  intros C P Har Ht Hu. destruct (pr_main _ _ _ P) as (t0 & stored & used & Ht0 & Hs & _).
  assert (t0 = t) as -> by congruence.
  destruct (call_enabled rax t (mem (sys s)) Hu (not_crashed s m 0 t (co_uinv _ _ rax_nonzero s m C) Ht)) as (t' & mem' & Hm).
  pose proof (stepped_next num_fibers rax_ok rax_nonzero s m 0 rax t t' mem' C Ht Hrax Hm) as Hn.
  exists (stepped s 0 t' mem'). split.
  - apply (p_ult _ _ 0 rax); [apply P|done|]. unfold run_ult. rewrite Ht. cbn. by rewrite Hm.
  - right. exists m, t'. split; [by apply (preparing_step num_fibers rax_ok Hnum rax_nonzero s m 0 rax t t' mem')|].
    split; [done|]. split; [apply lookup_insert_eq|]. unfold to_go.
    pose proof (main_call_left s m t stored used t' mem' C P Ht Hu Hs Hm Hn). lia.
Qed.

Lemma code_goes_on s m t u s' m' t' :
  preparing num_fibers s m -> threads (sys s) !! 0 = Some t -> at_ t = User u ->
  main num_fibers 0 t u s = Some s' ->
  core num_fibers rax_ok s' m' /\ preparing num_fibers s' m' -> armed s' = false ->
  threads (sys s') !! 0 = Some t' -> (to_go m' t' < to_go m t)%nat -> goes_on s m t.
Proof.
  intros P Ht Ha Hm H Har Ht' Hlt. exists s'. split; [|right; by exists m', t'].
  apply (p_code _ _ 0 0 0); [apply P|lia|]. unfold run_code. rewrite Ht. cbn. rewrite Ha.
  by destruct u.
Qed.

Lemma main_goes_on s m t :
  core num_fibers rax_ok s m -> preparing num_fibers s m -> armed s = false -> threads (sys s) !! 0 = Some t ->
  goes_on s m t.
Proof.
  intros C P Har Ht. destruct (in_code t) eqn:Hu; [|by apply main_call_goes_on].
  destruct (pr_main _ _ _ P) as (t0 & stored & used & Ht0 & Hs & Hcr & Hent & Hused).
  assert (t0 = t) as -> by congruence. destruct (in_code_user t Hu) as [u Ha].
  pose proof Hs as Hst. unfold main_stage in Hst. rewrite Ha in Hst. destruct u as [|j|j| | | | | |]; try done.
  - eapply (code_goes_on s m t MainStart _ m (goto (CvAlloc (User (MainStore 0))) t)); try done.
    + by apply (start_step num_fibers rax_ok s m t stored used).
    + apply lookup_insert_eq.
    + unfold to_go, main_left. rewrite Ha. cbn. lia.
  - destruct Hst as (_ & _ & Hj & -> & _).
    eapply (code_goes_on s m t (MainStore j) _ (after_store num_fibers j m) (goto (User (MainCreate (u32 (j + 1)))) t)); try done.
    + by apply (store_step num_fibers rax_ok Hnum rax_nonzero s m t j j used).
    + apply lookup_insert_eq.
    + unfold to_go, main_left, after_store. rewrite Ha. cbn. destruct (Z.eqb_spec j 0) as [->|Hne]; [lia|].
      destruct (main_nearer num_fibers Hnum m) as [Hlt _]; [lia|rewrite (co_vars _ _ _ _ C); apply P|].
      assert (0 <= distance num_fibers (main_create num_fibers m)); [|lia].
      apply distance_nonneg, (minv_reachable num_fibers Hnum). eapply m_next; [apply (co_main _ _ _ _ C)|].
      apply m_main; rewrite (co_vars _ _ _ _ C); apply P.
  - eapply (code_goes_on s m t (MainCreate j) _ m (goto (if j <? num_fibers
      then CrAlloc (User (MainStore j)) (Body (u32 (j + 1)) Working) else User MainAlarm) t)); try done.
    + by apply (create_step num_fibers rax_ok Hnum rax_nonzero s m t j stored used).
    + apply lookup_insert_eq.
    + unfold to_go, main_left. rewrite Ha. cbn. destruct (j <? num_fibers); lia.
  - eexists. split; [apply (p_code _ _ 0 0 0); [apply P|lia|unfold run_code; rewrite Ht; cbn; by rewrite Ha]|]. left. exists m.
    destruct (alarm_step num_fibers rax_ok Hnum rax_nonzero s m t stored used C P Ht Ha Hs Hcr Hent). split; try done. apply P.
Qed.

Lemma main_gets_ready s m t :
  core num_fibers rax_ok s m -> preparing num_fibers s m -> armed s = false -> threads (sys s) !! 0 = Some t ->
  exists s' m', rtc (pstep num_fibers rax_ok) s s' /\ good s' m'.
Proof.
  remember (to_go m t) as n eqn:En. revert s m t En. induction n as [n IH] using lt_wf_ind.
  intros s m t En C P Har Ht. destruct (main_goes_on s m t C P Har Ht) as (s1 & Hs & [[m' G]|(m' & t' & [C' P'] & Har' & Ht' & Hlt)]).
  - exists s1, m'. split; [by apply rtc_once|done].
  - destruct (IH (to_go m' t')) with (s := s1) (m := m') (t := t') as (s2 & m2 & Hr & G); [lia|done..|].
    exists s2, m2. split; [by eapply rtc_l|done].
Qed.

End live.
