(* ===== verification/Main.v ===== *)
(** * The work of one fiber ([testbed/src/main.c], [main_loop])

    A fiber of the testbed simulates one cell: it keeps the addresses of its
    queue and of its cell in fiber local storage, and handles one event after
    the other until the cell has completed its calls. *)
From Stdlib Require Import SpecFloat.
From S2P Require Import Prelude Doubles Numerical Channel CalQueue Model Ult.
Local Open Scope prog_scope.

(** A fiber's memory, the local storage, and the address of its queue. *)
Record work (F : Type) := { w_sim : sim; w_fls : F; w_queue : option loc }.
Arguments w_sim {F}. Arguments w_fls {F}. Arguments w_queue {F}.

Section lifts.
Context {F : Type}.

Definition on_sim {A} (m : M sim A) : M (work F) A := fun w =>
  match m (w_sim w) with
  | Ret (a, s) => Ret (a, {| w_sim := s; w_fls := w_fls w; w_queue := w_queue w |})
  | Fault f => Fault f
  end.
Definition on_fls {A} (m : M F A) : M (work F) A := fun w =>
  match m (w_fls w) with
  | Ret (a, x) => Ret (a, {| w_sim := w_sim w; w_fls := x; w_queue := w_queue w |})
  | Fault f => Fault f
  end.
End lifts.

Section main.
Context `{L : Libc} `{J : Junk} `{W : JunkWords} {F : Type} `{FO : !FlsOps F}.
(* what the memory of a new event holds *)
Variable junk_event : msg_t.
Variable O : queue_ops.

(* malloc(sizeof(calqueue)): nothing in it can be read *)
Definition malloc_queue : M (work F) Z :=
  w <- get ;;
  let s := w_sim w in
  let n := tb_mallocs (s_tb s) in
  let s' := {| s_tb := set_mallocs (S n) (s_tb s); s_cal := set_calq ∅ (s_cal s); s_events := s_events s |} in
  if malloc_fails n then
    put {| w_sim := {| s_tb := s_tb s'; s_cal := s_cal s; s_events := s_events s |}; w_fls := w_fls w; w_queue := None |} ;;;
    ret 0
  else put {| w_sim := s'; w_fls := w_fls w; w_queue := Some (Pos.of_succ_nat n) |} ;;;
       ret (Zpos (Pos.of_succ_nat n)).

(** A use of the queue at an address. *)
Definition with_queue_at {A} (ptr : Z) (m : M sim A) : M (work F) A :=
  w <- get ;;
  match ptr with
  | 0 => crash NullDeref
  | Zneg _ => crash (BadPointer ptr)
  | Zpos a => if bool_decide (w_queue w = Some a) then on_sim m else crash UseAfterFree
  end.

Definition first_event (id : Z) : M sim loc :=
  malloc_event {| sender := id; receiver := id; type := INIT; timestamp := timestamp junk_event;
                  msg_channel := msg_channel junk_event |}.

(* the part before the loop; the two indices *)
Definition main_setup (id : Z) : M (work F) (Z * Z) :=
  q_idx <- on_fls FlsAlloc ;;
  let q_idx := i32 q_idx in
  state_idx <- on_fls FlsAlloc ;;
  let state_idx := i32 state_idx in
  if (q_idx =? -1) || (state_idx =? -1) then crash (Exited EXIT_FAILURE) else
  q <- malloc_queue ;;
  on_fls (FlsSetValue q_idx q) ;;;
  q <- on_fls (FlsGetValue q_idx) ;;
  with_queue_at q (on_cal calqueue_init) ;;;
  e <- on_sim (first_event id) ;;
  q <- on_fls (FlsGetValue q_idx) ;;
  with_queue_at q (on_cal (q_put O (of_Z 0) e)) ;;;
  on_fls (FlsSetValue state_idx 0) ;;;
  ret (q_idx, state_idx).

(* one round of the loop; whether the work is done *)
Definition main_round (id q_idx state_idx : Z) : M (work F) bool :=
  q <- on_fls (FlsGetValue q_idx) ;;
  o <- with_queue_at q (on_cal (q_get O)) ;;
  match o with
  | None => crash (Exited EXIT_FAILURE)
  | Some e =>
      m <- on_sim (load_event e) ;;
      if negb (receiver m =? id) then crash (Exited EXIT_FAILURE) else
      state <- on_fls (FlsGetValue state_idx) ;;
      q <- on_fls (FlsGetValue q_idx) ;;
      r <- with_queue_at q (ProcessEvent O e (as_pointer state)) ;;
      m <- on_sim (load_event e) ;;
      r <- (if type m =? INIT then on_fls (FlsSetValue state_idx r) ;;; ret 0 else ret r) ;;
      on_sim (free_event e) ;;;
      ret (negb (r =? 0))
  end.

Fixpoint main_rounds (fuel : nat) (id q_idx state_idx : Z) : M (work F) unit :=
  match fuel with
  | 0%nat => crash OutOfFuel
  | S fuel =>
      done <- main_round id q_idx state_idx ;;
      if done then ret tt else main_rounds fuel id q_idx state_idx
  end.

(** [main_loop], up to where the fiber tells the others that it is done. *)
Definition main_work (fuel : nat) (id : Z) : M (work F) unit :=
  ix <- main_setup id ;; main_rounds fuel id ix.1 ix.2.
End main.
