(* ===== verification/MainLoop.v ===== *)
(** * No fiber of the testbed stops early

    The rounds of [main_loop] keep the invariant of Simulation.v: the queue
    is never empty, every event is for this fiber and of a known type, a call
    that starts finds a channel, and one that ends is in progress.  A fiber
    leaves its loop when its cell has completed its calls. *)
From Stdlib Require Import SpecFloat.
From S2P Require Import Prelude Doubles Numerical Channel Cell Calls CalQueue CalBag CalResize CalOps CalMem Model Promise Simulation Ult Main.
Local Open Scope prog_scope.

Section main_loop.
Context `{L : Libc} `{J : Junk} `{W : JunkWords} {F : Type} `{FO : !FlsOps F} `{FL : !FlsLaws F}.
Context (O : queue_ops) `{!QueueLaws O} `{!LogLaws L} (junk_event : msg_t).
Hypothesis Hmem : forall n, malloc_fails n = false.
Implicit Types (w : work F) (s : sim).

Definition with_sim s w : work F := {| w_sim := s; w_fls := w_fls w; w_queue := w_queue w |}.
Definition with_fls x w : work F := {| w_sim := w_sim w; w_fls := x; w_queue := w_queue w |}.

Lemma wpf_on_sim {A} G (m : M sim A) (Q : A -> work F -> Prop) w :
  wpf G m (fun a s => Q a (with_sim s w)) (w_sim w) -> wpf G (on_sim m) Q w.
Proof. unfold wpf, on_sim. by destruct (m (w_sim w)) as [[a t]|f]. Qed.

(** ** Taking an event out, and freeing it *)
Lemma wpf_next_event id ks s (Q : option loc -> sim -> Prop) :
  events id [] ks s -> ks <> [] ->
  (forall a m ks' s', events id [a] ks' s' -> s_events s' !! a = Some m -> receiver m = id ->
     (type m <> INIT -> nonneg (timestamp m) = true) -> kind m :: ks' ≡ₚ ks ->
     (exists q, q_get O (cal_of s) = Ret (Some a, q) /\ s_tb s' = set_mallocs (q_mallocs q) (s_tb s) /\
        (tb_mallocs (s_tb s) <= q_mallocs q)%nat) -> Q (Some a) s') ->
  wpf queue_fault (on_cal (q_get O)) Q s.
Proof.
  intros E Hks HQ. pose proof (get_law (O := O) (cal_of s) (ev_steady _ _ _ _ E)) as Hget.
  lapply Hget; [clear Hget; intros Hget|].
  2: { intros Hnil. cbn in Hnil. pose proof (ev_kinds _ _ _ _ E) as Hk%Permutation_length.
    unfold pending in Hk. rewrite Hnil, length_fmap in Hk. by destruct ks. }
  unfold wpf, on_cal in *. destruct (q_get O (cal_of s)) as [[o q]|f] eqn:Eget; [|exact Hget].
  destruct Hget as (e & -> & Hq & Hc & Hn). cbn in Hc, Hn.
  set (s' := {| s_tb := _; s_cal := cq q; s_events := _ |}).
  assert (pending s ≡ₚ payload e :: pending s') as Hp by (unfold pending; cbn [s_cal s']; by rewrite Hc).
  destruct (ev_time _ _ _ _ E e) as (m & Hm & Hid & Ht); [rewrite Hc; left|].
  pose proof (ev_kinds _ _ _ _ E) as Hk. rewrite Hp in Hk. cbn [fmap list_fmap] in Hk.
  unfold kind_of at 1 in Hk. rewrite Hm in Hk. cbn [fmap option_fmap option_map] in Hk.
  assert (kind m ∈ ks) as Hin.
  { assert (Some (kind m) ∈ Some <$> ks) as Hin by (rewrite <- Hk; left).
    apply list_elem_of_fmap in Hin as (k & [= ->] & Hin). done. }
  apply list_elem_of_split in Hin as (k1 & k2 & ->).
  apply (HQ (payload e) m (k1 ++ k2)).
  - split.
    + destruct Hq. by split.
    + apply (Permutation_cons_inv (a := Some (kind m))). unfold kind_of in Hk |- *. cbn [s_events s'].
      rewrite Hk, !fmap_app, fmap_cons. symmetry. apply Permutation_middle.
    + intros x Hx. apply (ev_time _ _ _ _ E). rewrite Hc. by right.
    + cbn [app]. rewrite <- Hp. apply (ev_nodup _ _ _ _ E).
    + intros a. cbn [app]. rewrite <- Hp. apply (ev_all _ _ _ _ E).
    + intros a Ha. apply (ev_fresh _ _ _ _ E) in Ha. cbn. lia.
  - exact Hm.
  - done.
  - intros Hty. rewrite (Ht Hty). pose proof (contents_nonneg _ (st_inv _ (ev_steady _ _ _ _ E))) as Hall.
    rewrite Forall_forall in Hall. apply Hall. cbn. rewrite Hc. left.
  - apply Permutation_middle.
  - by exists q.
Qed.

Lemma wpf_free_event G id a ks s (Q : unit -> sim -> Prop) :
  events id [a] ks s ->
  (forall s', events id [] ks s' -> s_tb s' = s_tb s -> Q tt s') -> wpf G (free_event a) Q s.
Proof.
  intros E HQ. assert (is_Some (s_events s !! a)) as [m Hm] by (apply (ev_all _ _ _ _ E); left).
  unfold wpf, free_event, bind, get. rewrite Hm. apply HQ; [|done].
  pose proof (ev_nodup _ _ _ _ E) as Hnd. apply NoDup_cons in Hnd as [Ha Hnd].
  assert (forall b, b ∈ pending s -> delete a (s_events s) !! b = s_events s !! b) as Hother.
  { intros b Hb. apply lookup_delete_ne. by intros <-. }
  split.
  - destruct (ev_steady _ _ _ _ E). by split.
  - rewrite <- (ev_kinds _ _ _ _ E). unfold pending. cbn [s_cal set_events].
    match goal with |- ?x ≡ₚ ?y => cut (x = y); [by intros ->|] end.
    apply list_fmap_ext. intros _ b Hb%list_elem_of_lookup_2. unfold kind_of. cbn. by rewrite Hother.
  - intros e He. destruct (ev_time _ _ _ _ E e He) as (k & Hk & ?). exists k. split; [|done].
    cbn. rewrite Hother; [done|]. by apply list_elem_of_fmap_2.
  - exact Hnd.
  - intros b. cbn. change (pending (set_events (delete a (s_events s)) s)) with (pending s).
    destruct (decide (b = a)) as [->|Hne].
    + rewrite lookup_delete_eq. split; [by intros [? [=]]|done].
    + rewrite lookup_delete_ne by done. rewrite (ev_all _ _ _ _ E). cbn [app]. rewrite elem_of_cons. tauto.
  - intros b Hb. apply (ev_fresh _ _ _ _ E). cbn in Hb. destruct Hb as [x [_ Hx]%lookup_delete_Some]. by eexists.
Qed.

(** ** A fiber between two rounds *)
Inductive phase := Starting (c : Z) | Running (p : loc) (st : lp_state_type) (l : list node).

(** The first event costs no memory that the local storage could not address. *)
Definition phase_ok (id : Z) (ph : phase) s : Prop :=
  match ph with
  | Starting c => all_fresh (s_tb s) /\ events id [] [(INIT, c)] s /\
      forall o q, q_get O (cal_of s) = Ret (o, q) -> fls_fits (Zpos (Pos.of_succ_nat (q_mallocs q)))
  | Running p st l => phone 0 p st l (s_tb s) /\ events id [] (due l) s
  end.

Definition waiting (ph : phase) : list (Z * Z) :=
  match ph with Starting c => [(INIT, c)] | Running _ _ l => due l end.
Definition state_pointer (ph : phase) : Z := match ph with Starting _ => 0 | Running p _ _ => Zpos p end.

Lemma phase_events id ph s : phase_ok id ph s -> events id [] (waiting ph) s.
Proof. destruct ph; cbn; intuition. Qed.

(** Two indices of the local storage, and what they hold. *)
Record stored (n : nat) (qi si vq vs : Z) (x : F) : Prop := {
  so_ok : fls_ok n x;
  so_queue : fls_has x qi /\ fls_val x qi = vq;
  so_state : fls_has x si /\ fls_val x si = vs;
  so_ne : qi <> si;
}.

Lemma stored_same n qi si vq vs x x' :
  stored n qi si vq vs x -> fls_ok n x' -> same_storage fls_has fls_val x x' -> stored n qi si vq vs x'.
Proof.
  intros [_ [Hq Vq] [Hs Vs] Hne] Hok Hsame. split; [done| | |done].
  - destruct (Hsame qi Hq). split; [done|congruence].
  - destruct (Hsame si Hs). split; [done|congruence].
Qed.

Lemma wpf_get_queue G n qi si vq vs (Q : Z -> work F -> Prop) w :
  stored n qi si vq vs (w_fls w) -> (forall x, stored n qi si vq vs x -> Q vq (with_fls x w)) ->
  wpf G (on_fls (FlsGetValue qi)) Q w.
Proof.
  intros S HQ. pose proof S as [Hok [Hq Vq] _ _]. destruct (fls_get_law n _ qi Hok Hq) as (x & Hget & Hok' & Hsame).
  unfold wpf, on_fls. rewrite Hget, Vq. apply HQ. by eapply stored_same.
Qed.

Lemma wpf_get_state G n qi si vq vs (Q : Z -> work F -> Prop) w :
  stored n qi si vq vs (w_fls w) -> (forall x, stored n qi si vq vs x -> Q vs (with_fls x w)) ->
  wpf G (on_fls (FlsGetValue si)) Q w.
Proof.
  intros S HQ. pose proof S as [Hok _ [Hs Vs] _]. destruct (fls_get_law n _ si Hok Hs) as (x & Hget & Hok' & Hsame).
  unfold wpf, on_fls. rewrite Hget, Vs. apply HQ. by eapply stored_same.
Qed.

Lemma wpf_set_state G n qi si vq vs v (Q : unit -> work F -> Prop) w :
  stored n qi si vq vs (w_fls w) -> fls_fits v -> (forall x, stored n qi si vq v x -> Q tt (with_fls x w)) ->
  wpf G (on_fls (FlsSetValue si v)) Q w.
Proof.
  intros [Hok [Hq Vq] [Hs _] Hne] Hv HQ. destruct (fls_set_law n _ si v Hok Hs Hv) as (x & Hset & Hok' & Hall).
  unfold wpf, on_fls. rewrite Hset. apply HQ. destruct (Hall qi Hq) as [Hq' Vq'], (Hall si Hs) as [Hs' Vs'].
  rewrite decide_False in Vq' by done. rewrite decide_True in Vs' by done. split; [done| |done|done].
  split; [done|congruence].
Qed.

(** [qi] and [si] are the indices of its local storage. *)
Record ready (n : nat) (id qi si : Z) (ph : phase) w : Prop := {
  rd_stored : exists a, w_queue w = Some a /\ stored n qi si (Zpos a) (state_pointer ph) (w_fls w);
  rd_phase : phase_ok id ph (w_sim w);
}.

Lemma wpf_queue_at {A} (m : M sim A) w a (Q : A -> work F -> Prop) :
  w_queue w = Some a -> wpf queue_fault m (fun x s => Q x (with_sim s w)) (w_sim w) ->
  wpf queue_fault (with_queue_at (Zpos a) m) Q w.
Proof.
  intros Hq Hm. unfold with_queue_at. apply wpf_bind. unfold wpf at 1. cbn [get].
  rewrite bool_decide_true by done. by apply wpf_on_sim.
Qed.

(** How a round leaves the fiber. *)
Definition finished (ph : phase) : Prop :=
  match ph with Running _ st _ => complete_calls st = COMPLETE_CALLS | Starting _ => False end.

(** What an event leads to: the handler, and the value it returns. *)
Lemma wpf_handle id ph s0 a m ks (Q : Z -> sim -> Prop) s :
  phase_ok id ph s0 -> events id [a] ks s -> s_events s !! a = Some m -> receiver m = id ->
  (type m <> INIT -> nonneg (timestamp m) = true) -> kind m :: ks ≡ₚ waiting ph ->
  (exists q, q_get O (cal_of s0) = Ret (Some a, q) /\ s_tb s = set_mallocs (q_mallocs q) (s_tb s0) /\
     (tb_mallocs (s_tb s0) <= q_mallocs q)%nat) ->
  (forall r p st l s', phone 0 p st l (s_tb s') -> events id [a] (due l) s' -> s_events s' !! a = Some m ->
     match ph with
     | Starting _ => type m = INIT /\ r = Zpos p /\ fls_fits (Zpos p)
     | Running p0 _ _ => type m <> INIT /\ p = p0 /\ (r <> 0 -> complete_calls st = COMPLETE_CALLS)
     end -> Q r s') ->
  wpf queue_fault (ProcessEvent O a (as_pointer (state_pointer ph))) Q s.
Proof.
  intros Hph E Ha Hid Hnow Hk (q & Hget & Et & Hn) HQ. subst id.
  destruct ph as [c|p st l]; cbn [phase_ok state_pointer waiting as_pointer] in *.
  - destruct Hph as (Hf & _ & Hfits). assert (kind m = (INIT, c) /\ ks = []) as [Hm ->].
    { apply Permutation_singleton_r in Hk. injection Hk as Ht Hc ->. by rewrite <- Ht, <- Hc. }
    unfold kind in Hm. injection Hm as Ht _.
    eapply (wpf_process_init O Hmem); [exact E|done|done| |].
    + rewrite Et. intros b Hb. etransitivity; [by apply Hf|exact Hn].
    + intros p st s' Hp Ph' E' Ha'. apply (HQ (Zpos p) p st []); [done..|]. split; [done|split; [done|]].
      rewrite Hp. unfold new_loc. rewrite Et. by eapply Hfits.
  - destruct Hph as [Ph _]. assert (type m <> INIT) as Hty.
    { intros Ht. assert (kind m ∈ due l) as Hin by (rewrite <- Hk; left). unfold kind in Hin. rewrite Ht in Hin.
      apply elem_of_cons in Hin as [[=]|(x & [=] & _)%list_elem_of_fmap]. }
    eapply (wpf_process O Hmem); [|exact E|exact Ha|by apply Hnow|exact Hk|].
    + rewrite Et. by apply phone_mallocs.
    + intros r st' l' s' Ph' E' Ha' Hr. apply (HQ r p st' l'); [done..|].
      split; [done|split; [done|intros Hne; by apply Hr]].
Qed.

Lemma wpf_load_event G a m (Q : msg_t -> sim -> Prop) s :
  s_events s !! a = Some m -> Q m s -> wpf G (load_event a) Q s.
Proof. intros Ha HQ. unfold wpf, load_event, bind, get. by rewrite Ha. Qed.

(** The end of a round. *)
Lemma wpf_end_round n id qi si a e ph d w :
  events id [e] (waiting ph) (w_sim w) -> (forall s, s_tb s = s_tb (w_sim w) -> events id [] (waiting ph) s -> phase_ok id ph s) ->
  w_queue w = Some a -> stored n qi si (Zpos a) (state_pointer ph) (w_fls w) -> (d = true -> finished ph) ->
  wpf queue_fault (on_sim (free_event e) ;;; ret d)
    (fun d w' => exists ph', ready n id qi si ph' w' /\ (d = true -> finished ph')) w.
Proof.
  intros E Hph Hq S Hd. apply wpf_bind, wpf_on_sim, (wpf_free_event _ id _ (waiting ph)); [done|].
  intros s' E' Et. exists ph. split; [|done]. split; [by exists a|]. by apply Hph.
Qed.

Lemma wpf_main_round n id qi si ph w :
  ready n id qi si ph w ->
  wpf queue_fault (main_round O id qi si) (fun d w' => exists ph', ready n id qi si ph' w' /\ (d = true -> finished ph')) w.
Proof.
  intros [(a & Hwq & S0) Hph]. unfold main_round.
  apply wpf_bind, (wpf_get_queue _ _ _ _ _ _ _ _ S0). intros x1 S1.
  apply (wpf_bind queue_fault (with_queue_at _ _)), wpf_queue_at; [done|].
  apply (wpf_next_event id (waiting ph)); [by apply phase_events|by destruct ph|].
  intros e m ks' s1 E1 Hm Hid Hnow Hk Ht. apply wpf_bind, wpf_on_sim, (wpf_load_event _ _ m); [done|].
  rewrite Hid, Z.eqb_refl. cbn [negb].
  apply wpf_bind, (wpf_get_state _ n qi si (Zpos a) (state_pointer ph)); [done|]. intros x2 S2.
  apply wpf_bind, (wpf_get_queue _ n qi si (Zpos a) (state_pointer ph)); [done|]. intros x3 S3.
  apply (wpf_bind queue_fault (with_queue_at _ _)), wpf_queue_at; [done|].
  apply (wpf_handle id ph (w_sim w) e m ks'); [done..|]. intros r p st l s2 Ph2 E2 Hm2 Hr.
  apply wpf_bind, wpf_on_sim, (wpf_load_event _ _ m); [done|].
  assert (forall s, s_tb s = s_tb s2 -> events id [] (waiting (Running p st l)) s ->
    phase_ok id (Running p st l) s) as Hnext by (intros s Et E; split; [by rewrite Et|done]).
  apply wpf_bind. destruct ph as [c|p0 st0 l0].
  - destruct Hr as (-> & -> & Hfits). cbn [Z.eqb INIT].
    apply wpf_bind, (wpf_set_state _ n qi si (Zpos a) 0); [done..|]. intros x4 S4.
    by apply (wpf_end_round n id qi si a e (Running p st l)).
  - destruct Hr as (Ht' & -> & Hr). rewrite (proj2 (Z.eqb_neq _ _) Ht').
    apply (wpf_end_round n id qi si a e (Running p0 st l)); [done..|].
    intros Hd%negb_true_iff%Z.eqb_neq. by apply Hr.
Qed.

Lemma wpf_main_rounds n id qi si fuel : forall ph w,
  ready n id qi si ph w ->
  wpf (fun f => queue_fault f \/ f = OutOfFuel) (main_rounds O fuel id qi si)
    (fun _ w' => exists ph', ready n id qi si ph' w' /\ finished ph') w.
Proof.
  induction fuel as [|fuel IH]; intros ph w R; cbn [main_rounds]; [by right|].
  pose proof (wpf_main_round n id qi si ph w R) as H1. apply wpf_bind. unfold wpf at 1. unfold wpf in H1.
  destruct (main_round O id qi si w) as [[d w1]|f]; [|by left].
  destruct H1 as (ph1 & R1 & Hd). destruct d; [exists ph1; split; [done|by apply Hd]|by eapply IH].
Qed.

(** ** The start *)

(** Two indices of local storage can be had. *)
Definition fls_room (x : F) : Prop :=
  exists a b x', (a <- FlsAlloc ;; b <- FlsAlloc ;; ret (a, b)) x = Ret ((a, b), x') /\ 0 <= a /\ 0 <= b.

(** A fiber that has not begun: no event of its own, nothing at an address
    that malloc may give out, and the addresses given out until the first
    event is handled can be stored. *)
Record unborn w : Prop := {
  ub_fls : fls_ok 2 (w_fls w);
  ub_room : fls_room (w_fls w);
  ub_events : s_events (w_sim w) = ∅;
  ub_fresh : all_fresh (s_tb (w_sim w));
  ub_fits k : (k <= 3)%nat -> fls_fits (Zpos (Pos.of_succ_nat (tb_mallocs (s_tb (w_sim w)) + k)));
}.

Lemma run_two_allocs w :
  unborn w -> exists qi si x1 x2,
    FlsAlloc (w_fls w) = Ret (qi, x1) /\ FlsAlloc x1 = Ret (si, x2) /\
    0 <= qi < 2 ^ 31 /\ 0 <= si < 2 ^ 31 /\ stored 0 qi si (fls_val x2 qi) (fls_val x2 si) x2.
Proof.
  intros [Hok (a & b & x' & Hroom & Ha & Hb) _ _ _].
  destruct (fls_alloc_law 1 _ Hok) as (qi & x1 & H1 & Hok1 & Hqi & _).
  destruct (fls_alloc_law 0 _ Hok1) as (si & x2 & H2 & Hok2 & Hsi & Hkeep).
  unfold bind in Hroom. rewrite H1, H2 in Hroom. injection Hroom as <- <- _.
  destruct Hqi as [?|(Hqi & Hq1 & _)]; [lia|]. destruct Hsi as [?|(Hsi & Hs2 & Hnew)]; [lia|].
  exists qi, si, x1, x2. do 4 (split; [done|]). split; [done| |done|by intros ->].
  split; [by apply Hkeep|done].
Qed.

Lemma stored_swap n qi si vq vs x : stored n qi si vq vs x -> stored n si qi vs vq x.
Proof. intros []. by split. Qed.

Definition init_event (id : Z) : msg_t :=
  {| sender := id; receiver := id; type := INIT; timestamp := timestamp junk_event;
     msg_channel := msg_channel junk_event |}.

(** A queue just initialised, in a fiber without events. *)
Lemma events_none id s : steady (cal_of s) -> contents (s_cal s) = [] -> s_events s = ∅ -> events id [] [] s.
Proof.
  intros Hq Hc He. assert (pending s = []) as Hp by (unfold pending; by rewrite Hc). split; rewrite ?Hp, ?Hc, ?He.
  - done.
  - done.
  - by intros e []%not_elem_of_nil.
  - constructor.
  - intros b. rewrite lookup_empty. split; [by intros [? [=]]|by intros []%not_elem_of_nil].
  - intros b. rewrite lookup_empty. by intros [? [=]].
Qed.

Lemma wpf_init_queue id G (Q : unit -> sim -> Prop) s :
  s_events s = ∅ ->
  (forall q s', s' = {| s_tb := s_tb s; s_cal := cq q; s_events := ∅ |} ->
     calqueue_init (cal_of s) = Ret (tt, q) -> events id [] [] s' -> Q tt s') ->
  wpf G (on_cal calqueue_init) Q s.
Proof.
  intros He HQ. destruct (run_calqueue_init (cal_of s)) as (q & Hinit & Hq & Hc).
  destruct (fresh_queue_init (cal_of s)) as (q' & Hinit' & B). rewrite Hinit in Hinit'. injection Hinit' as <-.
  unfold wpf, on_cal. rewrite Hinit. rewrite (nb_mallocs _ _ _ B), He.
  change (set_mallocs (q_mallocs (cal_of s)) (s_tb s)) with (set_mallocs (tb_mallocs (s_tb s)) (s_tb s)).
  assert (set_mallocs (tb_mallocs (s_tb s)) (s_tb s) = s_tb s) as -> by by destruct (s_tb s).
  apply (HQ q); [done|done|]. apply events_none; [|done|done]. destruct Hq. by split.
Qed.

Lemma wpf_main_setup id w :
  unborn w ->
  wpf queue_fault (main_setup junk_event O id) (fun ix w' => exists c, ready 0 id ix.1 ix.2 (Starting c) w') w.
Proof.
  intros U. destruct (run_two_allocs w U) as (qi & si & x1 & x2 & H1 & H2 & Hqi & Hsi & S2).
  unfold main_setup, wpf.
  rewrite (bind_run (on_fls FlsAlloc) _ w qi (with_fls x1 w)) by (unfold on_fls; by rewrite H1).
  rewrite (bind_run (on_fls FlsAlloc) _ _ si (with_fls x2 w)) by (unfold on_fls; cbn; by rewrite H2).
  cbn zeta. rewrite !i32_small by (unfold in_i32; lia).
  rewrite (proj2 (Z.eqb_neq qi (-1))), (proj2 (Z.eqb_neq si (-1))) by lia. cbn [orb].
  pose proof (ub_fits _ U) as Hfits. set (n := tb_mallocs (s_tb (w_sim w))) in *. set (a := Pos.of_succ_nat n).
  set (s1 := {| s_tb := set_mallocs (S n) (s_tb (w_sim w)); s_cal := set_calq ∅ (s_cal (w_sim w));
    s_events := s_events (w_sim w) |}).
  rewrite (bind_run malloc_queue _ _ (Zpos a) {| w_sim := s1; w_fls := x2; w_queue := Some a |})
    by (unfold malloc_queue, bind, get, put; cbn; by rewrite Hmem).
  apply wpf_bind, (wpf_set_state _ 0 si qi (fls_val x2 si) (fls_val x2 qi)); [by apply stored_swap| |].
  { specialize (Hfits 0%nat ltac:(lia)). by rewrite Nat.add_0_r in Hfits. }
  intros x3 S3%stored_swap. apply wpf_bind, (wpf_get_queue _ 0 qi si (Zpos a) (fls_val x2 si)); [exact S3|]. intros x4 S4.
  apply (wpf_bind queue_fault (with_queue_at _ _)), wpf_queue_at; [done|].
  apply (wpf_init_queue id); [apply (ub_events _ U)|]. intros q s2 Es2 Hinit E2.
  apply wpf_bind, wpf_on_sim. unfold first_event, wpf at 1. rewrite (run_malloc_event Hmem).
  apply wpf_bind, (wpf_get_queue _ 0 qi si (Zpos a) (fls_val x2 si)); [exact S4|]. intros x5 S5.
  apply (wpf_bind queue_fault (with_queue_at _ _)), wpf_queue_at; [done|].
  apply (wpf_put_event O id (init_event id) _ [] []); [done..|].
  intros k s' Hk Et E' _ Hput. cbn zeta.
  apply wpf_bind, (wpf_set_state _ 0 qi si (Zpos a) (fls_val x2 si)); [exact S5|apply fls_fits_null|]. intros x6 S6.
  exists (msg_channel junk_event). split; [by exists a|]. split; [|split; [exact E'|]].
  - cbn [w_sim with_fls with_sim]. rewrite Et, Es2. intros b Hb. cbn in Hb |- *. apply (ub_fresh _ U) in Hb.
    rewrite Es2 in Hk. cbn in Hk. fold n in Hb. lia.
  - intros o q' Hget.
    assert (q_put O (of_Z 0) (new_loc s2) {| cq := cq q; q_mallocs := S (S n) |} = Ret (tt, cal_of s')) as Hput'
      by (rewrite Es2 in Hput |- *; exact Hput).
    destruct (first_law _ _ _ _ _ Hinit Hput') as [Hm Hsame].
    rewrite (Hsame _ _ Hget), Hm. specialize (Hfits 3%nat ltac:(lia)).
    by replace (n + 3)%nat with (S (S (S n))) in Hfits by lia.
Qed.

(** ** The work of a fiber *)
Lemma wpf_main_work id fuel w :
  unborn w ->
  wpf (fun f => queue_fault f \/ f = OutOfFuel) (main_work junk_event O fuel id)
    (fun _ w' => exists p st l, phone 0 p st l (s_tb (w_sim w')) /\ events id [] (due l) (w_sim w') /\
       complete_calls st = COMPLETE_CALLS /\ fls_ok 0 (w_fls w')) w.
Proof.
  intros U. pose proof (wpf_main_setup id w U) as H1. apply wpf_bind. unfold wpf at 1. unfold wpf in H1.
  destruct (main_setup junk_event O id w) as [[[qi si] w1]|f]; [|by left]. destruct H1 as [c R].
  eapply wpf_mono; [eapply wpf_main_rounds; exact R|]. cbn. intros _ w2 (ph & R2 & Hf).
  destruct ph as [|p st l]; [done|]. exists p, st, l. destruct (rd_phase _ _ _ _ _ _ R2) as [Ph E].
  destruct (rd_stored _ _ _ _ _ _ R2) as (a & _ & S). split; [done|]. split; [done|]. split; [done|]. apply S.
Qed.
End main_loop.

(** ** With the calendar queue *)
Section calendar.
Context `{L : Libc} `{J : Junk} `{W : JunkWords} {F : Type} `{FO : !FlsOps F}.
Context (junk_event : msg_t) (O1 O2 : queue_ops).
Hypothesis HO : queue_refines O1 O2.

Lemma refines_on_sim {A} (m1 m2 : M sim A) :
  refines m1 m2 -> refines (on_sim (F := F) m1) (on_sim m2).
Proof.
  intros Hm w r. unfold on_sim. destruct (m1 (w_sim w)) as [[a s]|f] eqn:E; [|done]. by rewrite (Hm _ _ E).
Qed.

Lemma refines_queue_at {A} ptr (m1 m2 : M sim A) :
  refines m1 m2 -> refines (with_queue_at (F := F) ptr m1) (with_queue_at ptr m2).
Proof.
  intros Hm. apply refines_bind; [apply refines_refl|]. intros w. destruct ptr as [|a|a]; [apply refines_refl| |apply refines_refl].
  destruct (bool_decide _); [by apply refines_on_sim|apply refines_refl].
Qed.

Lemma refines_main_setup id :
  refines (main_setup (F := F) junk_event O1 id) (main_setup junk_event O2 id).
Proof.
  do 2 (apply refines_bind; [apply refines_refl|intros ?]). cbn zeta.
  match goal with |- context [if ?b then _ else _] => destruct b end; [apply refines_refl|].
  do 6 (apply refines_bind; [apply refines_refl|intros ?]).
  apply refines_bind; [apply refines_queue_at, refines_on_cal, HO|]. intros _. apply refines_refl.
Qed.

Lemma refines_main_round id qi si : refines (main_round (F := F) O1 id qi si) (main_round O2 id qi si).
Proof.
  apply refines_bind; [apply refines_refl|]. intros q.
  apply refines_bind; [apply refines_queue_at, refines_on_cal, HO|]. intros [e|]; [|apply refines_refl].
  apply refines_bind; [apply refines_refl|]. intros m. destruct (negb (receiver m =? id)); [apply refines_refl|].
  do 2 (apply refines_bind; [apply refines_refl|intros ?]).
  apply refines_bind; [apply refines_queue_at, refines_process, HO|]. intros r. apply refines_refl.
Qed.

Lemma refines_main_rounds fuel id qi si :
  refines (main_rounds (F := F) O1 fuel id qi si) (main_rounds O2 fuel id qi si).
Proof.
  induction fuel as [|fuel IH]; cbn [main_rounds]; [apply refines_refl|].
  apply refines_bind; [apply refines_main_round|]. intros [|]; [apply refines_refl|apply IH].
Qed.

Lemma refines_main_work fuel id :
  refines (main_work (F := F) junk_event O1 fuel id) (main_work junk_event O2 fuel id).
Proof.
  apply refines_bind; [apply refines_main_setup|]. intros ix. apply refines_main_rounds.
Qed.
End calendar.

Section theorems.
Context `{L : Libc} `{J : Junk} `{W : JunkWords} {F : Type} `{FO : !FlsOps F} `{FL : !FlsLaws F}.
Hypothesis Hmem : forall n, malloc_fails n = false.


(** A fiber's main loop, started with memory and two indices of local storage,
    never ends by one of its exits or by abort ("no events", an event of
    another fiber, no free channel, an unknown call) and never uses memory it
    freed: it handles event after event, as long as the queue can work with
    its widths, and leaves the loop only when its cell has completed
    COMPLETE_CALLS calls, with the invariant of the cell and the local storage
    intact. *)
Theorem main_work_runs junk_event id fuel (w : work F) :
  LogLaws L -> unborn w ->
  match main_work junk_event watched fuel id w with
  | Ret (_, w') => main_work junk_event calendar_queue fuel id w = Ret (tt, w') /\
      exists p st l, phone 0 p st l (s_tb (w_sim w')) /\ events id [] (due l) (w_sim w') /\
        complete_calls st = COMPLETE_CALLS /\ fls_ok 0 (w_fls w')
  | Fault f => queue_fault f \/ f = OutOfFuel
  end.
Proof.
  intros LL U. pose proof (wpf_main_work watched (QueueLaws0 := watched_laws Hmem) junk_event Hmem id fuel w U) as H.
  unfold wpf in H. destruct (main_work junk_event watched fuel id w) as [[[] w']|f] eqn:Er; [|done].
  split; [|done]. by apply (refines_main_work _ _ _ watched_refines).
Qed.
End theorems.
