(* ===== verification/LibFls.v ===== *)
(** * The work of a testbed fiber on the kernel module

    testbed/fiber.h, as it is downloaded, makes the testbed's [FlsAlloc],
    [FlsGetValue] and [FlsSetValue] the functions of the user library: the
    addresses [main_loop] keeps in local storage go through ioctls into the
    fiber the thread runs in the kernel.  [lib_fls] is that choice;
    [lib_fls_laws] shows that it keeps the promise of Ult.v, relative to the
    process [p0] the work starts in, and that it leaves the CPU, the other
    threads and the other fibers alone. *)
From Stdlib Require Import SpecFloat.
From S2P Require Import Prelude Doubles Numerical Channel Cell Calls CalQueue CalBag CalResize CalOps CalMem Model Promise Simulation Ult Main MainLoop KState Fiber Device FiberSpec FiberRefine FiberInv View Requests Switching LocalStorage FiberLib.
Local Open Scope prog_scope.

(** ** The choice of testbed/fiber.h *)
Section choice.
Context `{K : KernelApi} `{U : !Uninit K} `{B : !LibApi}.

(* the result of a store is not looked at *)
Definition lib_fls : FlsOps (process K) := {|
  Ult.FlsAlloc := Fls_alloc;
  FlsGetValue := Fls_get_value;
  FlsSetValue i v := Fls_set_value i v ;;; ret tt;
|}.
End choice.

Section laws.
Context `{K : KernelApi} `{KL : !KernelLaws K} `{U : !Uninit K} `{B : !LibApi}.
#[local] Existing Instance lib_fls.
Implicit Types (p : process K) (f : fiber K) (x : fls_t K).

(** The storage of a thread that runs fiber [c], [f0] when it started. *)
Section storage.
Variables (p0 : process K) (c : Z) (f0 : fiber K).

Definition lib_storage p : option (fls_t K) := fls <$> fiber_at (ker p) (task_tgid (current (ker p0)), c).
Definition lib_ok (n : nat) p : Prop := ready p /\ elsewhere c p0 p /\ exists x, running p c (set_fls x f0).
Definition lib_has p (i : Z) : Prop :=
  0 <= i < FLS_MAX_SIZE /\ exists x, lib_storage p = Some x /\ allocated x i = true.
Definition lib_val p (i : Z) : Z :=
  if lib_storage p is Some x then i64 (u64 (fls_get i x)) else 0.

Lemma lib_ok_storage n p : lib_ok n p -> exists x, running p c (set_fls x f0) /\ lib_storage p = Some x.
Proof.
  intros (_ & [Ec _] & x & Hrun). exists x. split; [done|]. unfold lib_storage.
  rewrite <- Ec. by rewrite (proj2 Hrun).
Qed.

Lemma lib_ok_next m p p' x :
  ready p' -> running p' c (set_fls x f0) -> elsewhere c p0 p -> elsewhere c p p' ->
  lib_ok m p' /\ lib_storage p' = Some x.
Proof.
  intros R Hrun E E'. assert (lib_ok m p') as H.
  { split; [done|]. split; [by etransitivity|by exists x]. }
  split; [done|]. destruct (lib_ok_storage m p' H) as (y & [_ Hy] & Ey). destruct Hrun as [_ Hx].
  rewrite Ey. rewrite Hx in Hy. f_equal. by injection Hy as ->.
Qed.

(** A change of the store that leaves the values of the allocated indices. *)
Lemma lib_same p p' x x' :
  lib_storage p = Some x -> lib_storage p' = Some x' ->
  (forall j, 0 <= j < FLS_MAX_SIZE -> allocated x j = true -> allocated x' j = true /\ fls_get j x' = fls_get j x) ->
  same_storage lib_has lib_val p p'.
Proof.
  intros E E' Hsame j (Hj & y & Ey & Ha). rewrite E in Ey. injection Ey as <-.
  destruct (Hsame j Hj Ha) as [Ha' Hv]. split; [by split; [|exists x']|].
  unfold lib_val. by rewrite E, E', Hv.
Qed.

Lemma lib_alloc_law n p :
  lib_ok (S n) p -> exists i p', Fls_alloc p = Ret (i, p') /\ lib_ok n p' /\
    (- 2 ^ 31 <= i < 0 \/ 0 <= i < 2 ^ 31 /\ lib_has p' i /\ ~ lib_has p i) /\
    same_storage lib_has lib_val p p'.
Proof.
  intros Hok. pose proof Hok as (R & E & _). destruct (lib_ok_storage _ _ Hok) as (x & Hrun & Ex).
  pose proof (run_Fls_alloc p c _ R Hrun) as H. cbn [fls set_fls] in H.
  destruct (fls_alloc_cases x) as [(i & Hi & Hno & Hlow & Ha)|[Hall Ha]]; rewrite Ha in H; cbn [fst snd] in H.
  - destruct (H ltac:(lia)) as (p' & Hal & R' & Hrun' & E'). rewrite (proj2 (Z.ltb_ge i 0)) in Hal by lia.
    destruct (lib_ok_next n p p' _ R' Hrun' E E') as [Hok' Ex'].
    exists i, p'. split; [done|]. split; [done|]. split.
    + right. split; [unfold FLS_MAX_SIZE in Hi; lia|]. split.
      * split; [done|]. eexists. split; [exact Ex'|]. by rewrite allocated_change, decide_True, Hno by lia.
      * intros (_ & y & Ey & Hy). congruence.
    + apply (lib_same p p' x _ Ex Ex'). intros j Hj Haj. assert (i <> j) as Hne by congruence.
      rewrite allocated_change, decide_False by (done || lia). split; [done|].
      unfold fls_get, allocated in *. cbn [bmp change_bmp data]. by rewrite test_bit_change, decide_False by (done || lia).
  - destruct (H ltac:(done)) as (p' & Hal & R' & Hrun' & E').
    destruct (lib_ok_next n p p' _ R' Hrun' E E') as [Hok' Ex'].
    exists (- EAGAIN), p'. split; [exact Hal|]. split; [done|]. split; [left; by vm_compute|].
    apply (lib_same p p' x _ Ex Ex'). by intros.
Qed.

Lemma lib_get_law n p i :
  lib_ok n p -> lib_has p i -> exists p', Fls_get_value i p = Ret (lib_val p i, p') /\ lib_ok n p' /\
    same_storage lib_has lib_val p p'.
Proof.
  intros Hok (Hi & x' & Ex' & _). pose proof Hok as (R & E & _).
  destruct (lib_ok_storage _ _ Hok) as (x & Hrun & Ex). rewrite Ex in Ex'. injection Ex' as <-.
  destruct (run_Fls_get_value p c _ i R Hrun) as (p' & Hget & R' & Hrun' & E').
  { unfold in_i64, FLS_MAX_SIZE in *. lia. }
  cbn [fls_eff fls set_fls] in Hget. rewrite (proj2 (fls_index_ok_iff i)) in Hget by done.
  destruct (lib_ok_next n p p' _ R' Hrun' E E') as [Hok' Ex'].
  exists p'. split; [unfold lib_val; by rewrite Ex|]. split; [done|]. apply (lib_same p p' x _ Ex Ex'). by intros.
Qed.

Lemma lib_set_law n p i v :
  lib_ok n p -> lib_has p i -> in_i64 v ->
  exists p', (Fls_set_value i v ;;; ret tt) p = Ret (tt, p') /\ lib_ok n p' /\
    forall j, lib_has p j -> lib_has p' j /\ lib_val p' j = if decide (j = i) then v else lib_val p j.
Proof.
  intros Hok (Hi & x' & Ex' & Ha) Hv. pose proof Hok as (R & E & _).
  destruct (lib_ok_storage _ _ Hok) as (x & Hrun & Ex). rewrite Ex in Ex'. injection Ex' as <-.
  pose proof (proj2 (consistent_fiber_ok _ _ _ (ready_consistent _ R) (proj2 Hrun))) as Hlen. cbn [fls set_fls] in Hlen.
  destruct (run_Fls_set_value p c _ i v R Hrun Hi Hv Ha) as (p' & Hset & R' & Hrun' & E').
  destruct (lib_ok_next n p p' _ R' Hrun' E E') as [Hok' Ex'].
  exists p'. split; [by rewrite (bind_run _ _ _ _ _ Hset)|]. split; [done|].
  intros j (Hj & y & Ey & Haj). rewrite Ex in Ey. injection Ey as <-. cbn [fls set_fls] in Ex'.
  assert (bmp (fls_set i v x).2 = bmp x) as Hb by (unfold fls_set; by destruct (test_bit i (bmp x))).
  split.
  { split; [done|]. eexists. split; [exact Ex'|]. unfold allocated in *. by rewrite Hb. }
  unfold lib_val. rewrite Ex, Ex'. case_decide as Hd.
  - subst j. rewrite fls_get_set_same by done. by apply i64_u64.
  - by rewrite fls_get_set_other by (done || lia).
Qed.

#[local] Program Instance lib_fls_laws : FlsLaws (process K) := {|
  fls_ok := lib_ok; fls_has := lib_has; fls_val := lib_val; fls_fits := in_i64;
|}.
Next Obligation. exact lib_alloc_law. Qed.
Next Obligation. exact lib_get_law. Qed.
Next Obligation. exact lib_set_law. Qed.
Next Obligation. unfold in_i64. lia. Qed.
End storage.

(** ** The work of a fiber *)
Context `{LC : Libc} `{J : Junk} `{W : JunkWords}.
Implicit Types (w : work (process K)).

(** Two free indices are two successful allocations. *)
Lemma lib_room p c f i j :
  ready p -> running p c f -> 0 <= i < j -> j < FLS_MAX_SIZE ->
  allocated (fls f) i = false -> allocated (fls f) j = false -> fls_room (FO := lib_fls) p.
Proof.
  intros R Hrun Hij Hj Hi Hj'. unfold fls_room.
  destruct (fls_alloc_cases (fls f)) as [(a & Ha & Hna & Hlow & Ea)|[Hall _]]; [|by rewrite Hall in Hi by lia].
  pose proof (run_Fls_alloc p c f R Hrun) as H. rewrite Ea in H. cbn [fst snd] in H.
  destruct (H ltac:(lia)) as (p1 & H1 & R1 & Hrun1 & _). rewrite (proj2 (Z.ltb_ge a 0)) in H1 by lia.
  assert (a <> j) as Hne. { intros ->. rewrite Hlow in Hi by lia. done. }
  destruct (fls_alloc_cases (change_bmp a (fls f))) as [(b & Hb & _ & _ & Eb)|[Hall _]].
  2: { specialize (Hall j ltac:(lia)). rewrite allocated_change, decide_False in Hall by (done || lia). congruence. }
  pose proof (run_Fls_alloc p1 c _ R1 Hrun1) as H'. cbn [fls set_fls] in H'. rewrite Eb in H'. cbn [fst snd] in H'.
  destruct (H' ltac:(lia)) as (p2 & H2 & _). rewrite (proj2 (Z.ltb_ge b 0)) in H2 by lia.
  exists a, b, p2. split; [|lia]. cbn [Ult.FlsAlloc lib_fls].
  by rewrite (bind_run _ _ _ _ _ H1), (bind_run _ _ _ _ _ H2).
Qed.

(** A thread that is about to do the work of a fiber of the module. *)
Record employed (c : Z) (f : fiber K) w : Prop := {
  em_ready : ready (w_fls w);
  em_running : running (w_fls w) c f;
  em_indices : exists i j, 0 <= i < j /\ j < FLS_MAX_SIZE /\ allocated (fls f) i = false /\ allocated (fls f) j = false;
  em_events : s_events (w_sim w) = ∅;
  em_fresh : all_fresh (s_tb (w_sim w));
  em_addresses : Z.of_nat (tb_mallocs (s_tb (w_sim w))) + 4 < 2 ^ 63;
}.

Lemma employed_unborn c f w :
  employed c f w -> unborn (FO := lib_fls) (FL := lib_fls_laws (w_fls w) c f) w.
Proof.
  intros [R Hrun (i & j & Hij & Hj & Hi & Hj') Hev Hfresh Ha]. split; [| |done|done|].
  - split; [done|]. split; [reflexivity|]. exists (fls f). by rewrite set_fls_id.
  - by eapply lib_room.
  - intros k Hk. cbn [fls_fits lib_fls_laws]. unfold in_i64. lia.
Qed.


(** When the fiber has no free index. *)
Lemma run_no_index p c f :
  ready p -> running p c f -> (forall j, 0 <= j < FLS_MAX_SIZE -> allocated (fls f) j = true) ->
  exists p', Fls_alloc p = Ret (- EAGAIN, p') /\ ready p' /\ running p' c f /\ elsewhere c p p'.
Proof.
  intros R Hrun Hall. pose proof (run_Fls_alloc p c f R Hrun) as H. rewrite fls_alloc_full in H by done.
  cbn [fst snd] in H. rewrite set_fls_id in H. by apply H.
Qed.

(** C23: when the fiber has no free index the work does not end with the message
    the code has for it: the library answers [-EAGAIN], which the test
    against -1 lets pass, and the address of the queue is stored at the index
    -11 and read back as the error number [-ESRCH], which the code uses as a
    pointer. *)
Theorem module_no_index_unnoticed junk_event O id fuel c f w :
  (forall n, malloc_fails n = false) -> ready (w_fls w) -> running (w_fls w) c f ->
  (forall j, 0 <= j < FLS_MAX_SIZE -> allocated (fls f) j = true) ->
  Z.of_nat (tb_mallocs (s_tb (w_sim w))) + 1 < 2 ^ 63 ->
  main_work (FO := lib_fls) junk_event O fuel id w = Fault (BadPointer (- ESRCH)).
Proof.
  intros Hmem R Hrun Hall Hn. unfold main_work, main_setup.
  destruct (run_no_index _ c f R Hrun Hall) as (p1 & H1 & R1 & Hrun1 & _).
  destruct (run_no_index _ c f R1 Hrun1 Hall) as (p2 & H2 & R2 & Hrun2 & _).
  set (n := tb_mallocs (s_tb (w_sim w))) in *. set (a := Zpos (Pos.of_succ_nat n)).
  assert (in_i64 (- EAGAIN)) as He by (by vm_compute).
  destruct (run_Fls_set p2 c f (- EAGAIN) a R2 Hrun2 He) as (p3 & H3 & R3 & Hrun3 & _);
    [unfold a, in_i64; lia|by vm_compute|].
  change (fls_eff (FlsSet (- EAGAIN) a) (fls f)) with (- EINVAL, fls f) in H3, Hrun3.
  cbn [fst snd] in H3, Hrun3. rewrite set_fls_id in Hrun3.
  destruct (run_Fls_get_value p3 c f (- EAGAIN) R3 Hrun3 He) as (p4 & H4 & _).
  change (fls_eff (FlsGet (- EAGAIN)) (fls f)) with (- ESRCH, fls f) in H4.
  set (w1 := with_fls p1 w). set (w2 := with_fls p2 w).
  set (s3 := {| s_tb := set_mallocs (S n) (s_tb (w_sim w)); s_cal := set_calq ∅ (s_cal (w_sim w));
    s_events := s_events (w_sim w) |}).
  set (w3 := {| w_sim := s3; w_fls := p2; w_queue := Some (Pos.of_succ_nat n) |}).
  unfold bind at 1. rewrite (bind_run (on_fls Ult.FlsAlloc) _ w (- EAGAIN) w1) by (unfold on_fls; cbn; by rewrite H1).
  rewrite (bind_run (on_fls Ult.FlsAlloc) _ w1 (- EAGAIN) w2) by (unfold on_fls; cbn; by rewrite H2).
  change ((i32 (- EAGAIN) =? -1) || (i32 (- EAGAIN) =? -1)) with false. cbn zeta match.
  rewrite (bind_run malloc_queue _ w2 a w3)
    by (unfold malloc_queue, bind, get, put; cbn; by rewrite Hmem).
  change (i32 (- EAGAIN)) with (- EAGAIN).
  rewrite (bind_run (on_fls (FlsSetValue _ _)) _ w3 tt (with_fls p3 w3))
    by (unfold on_fls; cbn [FlsSetValue lib_fls w_fls w3]; by rewrite (bind_run _ _ _ _ _ H3)).
  rewrite (bind_run (on_fls (FlsGetValue _)) _ (with_fls p3 w3) (- ESRCH) (with_fls p4 w3))
    by (unfold on_fls; cbn [FlsGetValue lib_fls w_fls w3 with_fls]; by rewrite H4).
  done.
Qed.
End laws.
