(* ===== verification/Scenario.v ===== *)
(** * Concrete runs of the module

    An executable scheduler for the systems of System.v, run on the reference
    kernel of Kernel.v: two processes whose threads convert, create fibers,
    use local storage and switch.  The runs show that the hypotheses of the
    theorems about the module are met by real executions. *)
From S2P Require Import KState Fiber Device FiberSpec FiberRefine Cleanup FiberInv View Requests Switching LocalStorage Teardown System Safety.
Local Open Scope prog_scope.

(** ** Running a list of actions *)
Section exec.
Context `{K : KernelApi} `{L : !KernelLaws K} `{U : !Uninit K}.

Inductive action :=
  | ASpawn (t : task_struct)
  | AIoctl (p : Z) (u : umem) (cmd args : Z)
  | ARelease (p : Z).

Definition exec_action (x : system K) (act : action) : option (system K) :=
  match act with
  | ASpawn t =>
      if decide (0 < task_pid t /\ tasks x !! task_pid t = None)
      then Some {| kern := kern x; tasks := <[task_pid t := t]> (tasks x) |} else None
  | AIoctl p u cmd args =>
      match tasks x !! p with
      | Some t =>
          match fibers_ioctl cmd args (enter t u (kern x)) with
          | Ret (_, k) => Some {| kern := k; tasks := <[p := current k]> (tasks x) |}
          | Fault _ => None
          end
      | None => None
      end
  | ARelease p =>
      match tasks x !! p with
      | Some t =>
          match fibers_release (enter t (user (kern x)) (kern x)) with
          | Ret (_, k) => Some {| kern := k; tasks := <[p := current k]> (tasks x) |}
          | Fault _ => None
          end
      | None => None
      end
  end.

Fixpoint exec_all (x : system K) (acts : list action) : option (system K) :=
  match acts with
  | [] => Some x
  | act :: acts => match exec_action x act with Some x' => exec_all x' acts | None => None end
  end.

Lemma exec_sound x act x' : exec_action x act = Some x' -> exists l, sys_step x l x'.
Proof.
  destruct x as [k ts]. destruct act as [t|p u cmd args|p]; cbn [exec_action kern tasks].
  - case_decide as H; [|done]. intros [= <-]. destruct H. eexists. by constructor.
  - destruct (ts !! p) as [t|] eqn:Ht; [|done].
    destruct (fibers_ioctl cmd args (enter t u k)) as [[r k']|] eqn:Hr; [|done]. intros [= <-].
    eexists. by econstructor.
  - destruct (ts !! p) as [t|] eqn:Ht; [|done].
    destruct (fibers_release (enter t (user k) k)) as [[r k']|] eqn:Hr; [|done]. intros [= <-].
    eexists. by econstructor.
Qed.

Lemma step_ioctl_of (x : system K) p t u cmd args r k :
  tasks x !! p = Some t -> fibers_ioctl cmd args (enter t u (kern x)) = Ret (r, k) ->
  sys_step x (LIoctl p cmd args r) {| kern := k; tasks := <[p := current k]> (tasks x) |}.
Proof. destruct x as [k0 ts]. intros. by econstructor. Qed.

Lemma exec_all_reachable acts : forall n x x',
  reachable n x -> exec_all x acts = Some x' -> reachable (n + length acts) x'.
Proof.
  induction acts as [|act acts IH]; cbn; intros n x x' Hr H.
  - injection H as <-. by rewrite Nat.add_0_r.
  - destruct (exec_action x act) as [x1|] eqn:E; [|done].
    apply exec_sound in E as [l E]. rewrite Nat.add_succ_r, <- Nat.add_succ_l.
    eapply IH; [|exact H]. by econstructor.
Qed.

Lemma exec_all_app acts1 acts2 : forall x,
  exec_all x (acts1 ++ acts2) =
    if exec_all x acts1 is Some x' then exec_all x' acts2 else None.
Proof.
  induction acts1 as [|act acts1 IH]; intros x; cbn; [done|].
  destruct (exec_action x act); [apply IH|done].
Qed.

(** ** Consistent states without the simulation: freed memory may trap *)
Lemma booted_consistent k : booted k -> consistent k.
Proof.
  intros Hk. destruct (sim_boot k Hk) as (_ & Hp & m & R). split; [done|].
  exists ainit, m. split; [exact R|apply ainv_init].
Qed.

(** Room to number fibers, as a computation. *)
Lemma room_computed (s : kstate K) :
  (default NO_FIBERS (count_at s (task_tgid (current s))) <? 2 ^ 31 - 1) = true -> room_at s.
Proof. by intros H%Z.ltb_lt. Qed.
End exec.

(** ** The concrete kernel *)
#[export] Existing Instance RefKernel.laws.

Module Demo.
Definition regs0 : pt_regs := {| ip := 4096; di := 7; sp := 8192; bp := 8200; other_regs := [1; 2] |}.
Definition info0 : info_t := {| name := "?"; parent := 77; state := 77;
  successful_activations := 77; failed_activations := 77; last_activation_time := 77;
  total_running_time := 77; entry_point := 77; param := 77 |}.

(** Memory from the allocator is dirty. *)
#[export] Instance dirty fails traps : Uninit (RefKernel.api fails traps) := {|
  uninit_group := {| tgid := 77; fid_count := 77; threads := [] : @htab (RefKernel.api fails traps);
                     fibers := [] : @htab (RefKernel.api fails traps) |};
  uninit_thread := {| pid := 77; current_fid := 77 |};
  uninit_fiber := {| fid := 77; flock := true; flock_flags := 77; stack_base := 77;
    stack_limit := 77; guaranteed_stack_bytes := 77;
    context := {| regs := regs0; fpu := [] |};
    fls := {| data := []; bmp := 77 : @bitmap (RefKernel.api fails traps) |};
    info := info0 |};
|}.

Definition task (g p i : Z) : task_struct :=
  {| task_tgid := g; task_pid := p; utime := 100 + p;
     task_regs := {| ip := i; di := 1; sp := 4000; bp := 4008; other_regs := [p] |};
     task_fx := [p; i] |}.

Section demo.
Context (fails : nat -> bool) (traps : bool).

Definition boot : kstate (RefKernel.api fails traps) :=
  {| groups := [] : @htab (RefKernel.api fails traps); plock := false;
     heap_groups := ∅; heap_threads := ∅; heap_fibers := ∅; nalloc := 0;
     current := task 10 11 500; user := ∅ : @umem (RefKernel.api fails traps);
     module_refs := 1 |}.

Lemma boot_booted : booted boot.
Proof. done. Qed.

Definition bytes_at (p : Z) (bs : list Z) : @umem (RefKernel.api fails traps) :=
  list_to_map (zip (seqZ p (Z.of_nat (length bs))) bs) : gmap Z Z.

(** The argument structure lies at address 64 of the caller's memory. *)
Definition call (p cmd : Z) (bs : list Z) : action :=
  AIoctl p (bytes_at 64 bs) cmd 64.

(** Two threads of process 10 and one of process 20 convert; thread 11
    creates a fiber, allocates two FLS indices and switches to the new
    fiber. *)
Definition script : list action := [
  ASpawn (task 10 11 500); ASpawn (task 10 12 600); ASpawn (task 20 21 700);
  call 11 IOCTL_CONVERT_THREAD_TO_FIBER [];
  call 12 IOCTL_CONVERT_THREAD_TO_FIBER [];
  call 21 IOCTL_CONVERT_THREAD_TO_FIBER [];
  call 11 IOCTL_CREATE_FIBER (encode_fib_args
    {| fa_stack_base := 65536; fa_stack_size := 4096; fa_entry_point := 900; fa_params := 5 |});
  call 11 IOCTL_FLS_ALLOC []; call 11 IOCTL_FLS_ALLOC [];
  call 11 IOCTL_SWITCH_TO_FIBER (le_bytes 8 2)
].

Definition boot_sys : system (RefKernel.api fails traps) := {| kern := boot; tasks := ∅ |}.

Definition after (n : nat) : system (RefKernel.api fails traps) :=
  default boot_sys (exec_all boot_sys (take n script)).

(** The kernel as task [p] calls it after [n] actions. *)
Definition calling (n : nat) (p : Z) : kstate (RefKernel.api fails traps) :=
  enter (default (task 10 11 500) (tasks (after n) !! p)) (∅ : @umem (RefKernel.api fails traps)) (kern (after n)).
End demo.

Definition never (n : nat) : bool := false.

Lemma mem_ok n : @kmalloc_fails (RefKernel.api never false) n = false.
Proof. done. Qed.
Lemma uaf_ok : @uaf_traps (RefKernel.api never false) = false.
Proof. done. Qed.

Lemma script_runs :
  (if exec_all (boot_sys never false) (script never false) is Some _ then true else false) = true.
Proof. vm_compute. reflexivity. Qed.

Lemma prefix_runs n : is_Some (exec_all (boot_sys never false) (take n (script never false))).
Proof.
  pose proof script_runs as H.
  rewrite <- (take_drop n (script never false)), exec_all_app in H.
  by destruct (exec_all _ (take n _)); [eexists|].
Qed.

Lemma after_reachable n :
  reachable (length (take n (script never false))) (after never false n).
Proof.
  destruct (prefix_runs n) as [x Hx]. unfold after. rewrite Hx. cbn [default].
  apply (exec_all_reachable (take n (script never false)) 0 (boot_sys never false)); [|done].
  apply reach_boot, boot_booted.
Qed.

Lemma after_bound n : Z.of_nat (length (take n (script never false))) < 2 ^ 31.
Proof.
  rewrite length_take. change (length (script never false)) with 10%nat. lia.
Qed.

Lemma after_consistent n : consistent (kern (after never false n)).
Proof.
  apply (reachable_consistent mem_ok uaf_ok
    _ _ (after_reachable n)).
  apply Z.lt_le_incl, after_bound.
Qed.

Lemma calling_consistent n p : consistent (calling never false n p).
Proof. apply consistent_enter, after_consistent. Qed.
End Demo.

(** A lookup that finds something finds what it finds. *)
Lemma found {A} (o : option A) (d : A) :
  (if o is Some _ then true else false) = true -> o = Some (default d o).
Proof. by destruct o. Qed.

Lemma not_found {A} (o : option A) :
  (if o is Some _ then false else true) = true -> o = None.
Proof. by destruct o. Qed.

(** A computation that returns, returns something. *)
Lemma returned {S A} (m : M S A) s :
  (if m s is Ret _ then true else false) = true -> exists a s', m s = Ret (a, s').
Proof. destruct (m s) as [[a s']|]; [eauto|done]. Qed.
