(* ===== verification/Witness.v ===== *)
(** * Witnesses for the theorems about the module

    Each lemma applies one theorem of Requests.v, Switching.v, LocalStorage.v,
    Teardown.v or Safety.v at a state of the concrete run of Scenario.v, where
    the theorem's hypotheses are evaluated. *)
From S2P Require Import KState Fiber Device FiberSpec FiberRefine Cleanup FiberInv View Requests Switching LocalStorage Teardown System Safety Scenario.
Import Demo.

(** Nothing converted yet; task 11 of process 10 calls. *)
Definition fresh_call := calling never false 3 11.
(** Thread 11 runs fiber 0, with FLS indices 0 and 1; fiber 2 is free. *)
Definition busy_call := calling never false 9 11.
Definition fiber_no (i : Z) := default uninit_fiber (fiber_at busy_call (10, i)).

Ltac computed := vm_compute; reflexivity.
Ltac consistent_here := apply calling_consistent.
Ltac room_here := apply room_computed; computed.
Ltac fiber_here := apply found; computed.

Lemma convert_new_witness :
  exists s', do_convert_thread_to_fiber (current fresh_call) fresh_call = Ret (0, s') /\
    consistent s'.
Proof.
  destruct (convert_new mem_ok fresh_call) as (s' & Hrun & Hs' & _).
  - consistent_here. - room_here. - computed. - computed.
  - exists s'. split; [|exact Hs']. exact Hrun.
Defined.

Lemma convert_again_witness :
  exists s', do_convert_thread_to_fiber (current busy_call) busy_call = Ret (- EEXIST, s').
Proof.
  destruct (convert_again mem_ok busy_call 0) as (s' & Hrun & _).
  - consistent_here. - room_here. - computed. - computed.
  - exists s'. exact Hrun.
Defined.

Lemma create_ok_witness :
  exists s', do_create_fiber (current busy_call) 65536 4096 900 5 busy_call
             = Ret (next_number busy_call, s').
Proof.
  destruct (create_ok mem_ok busy_call 0 65536 4096 900 5) as (s' & f & Hrun & _).
  - consistent_here. - room_here. - computed.
  - exists s'. exact Hrun.
Defined.

Lemma create_not_converted_witness :
  exists s', do_create_fiber (current fresh_call) 65536 4096 900 5 fresh_call = Ret (- ESRCH, s').
Proof.
  destruct (create_not_converted mem_ok fresh_call 65536 4096 900 5)
    as (s' & Hrun & _).
  - consistent_here. - room_here. - computed.
  - exists s'. exact Hrun.
Defined.


Lemma switch_to_busy_witness :
  exists s', do_switch_to_fiber (current busy_call) 1 busy_call = Ret (- EAGAIN, s').
Proof.
  destruct (switch_to_busy busy_call 0 1 (fiber_no 1)) as (s' & f' & Hrun & _).
  - consistent_here. - computed. - fiber_here. - left. computed.
  - exists s'. exact Hrun.
Defined.

Lemma switch_unknown_witness :
  exists s', do_switch_to_fiber (current busy_call) 3 busy_call = Ret (- ESRCH, s').
Proof.
  destruct (switch_unknown busy_call 3) as (s' & Hrun & _).
  - consistent_here. - right. apply not_found. computed.
  - exists s'. exact Hrun.
Defined.

Lemma switch_back_witness :
  exists s1, do_switch_to_fiber (current busy_call) 2 busy_call = Ret (SUCCESS, s1) /\
    exists s2, do_switch_to_fiber (task 10 11 1234) 0 (enter (task 10 11 1234) ∅ s1)
               = Ret (SUCCESS, s2) /\
      task_regs (current s2) = task_regs (current busy_call).
Proof.
  destruct (switch_back busy_call 0 2 (fiber_no 2)) as (s1 & Hrun & Hback).
  - consistent_here. - computed. - fiber_here. - computed.
  - exists s1. split; [exact Hrun|].
    destruct (Hback (task 10 11 1234) ∅) as (s2 & f2 & Hrun2 & _ & Hr & _); [computed|].
    exists s2. split; [exact Hrun2|exact Hr].
Defined.

Lemma fresh_fiber_starts_witness :
  exists s1, do_create_fiber (current busy_call) 65536 4096 900 5 busy_call
             = Ret (next_number busy_call, s1) /\
    exists s2, do_switch_to_fiber (task 10 11 1234) (next_number busy_call)
                 (enter (task 10 11 1234) ∅ s1) = Ret (SUCCESS, s2) /\
      ip (task_regs (current s2)) = 900.
Proof.
  destruct (fresh_fiber_starts busy_call 0 65536 4096 900 5 mem_ok)
    as (s1 & Hrun & Hsw).
  - consistent_here. - room_here. - computed.
  - exists s1. split; [exact Hrun|].
    destruct (Hsw (task 10 11 1234) ∅) as (s2 & Hrun2 & _ & _ & Hip & _); [computed|].
    exists s2. split; [exact Hrun2|exact Hip].
Defined.

(** ** Fiber-local storage *)
Lemma fls_alloc_least_witness :
  exists i s', do_fls_alloc (current busy_call) busy_call = Ret (i, s') /\ i = 2.
Proof.
  destruct (fls_alloc_least busy_call 0 (fiber_no 0)) as [(i & s' & f' & Hi & Hno & Hlow & Hrun & _)|[Hall _]].
  - consistent_here. - computed. - fiber_here.
  - exists i, s'. split; [exact Hrun|].
    assert (allocated (fls (fiber_no 0)) 2 = false) as H2 by computed.
    destruct (Z.lt_trichotomy i 2) as [H|[H|H]]; [|exact H|].
    + assert (i = 0 \/ i = 1) as [-> | ->] by lia.
      * assert (allocated (fls (fiber_no 0)) 0 = true) as H' by computed. congruence.
      * assert (allocated (fls (fiber_no 0)) 1 = true) as H' by computed. congruence.
    + rewrite Hlow in H2 by lia. discriminate.
  - exfalso. assert (allocated (fls (fiber_no 0)) 2 = false) as H2 by computed.
    rewrite Hall in H2 by (unfold FLS_MAX_SIZE; lia). discriminate.
Defined.

Lemma fls_set_get_witness :
  exists s1 s2, do_fls_set_value (current busy_call) 1 99 busy_call = Ret (1, s1) /\
    do_fls_get_value (current busy_call) 1 s1 = Ret (99, s2).
Proof.
  destruct (fls_set_get busy_call 0 (fiber_no 0) 1 99) as (s1 & Hset & [s2 Hget] & _).
  - consistent_here. - computed. - fiber_here. - unfold FLS_MAX_SIZE; lia. - computed.
  - exists s1, s2. split; [exact Hset|exact Hget].
Defined.

Lemma fls_free_revokes_witness :
  exists s1 s2, do_fls_free (current busy_call) 1 busy_call = Ret (SUCCESS, s1) /\
    do_fls_get_value (current busy_call) 1 s1 = Ret (- EACCES, s2).
Proof.
  destruct (fls_free_revokes busy_call 0 (fiber_no 0) 1) as (s1 & Hfree & [s2 Hget] & _).
  - consistent_here. - computed. - fiber_here. - unfold FLS_MAX_SIZE; lia. - computed.
  - exists s1, s2. split; [exact Hfree|exact Hget].
Defined.

Lemma fls_bad_index_witness :
  do_fls_set_value (current fresh_call) 4096 7 fresh_call = Ret (- EINVAL, fresh_call).
Proof.
  apply (fls_bad_index fresh_call (current fresh_call) 4096 7). right. unfold FLS_MAX_SIZE. lia.
Defined.

Lemma fls_realloc_keeps_value_witness :
  exists s1 s2 s3 s4,
    do_fls_set_value (current busy_call) 1 99 busy_call = Ret (1, s1) /\
    do_fls_free (current busy_call) 1 s1 = Ret (SUCCESS, s2) /\
    do_fls_alloc (current busy_call) s2 = Ret (1, s3) /\
    do_fls_get_value (current busy_call) 1 s3 = Ret (99, s4).
Proof.
  apply (fls_realloc_keeps_value busy_call 0 (fiber_no 0) 1 99).
  - consistent_here. - computed. - fiber_here. - unfold FLS_MAX_SIZE; lia.
  - intros j Hj. assert (j = 0 \/ j = 1) as [-> | ->] by lia; computed.
Defined.

Lemma fls_isolated_witness :
  exists s', do_fls_all [FlsAlloc; FlsSet 1 5; FlsFree 0; FlsGet 9] (current busy_call) busy_call
             = Ret (tt, s') /\ fiber_at s' (10, 2) = fiber_at busy_call (10, 2).
Proof.
  destruct (fls_isolated busy_call 0 (fiber_no 0) [FlsAlloc; FlsSet 1 5; FlsFree 0; FlsGet 9])
    as (s' & f' & Hrun & _ & _ & _ & _ & _ & _ & _ & Hother & _).
  - consistent_here. - computed. - fiber_here.
  - exists s'. split; [exact Hrun|]. apply (Hother (10, 2)).
    intros H. apply (f_equal snd) in H. discriminate.
Defined.

Lemma fls_survives_switch_witness :
  exists s1 s2 s3 s4 s5,
    do_fls_set_value (current busy_call) 1 99 busy_call = Ret (1, s1) /\
    do_switch_to_fiber (current s1) 2 s1 = Ret (SUCCESS, s2) /\
    do_fls_all [FlsAlloc; FlsAlloc; FlsSet 1 5] (current s2) s2 = Ret (tt, s3) /\
    do_switch_to_fiber (current s3) 0 s3 = Ret (SUCCESS, s4) /\
    do_fls_get_value (current s4) 1 s4 = Ret (99, s5).
Proof.
  apply (fls_survives_switch busy_call 0 2 (fiber_no 2) (fiber_no 0) 1 99
    [FlsAlloc; FlsAlloc; FlsSet 1 5]).
  - consistent_here. - computed. - fiber_here. - fiber_here. - computed.
  - unfold FLS_MAX_SIZE; lia. - computed.
Defined.

(** ** Teardown *)
Lemma cleanup_process_frees_witness :
  exists s', cleanup_process 10 busy_call = Ret (0, s') /\ count_at s' 10 = None /\
    count_at s' 20 = count_at busy_call 20.
Proof.
  destruct (cleanup_process_frees busy_call 10 uaf_ok)
    as (s' & Hrun & _ & _ & Hno & _ & _ & Hother & _).
  - consistent_here.
  - exists s'. split; [exact Hrun|]. split; [exact Hno|]. apply (Hother 20). lia.
Defined.

Lemma cleanup_all_empties_witness :
  exists s', cleanup_all busy_call = Ret (SUCCESS, s') /\ count_at s' 10 = None.
Proof.
  destruct (cleanup_all_empties busy_call uaf_ok) as (s' & Hrun & _ & Hc & _).
  - consistent_here.
  - exists s'. split; [exact Hrun|exact (Hc 10)].
Defined.

(** A kernel whose freed memory traps, after the first conversion. *)
Definition trap_boot := boot never true.
Definition trap_call : kstate (RefKernel.api never true) :=
  if do_convert_thread_to_fiber (current trap_boot) trap_boot is Ret (_, k) then k else trap_boot.

Lemma cleanup_process_use_after_free_witness :
  cleanup_process 10 trap_call = Fault UseAfterFree.
Proof.
  apply (cleanup_process_use_after_free trap_call 10 11 0 eq_refl); [|computed].
  pose proof (booted_consistent trap_boot (boot_booted _ _)) as Hb.
  destruct (run_convert (K := RefKernel.api never true) mem_ok trap_boot Hb) as (a & _ & _ & _ & H);
    [room_here|computed|].
  unfold trap_call. destruct (spec_convert _ _) as [r a']. destruct H as (s' & Hrun & [Hs' _] & _).
  rewrite Hrun. exact Hs'.
Defined.

(** A kernel whose first, or whose fourth, allocation fails. *)
Definition poor_boot := boot (Nat.eqb 0) false.
Lemma convert_out_of_memory_witness :
  do_convert_thread_to_fiber (current poor_boot) poor_boot = Fault (BadPointer (- ESRCH)).
Proof.
  apply (convert_out_of_memory poor_boot eq_refl).
  - apply booted_consistent, boot_booted.
  - computed.
Defined.

Definition short_boot := boot (Nat.eqb 3) false.
Definition short_call : kstate (RefKernel.api (Nat.eqb 3) false) :=
  if do_convert_thread_to_fiber (current short_boot) short_boot is Ret (_, k) then k else short_boot.

Lemma create_out_of_memory_witness :
  do_create_fiber (current short_call) 65536 4096 900 5 short_call
  = Fault (BadPointer (- ESRCH)).
Proof.
  apply (create_out_of_memory short_call 1 2); reflexivity.
Defined.

(** ** Runs *)
Lemma ioctl_refines_witness :
  exists r s', fibers_ioctl IOCTL_FLS_ALLOC 0 busy_call = Ret (r, s') /\ consistent s'.
Proof.
  destruct (ioctl_refines busy_call IOCTL_FLS_ALLOC 0 mem_ok) as (a & s' & _ & H).
  - consistent_here. - room_here. - computed.
  - destruct (spec_ioctl _ _ _ _ _) as [[[r a'] t'] u']. destruct H as (Hrun & [Hs' _] & _).
    exists r, s'. split; [exact Hrun|exact Hs'].
Defined.

Lemma ioctl_isolates_processes_witness :
  exists r s', fibers_ioctl IOCTL_FLS_ALLOC 0 busy_call = Ret (r, s') /\
    fiber_at s' (20, 0) = fiber_at busy_call (20, 0).
Proof.
  destruct (returned (fibers_ioctl IOCTL_FLS_ALLOC 0) busy_call) as (r & s' & Hrun); [computed|].
  exists r, s'. split; [exact Hrun|].
  apply (ioctl_isolates_processes busy_call IOCTL_FLS_ALLOC 0 r s' mem_ok uaf_ok).
  - consistent_here. - room_here. - computed. - left. exact Hrun.
  - assert (task_tgid (current busy_call) = 10) as -> by computed. discriminate.
Defined.

Lemma ioctl_unknown_witness :
  fibers_ioctl 5 0 fresh_call = Ret (- EPERM, fresh_call).
Proof.
  apply (ioctl_unknown fresh_call 5 0).
  rewrite !not_elem_of_cons. repeat split; try discriminate. apply not_elem_of_nil.
Defined.

(** The argument structure at 64: index -1, to be read into address 64. *)
Definition read_call :=
  set_user (bytes_at never false 64 (encode_fls_args {| idx := -1; value := 64 |})) busy_call.

Lemma ioctl_get_value_masks_errors_witness :
  exists s', fibers_ioctl IOCTL_FLS_GET_VALUE 64 read_call = Ret (0, s').
Proof.
  eexists. eapply (ioctl_get_value_masks_errors read_call 64
    (encode_fls_args {| idx := -1; value := 64 |})).
  - reflexivity.
  - reflexivity.
  - left. reflexivity.
  - vm_compute copy_to_user. reflexivity.
Defined.

(** Task 11 after nine actions, and its switch to fiber 2. *)
Definition task_11 := default (task 10 11 500) (tasks (after never false 9) !! 11).
Definition slot_2 := bytes_at never false 64 (le_bytes 8 2).

Lemma switch_runs :
  exists r x', sys_step (after never false 9) (LIoctl 11 IOCTL_SWITCH_TO_FIBER 64 r) x'.
Proof.
  destruct (returned (fibers_ioctl IOCTL_SWITCH_TO_FIBER 64)
    (enter task_11 slot_2 (kern (after never false 9)))) as (r & k & Hrun); [computed|].
  eexists r, _. eapply step_ioctl_of; [|exact Hrun]. apply found. computed.
Qed.

Lemma system_refines_witness :
  exists (y : asystem (RefKernel.api never false)) l y', asys_ok 9 y /\ astep y l y' /\ asys_ok 10 y'.
Proof.
  destruct (sim_reachable mem_ok _ _ uaf_ok (after_reachable 9)) as (y & Hsim & Hok); [discriminate|].
  destruct switch_runs as (r & x' & Hl).
  destruct (system_refines mem_ok uaf_ok 9 _ _ x' y Hl Hsim Hok) as (y' & Ha & _ & Hok').
  - reflexivity.
  - eexists y, _, y'. split; [exact Hok|]. split; [exact Ha|exact Hok'].
Defined.


Lemma one_thread_per_fiber_witness :
  thread_at (kern (after never false 10)) (10, 11) = Some 2 /\ 11 = 11.
Proof.
  split; [computed|].
  apply (one_thread_per_fiber mem_ok uaf_ok 10 (after never false 10) 10 11 11 2
    (after_reachable 10)); [discriminate|computed|computed].
Defined.

Lemma locked_iff_running_witness :
  exists f, fiber_at (kern (after never false 10)) (10, 2) = Some f /\
    (flock f = true <-> exists p, thread_at (kern (after never false 10)) (10, p) = Some 2).
Proof.
  exists (default uninit_fiber (fiber_at (kern (after never false 10)) (10, 2))).
  assert (fiber_at (kern (after never false 10)) (10, 2) =
    Some (default uninit_fiber (fiber_at (kern (after never false 10)) (10, 2)))) as Hf by fiber_here.
  split; [exact Hf|].
  apply (proj1 (locked_iff_running mem_ok uaf_ok 10 (after never false 10) 10
    (after_reachable 10) ltac:(discriminate)) 2 _ Hf).
Defined.

Lemma fibers_numbered_witness :
  is_Some (fiber_at (kern (after never false 10)) (10, 1)).
Proof.
  apply (fibers_numbered mem_ok uaf_ok 10 (after never false 10) 10 2 (after_reachable 10)).
  - discriminate. - computed. - lia.
Defined.

Lemma suspended_fiber_frozen_witness :
  exists l x', sys_step (after never false 9) l x' /\
    match fiber_at (kern x') (10, 2) with
    | None => False
    | Some f' => asleep (fiber_no 2) f'
    end.
Proof.
  destruct switch_runs as (r & x' & Hl). eexists _, x'. split; [exact Hl|].
  assert (fiber_at (kern (after never false 9)) (10, 2) = Some (fiber_no 2)) as Hf.
  { etransitivity; [|apply (found _ uninit_fiber); computed].
    symmetry. apply fiber_enter, after_consistent. }
  assert (flock (fiber_no 2) = false) as Hfree by computed.
  pose proof (suspended_fiber_frozen mem_ok uaf_ok 9 _ _ x' (10, 2) (fiber_no 2)
    (after_reachable 9) ltac:(reflexivity) Hl Hf Hfree) as H.
  destruct (fiber_at (kern x') (10, 2)) as [f'|].
  - exact (proj1 H).
  - destruct H as (p & t & H & _). discriminate.
Defined.
