(* ===== verification/ServiceWitness.v ===== *)
(** * Witnesses for /proc, loading and unloading, and the user library

    Concrete answers for the classes of Proc.v, Driver.v and FiberLib.v, and
    each theorem of those files applied to the run of Scenario.v. *)
From S2P Require Import KState Fiber Device FiberSpec FiberRefine Cleanup FiberInv View Requests Switching LocalStorage Proc Driver FiberLib System Scenario Witness.
From Stdlib Require Import Ascii.
Import Demo.

(** ** /proc *)
Fixpoint decimal (x : string) (acc : Z) : option Z :=
  match x with
  | EmptyString => Some acc
  | String c x =>
      let d := Z.of_nat (nat_of_ascii c) - 48 in
      if (0 <=? d) && (d <=? 9) then decimal x (10 * acc + d) else None
  end.

#[export] Instance demo_proc : ProcApi := {|
  inode := Z;
  get_proc_task g := if g =? 0 then None else Some (task g (g + 1) 0);
  proc_pident_lookup l n := n;
  proc_pident_readdir l n := n;
  kstrtoul x := decimal x 0;
  format_p x := format_x x;
  uninit_entry := {| pe_name := Some "?"%string; pe_len := 1; pe_mode := 1; pe_fop := NoFops |};
  kmalloc_max := 4194304;
|}.

(** The directory of process 10. *)
Definition dir_10 : @inode demo_proc := 10.

(** A reader with a buffer of 16 bytes at address 64. *)
Definition reader :=
  set_user (bytes_at never false 64 (replicate 16 0)) busy_call.

Lemma reader_consistent : consistent reader.
Proof. apply consistent_set_user. consistent_here. Qed.

Lemma proc_read_file_witness :
  exists s', read_file 1023 dir_10 "0" 64 16 0 reader =
    Ret (take (length (fiber_data (fiber_no 0)) - 1) (fiber_data (fiber_no 0)), s').
Proof.
  destruct (proc_read_file reader dir_10 (task 10 11 0) "0" 0 (fiber_no 0) 64 16 1023)
    as (s' & Hrun & _).
  - exact reader_consistent. - reflexivity.
  - unfold reader. rewrite fiber_set_user by consistent_here. fiber_here.
  - reflexivity. - unfold in_i32; lia. - lia.
  - apply RefKernel.writable_mapped. computed.
  - apply length_fiber_data.
  - exists s'. exact Hrun.
Defined.

Lemma proc_read_missing_witness :
  fibers_read dir_10 "9" 64 16 0 busy_call = Ret ((- ESRCH, 0), busy_call).
Proof.
  apply (proc_read_missing busy_call dir_10 (task 10 11 0) "9" 9).
  - consistent_here. - reflexivity. - apply not_found. computed. - reflexivity.
  - unfold in_i32; lia.
Defined.

Lemma proc_listing_overflows_witness :
  fibers_readdir dir_10 busy_call = Fault (OutOfBounds 2).
Proof.
  apply (proc_listing_overflows busy_call dir_10 (task 10 11 0) 2 mem_ok).
  - consistent_here. - reflexivity. - computed. - lia. - discriminate.
Defined.

(** ** Loading and unloading *)
Definition demo_driver (major : Z) (class dev : ptr) : DriverApi := {|
  register_chrdev := major; class_create := class; device_create := dev;
  kallsyms_lookup_name x := Z.of_nat (String.length x); register_kretprobe x := 0;
|}.

Definition no_probe : kretprobe :=
  {| entry_handler := NoHandler; ret_handler := NoHandler; data_size := 0; symbol_name := "" |}.
Definition loaded (k : kstate (RefKernel.api never false)) : driver (RefKernel.api never false) := {|
  kernel := k; fibers_device_major := 240; fibers_device_class := PTR 1; fibers_device := PTR 2;
  proc_kernel_syms := {| sym_readdir := 0; sym_lookup := 0; sym_setattr := 0; sym_getattr := 0 |};
  iops_getattr := 0; iops_setattr := 0; proc_readdir_krp := no_probe; proc_lookup_krp := no_probe;
  nents := 0; check_nents := false; calls := [];
|}.

Lemma register_device_all_or_nothing_witness :
  exists r d' cs, fibers_register_device (D := demo_driver 240 (PTR 1) (ERR (-12)))
      (loaded (boot never false)) = Ret (r, d') /\ calls d' = cs /\ r <= 0.
Proof.
  destruct (register_device_all_or_nothing (D := demo_driver 240 (PTR 1) (ERR (-12)))
    (loaded (boot never false))) as (r & d' & cs & Hrun & Hcs & _ & [(-> & _)|[Hr _]]).
  - exact Logic.I. - unfold ptr_or_err, MAX_ERRNO. cbn. lia.
  - exists SUCCESS, d', cs. split; [exact Hrun|]. split; [exact Hcs|]. unfold SUCCESS. lia.
  - exists r, d', cs. split; [exact Hrun|]. split; [exact Hcs|]. lia.
Defined.

Lemma init_ignores_failure_witness :
  exists d', fibers_init_module (D := demo_driver (-16) (PTR 1) (PTR 2))
    (loaded (boot never false)) = Ret (SUCCESS, d').
Proof.
  destruct (init_ignores_failure (D := demo_driver (-16) (PTR 1) (PTR 2))
    (loaded (boot never false))) as (d' & cs & Hrun & _).
  - reflexivity. - exists d'. exact Hrun.
Defined.

Lemma exit_module_cleans_witness :
  exists d', fibers_exit_module (loaded busy_call) = Ret (tt, d') /\
    count_at (kernel d') 10 = None.
Proof.
  destruct (exit_module_cleans (loaded busy_call) uaf_ok) as (d' & Hrun & _ & Hc & _).
  - apply (calling_consistent 9 11). - exists d'. split; [exact Hrun|apply Hc].
Defined.

Lemma readdir_window_witness :
  exists d', handler_readdir {| dd_file := dir_10; dd_ctx_pos := 40 |} (loaded busy_call)
    = Ret (0, d') /\ nents d' = 40.
Proof.
  destruct (readdir_window (loaded busy_call) {| dd_file := dir_10; dd_ctx_pos := 40 |}
    (task 10 11 0) 40) as (d' & first & count & Hrun & _ & Hn & _).
  - apply (calling_consistent 9 11). - reflexivity. - reflexivity.
  - exists 2. computed. - reflexivity. - lia.
  - exists d'. split; [exact Hrun|exact Hn].
Defined.

(** ** The user library *)
#[export] Instance demo_lib : LibApi := {|
  open_device := 3; posix_memalign align size := (0, 65536); args_slot := 64; value_slot := 128;
|}.

(** Memory mapped in [64, 136) and in [65536, 65568). *)
Definition program_memory : @umem (RefKernel.api never false) :=
  (bytes_at never false 64 (replicate 72 0) : gmap Z Z) ∪ bytes_at never false 65536 (replicate 32 0).

Definition program : process (RefKernel.api never false) :=
  {| ker := set_user program_memory busy_call; fd := 3 |}.

Lemma program_ready : ready program.
Proof.
  split.
  - apply consistent_set_user. consistent_here.
  - reflexivity.
  - discriminate.
  - apply RefKernel.writable_mapped. computed.
  - apply RefKernel.writable_mapped. computed.
  - split; reflexivity.
  - left. discriminate.
  - cbn. lia.
Qed.

Lemma program_running : running program 0 (fiber_no 0).
Proof.
  split; unfold program; cbn [ker].
  - rewrite thread_set_user by consistent_here. computed.
  - rewrite fiber_set_user by consistent_here. fiber_here.
Qed.

Lemma program_room : room_at (ker program).
Proof. room_here. Qed.

Lemma lib_set_get_witness :
  exists p1 p2, Fls_set_value 1 (-5) program = Ret (1, p1) /\ Fls_get_value 1 p1 = Ret (-5, p2).
Proof.
  apply (lib_set_get program 0 (fiber_no 0) 1 (-5) program_ready program_running).
  - unfold FLS_MAX_SIZE; lia. - unfold in_i64; lia. - computed.
Defined.

Lemma lib_get_error_is_a_value_witness :
  exists p1, Fls_get_value 7 program = Ret (- EACCES, p1).
Proof.
  destruct (lib_get_error_is_a_value program 0 (fiber_no 0) 7 program_ready program_running)
    as (p1 & Hrun & _).
  - unfold in_i64; lia. - intros _. computed. - exists p1. exact Hrun.
Defined.

Lemma lib_create_witness :
  exists p1, Create_fiber 32 900 5 program = Ret (next_number (ker program), p1).
Proof.
  destruct (lib_create program 0 (fiber_no 0) 32 900 5 65536 mem_ok program_ready program_running
    program_room) as (p1 & f1 & Hrun & _).
  - reflexivity. - reflexivity. - apply RefKernel.writable_mapped. computed.
  - lia. - lia. - lia. - unfold in_u64; lia. - unfold in_u64; lia.
  - exists p1. exact Hrun.
Defined.

Lemma lib_switch_witness :
  exists r p1, Switch_to_fiber 2 program = Ret (r, p1) /\ ready p1.
Proof.
  destruct (lib_switch program 0 (fiber_no 0) 2 program_ready program_running)
    as (r & p1 & Hrun & R1 & _).
  - unfold in_i32; lia. - exists r, p1. split; [exact Hrun|exact R1].
Defined.

Lemma lib_convert_witness :
  exists r p1, Convert_thread_to_fiber program = Ret (r, p1) /\ consistent (ker p1).
Proof.
  destruct (lib_convert program mem_ok) as (r & p1 & Hrun & Hk & _).
  - discriminate. - apply program_ready. - exact program_room. - computed.
  - exists r, p1. split; [exact Hrun|exact Hk].
Defined.
