(* ===== verification/ConcurrentWitness.v ===== *)
(** * Witnesses for the theorems about concurrent switches

    Threads 11 and 12 of process 10, as they stand in the run of Scenario.v,
    race for the free fiber 2, and later thread 12 goes on with fiber 0, which
    thread 11 has just left. *)
From S2P Require Import KState Fiber FiberSpec FiberRefine FiberInv View Requests System Scenario Witness Interleave Concurrent Continuation.
Import Demo.

Abbreviation RK := (RefKernel.api never false).

(** Two threads on two fibers, a third fiber free. *)
Lemma quiet_two (f0 f1 f2 : fiber RK) (x1 x2 : task_struct) :
  flock f0 = true -> flock f1 = true -> flock f2 = false ->
  state (info f0) = 11 -> state (info f1) = 12 -> state (info f2) = 0 ->
  task_pid x1 = 11 -> task_pid x2 = 12 ->
  quiet {| cfibers := <[0 := f0]> (<[1 := f1]> (<[2 := f2]> ∅)) : gmap Z (fiber RK);
           cthreads := <[11 := {| ctask := x1; cfid := 0; cpc := User; cret := 0 |}]>
             (<[12 := {| ctask := x2; cfid := 1; cpc := User; cret := 0 |}]> ∅) |}.
Proof.
  intros L0 L1 L2 S0 S1 S2 P1 P2. split; cbn.
  - intros p t. rewrite !lookup_insert, lookup_empty. repeat case_decide; intros; simplify_eq; done.
  - intros p t. rewrite !lookup_insert, lookup_empty.
    repeat case_decide; intros; simplify_eq; cbn [cfid]; eauto.
  - intros i f Hf Hl. rewrite !lookup_insert, lookup_empty in Hf.
    repeat case_decide; simplify_eq; try congruence.
    + eexists. rewrite S0. by split; [apply lookup_insert_eq|].
    + eexists. rewrite S1. by split; [rewrite lookup_insert_ne; [apply lookup_insert_eq|done]|].
  - intros i f. rewrite !lookup_insert, lookup_empty.
    repeat case_decide; intros; simplify_eq; congruence.
Qed.

Definition racer (p i : Z) : cthread :=
  {| ctask := task 10 p 500; cfid := i; cpc := User; cret := 0 |}.
Definition start : cstate RK :=
  {| cfibers := <[0 := fiber_no 0]> (<[1 := fiber_no 1]> (<[2 := fiber_no 2]> ∅)) : gmap Z (fiber RK);
     cthreads := <[11 := racer 11 0]> (<[12 := racer 12 1]> ∅) |}.

Lemma quiet_start : quiet start.
Proof. apply quiet_two; computed. Qed.

(** Both find fiber 2 free and try its lock: thread 11 takes it. *)
Definition race_prefix : list (Z * event) :=
  [(11, ECall 2); (12, ECall 2); (12, EAccess); (11, EAccess); (11, EAccess); (12, EAccess);
   (12, EAccess); (11, EAccess); (11, EAccess)].
(** Thread 12 fails; thread 11 completes its switch. *)
Definition race_rest : list (Z * event) :=
  (12, EAccess) :: repeat (11, EAccess) 10.

Definition after_race (es : list (Z * event)) : cstate RK := default start (sched es start).
Definition racing := after_race race_prefix.
Definition raced := after_race (race_prefix ++ race_rest).

Lemma racing_interleaved : interleaved start racing.
Proof.
  apply (sched_interleaved race_prefix start start); [apply inter_start, quiet_start|].
  apply found. computed.
Qed.
Lemma raced_interleaved : interleaved start raced.
Proof.
  apply (sched_interleaved (race_prefix ++ race_rest) start start); [apply inter_start, quiet_start|].
  apply found. computed.
Qed.

Definition racing_thread (p : Z) : cthread := default (racer p 0) (cthreads racing !! p).

Lemma concurrent_exclusive_witness :
  2 ∈ owns (racing_thread 11) /\ 2 ∉ owns (racing_thread 12).
Proof.
  assert (2 ∈ owns (racing_thread 11)) as H2.
  { assert (owns (racing_thread 11) = [0; 2]) as -> by computed. right. left. }
  split; [exact H2|].
  apply (concurrent_exclusive start racing 11 12 (racing_thread 11) (racing_thread 12) 2 racing_interleaved).
  - apply found; computed. - apply found; computed. - discriminate. - exact H2.
Defined.

(** Thread 12 counts its failure while thread 11 holds fiber 2. *)
Lemma concurrent_frozen_witness :
  exists c' f', cstep racing 12 c' /\ cfibers c' !! 2 = Some f' /\ flock f' = true /\
    failed_activations (info f') = 1.
Proof.
  set (c' := default start (sched_event 12 EAccess racing)).
  assert (sched_event 12 EAccess racing = Some c') as Hs by (apply found; computed).
  apply sched_event_sound in Hs. exists c'.
  destruct (concurrent_frozen start racing c' 11 12 (racing_thread 11) 2
    (default uninit_fiber (cfibers racing !! 2)) racing_interleaved)
    as (_ & f' & Hf' & Hl & _).
  - apply found; computed.
  - assert (owns (racing_thread 11) = [0; 2]) as -> by computed. right. left.
  - apply found; computed.
  - exact Hs.
  - discriminate.
  - exists f'. split; [exact Hs|]. split; [exact Hf'|]. split; [exact Hl|].
    assert (match cfibers c' !! 2 with Some f => failed_activations (info f) =? 1 | None => false end = true)
      as H by computed.
    rewrite Hf' in H. by apply Z.eqb_eq.
Defined.

Lemma concurrent_wait_free_witness :
  exists c', cstep racing 12 c'.
Proof.
  destruct (concurrent_wait_free start racing 12 (racing_thread 12) racing_interleaved)
    as ((c' & Hs & _) & _).
  - apply found; computed.
  - assert (cpc (racing_thread 12) = CountFailure 2) as -> by computed. discriminate.
  - exists c'. exact Hs.
Defined.

Lemma all_user (c : cstate RK) :
  forallb (fun e => match cpc e.2 with User => true | _ => false end) (map_to_list (cthreads c)) = true ->
  forall p t, cthreads c !! p = Some t -> cpc t = User.
Proof.
  intros H p t Ht%elem_of_map_to_list. rewrite forallb_forall in H.
  specialize (H (p, t) (proj1 (list_elem_of_In _ _) Ht)). cbn in H. by destruct (cpc t).
Qed.

Lemma concurrent_quiescent_witness : quiet raced.
Proof.
  apply (concurrent_quiescent start raced raced_interleaved).
  apply all_user. computed.
Defined.

(** Process 10 has three fibers. *)
Lemma no_other_fiber i : i <> 0 -> i <> 1 -> i <> 2 -> fiber_at busy_call (10, i) = None.
Proof.
  intros. destruct (consistent_holds busy_call) as (a & (_ & C & _ & F) & I); [consistent_here|].
  apply eq_None_not_Some. rewrite F. intros Hi.
  apply (inv_ids _ I 10 2 i) in Hi; [lia|]. rewrite <- C. computed.
Qed.

Lemma switch_sequential_witness :
  exists t' h', solo (K := RK) 14 (entering busy_call 0 2) (cfibers start) = Some (t', h') /\
    exists s', do_switch_to_fiber (current busy_call) 2 busy_call = Ret (cret t', s').
Proof.
  destruct (switch_sequential busy_call 0 2 (cfibers start)) as (t' & h' & s' & Hsolo & Hrun & _).
  - consistent_here. - computed.
  - intros i. unfold start. cbn [cfibers]. rewrite !lookup_insert, lookup_empty.
    repeat case_decide; subst; try (symmetry; fiber_here).
    symmetry. apply no_other_fiber; done.
  - exists t', h'. split; [exact Hsolo|]. exists s'. exact Hrun.
Defined.

(** Thread 11 leaves fiber 0.  Thread 12 tries to take it while it is being
    left, and fails; once it is unlocked, and before thread 11 has loaded the
    registers of fiber 2, thread 12 takes it, while thread 11 goes on to fiber 2
    and changes its own registers. *)
Definition handover : list (Z * event) :=
  (12, EUser (task 10 12 777)) :: (11, ECall 2) :: repeat (11, EAccess) 10 ++
  (12, ECall 0) :: repeat (12, EAccess) 2 ++ (12, EAccess) :: (11, EAccess) :: (11, EAccess) ::
  (12, EAccess) :: (12, ECall 0) :: repeat (12, EAccess) 10 ++ [(11, EAccess); (11, EAccess);
   (11, EUser (task 10 11 888))] ++ repeat (12, EAccess) 4.
Definition handed := after_race handover.
Definition handed_thread : cthread := default (racer 12 1) (cthreads handed !! 12).

Lemma concurrent_continuation_witness :
  cfid handed_thread = 0 /\ task_pid (ctask handed_thread) = 12 /\
  task_regs (ctask handed_thread) = task_regs (task 10 11 500) /\
  task_fx (ctask handed_thread) = task_fx (task 10 11 500).
Proof.
  assert (cfid handed_thread = 0) as Hi by computed.
  split; [exact Hi|]. split; [computed|].
  apply (concurrent_continuation start start handover handed 0
    (task_regs (task 10 11 500)) (task_fx (task 10 11 500))) with (p := 12).
  - apply inter_start, quiet_start.
  - left. exists 11, (racer 11 0). by split_and!.
  - apply found. computed.
  - computed.
  - apply found. computed.
  - computed.
  - exact Hi.
Defined.
