(* ===== verification/CreationWitness.v ===== *)
(** * Witnesses for conversions and creations among switches

    Threads 11 and 12 of a process that has no fiber yet; and two runs of a
    program that guesses numbers, which break what CreationSafety.v shows for
    the others. *)
From S2P Require Import KState Fiber FiberSpec FiberInv View Requests System Scenario Witness Interleave ConcurrentWitness Creation CreationSafety CreationAlone.
Import Demo.

(** ** Runs, executable *)
Definition givenb (s : crowd RK) (i : Z) : bool :=
  bool_decide (is_Some (cfibers (shared s) !! i)) &&
  forallb (fun e : Z * maker RK => negb (bool_decide (number (mstage e.2) = Some i))) (map_to_list (making s)).
Definition civilb (s : crowd RK) (e : move) : bool :=
  match e with Thread (ECall next) => givenb s next | _ => true end.

(** The moves can be made and do not wrap the counter; unless [wild], they are civil. *)
Fixpoint acts_ok (wild : bool) (es : list (Z * move)) (s : crowd RK) : bool :=
  match es with
  | [] => true
  | (p, e) :: es =>
      (wild || civilb s e) &&
      match act p e s with
      | Some s' => (fid_count s <=? fid_count s') && acts_ok wild es s'
      | None => false
      end
  end.
Definition after (es : list (Z * move)) (s : crowd RK) : crowd RK := default s (acts es s).

Lemma civilb_civil s e : civilb s e = true -> civil s e.
Proof.
  destruct e as [[]| | | |]; try done. cbn. unfold givenb. intros [Hin Hall]%andb_prop.
  split; [by apply bool_decide_eq_true in Hin|]. intros p m Hm E.
  rewrite forallb_forall in Hall. specialize (Hall (p, m)). cbn in Hall.
  rewrite bool_decide_eq_true_2 in Hall by done. discriminate Hall.
  by apply list_elem_of_In, elem_of_map_to_list.
Qed.

Lemma acts_ok_evolves wild (W : Prop) s0 es : forall s,
  (wild = true -> W) -> evolves W s0 s -> acts_ok wild es s = true -> evolves W s0 (after es s).
Proof.
  unfold after. induction es as [|[p e] es IH]; intros s HW He; [done|]. cbn [acts_ok acts].
  destruct (act p e s) as [s'|] eqn:Ha; [|by rewrite andb_false_r].
  intros [Hc [Hn%Z.leb_le Hok]%andb_prop]%andb_prop.
  assert (evolves W s0 s') as He'.
  { eapply evolves_step; [exact He|exact Ha| |exact Hn].
    apply orb_prop in Hc as [?|?]; [left; auto|right; by apply civilb_civil]. }
  specialize (IH s' HW He' Hok). destruct (acts es s') as [s2|] eqn:E; [exact IH|].
  exfalso. clear -E Hok. revert s' E Hok. induction es as [|[q e'] es IH]; intros s' E Hok; [done|].
  cbn [acts acts_ok] in *. destruct (act q e' s') as [s2|]; [|by rewrite andb_false_r in Hok].
  apply andb_prop in Hok as [_ [_ Hok]%andb_prop]. by apply (IH s2).
Qed.

(** ** A civil run *)
Definition newcomers : crowd RK :=
  {| shared := {| cfibers := ∅; cthreads := ∅ |}; fid_count := NO_FIBERS; making := ∅ |}.

Lemma newcomers_idle : idle newcomers.
Proof.
  split; [split| | |]; cbn.
  - by intros p t ?%lookup_empty_Some.
  - by intros p t ?%lookup_empty_Some.
  - by intros i f ?%lookup_empty_Some.
  - by intros i f ?%lookup_empty_Some.
  - done.
  - intros i [f Hf%lookup_empty_Some]. done.
  - unfold NO_FIBERS. lia.
Qed.

Definition makes (p : Z) (n : nat) : list (Z * move) := replicate n (p, Make).
Definition converts (p i : Z) : list (Z * move) := (p, StartConvert (task 10 p i)) :: makes p 7.
Definition accesses (p : Z) (n : nat) : list (Z * move) := replicate n (p, Thread EAccess).

(** Thread 11 converts; while it creates fiber 2, thread 12 converts. *)
Definition together : list (Z * move) :=
  converts 11 500 ++ (12, StartConvert (task 10 12 600)) :: makes 12 2 ++
  (11, StartCreate 8192 4096 900 5) :: makes 11 6 ++ makes 12 4.
Definition busy : crowd RK := after together newcomers.

Lemma busy_evolves : evolves False newcomers busy.
Proof.
  apply (acts_ok_evolves false); [done|apply evolves_start, newcomers_idle|computed].
Qed.

(** What thread [p] is making, when it is. *)
Definition maker_of (p : Z) : maker RK :=
  default {| mtask := task 10 p 0; mwork := Convert; mstage := Counting |} (making busy !! p).

Lemma busy_maker p : (if making busy !! p is Some _ then true else false) = true -> making busy !! p = Some (maker_of p).
Proof. unfold maker_of. by destruct (making busy !! p). Qed.



Lemma creation_wait_free_witness :
  exists s', act 11 Make busy = Some s'.
Proof.
  destruct (creation_wait_free newcomers busy 11 (maker_of 11) busy_evolves) as ((s' & Hs & _) & _).
  - apply busy_maker. computed.
  - exists s'. exact Hs.
Defined.

(** Thread 11 of the process of Scenario.v creates a fiber. *)
Definition company : crowd RK := {| shared := ConcurrentWitness.start; fid_count := 2; making := ∅ |}.

Lemma company_seen : seen_by busy_call company.
Proof.
  split; [|split; computed]. intros i. unfold company, ConcurrentWitness.start. cbn [shared cfibers].
  rewrite !lookup_insert, lookup_empty. repeat case_decide; subst; try (symmetry; fiber_here).
  symmetry. apply no_other_fiber; done.
Qed.

Lemma creation_sequential_witness :
  exists s' c', do_create_fiber (current busy_call) 8192 4096 900 5 busy_call = Ret (3, s') /\
    acts ((11, StartCreate 8192 4096 900 5) :: replicate 12 (11, Make)) company = Some c' /\ seen_by s' c'.
Proof.
  pose proof (creation_sequential busy_call company mem_ok) as H.
  lapply H; [clear H; intros H|consistent_here]. lapply H; [clear H; intros H|room_here].
  lapply H; [clear H; intros H|computed]. specialize (H company_seen eq_refl). cbv zeta in H.
  assert (cthreads (shared company) !! task_pid (current busy_call) = Some (racer 11 0)) as Ht by (apply lookup_insert_eq).
  rewrite Ht in H. destruct (H eq_refl eq_refl 8192 4096 900 5) as (s' & c' & t' & Hrun & Hacts & Ht' & _ & V).
  exists s', c'. split; [|split; [exact Hacts|exact V]].
  assert (match do_create_fiber (current busy_call) 8192 4096 900 5 busy_call with Ret (r, _) => r | Fault _ => 0 end = 3)
    as Hr by computed.
  rewrite Hrun in Hr. rewrite Hrun. by rewrite Hr.
Defined.

(** ** Programs that guess numbers *)

(** What a run leaves, as far as thread [p] and fiber [i] go. *)
Definition thread_after (s : crowd RK) (p : Z) : cthread :=
  default {| ctask := task 10 p 0; cfid := 0; cpc := LoadFx 0; cret := 0 |} (cthreads (shared s) !! p).
Definition fiber_after (s : crowd RK) (i : Z) : fiber RK := default uninit_fiber (cfibers (shared s) !! i).

Lemma thread_after_found s p :
  (if cthreads (shared s) !! p is Some _ then true else false) = true ->
  cthreads (shared s) !! p = Some (thread_after s p).
Proof. unfold thread_after. by destruct (cthreads (shared s) !! p). Qed.
Lemma fiber_after_found s i :
  (if cfibers (shared s) !! i is Some _ then true else false) = true ->
  cfibers (shared s) !! i = Some (fiber_after s i).
Proof. unfold fiber_after. by destruct (cfibers (shared s) !! i). Qed.

(** Thread 12 switches to number 2 while thread 11 creates it. *)
Definition snatched : list (Z * move) :=
  converts 11 500 ++ converts 12 600 ++ (11, StartCreate 8192 4096 900 5) :: makes 11 2 ++
  (12, Thread (ECall 2)) :: accesses 12 14 ++ makes 11 10.
Definition after_snatch : crowd RK := after snatched newcomers.

(** Thread 11 switches to number 1 while thread 12 converts, is refused, and
    then switches to the fiber that thread 11 has left. *)
Definition intruded : list (Z * move) :=
  converts 11 500 ++ (12, StartConvert (task 10 12 600)) :: makes 12 2 ++
  (11, Thread (ECall 1)) :: accesses 11 14 ++ makes 12 3 ++
  (12, Thread (ECall 0)) :: accesses 12 4.
Definition after_intrusion : crowd RK := after intruded newcomers.

Lemma threads_among (s : crowd RK) (P : Z -> cthread -> bool) :
  forallb (fun e => P e.1 e.2) (map_to_list (cthreads (shared s))) = true ->
  forall p t, cthreads (shared s) !! p = Some t -> P p t = true.
Proof.
  intros H p t Ht%elem_of_map_to_list. rewrite forallb_forall in H.
  exact (H (p, t) (proj1 (list_elem_of_In _ _) Ht)).
Qed.

Lemma nobody_making (s : crowd RK) : length (map_to_list (making s)) = 0%nat -> making s = ∅.
Proof. intros H%length_zero_iff_nil. by apply map_to_list_empty_iff. Qed.

Definition in_user (t : cthread) : bool := match cpc t with User => true | _ => false end.

(** C14: a program that switches to a number before it was returned gets more than
    an error.  (1) The switch can find a fiber that [do_create_fiber] has put
    in the table and not yet written: it succeeds, and the thread goes on
    with the registers of the creator, stack pointer included, on which the
    creator runs too; the entry point is never called.  (2) It can find the
    fiber of a thread that is converting itself: the conversion is refused
    with [-EAGAIN] after the thread was registered, with no current fiber,
    and this thread's next switch takes the lock of the fiber it asks for and
    returns [-ESRCH]: no thread owns the fiber, and it stays locked. *)
Theorem creation_hazards :
  (exists s t11 t12 f, evolves True newcomers s /\ making s = ∅ /\
     cthreads (shared s) !! 11 = Some t11 /\ cthreads (shared s) !! 12 = Some t12 /\
     cpc t11 = User /\ cret t11 = 2 /\ cpc t12 = User /\ cret t12 = SUCCESS /\ cfid t12 = 2 /\
     cfibers (shared s) !! 2 = Some f /\ state (info f) = 12 /\ ip (regs (context f)) = 900 /\
     task_regs (ctask t12) = task_regs (ctask t11)) /\
  (exists s t12 f, evolves True newcomers s /\ making s = ∅ /\
     (forall p t, cthreads (shared s) !! p = Some t -> cpc t = User /\ cfid t <> 0) /\
     cthreads (shared s) !! 12 = Some t12 /\ cret t12 = - ESRCH /\ cfid t12 = NO_FIBERS /\
     cfibers (shared s) !! 0 = Some f /\ flock f = true /\ state (info f) = 0).
Proof.
  split.
  - exists after_snatch, (thread_after after_snatch 11), (thread_after after_snatch 12), (fiber_after after_snatch 2).
    split; [apply (acts_ok_evolves true); [done|apply evolves_start, newcomers_idle|computed]|].
    split; [apply nobody_making; computed|].
    split; [apply thread_after_found; computed|]. split; [apply thread_after_found; computed|].
    do 5 (split; [computed|]). split; [apply fiber_after_found; computed|].
    do 2 (split; [computed|]). computed.
  - exists after_intrusion, (thread_after after_intrusion 12), (fiber_after after_intrusion 0).
    split; [apply (acts_ok_evolves true); [done|apply evolves_start, newcomers_idle|computed]|].
    split; [apply nobody_making; computed|].
    split.
    { intros p t Ht. assert ((in_user t && negb (cfid t =? 0)) = true) as [Hu Hi]%andb_prop.
      { apply (threads_among after_intrusion (fun _ t => in_user t && negb (cfid t =? 0))) with p; [computed|exact Ht]. }
      split; [unfold in_user in Hu; by destruct (cpc t)|]. by apply negb_true_iff, Z.eqb_neq in Hi. }
    split; [apply thread_after_found; computed|]. do 2 (split; [computed|]).
    split; [apply fiber_after_found; computed|]. split; computed.
Qed.
