(* ===== verification/TestbedWitness.v ===== *)
(** * Witnesses for the theorems about the testbed

    A concrete C library, a fresh cell and one with a call in progress. *)
From Stdlib Require Import SpecFloat.
From S2P Require Import Prelude Doubles Numerical Channel Cell Calls.
Local Open Scope prog_scope.

#[local] Instance demo_libc : Libc := {|
  random n := (1804289383 + Z.of_nat n) mod 2 ^ 31;
  dlog x := dsub x DOUBLE_1;
  dpow x y := dmul x y;
  malloc_fails _ := false;
|}.
#[local] Instance demo_laws : LibcLaws demo_libc.
Proof. split. intros n. apply Z.mod_pos_bound. lia. Qed.
#[local] Instance demo_junk : Junk := {|
  junk_channel := {| channel_id := 77; sir_data := Some 77%positive; next := Some 77%positive;
                     prev := Some 77%positive |};
  junk_sir := {| fading := S754_nan; power := S754_nan |};
|}.

(** The record of a cell of 1000 channels, as the INIT event leaves it, with
    the words of the bitmap and the list. *)
Definition lp (words : list Z) (head : option loc) : lp_state_type :=
  {| channel_counter := 1000; arriving_calls := 0; complete_calls := 0; blocked_on_setup := 0;
     blocked_on_handoff := 0; leaving_handoffs := 0; arriving_handoffs := 0; cont_no_sir_aim := 0;
     executed_events := 0; lvt := of_Z 0; ta := of_Z 1; ref_ta := of_Z 1; ta_duration := of_Z 60;
     ta_change := of_Z 150; channels_per_cell := 1000;
     channel_state := words ++ replicate (64 - length words) 0; channels := head;
     dummy := 0; dummy_flag := false |}.

Definition no_calls : tb :=
  {| tb_rng := {| master_seed := 0; draws := 0 |}; tb_lps := {[ 5%positive := lp [] None ]};
     tb_chans := ∅; tb_sirs := ∅; tb_mallocs := 0 |}.

(** Channel 1 is busy. *)
Definition call1 : node := {| at_ := 1; num := 1; sir_at := 2 |}.
Definition one_call : tb :=
  {| tb_rng := {| master_seed := 0; draws := 0 |};
     tb_lps := {[ 5%positive := lp [2] (Some 1%positive) ]};
     tb_chans := {[ 1%positive := node_at None call1 None ]};
     tb_sirs := {[ 2%positive := junk_sir ]}; tb_mallocs := 2 |}.

(** A bitmap checked channel by channel. *)
Lemma bits_computed st (l : list node) :
  0 <= channels_per_cell st ->
  forallb (fun i => eqb (busy_bit st i) (bool_decide (i ∈ num <$> l)))
    (seqZ 0 (channels_per_cell st)) = true ->
  forall i, 0 <= i < channels_per_cell st -> busy_bit st i = true <-> i ∈ num <$> l.
Proof.
  intros _ H i Hi. rewrite forallb_forall in H.
  assert (i ∈ seqZ 0 (channels_per_cell st)) as Hin by (apply elem_of_seqZ; lia).
  specialize (H i (proj1 (list_elem_of_In _ _) Hin)).
  apply eqb_prop in H. rewrite H. apply bool_decide_eq_true.
Qed.

Lemma cell_no_calls : cell 5 (lp [] None) [] no_calls.
Proof.
  split; cbn; try done; try (by constructor).
  - by intros x []%not_elem_of_nil.
  - by intros x []%not_elem_of_nil.
  - by apply (bits_computed (lp [] None) []); vm_compute.
  - intros a. rewrite !lookup_empty. by intros [[? [=]]|[? [=]]].
Qed.

Lemma cell_one_call : cell 5 (lp [2] (Some 1%positive)) [call1] one_call.
Proof.
  split; cbn; try done.
  - apply NoDup_singleton.
  - apply NoDup_singleton.
  - intros x ->%list_elem_of_singleton. by eexists.
  - apply NoDup_singleton.
  - intros x ->%list_elem_of_singleton. cbn. lia.
  - by apply (bits_computed (lp [2] (Some 1%positive)) [call1]); vm_compute.
  - intros a. rewrite !lookup_singleton_is_Some. lia.
Qed.

Lemma random_second_generator_dead_witness :
  exists seed1 s', Random no_calls = Ret (dmul (dadd (of_Z (mix seed1 0)) DOUBLE_1) SCALE, s').
Proof.
  destruct (random_second_generator_dead no_calls demo_laws) as (seed1 & s' & Hrun & _).
  - cbn. lia.
  - exists seed1, s'. exact Hrun.
Defined.


Lemma deallocation_frees_witness :
  exists s', deallocation (Some 5%positive) 1 one_call = Ret (tt, s') /\ tb_sirs s' !! 2%positive = None.
Proof.
  destruct (deallocation_frees 5 _ _ one_call 1 cell_one_call) as (l1 & x & l2 & st' & s' & El & _ & Hrun & _ & _ & _ & Hs & _).
  - left.
  - exists s'. split; [exact Hrun|]. destruct l1 as [|y [|]]; [|discriminate|discriminate].
    injection El as <- _. exact Hs.
Defined.

Lemma deallocation_unknown_witness : deallocation (Some 5%positive) 3 one_call = Fault Aborted.
Proof.
  apply (deallocation_unknown 5 _ _ one_call 3 cell_one_call).
  intros H%list_elem_of_singleton. discriminate.
Defined.

(** Two calls come and one goes: the channels are reused from the lowest. *)
Example reuse :
  (if (a <- allocation (Some 5%positive) ;; b <- allocation (Some 5%positive) ;;
       deallocation (Some 5%positive) a ;;; c <- allocation (Some 5%positive) ;; ret [a; b; c]) no_calls
   is Ret (r, _) then r else []) = [0; 1; 0].
Proof. vm_compute. reflexivity. Qed.
