(* ===== verification/SimWitness.v ===== *)
(** * Witnesses for the theorems about the simulation

    A C library whose logarithm is that of no waiting, memory just allocated,
    and the first events of a fiber. *)
From Stdlib Require Import SpecFloat.
From S2P Require Import Prelude Doubles Numerical Channel Cell CalQueue CalBag CalResize CalOps CalOrder Model Promise Simulation Ult Main MainLoop.
Local Open Scope prog_scope.

#[local] Instance sim_libc : Libc := {|
  random n := (1804289383 + Z.of_nat n) mod 2 ^ 31;
  dlog x := of_Z (-1);
  dpow x y := dmul x y;
  malloc_fails _ := false;
|}.
#[local] Instance sim_log : LogLaws sim_libc.
Proof. by split. Qed.
#[local] Instance sim_junk : Junk := {|
  junk_channel := {| channel_id := 77; sir_data := Some 77%positive; next := Some 77%positive;
                     prev := Some 77%positive |};
  junk_sir := {| fading := S754_nan; power := S754_nan |};
|}.
#[local] Instance sim_words : JunkWords := {| junk_word i := i |}.

Lemma ample_memory : forall n, malloc_fails n = false.
Proof. done. Qed.

(** The state a run ends in. *)
Definition state_of {S A} (m : M S A) (s : S) : S := match m s with Ret (_, s') => s' | Fault _ => s end.
Definition returns {S A} (m : M S A) (s : S) : bool := match m s with Ret _ => true | Fault _ => false end.

Lemma returns_run {S A} (m : M S A) (s : S) : returns m s = true -> exists a, m s = Ret (a, state_of m s).
Proof. unfold returns, state_of. destruct (m s) as [[a s']|]; [eauto|done]. Qed.

Lemma wpf_state_of {S A} F (m : M S A) (Q : A -> S -> Prop) (s : S) :
  wpf F m Q s -> returns m s = true -> exists a, m s = Ret (a, state_of m s) /\ Q a (state_of m s).
Proof. unfold wpf, returns, state_of. destruct (m s) as [[a s']|]; [eauto|done]. Qed.

Lemma run_state_of {S A} (m : M S A) (s : S) a s' : m s = Ret (a, s') -> state_of m s = s'.
Proof. unfold state_of. by intros ->. Qed.

(** ** Queues *)
Definition junk_queue {P} : calqueue P :=
  {| calq := ∅; calendar := 7; firstsub := 7; nbuckets := 7; qsize := 7; lastbucket := 7; resize_enabled := false;
     top_threshold := S754_nan; bot_threshold := S754_nan; lastprio := S754_nan; buckettop := S754_nan;
     cwidth := S754_nan |}.
Definition new_queue : qstate Z := state_of calqueue_init (raw junk_queue).
Definition one_event : qstate Z := state_of (calqueue_put (tenths 30) 30) new_queue.

Lemma one_event_eq : one_event = state_of (calqueue_put (tenths 30) 30) new_queue.
Proof. reflexivity. Qed.

Lemma new_queue_steady : steady new_queue /\ contents (cq new_queue) = [].
Proof.
  destruct (run_calqueue_init (raw junk_queue)) as (s' & Hrun & H). apply run_state_of in Hrun.
  change (state_of calqueue_init (raw junk_queue)) with new_queue in Hrun. rewrite Hrun. exact H.
Qed.

Lemma one_event_steady :
  steady one_event /\ contents (cq one_event) ≡ₚ [{| priority := tenths 30; payload := 30 |}].
Proof.
  destruct new_queue_steady as [Hs Hc].
  assert (qsize (cq new_queue) + 1 < 2 ^ 31) as Hlt by (vm_compute; reflexivity).
  assert (above_zero (cwidth (cq one_event)) = true) as Hw by (vm_compute; reflexivity).
  destruct (wpf_state_of _ _ _ _ (wpf_calqueue_put ample_memory (tenths 30) 30 new_queue Hs Hlt eq_refl))
    as (u & _ & H & _); [vm_compute; reflexivity|].
  rewrite <- one_event_eq in H.
  rewrite Hc in H. exact (H Hw).
Qed.

Lemma calqueue_put_bag_witness :
  exists s', calqueue_put (tenths 30) 30 new_queue = Ret (tt, s') /\
    contents (cq s') ≡ₚ [{| priority := tenths 30; payload := 30 |}].
Proof.
  destruct (calqueue_put_bag ample_memory (tenths 30) 30 new_queue) as (s' & Hrun & _ & Hc).
  - apply new_queue_steady.
  - by vm_compute.
  - by vm_compute.
  - exists 1. split; [by vm_compute|]. intros H. exfalso. vm_compute in H. discriminate H.
  - exists s'. split; [exact Hrun|]. destruct new_queue_steady as [_ E]. rewrite E in Hc. exact Hc.
Defined.

Lemma calqueue_get_bag_witness :
  exists s', calqueue_get one_event = Ret (Some 30, s') /\ contents (cq s') = [].
Proof.
  destruct one_event_steady as [Hs Hc].
  destruct (calqueue_get_bag ample_memory one_event Hs) as (e & s1 & _ & Hp & [Hn Hq] & Hget).
  - intros E. rewrite E in Hc. apply Permutation_nil_l in Hc. discriminate Hc.
  - rewrite Hc in Hp. pose proof (Permutation_length Hp) as Hlen. cbn in Hlen.
    assert (contents (cq s1) = []) as Hnil by (destruct (contents (cq s1)); [reflexivity|discriminate Hlen]).
    rewrite Hnil in Hp. apply Permutation_singleton_r in Hp. injection Hp as <-.
    destruct Hget as (s' & Hrun & _ & Hc').
    + intros Hsh. exfalso. unfold shrinks in Hsh. rewrite Hn, Hq in Hsh. vm_compute in Hsh. discriminate Hsh.
    + exists s'. split; [exact Hrun|]. rewrite Hnil in Hc'. by apply Permutation_nil_r.
Defined.


Lemma direct_search_least_witness :
  exists i e, direct_search (Z.to_nat (nbuckets (cq one_event))) 0 (-1) LLONG_MAX one_event = Ret (i, one_event) /\
    head_of (cq one_event) i = Some e /\ by_priority e {| priority := tenths 30; payload := 30 |}.
Proof.
  destruct one_event_steady as [Hs Hc].
  destruct (direct_search_least one_event Hs) as (i & e & Hrun & He & Hall).
  - intros E. rewrite E in Hc. apply Permutation_nil_l in Hc. discriminate Hc.
  - exists i, e. split; [exact Hrun|]. split; [exact He|]. apply Hall. rewrite Hc. left.
Defined.

(** ** A fiber *)
Definition junk_msg : msg_t :=
  {| sender := 9; receiver := 9; type := 9; timestamp := S754_nan; msg_channel := 4 |}.
Definition newborn : work ult_storage := {|
  w_sim := {| s_tb := {| tb_rng := {| master_seed := 0; draws := 0 |}; tb_lps := ∅; tb_chans := ∅;
                         tb_sirs := ∅; tb_mallocs := 0 |};
              s_cal := junk_queue; s_events := ∅ |};
  w_fls := storage0; w_queue := None |}.

Lemma newborn_unborn : unborn newborn.
Proof.
  split.
  - split; [by vm_compute|]. cbn. lia.
  - eexists 0, 1, _. split; [vm_compute; reflexivity|]. lia.
  - done.
  - intros a. cbn. rewrite !lookup_empty. by intros [[? [=]]|[? [=]]].
  - done.
Qed.

(** After the first event, and with the second one in hand. *)
Definition one_round : M (work ult_storage) bool :=
  ix <- main_setup junk_msg watched 1 ;; main_round watched 1 ix.1 ix.2.
Definition begun : work ult_storage := state_of one_round newborn.
Definition in_hand : sim := state_of (on_cal (q_get watched)) (w_sim begun).

Lemma begun_eq : begun = state_of one_round newborn.
Proof. reflexivity. Qed.
Lemma in_hand_eq : in_hand = state_of (on_cal (q_get watched)) (w_sim begun).
Proof. reflexivity. Qed.

Lemma begun_running : exists p st l, phone 0 p st l (s_tb (w_sim begun)) /\ events 1 [] (due l) (w_sim begun).
Proof.
  pose proof (watched_laws ample_memory) as QL.
  assert (wpf queue_fault one_round (fun _ w => exists qi si ph, ready watched 0 1 qi si ph w) newborn) as H.
  { eapply wpf_seq; [apply (wpf_main_setup watched junk_msg ample_memory 1 newborn newborn_unborn)|].
    intros [qi si] w [c R]. cbn [fst snd] in *.
    eapply wpf_mono; [apply (wpf_main_round watched ample_memory 0 1 qi si _ w R)|].
    intros d w' (ph & R' & _). by exists qi, si, ph. }
  assert (returns one_round newborn = true) as Hr by (vm_compute; reflexivity).
  destruct (wpf_state_of _ _ _ _ H Hr) as (u & _ & H'). clear H. rewrite <- begun_eq in H'.
  destruct H' as ( qi & si & [c|p st l] & R); pose proof (rd_phase _ _ _ _ _ _ _ R) as Hph.
  - exfalso. destruct Hph as (_ & E & _). pose proof (ev_kinds _ _ _ _ E) as Hk. apply Permutation_singleton_r in Hk.
    assert (kind_of (w_sim begun) <$> pending (w_sim begun) = [Some (START_CALL, -1)]) as Hk2
      by (vm_compute; reflexivity).
    rewrite Hk2 in Hk. discriminate Hk.
  - exists p, st, l. exact Hph.
Qed.

Lemma in_hand_ok :
  exists a m p st l ks, phone 0 p st l (s_tb in_hand) /\ events (receiver m) [a] ks in_hand /\
    s_events in_hand !! a = Some m /\ nonneg (timestamp m) = true /\ kind m :: ks ≡ₚ due l.
Proof.
  destruct begun_running as (p & st & l & Ph & E). pose proof (watched_laws ample_memory) as QL.
  assert (wpf queue_fault (on_cal (q_get watched)) (fun _ s => exists a m ks, phone 0 p st l (s_tb s) /\
    events (receiver m) [a] ks s /\ s_events s !! a = Some m /\ nonneg (timestamp m) = true /\
    kind m :: ks ≡ₚ due l) (w_sim begun)) as H.
  { eapply (wpf_next_event watched 1 (due l)); [exact E|done|].
    intros a m ks s' E' Ha Hid Hnow Hk (q & _ & Et & Hn). exists a, m, ks.
    split; [rewrite Et; by apply phone_mallocs|]. split; [by rewrite Hid|]. split; [done|]. split; [|done].
    apply Hnow. intros Ht. assert (kind m ∈ due l) as Hin by (rewrite <- Hk; left). unfold kind in Hin.
    rewrite Ht in Hin. apply elem_of_cons in Hin as [Hin|(x & Hin & _)%list_elem_of_fmap]; discriminate Hin. }
  assert (returns (on_cal (q_get watched)) (w_sim begun) = true) as Hr by (vm_compute; reflexivity).
  destruct (wpf_state_of _ _ _ _ H Hr) as (u & _ & H'). clear H.
  rewrite <- in_hand_eq in H'.
  destruct H' as ( a & m & ks & H). exists a, m, p, st, l, ks. exact H.
Qed.


(** Twenty rounds go by. *)
Lemma main_work_runs_witness :
  main_work junk_msg watched 20 1 newborn = Fault OutOfFuel /\
  match main_work junk_msg watched 20 1 newborn with
  | Ret (_, w') => main_work junk_msg calendar_queue 20 1 newborn = Ret (tt, w')
  | Fault f => queue_fault f \/ f = OutOfFuel
  end.
Proof.
  split; [vm_compute; reflexivity|].
  pose proof (main_work_runs ample_memory junk_msg 1 20 newborn sim_log newborn_unborn) as H.
  destruct (main_work junk_msg watched 20 1 newborn) as [[u w']|f]; [apply H|exact H].
Defined.
