(* ===== verification/ModuleWitness.v ===== *)
(** * Witnesses for the work of a fiber on the kernel module

    Thread 11 of Scenario.v, which runs fiber 0 with two indices allocated,
    does the work of a testbed fiber; and the same thread when every index of
    its fiber is taken. *)
From Stdlib Require Import SpecFloat.
From S2P Require Import Prelude Doubles Numerical Channel Cell CalQueue CalBag CalOps Model Promise Simulation Ult Main MainLoop SimWitness KState Fiber Device FiberSpec FiberRefine FiberInv View Requests Switching LocalStorage FiberLib System Scenario Witness ServiceWitness LibFls.
Import Demo.
#[local] Existing Instances sim_libc sim_log sim_junk sim_words.
Local Open Scope prog_scope.

Abbreviation RK := (RefKernel.api never false).
#[local] Existing Instance lib_fls.

Definition hired (p : process RK) : work (process RK) := {|
  w_sim := w_sim SimWitness.newborn; w_fls := p; w_queue := None;
|}.

Lemma hired_employed : employed 0 (fiber_no 0) (hired program).
Proof.
  split.
  - exact program_ready.
  - exact program_running.
  - exists 2, 3. split; [lia|]. split; [unfold FLS_MAX_SIZE; lia|]. split; computed.
  - reflexivity.
  - intros a. cbn. rewrite !lookup_empty. by intros [[? [=]]|[? [=]]].
  - cbn. lia.
Qed.

Definition out_of_fuel {A} (r : outcome A) : bool := match r with Fault OutOfFuel => true | _ => false end.


(** The storage after 4096 allocations. *)
Definition taken : fls_t RK := fls_effs (replicate 4096 LocalStorage.FlsAlloc) (fls (fiber_no 0)).

Lemma all_taken j : 0 <= j < FLS_MAX_SIZE -> allocated taken j = true.
Proof.
  intros Hj. apply (fls_allocs_take 4096 (fls (fiber_no 0)) 0); [lia|intros; lia|].
  unfold FLS_MAX_SIZE in *. lia.
Qed.

Lemma taken_process :
  exists p, FiberLib.ready p /\ FiberLib.running p 0 (set_fls taken (fiber_no 0)).
Proof.
  destruct (run_fls_all (replicate 4096 LocalStorage.FlsAlloc) (ker program) 0 (fiber_no 0))
    as (s' & _ & Hs & [Hc Hu] & Hf & _ & Ht & _).
  - apply program_ready.
  - apply program_running.
  - apply program_running.
  - exists {| ker := s'; fd := fd program |}. split; [by apply ready_kernel; [apply program_ready|..]|].
    split; cbn [ker].
    + unfold caller. rewrite Hc, Ht. apply program_running.
    + rewrite Hc. exact Hf.
Qed.

Lemma module_no_index_unnoticed_witness :
  exists p, FiberLib.ready p /\
    main_work junk_msg watched 3 1 (hired p) = Fault (BadPointer (- ESRCH)).
Proof.
  destruct taken_process as (p & R & Hrun). exists p. split; [exact R|].
  apply (module_no_index_unnoticed junk_msg watched 1 3 0 (set_fls taken (fiber_no 0))).
  - exact ample_memory.
  - exact R.
  - exact Hrun.
  - exact all_taken.
  - cbn. lia.
Defined.
