(* ===== verification/UltWitness.v ===== *)
(** * Runs of user-level threads

    Concrete runs of UltSwitch.v at which the theorems of UltSafety.v are
    instantiated, and runs that leave their hypotheses: a zero RAX, an alarm
    inside a switch.  Also a run of Jmp.v. *)
From S2P Require Import Prelude Jmp UltSwitch UltInv UltSteps UltSafety.

(** ** Two threads *)
Definition idle_thread (u : nat) : thread nat :=
  {| current := None; context_creat := None; context_creat_func := None; at_ := User u; result := None |}.
Definition two_threads : system nat :=
  {| threads := {[ 1 := idle_thread 10; 2 := idle_thread 20 ]};
     mem := {| ults := ∅; ult_id := 0; next_block := 1; handles := ∅ |} |}.

Lemma two_newborn : newborn two_threads.
Proof.
  split; [|done]. intros p t. unfold two_threads. cbn [threads].
  rewrite lookup_insert. case_decide; [intros [= <-]; split; [done|by eexists]|].
  rewrite lookup_singleton. case_decide; [intros [= <-]; split; [done|by eexists]|done].
Qed.

Definition nonzero (rax : Z) : bool := negb (i32 rax =? 0).
Definition nowhere (k : pc nat) : bool := false.

(** [n] steps of thread [p] inside a call. *)
Definition steps (p : Z) (rax : Z) (n : nat) : list (Z * event nat) := replicate n (p, EStep rax).

(** Both threads become fibers, the first creates a third one. *)
Definition prologue : list (Z * event nat) :=
  (1, EConvert) :: steps 1 1 4 ++ (2, EConvert) :: steps 2 1 4 ++ (1, ECreate 30%nat) :: steps 1 1 10.

Definition run_of (raxb : Z -> bool) (alarmb : pc nat -> bool) (es : list (Z * event nat)) : system nat :=
  default two_threads (performs raxb alarmb es two_threads).

Definition created : system nat := run_of nonzero nowhere prologue.

Lemma reachable_run raxb alarmb es :
  (if performs raxb alarmb es two_threads is Some _ then true else false) = true ->
  reachable (fun r => raxb r = true) (fun k => alarmb k = true) (run_of raxb alarmb es).
Proof.
  unfold run_of. destruct (performs raxb alarmb es two_threads) as [c|] eqn:Hc; [|done]. intros _. cbn. eapply performs_reachable; [|exact Hc].
  apply r_start, two_newborn.
Qed.

Lemma nonzero_ok rax : nonzero rax = true -> i32 rax <> 0.
Proof. unfold nonzero. by intros ?%negb_true_iff%Z.eqb_neq. Qed.
Lemma nowhere_ok k : nowhere k = true -> user k.
Proof. done. Qed.

Lemma created_reachable : reachable (fun r => nonzero r = true) (fun k => nowhere k = true) created.
Proof. apply reachable_run. vm_compute. reflexivity. Qed.

(** ** What the assumptions are for *)

(** Fiber 1 leaves with RAX zero; the second thread, switching to it, repeats
    its switch to fiber 3, which the first thread runs. *)
Definition zero_run : list (Z * event nat) :=
  prologue ++ (1, ESwitch (Some 3%positive)) :: steps 1 0 5 ++
  (1, ECode 31%nat) :: (2, ESwitch (Some 1%positive)) :: steps 2 1 7.

(** SIGALRM hits the first thread after [current = to]; its handler switches. *)
Definition alarm_run : list (Z * event nat) :=
  prologue ++ (1, ECreate 40%nat) :: steps 1 1 10 ++
  (1, ESwitch (Some 3%positive)) :: steps 1 1 2 ++ (1, ESwitch (Some 4%positive)) :: steps 1 1 5.

Definition everywhere (k : pc nat) : bool := true.
Definition any (rax : Z) : bool := true.

(** C28: without the assumptions the guarantees fail.  If RAX is 0 when a fiber
    leaves, resuming it makes its call of set_jmp return 0 again: two threads
    run the code of fiber 3, one of them on an old copy of its registers, and
    fiber 1 is marked free.  If SIGALRM is delivered inside a switch, the
    handler overwrites the context of the fiber that was being switched to:
    its code is lost, and the fiber being left stays marked running although
    both threads run others. *)
Theorem ult_hazards :
  (exists c t1 t2 x1, reachable (fun r => any r = true) (fun k => nowhere k = true) c /\
     threads c !! 1 = Some t1 /\ current t1 = Some 3%positive /\ at_ t1 = User 31%nat /\
     threads c !! 2 = Some t2 /\ current t2 = Some 1%positive /\ at_ t2 = User 30%nat /\
     ults (UltSwitch.mem c) !! 1%positive = Some x1 /\ running x1 = false) /\
  (exists c t1 t2 x1 x3, reachable (fun r => nonzero r = true) (fun k => everywhere k = true) c /\
     threads c !! 1 = Some t1 /\ current t1 = Some 4%positive /\ at_ t1 = User 40%nat /\
     threads c !! 2 = Some t2 /\ current t2 = Some 2%positive /\ at_ t2 = User 20%nat /\
     ults (UltSwitch.mem c) !! 1%positive = Some x1 /\ running x1 = true /\
     ults (UltSwitch.mem c) !! 3%positive = Some x3 /\ running x3 = false /\ saved_code x3 = None).
Proof.
  split.
  - exists (run_of any nowhere zero_run). do 3 eexists.
    split; [apply reachable_run; vm_compute; reflexivity|].
    repeat (split; [vm_compute; reflexivity|]). vm_compute. reflexivity.
  - exists (run_of nonzero everywhere alarm_run). do 4 eexists.
    split; [apply reachable_run; vm_compute; reflexivity|].
    repeat (split; [vm_compute; reflexivity|]). vm_compute. reflexivity.
Qed.

(** ** Witnesses *)
Definition thread_of (p : Z) (c : system nat) : thread nat := default (idle_thread 0) (threads c !! p).

Lemma created_thread : threads created !! 1 = Some (thread_of 1 created).
Proof. vm_compute. reflexivity. Qed.
Lemma created_code : code (thread_of 1 created) = [(1%positive, 10%nat)].
Proof. vm_compute. reflexivity. Qed.
Lemma created_user : at_ (thread_of 1 created) = User 10%nat.
Proof. vm_compute. reflexivity. Qed.


Definition worked : system nat := on 1 (goto (User 11%nat) (thread_of 1 created)) created.

Lemma created_continuation : continuation created 1%positive 10%nat.
Proof. left. exists 1, (thread_of 1 created). rewrite created_code. split; [exact created_thread|apply list_elem_of_here]. Qed.

Lemma worked_step : step (fun r => nonzero r = true) (fun k => nowhere k = true) created 1 worked.
Proof. apply (s_code _ _ created 1 (thread_of 1 created) 10%nat); [exact created_thread|exact created_user]. Qed.


Lemma created_handle : 3%positive ∈ handles (UltSwitch.mem created).
Proof. apply (bool_decide_unpack _). vm_compute. exact I. Qed.

Lemma ult_continuation_unique_witness : exists u, continuation created 3%positive u.
Proof.
  exact (proj1 (ult_continuation_unique _ _ nonzero_ok nowhere_ok created 3%positive created_reachable created_handle)).
Defined.

(** The first thread, about to switch to the new fiber. *)
Definition leaving : thread nat := goto (SwTry (User 10%nat) (Some 1%positive) (Some 3%positive)) (thread_of 1 created).

Lemma ult_switch_alone_witness :
  exists t s, solo 1 5 leaving (UltSwitch.mem created) = Some (t, s) /\ current t = Some 3%positive /\ at_ t = User 30%nat.
Proof.
  do 2 eexists. split.
  - exact (ult_switch_alone 1 10%nat leaving (UltSwitch.mem created) 1%positive
      {| running := true; context := Some (AtCreate (User 10%nat) 3, 1); id := 0 |} (Some 3%positive)
      eq_refl eq_refl eq_refl eq_refl {| running := false; context := Some (AtBoot 30%nat, 1); id := 2 |} eq_refl 30%nat eq_refl).
  - split; reflexivity.
Defined.

Definition creating : thread nat := goto (CrAlloc (User 10%nat) 40%nat) (thread_of 1 created).

Lemma ult_creat_alone_witness :
  exists t s x, solo 1 10 creating (UltSwitch.mem created) = Some (t, s) /\ current t = Some 1%positive /\
    ults s !! 4%positive = Some x /\ saved_code x = Some 40%nat.
Proof.
  do 3 eexists. split.
  - exact (ult_creat_alone 1 10%nat 40%nat creating (UltSwitch.mem created) 1%positive
      {| running := true; context := Some (AtCreate (User 10%nat) 3, 1); id := 0 |}
      eq_refl eq_refl eq_refl eq_refl eq_refl ltac:(by vm_compute)).
  - split; [reflexivity|]. split; reflexivity.
Defined.

Lemma get_ult_stack_bounds_witness :
  get_ult_stack 4096 8192 false 0 8193 tt = Fault (OutOfBounds 8192).
Proof. rewrite (get_ult_stack_bounds 8192 0 8193 ltac:(lia) ltac:(lia)). reflexivity. Defined.

(** ** A CPU *)
#[local] Instance plain_cpu : Undefined := {| xor_AF _ := false |}.

Definition zero_flags : rflags := {| CF := true; PF := false; AF := true; ZF := false; SF := true; OF := true |}.

(** A stack ending at 8192, a context at 4096. *)
Definition some_cpu : cpu :=
  {| gpr r := if Nat.eqb (reg_no r) (reg_no RSP) then 8192 else Z.of_nat (reg_no r) + 100;
     eflags := zero_flags; fx := seqZ 7 64; rip := 0;
     mapped a := (4096 <=? a) && (a <? 8192); Jmp.mem _ := 0 |}.

Lemma some_env : env_ok 4096 some_cpu.
Proof.
  split; [reflexivity|lia|]. intros k Hk. cbn [mapped some_cpu].
  apply andb_true_intro. split; [apply Z.leb_le|apply Z.ltb_lt]; lia.
Qed.

Lemma some_stack : stack_ok (gpr some_cpu RSP) 5 some_cpu.
Proof.
  split; [reflexivity|cbn; lia|]. intros k Hk. cbn [mapped some_cpu gpr].
   cbn [reg_no Nat.eqb]. apply andb_true_intro. split; [apply Z.leb_le|apply Z.ltb_lt]; lia.
Qed.

Lemma some_apart : apart (gpr some_cpu RSP) 5 4096.
Proof. right. cbn. lia. Qed.

Lemma jmp_roundtrip_witness : exists s1, Jmp.set_jmp 4096 77 some_cpu = Ret (0, s1).
Proof.
  destruct (jmp_roundtrip 4096 77 some_cpu some_env some_stack some_apart eq_refl) as (s1 & H & _).
  by exists s1.
Defined.

(** The jump itself: RAX comes back as the value passed, the rest as saved. *)
Example jump_computed :
  match (Jmp.set_jmp 4096 77 ;;; modify (with_gpr RBX 5) ;;; modify (with_flags (add_flags 64 0 0)) ;;;
         Jmp.long_jmp 4096 9 66)%prog some_cpu with
  | Ret (_, s) =>
      rip s = 77 /\ gpr s RAX = 9 /\ gpr s RSP = 8184 /\
      [gpr s RBX; gpr s RDX; gpr s RDI; gpr s R11; gpr s R15] = [103; 101; 107; 111; 115] /\
      eflags s = zero_flags /\ fx s = seqZ 7 64
  | Fault _ => False
  end.
Proof. vm_compute. repeat split. Qed.
