(* ===== verification/ProgramWitness.v ===== *)
(** * A run of the driver program

    Two fibers on two threads, from the start to the end of the program, at
    which the theorems of ProgramSafety.v are instantiated. *)
From S2P Require Import Prelude UltSwitch UltInv UltSteps MainDriver Program ProgramInv ProgramSafety ProgramLive.

Definition ult_steps (p : Z) (n : nat) : list pevent := replicate n (PUlt p 1).
Definition code_steps (p f millis : Z) (n : nat) : list pevent := replicate n (PCode p f millis).

(** main: the conversion, the second fiber, the alarm, [init_complete]. *)
Definition main_setup : list pevent :=
  PCode 0 0 0 :: ult_steps 0 4 ++ code_steps 0 0 0 2 ++ ult_steps 0 10 ++ code_steps 0 0 0 4.
(** The helper thread: its conversion, and the switch to the second fiber. *)
Definition helper_leaves : list pevent :=
  PCode 1 0 0 :: ult_steps 1 4 ++ code_steps 1 1 0 2 ++ ult_steps 1 5.
(** The second fiber works and counts itself out. *)
Definition second_works : list pevent := code_steps 1 0 5 3.
(** SIGALRM hits both, and they try to switch to each other. *)
Definition alarms : list pevent := PSignal 0 1 :: PSignal 1 0 :: ult_steps 0 1 ++ ult_steps 1 1.
(** The first works and ends the program. *)
Definition first_ends : list pevent := code_steps 0 0 7 4.

Definition after_events (es : list pevent) : program :=
  default (program_start 2 1) (pperforms 2 es (program_start 2 1)).

Definition nonzero_rax (rax : Z) : Prop := i32 rax <> 0.
Lemma nonzero_rax_ok rax : nonzero_rax rax -> i32 rax <> 0.
Proof. done. Qed.
Lemma two_fibers : 1 <= 2 < 2 ^ 32.
Proof. lia. Qed.

Lemma events_reachable es :
  (if pperforms 2 es (program_start 2 1) is Some _ then true else false) = true ->
  preachable 2 nonzero_rax 1 (after_events es).
Proof.
  unfold after_events. destruct (pperforms 2 es (program_start 2 1)) as [s|] eqn:E; [|done]. intros _. cbn.
  by apply (pperforms_reachable 2 1 es (program_start 2 1) s (p_start 2 nonzero_rax 1)).
Qed.

(** The helper has left its fiber; the end. *)
Definition left_behind : program := after_events (main_setup ++ helper_leaves).
Definition finished : program := after_events (main_setup ++ helper_leaves ++ second_works ++ alarms ++ first_ends).

Lemma left_behind_reachable : preachable 2 nonzero_rax 1 left_behind.
Proof. apply events_reachable. vm_compute. reflexivity. Qed.
Lemma finished_reachable : preachable 2 nonzero_rax 1 finished.
Proof. apply events_reachable. vm_compute. reflexivity. Qed.

Lemma finished_ended : ended (globs finished) = Some 12.
Proof. vm_compute. reflexivity. Qed.


Lemma left_behind_armed : armed left_behind = true.
Proof. vm_compute. reflexivity. Qed.



(** The fiber the helper left, and a step of the second fiber's work. *)
Definition nobody_claims (i : positive) (c : system place) : bool :=
  bool_decide (map_Forall (fun _ t => i ∉ claims t) (threads c)).

Definition left_record : ult_t place :=
  default {| running := true; context := None; id := 0 |} (ults (mem (sys left_behind)) !! 3%positive).

Lemma left_behind_abandoned : abandoned left_behind 3%positive.
Proof.
  split; [exact left_behind_armed|].
  assert (unclaimed (sys left_behind) 3%positive) as Hn.
  { assert (nobody_claims 3 (sys left_behind) = true) as H%bool_decide_eq_true by (vm_compute; reflexivity). exact H. }
  split; [|exact Hn]. right. split.
  - intros p t Ht Hc. apply (Hn p t Ht).
    destruct (pinv_reachable 2 nonzero_rax two_fibers nonzero_rax_ok 1 left_behind left_behind_reachable) as (m & C & _).
    apply code_claims with (2 := Hc) (1 := ui_pc _ (co_uinv 2 nonzero_rax nonzero_rax_ok left_behind m C) p t Ht).
  - exists left_record. split; vm_compute; reflexivity.
Qed.

Lemma after_left_behind : pstep 2 nonzero_rax left_behind (after_events (main_setup ++ helper_leaves ++ [PSignal 1 0])).
Proof.
  apply (p_signal 2 nonzero_rax 1 0); [vm_compute; reflexivity|lia|vm_compute; reflexivity].
Qed.

Lemma helper_abandoned_witness :
  abandoned (after_events (main_setup ++ helper_leaves ++ [PSignal 1 0])) 3%positive.
Proof.
  exact (helper_abandoned 2 nonzero_rax 1 two_fibers nonzero_rax_ok left_behind _ 3%positive
    left_behind_reachable after_left_behind left_behind_abandoned).
Defined.

Lemma left_behind_running : ended (globs left_behind) = None.
Proof. vm_compute. reflexivity. Qed.

